(* ===== verification/_CoqProject ===== *)
-Q . S2P
Prelude.v
ByteStream.v
WrappingIntegers.v
StreamReassembler.v
ReassemblerList.v
Reassembly.v
Parser.v
Checksum.v
TCPSegment.v
TCPReceiver.v
TCPSender.v
Transmission.v
TCPConnection.v
TCPState.v
SegmentBounds.v
EndToEnd.v
Hosts.v
Wire.v
IPv4.v
Ethernet.v
RandomGenerator.v
Adapters.v
Address.v
Printers.v
NetworkInterface.v
Robustness.v
Benchmark.v
Completion.v
Exchange.v
BenchmarkEnds.v
Recovery.v
CommandLine.v
UdpDump.v
System.v
SimKernel.v
Capture.v
FileDescriptor.v
Socket.v
EventLoop.v
StreamCopy.v
Webget.v
TunShow.v
Bouncer.v
Native.v
NetworkSimulator.v
SpongeSocket.v
SocketRefinement.v
Sockets.v
SocketRun.v
Programs.v
Lab7.v
