(* ===== verification/Prelude.v ===== *)
(** * Sponge: a verification library for the CS144 TCP/IP stack

    The program ([src/libsponge]) is a user-space TCP implementation.  An
    application writes into and reads from a [TCPConnection], which is made of a
    [TCPSender] (outbound [ByteStream] to segments) and a [TCPReceiver] (segments
    to inbound [ByteStream], through a [StreamReassembler]).  Sequence numbers are
    32-bit offsets from an initial one and are translated by [wrap] and [unwrap].
    The segments a connection queues are handed by the owner to an adapter, which
    serializes them, directly in UDP payloads or in IPv4 datagrams (and those in
    Ethernet frames), and drops at random when it is a lossy one.  A
    [TCPSpongeSocket] runs a connection in a thread: an [EventLoop] over [poll]
    moves bytes between the application's end of a socket pair and the connection,
    and segments between the connection and the adapter's device.  The programs of
    [src/apps] use these parts.

    ** Files

    The definitions are the methods of the classes, under the names of the code
    where that is possible, in the state of the code (a record per class).

    - [Prelude]: the result type of code that can throw, fixed-width integers
      ([u64], [u32], [u16], [u8] write out the wrap-around), byte strings indexed by
      [Z], [std::string::substr]; lemmas, tactics and hints shared by the rest.
    - [ByteStream]: [byte_stream.hh/.cc]; the refinement of an abstract bounded queue.
    - [WrappingIntegers]: [wrapping_integers.hh/.cc].
    - [StreamReassembler]: [stream_reassembler.hh/.cc], the definitions;
      [ReassemblerList]: the linked list of out-of-order blocks and
      [insert_to_linklist]; [Reassembly]: [push_substring] and whole executions.
    - [Parser]: [util/buffer.hh/.cc] and [util/parser.hh/.cc], with a parser monad;
      [Checksum]: [InternetChecksum] of [util/util.hh/.cc]; [RandomGenerator]:
      [get_random_generator] of the same file, with the engine of the C++ library.
    - [TCPSegment]: [tcp_helpers/tcp_header], [tcp_segment], [tcp_config.hh].
    - [TCPReceiver]: [tcp_receiver.hh/.cc], definitions and correctness.
    - [TCPSender]: [tcp_sender.hh/.cc] with its retransmission timer, the
      definitions; [Transmission]: its invariant, operations and executions.
    - [TCPConnection]: [tcp_connection.hh/.cc]; [TCPState]: [tcp_helpers/tcp_state];
      [SegmentBounds]: the segments a connection emits fit on the wire.
    - [EndToEnd]: two connections and an unreliable network, as a step relation;
      [Hosts]: what the programs around a connection use of it.
    - [Wire]: the interface of a packet format (a class with its round-trip law);
      [IPv4]: [tcp_helpers/ipv4_header], [ipv4_datagram]; [Ethernet]:
      [ethernet_header], [ethernet_frame], [arp_message].
    - [Adapters]: [tcp_over_ip], [fd_adapter], the TUN adapter of [tuntap_adapter.hh]
      and [lossy_fd_adapter.hh], over an interface ([AddressOps]) for addresses, which
      [Address] ([util/address.hh/.cc]) discharges.
    - [NetworkInterface]: [network_interface], [router] and the Ethernet adapter of
      [tuntap_adapter], as written: the interface's methods and the routing decision are
      placeholders in this repository, the loops around them are not.
    - [Robustness]: the parsers and the adapters' reads on arbitrary bytes.
    - [System]: the monad of code with state and exceptions, the system calls, what the
      manual pages promise of them ([posix]) and [SystemCall] of [util.cc]; the kernel
      is a parameter (classes [Kernel] and [PosixKernel]), every call is recorded in a
      history.  [SimKernel]: a kernel to run the code on.
    - [FileDescriptor], [Socket], [EventLoop]: the classes of the same names in [util/],
      with [tun]; descriptors are shared through a heap, as the [shared_ptr]s are.
    - [SpongeSocket]: [tcp_helpers/tcp_sponge_socket] and the adapters with their system
      calls, behind the interface [DatagramAdapter].  [SocketRefinement]: a turn of the
      socket's loop is a sequence of steps of a host of [EndToEnd]; [Sockets]: two
      sockets and the network between them; [SocketRun]: a run of two sockets over TUN
      devices, evaluated.
    - [Printers]: [to_string] and [summary] of the headers and [hexdump], on a model of
      the formatting of an [ostream].
    - Programs of [src/apps]: [StreamCopy] ([bidirectional_stream_copy]), [Benchmark]
      ([tcp_benchmark]), [CommandLine] (the options of [tcp_ipv4], [tcp_udp] and
      [tcp_ip_ethernet]), [Webget] ([get_URL]), [Programs] ([main] of these four),
      [UdpDump] and [Capture] ([udp_tcpdump]), [TunShow] ([tun]), [Bouncer] ([bouncer]), [Native]
      ([tcp_native]), [NetworkSimulator] ([network_simulator]) and [Lab7] ([lab7]).
    - [Completion], [Exchange] and [BenchmarkEnds]: progress.  What one end of the
      benchmark does while everything arrives; a turn, in which the queued segments are
      delivered in order or reversed, one way and the other; the number of turns.
      [Recovery]: from any state of an exchange it can still be completed.

    ** What the theorems show

    - End to end (C1, C2): over a network that loses, repeats, delays and reorders, each
      application reads a prefix of what the other wrote and sees the end only after all
      of it; no call throws, dereferences a null pointer or loops; no acknowledgment is
      of something not sent; no segment overruns the receiver's window by more than the
      byte of a zero-window probe.
    - Progress (C3, C9).  No state of such an exchange is a dead end: if the network
      delivers what it has been given, be it again, both streams can be completed.  (It
      may have to repeat one: [stale_ack_stalls] is a state in which every segment has
      been delivered, no timer runs, and data waits.  It takes two acknowledgments that
      change places: [ordered_acks_keep_moving].)  The benchmark's two connections
      always make progress.  The acknowledgment number of the writer grows with every
      turn until it covers the FIN, then the queues run empty and after ten timeouts both connections are inactive; so
      the program ends, for every input, within a number of turns given by its size.
    - The socket (C4, C6, C7): two sockets refine two hosts of [EndToEnd], so what the
      owners of the sockets get is what the other owners write; a turn of the loop ends
      normally unless a system call fails.  The loop and the descriptors under it (C27 to
      C29): the event loop as a rule of inference, writing everything ends, reading is
      bounded.
    - Programs (C5, C8, C37 to C40): what one program prints is a beginning of what the
      other one reads from its input; stream copying, packet capture, command lines,
      fetching a page, relaying datagrams.  Also [native_copies], [programs_status],
      [benchmark_exits], [random_generator_never_stuck].
    - Inbound (C10 to C16): the reassembler and the receiver reproduce the stream from
      excerpts in any order (C10 and C15 with the byte that probes a closed window
      among them); in executions whose excerpts end inside the window, what one push
      adds, that nothing is left behind, and that the first missing byte is the one
      acknowledged; the byte stream answers every sequence of calls as a bounded FIFO
      queue does (a module [Fifo] in [ByteStream]).
    - Outbound (C17 to C21): segments carry the stream, fill the window and no more,
      are retransmitted with exponential backoff, and leave the queue when
      acknowledged.
    - The connection (C22 to C26, C30): handshake, replies to the segments without
      RST, stamping, clean close, reset by the RST segments a receiver should accept,
      and the bounds of what is emitted.
    - Sequence numbers, packet formats, checksums and adapters (C31 to C36): round
      trips, filtering, and that no bytes from the network make the stack throw.

    Executable counterexamples ([Example]) next to the theorems record where the
    code does less than it means to: [fetch_partial_write_duplicates],
    [insert_overlap_drops_byte], [insert_forgets_eof], [assignment_assigns_nothing],
    [as_string_unsupported],
    [segment_parse_accepts_short_doff], [datagram_accepts_bad_headers],
    [frame_accepts_short], [impossible_ack_opens_window], [window_truncated],
    [dump_reads_past_short_header], [dump_reads_past_cut_packet],
    [dump_shows_default_header], [loss_option_prefix],
    [get_URL_shuts_down_closed_socket], [capture_error_uses_closed_handle];
    in the state of a probed closed window, [probe_byte_exceeds_capacity] and
    [ackno_of_stored_probe]; and where comments, usage texts or tests say otherwise,
    [written_bytes_stay_stored], [write_after_end_input], [unacceptable_rst_obeyed],
    [inactive_connection_answers], [usage_differs], [dump_skips_other_extensions].
    Others are theorems: [stale_ack_stalls] (an old acknowledgment moves the window
    back, and the sender can stop for ever), [hexdump_layout] (the fill
    character of the stream is not restored), [simulation_fails] and
    [lab7_network_silent] (with the placeholders of the interface and the router, no
    frame is ever forwarded).

    ** Bounds and fuel

    Loops that are not structural take fuel and throw [OutOfFuel] when it runs out;
    the theorems show it does not.  The search and the recursion of
    [insert_to_linklist] move along the list (its length, plus the heads they may
    add); [fetch_valid_data] removes a node per turn; [fill_window] uses at least one
    sequence number of the window per turn; [InternetChecksum::value] folds a 32-bit
    sum at most twice (fuel 3); [FileDescriptor::write] takes at least a byte per turn;
    the loops over arguments and extension headers advance.  The loops of the socket,
    of the stream copy, of the benchmark, of [get_URL] and of the other programs run until
    the world lets them end: they take a number of turns for which they are watched, and
    the theorems hold for every number; the benchmark, which talks to itself, is shown to
    end when each loop is given 17 turns more than the string has bytes.  [bouncer] is
    proved for any number of pairs of ports; the program has [PAIRS] of them.
    A stream is shorter than 2^64 bytes in the theorems of the
    reassembler and the receiver, 2^63 in those of the sender, and than 2147400000 bytes
    end to end: the network may deliver a segment at any later time, and older than 2^31
    sequence numbers it could be misread.  A receiver's capacity is at least 1 and below
    2^31 - 1, so that a window does not wrap.

    ** Not modelled

    The kernel is a parameter, as are the C library's resolver ([Resolver]), the random
    device and the conversion of a loss rate through [float].  A socket's thread is the
    function it runs: the interleaving with its owner is what the kernel answers.
    A kernel is taken to answer as the manual pages say ([posix]): in particular a
    [writev] of a non-empty buffer fails or takes something, so that the exception of
    [FileDescriptor::write] for the other case is modelled ([write_zero_throws]) but does
    not occur in the theorems.  Offsets that the code keeps in an [int] in [udp_tcpdump]
    are unbounded: captures are of at most 65535 bytes.
    What is written to [cerr] and the usage texts are left out.  Where a program has
    several threads, the others are what they do until they are joined.  The capture
    library of [udp_tcpdump] is a parameter ([Pcap]).  Progress is not shown for a network
    that delivers each segment at most once, which [stale_ack_stalls] refutes. *)

From Stdlib Require Import ZArith Lia.
From stdpp Require Export base list numbers sets.
From Stdlib Require Export Strings.Byte.
From Stdlib Require Strings.String.

(** ** Notation scope of the development *)

Declare Scope sponge_scope.
Delimit Scope sponge_scope with sponge.
Global Open Scope sponge_scope.
Global Open Scope Z_scope.

(** [lia] reasons about [mod] and [/] by constants, which is what the
    fixed-width arithmetic below unfolds to. *)
Ltac Zify.zify_post_hook ::= Z.div_mod_to_equations.

(** ** Exceptions

    A C++ function that can throw returns a [result].  [OutOfRange],
    [RuntimeError], [InvalidArgument] and [LengthError] are [std::out_of_range],
    [std::runtime_error], [std::invalid_argument] and [std::length_error]; [SystemError] is a
    [tagged_error] of [util.hh] (what was attempted, and the error code);
    [NullDereference] marks a dereference of a null pointer, [OutOfBounds] a read
    past the end of an array (both undefined behaviour) and [OutOfFuel] a loop
    cut by its fuel: the theorems show where they are never produced. *)
Inductive exn : Type :=
| OutOfRange
| RuntimeError (what : String.string)
| InvalidArgument
| LengthError
| SystemError (attempt : String.string) (code : Z)
| NullDereference
| OutOfBounds
| OutOfFuel.

Inductive result (A : Type) : Type :=
| Ok (a : A)
| Throw (e : exn).
Arguments Ok {A} a.
Arguments Throw {A} e.

Definition rbind {A B : Type} (m : result A) (k : A -> result B) : result B :=
  match m with
  | Ok a => k a
  | Throw e => Throw e
  end.

Notation "'let!' x ':=' m 'in' k" := (rbind m (fun x => k))
  (at level 10, x pattern, m at level 100, k at level 200)
  : sponge_scope.

Lemma rbind_ok_inv {A B} (m : result A) (k : A -> result B) b :
  rbind m k = Ok b -> exists a, m = Ok a /\ k a = Ok b.
Proof. destruct m; simpl; [eauto | discriminate]. Qed.

(** ** Fixed-width unsigned integers

    [uint8_t] ... [uint64_t] are [Z] reduced modulo the width; [size_t] is
    64 bits wide.  [s32] is the conversion to [int32_t]. *)
Definition u8 (z : Z) : Z := z mod 256.
Definition u16 (z : Z) : Z := z mod 65536.
Definition u32 (z : Z) : Z := z mod 4294967296.
Definition u64 (z : Z) : Z := z mod 18446744073709551616.
Definition s32 (z : Z) : Z := (z + 2147483648) mod 4294967296 - 2147483648.

(** The widths, as the ranges the fields of the records are kept in. *)
Definition is_u8 (z : Z) : Prop := 0 <= z < 256.
Definition is_u16 (z : Z) : Prop := 0 <= z < 65536.
Definition is_u32 (z : Z) : Prop := 0 <= z < 4294967296.
Definition is_u64 (z : Z) : Prop := 0 <= z < 18446744073709551616.

Ltac unfold_ints := unfold is_u8, is_u16, is_u32, is_u64, u8, u16, u32, u64, s32 in *.

(** [ints] decides goals of linear arithmetic over the fixed-width types. *)
Ltac ints := unfold_ints; lia.

Lemma u64_small z : is_u64 z -> u64 z = z.
Proof. ints. Qed.

Lemma u32_small z : is_u32 z -> u32 z = z.
Proof. ints. Qed.

Lemma u16_small z : is_u16 z -> u16 z = z.
Proof. ints. Qed.

Lemma u8_small z : is_u8 z -> u8 z = z.
Proof. ints. Qed.

Lemma u64_range z : is_u64 (u64 z).
Proof. ints. Qed.

Lemma u32_range z : is_u32 (u32 z).
Proof. ints. Qed.

Lemma u16_range z : is_u16 (u16 z).
Proof. ints. Qed.

Lemma u8_range z : is_u8 (u8 z).
Proof. ints. Qed.

Lemma u32_u64 z : u32 (u64 z) = u32 z.
Proof. ints. Qed.

Create HintDb ints discriminated.
#[export] Hint Resolve u64_range u32_range u16_range u8_range : ints.

(** [rw64] removes the [u64] wrap-arounds that [lia] shows to be exact. *)
Ltac rw64 :=
  repeat match goal with
  | |- context [u64 ?z] => rewrite (u64_small z) by (unfold is_u64 in *; lia)
  end.
Tactic Notation "rw64" "in" hyp(H) :=
  repeat match type of H with
  | context [u64 ?z] => rewrite (u64_small z) in H by (unfold is_u64 in *; lia)
  end.

(** [cases] splits on the boolean comparisons of the goal, leaving the facts
    they decide as hypotheses. *)
Ltac case_cmp :=
  match goal with
  | |- context [?a <? ?b] => destruct (Z.ltb_spec a b)
  | |- context [?a <=? ?b] => destruct (Z.leb_spec a b)
  | |- context [?a =? ?b] => destruct (Z.eqb_spec a b)
  end.
Ltac case_cmp_in H :=
  match type of H with
  | context [?a <? ?b] => destruct (Z.ltb_spec a b)
  | context [?a <=? ?b] => destruct (Z.leb_spec a b)
  | context [?a =? ?b] => destruct (Z.eqb_spec a b)
  end.

(** ** Byte strings

    [std::string], [std::deque<char>] and [std::string_view] are lists of
    bytes; [size] is their length as a [size_t] (every string in memory is
    shorter than 2^64 bytes). *)
Abbreviation bytes := (list byte).

#[export] Instance byte_eq_decision : EqDecision byte := Byte.byte_eq_dec.
#[export] Instance bytes_eq_decision : EqDecision bytes := list_eq_dec.

Definition size {A : Type} (s : list A) : Z := Z.of_nat (length s).

Definition ztake {A : Type} (n : Z) (s : list A) : list A := take (Z.to_nat n) s.
Definition zdrop {A : Type} (n : Z) (s : list A) : list A := drop (Z.to_nat n) s.

(** [s.substr(pos, len)]: throws [std::out_of_range] when [pos > s.size()] and
    is cut at the end of the string. *)
Definition substr (s : bytes) (pos len : Z) : result bytes :=
  if size s <? pos then Throw OutOfRange else Ok (ztake len (zdrop pos s)).

(** [s.substr(pos)] *)
Definition substr_from (s : bytes) (pos : Z) : result bytes :=
  if size s <? pos then Throw OutOfRange else Ok (zdrop pos s).

Section zlists.
Context {A : Type}.
Implicit Types (s t : list A) (i n m : Z).

Lemma size_nonneg s : 0 <= size s.
Proof. unfold size. lia. Qed.

Lemma size_nil : size (@nil A) = 0.
Proof. reflexivity. Qed.

Lemma size_cons (a : A) s : size (a :: s) = 1 + size s.
Proof. unfold size. simpl length. lia. Qed.

Lemma size_app s t : size (s ++ t) = size s + size t.
Proof. unfold size. rewrite length_app. lia. Qed.

Lemma size_zero s : size s = 0 -> s = [].
Proof. destruct s; [done|]. rewrite size_cons. pose proof (size_nonneg s). lia. Qed.

Lemma size_ztake n s : 0 <= n -> size (ztake n s) = Z.min n (size s).
Proof. unfold size, ztake. rewrite length_take. lia. Qed.

Lemma size_zdrop n s : 0 <= n -> size (zdrop n s) = Z.max 0 (size s - n).
Proof. unfold size, zdrop. rewrite length_drop. lia. Qed.

Lemma ztake_all n s : size s <= n -> ztake n s = s.
Proof. unfold size, ztake. intros. apply take_ge. lia. Qed.

Lemma ztake_0 n s : n <= 0 -> ztake n s = [].
Proof. unfold ztake. intros. by replace (Z.to_nat n) with 0%nat by lia. Qed.

Lemma zdrop_0 n s : n <= 0 -> zdrop n s = s.
Proof. unfold zdrop. intros. by replace (Z.to_nat n) with 0%nat by lia. Qed.

Lemma zdrop_all n s : size s <= n -> zdrop n s = [].
Proof. unfold size, zdrop. intros. apply drop_ge. lia. Qed.

Lemma ztake_zdrop n s : ztake n s ++ zdrop n s = s.
Proof. apply take_drop. Qed.

Lemma zdrop_zdrop i n s : 0 <= i -> 0 <= n -> zdrop i (zdrop n s) = zdrop (n + i) s.
Proof. intros. unfold zdrop. rewrite drop_drop. f_equal. lia. Qed.

Lemma ztake_ztake i n s : ztake i (ztake n s) = ztake (Z.min i n) s.
Proof. unfold ztake. rewrite take_take. f_equal. lia. Qed.

Lemma ztake_app_le n s t : n <= size s -> ztake n (s ++ t) = ztake n s.
Proof. unfold size, ztake. intros. rewrite take_app_le; [done|lia]. Qed.

Lemma zdrop_app_le n s t : n <= size s -> zdrop n (s ++ t) = zdrop n s ++ t.
Proof. unfold size, zdrop. intros. apply drop_app_le. lia. Qed.

Lemma zdrop_app_ge n s t : size s <= n -> zdrop n (s ++ t) = zdrop (n - size s) t.
Proof. unfold size, zdrop. intros. rewrite drop_app_ge by lia. f_equal. lia. Qed.

Lemma zdrop_app s t : zdrop (size s) (s ++ t) = t.
Proof. rewrite zdrop_app_le by lia. by rewrite zdrop_all by lia. Qed.

Lemma ztake_app s t : ztake (size s) (s ++ t) = s.
Proof. rewrite ztake_app_le by lia. by rewrite ztake_all by lia. Qed.

Lemma ztake_app_ge n s t : size s <= n -> ztake n (s ++ t) = s ++ ztake (n - size s) t.
Proof. unfold size, ztake. intros. rewrite take_app_ge by lia. do 2 f_equal. lia. Qed.

(** [slice s i n] is the [n] bytes of [s] from index [i]. *)
Definition slice s i n : list A := ztake n (zdrop i s).

Lemma size_slice s i n : 0 <= i -> 0 <= n -> i + n <= size s -> size (slice s i n) = n.
Proof. intros. unfold slice. rewrite size_ztake, size_zdrop by lia. lia. Qed.

Lemma slice_app s i n m : 0 <= i -> 0 <= n -> 0 <= m ->
  slice s i n ++ slice s (i + n) m = slice s i (n + m).
Proof.
  intros. unfold slice. rewrite <- (zdrop_zdrop n i) by lia.
  unfold ztake, zdrop. rewrite Z2Nat.inj_add by lia. by rewrite take_take_drop.
Qed.

Lemma ztake_slice s i n m : 0 <= n <= m -> ztake n (slice s i m) = slice s i n.
Proof. intros. unfold slice. rewrite ztake_ztake. f_equal. lia. Qed.

Lemma zdrop_slice s i n m : 0 <= i -> 0 <= n <= m ->
  zdrop n (slice s i m) = slice s (i + n) (m - n).
Proof.
  intros. unfold slice. rewrite <- (zdrop_zdrop n i) by lia.
  unfold ztake, zdrop. rewrite skipn_firstn_comm. f_equal. lia.
Qed.

Lemma slice_full s : slice s 0 (size s) = s.
Proof. unfold slice. rewrite zdrop_0 by lia. apply ztake_all. lia. Qed.

Lemma slice_empty s i n : n <= 0 -> slice s i n = [].
Proof. intros. unfold slice. by apply ztake_0. Qed.

Lemma slice_prefix s n : slice s 0 n = ztake n s.
Proof. unfold slice. by rewrite zdrop_0 by lia. Qed.

Lemma slice_app_l s t i n : 0 <= i -> 0 <= n -> i + n <= size s ->
  slice (s ++ t) i n = slice s i n.
Proof.
  intros. unfold slice. rewrite zdrop_app_le by lia.
  apply ztake_app_le. rewrite size_zdrop by lia. lia.
Qed.
End zlists.

Lemma substr_ok s pos len : pos <= size s -> substr s pos len = Ok (ztake len (zdrop pos s)).
Proof. unfold substr. intros. case_cmp; [lia|done]. Qed.

Lemma substr_from_ok s pos : pos <= size s -> substr_from s pos = Ok (zdrop pos s).
Proof. unfold substr_from. intros. case_cmp; [lia|done]. Qed.

Lemma alter_fixed {B} (f : B -> B) (l : list B) (k : nat) x : l !! k = Some x -> f x = x -> alter f k l = l.
Proof.
  intros Hk Hf. apply list_eq. intros j. destruct (decide (k = j)) as [<-|Hj].
  - by rewrite list_lookup_alter_eq, Hk; simpl; rewrite Hf.
  - by rewrite list_lookup_alter_ne.
Qed.

Create HintDb zlist.
Create Rewrite HintDb zlists.
#[export] Hint Rewrite @size_nil @size_cons @size_app @ztake_zdrop : zlists.
#[export] Hint Resolve size_nonneg : zlist.

(** The characters of a string literal. *)
Definition text (s : String.string) : bytes := String.list_byte_of_string s.

(** [uint8_t(c)] of a [char], and the [char] that holds a [uint8_t]. *)
Definition Z_of_byte (b : byte) : Z := Z.of_N (Byte.to_N b).

Definition byte_of_Z (z : Z) : byte :=
  match Byte.of_N (Z.to_N (u8 z)) with
  | Some b => b
  | None => x00
  end.

Lemma Z_of_byte_range b : is_u8 (Z_of_byte b).
Proof. unfold Z_of_byte, is_u8. pose proof (Byte.to_N_bounded b). lia. Qed.

Lemma Z_of_byte_of_Z z : Z_of_byte (byte_of_Z z) = u8 z.
Proof.
  unfold Z_of_byte, byte_of_Z.
  destruct (Byte.of_N _) as [b|] eqn:E.
  - apply Byte.to_of_N in E. rewrite E. ints.
  - apply Byte.of_N_None_iff in E. ints.
Qed.

Lemma byte_of_Z_of_byte b : byte_of_Z (Z_of_byte b) = b.
Proof.
  unfold byte_of_Z. rewrite u8_small by apply Z_of_byte_range.
  unfold Z_of_byte. by rewrite N2Z.id, Byte.of_to_N.
Qed.

#[export] Hint Resolve Z_of_byte_range : ints.
