(* ===== verification/ByteStream.v ===== *)
(** * ByteStream: the flow-controlled in-memory byte stream

    Models [libsponge/byte_stream.hh] and [libsponge/byte_stream.cc].  The
    state is the record of the private members; every method is a definition of
    the same name.  The specification of the component is a bounded FIFO queue
    ([fifo] below) with the same interface, which the stream refines on every
    sequence of calls; the lemmas on [wf] are what the reassembler and the sender
    use. *)

From S2P Require Import Prelude.

(** ** State and operations *)

Record ByteStream : Type := mkByteStream {
  _que : bytes;              (* deque<char> *)
  _capacity : Z;             (* remaining capacity *)
  _maximumcapacity : Z;
  _writtensize : Z;
  _readsize : Z;
  _error : bool;
  _end : bool
}.

Definition construct (capacity : Z) : ByteStream :=
  mkByteStream [] capacity capacity 0 0 false false.

(** [for (i = 0; i < n; i++) _que.push_back(s[i])] *)
Fixpoint push_back_n (n : nat) (s que : bytes) : bytes :=
  match n, s with
  | S n', c :: s' => push_back_n n' s' (que ++ [c])
  | _, _ => que
  end.

(** [for (i = 0; i < n; i++) _que.pop_front()] *)
Fixpoint pop_front_n (n : nat) (que : bytes) : bytes :=
  match n with
  | O => que
  | S n' => pop_front_n n' (tail que)
  end.

Definition write (s : ByteStream) (data : bytes) : ByteStream * Z :=
  let _writesize := Z.min (_capacity s) (size data) in
  let _writedata := ztake _writesize data in
  (mkByteStream (push_back_n (Z.to_nat _writesize) _writedata (_que s))
     (u64 (_capacity s - _writesize)) (_maximumcapacity s)
     (u64 (_writtensize s + _writesize)) (_readsize s) (_error s) (_end s),
   _writesize).

Definition remaining_capacity (s : ByteStream) : Z := _capacity s.

Definition end_input (s : ByteStream) : ByteStream :=
  mkByteStream (_que s) (_capacity s) (_maximumcapacity s) (_writtensize s)
    (_readsize s) (_error s) true.

Definition set_error (s : ByteStream) : ByteStream :=
  mkByteStream (_que s) (_capacity s) (_maximumcapacity s) (_writtensize s)
    (_readsize s) true (_end s).

Definition peek_output (s : ByteStream) (len : Z) : bytes :=
  let _popsize := Z.min len (size (_que s)) in
  ztake _popsize (_que s).

Definition pop_output (s : ByteStream) (len : Z) : ByteStream :=
  let _popsize := Z.min len (size (_que s)) in
  mkByteStream (pop_front_n (Z.to_nat _popsize) (_que s))
    (u64 (_capacity s + _popsize)) (_maximumcapacity s) (_writtensize s)
    (u64 (_readsize s + _popsize)) (_error s) (_end s).

Definition read (s : ByteStream) (len : Z) : ByteStream * bytes :=
  let _readdata := peek_output s len in
  (pop_output s len, _readdata).

Definition input_ended (s : ByteStream) : bool := _end s.
Definition error (s : ByteStream) : bool := _error s.
Definition buffer_size (s : ByteStream) : Z := size (_que s).
Definition buffer_empty (s : ByteStream) : bool := _capacity s =? _maximumcapacity s.
Definition eof (s : ByteStream) : bool := _end s && (_readsize s =? _writtensize s).
Definition bytes_written (s : ByteStream) : Z := _writtensize s.
Definition bytes_read (s : ByteStream) : Z := _readsize s.

(** ** The loops are list operations *)

Lemma push_back_n_app n s que : (n <= length s)%nat -> push_back_n n s que = que ++ take n s.
Proof.
  revert s que. induction n as [|n IH]; intros s que Hn; simpl.
  - by rewrite take_0, app_nil_r.
  - destruct s as [|c s]; simpl in *; [lia|].
    rewrite IH by lia. by rewrite <- app_assoc.
Qed.

Lemma pop_front_n_drop n que : pop_front_n n que = drop n que.
Proof.
  revert que. induction n as [|n IH]; intros que; [done|].
  simpl. rewrite IH. destruct que; simpl; [by rewrite drop_nil|done].
Qed.

(** ** Invariant

    The counters are 64-bit: they are related to the queue modulo 2^64, so the
    invariant holds for ever, however many bytes go through the stream. *)
Record wf (s : ByteStream) : Prop := {
  wf_max : is_u64 (_maximumcapacity s);
  wf_room : _capacity s + size (_que s) = _maximumcapacity s;
  wf_cap : 0 <= _capacity s;
  wf_written : is_u64 (_writtensize s);
  wf_read : is_u64 (_readsize s);
  wf_count : _writtensize s = u64 (_readsize s + size (_que s))
}.

Create HintDb stream.

(** [stream_solve] closes the arithmetic of the invariant after the fields have
    been computed. *)
Ltac stream_solve :=
  try (constructor; simpl);
  autorewrite with zlists in *;
  rewrite ?size_ztake, ?size_zdrop in * by lia;
  unfold_ints; try lia.

Lemma write_que s data : _capacity s >= 0 ->
  _que (fst (write s data)) = _que s ++ ztake (_capacity s) data.
Proof.
  intros. unfold write. simpl.
  rewrite push_back_n_app.
  - fold (ztake (Z.min (_capacity s) (size data)) (ztake (Z.min (_capacity s) (size data)) data)).
    rewrite ztake_ztake. f_equal. destruct (Z.le_gt_cases (size data) (_capacity s)).
    + rewrite !ztake_all by lia. done.
    + f_equal. lia.
  - unfold ztake. rewrite length_take. unfold size. lia.
Qed.

Lemma construct_wf capacity : is_u64 capacity -> wf (construct capacity).
Proof. intros. unfold construct. stream_solve. Qed.

Lemma write_wf s data : wf s -> wf (fst (write s data)).
Proof.
  intros [Hmax Hroom Hcap Hw Hr Hc]. pose proof (write_que s data ltac:(lia)) as Hq.
  pose proof (size_nonneg data). pose proof (size_nonneg (_que s)).
  constructor; rewrite ?Hq; unfold write; simpl; autorewrite with zlists;
    rewrite ?size_ztake by lia; rewrite ?Hc; ints.
Qed.

Lemma end_input_wf s : wf s -> wf (end_input s).
Proof. intros []. by constructor. Qed.

Lemma set_error_wf s : wf s -> wf (set_error s).
Proof. intros []. by constructor. Qed.

Lemma pop_output_que s len : _que (pop_output s len) = zdrop (Z.min len (size (_que s))) (_que s).
Proof. unfold pop_output. simpl. by rewrite pop_front_n_drop. Qed.

Lemma pop_output_wf s len : 0 <= len -> wf s -> wf (pop_output s len).
Proof.
  intros Hl [Hmax Hroom Hcap Hw Hr Hc]. pose proof (pop_output_que s len) as Hq.
  pose proof (size_nonneg (_que s)).
  constructor; rewrite ?Hq; unfold pop_output; simpl;
    rewrite ?size_zdrop by lia; rewrite ?Hc; ints.
Qed.

#[export] Hint Resolve construct_wf write_wf end_input_wf set_error_wf pop_output_wf : stream.

(** ** The observers in terms of the queue *)

Lemma ztake_min len (q : bytes) : ztake (Z.min len (size q)) q = ztake len q.
Proof.
  destruct (Z.le_gt_cases len (size q)); [f_equal; lia|].
  by rewrite !ztake_all by lia.
Qed.

Lemma zdrop_min len (q : bytes) : zdrop (Z.min len (size q)) q = zdrop len q.
Proof.
  destruct (Z.le_gt_cases len (size q)); [f_equal; lia|].
  by rewrite !zdrop_all by lia.
Qed.

Lemma eof_que s : wf s -> eof s = _end s && match _que s with [] => true | _ => false end.
Proof.
  intros [Hmax Hroom Hcap Hw Hr Hc]. unfold eof. f_equal.
  destruct (_que s) as [|b q]; autorewrite with zlists in *;
    [|pose proof (size_nonneg q)]; case_cmp; try done; ints.
Qed.

Lemma buffer_empty_que s : wf s ->
  buffer_empty s = match _que s with [] => true | _ => false end.
Proof.
  intros [Hmax Hroom Hcap Hw Hr Hc]. unfold buffer_empty.
  destruct (_que s) as [|b q]; autorewrite with zlists in *;
    [|pose proof (size_nonneg q)]; case_cmp; try done; lia.
Qed.

(** ** Sequences of operations

    [run] executes a sequence of calls, collecting the bytes the stream accepted
    from its writer and the bytes it handed to its reader. *)
Inductive stream_op : Type :=
| OpWrite (data : bytes)
| OpRead (len : Z)
| OpPop (len : Z)
| OpEnd
| OpError.

Record history : Type := mkHistory {
  h_stream : ByteStream;
  h_accepted : bytes;
  h_delivered : bytes
}.

Definition op_ok (o : stream_op) : Prop :=
  match o with
  | OpRead len | OpPop len => is_u64 len
  | _ => True
  end.

Definition apply_op (h : history) (o : stream_op) : history :=
  let s := h_stream h in
  match o with
  | OpWrite data =>
      let '(s', n) := write s data in
      mkHistory s' (h_accepted h ++ ztake n data) (h_delivered h)
  | OpRead len =>
      let '(s', d) := read s len in
      mkHistory s' (h_accepted h) (h_delivered h ++ d)
  | OpPop len =>
      mkHistory (pop_output s len) (h_accepted h) (h_delivered h ++ peek_output s len)
  | OpEnd => mkHistory (end_input s) (h_accepted h) (h_delivered h)
  | OpError => mkHistory (set_error s) (h_accepted h) (h_delivered h)
  end.

Definition run (capacity : Z) (ops : list stream_op) : history :=
  fold_left apply_op ops (mkHistory (construct capacity) [] []).

(** The invariant of a history: FIFO order, and the counters count. *)
Record hist_ok (capacity : Z) (h : history) : Prop := {
  hist_wf : wf (h_stream h);
  hist_max : _maximumcapacity (h_stream h) = capacity;
  hist_fifo : h_accepted h = h_delivered h ++ _que (h_stream h);
  hist_read : _readsize (h_stream h) = u64 (size (h_delivered h))
}.

Lemma hist_written capacity h : hist_ok capacity h ->
  _writtensize (h_stream h) = u64 (size (h_accepted h)).
Proof.
  intros [[_ _ _ _ _ Hc] _ Hf Hr]. rewrite Hc, Hf, Hr. autorewrite with zlists. ints.
Qed.

Lemma hist_ok_pop capacity h len : is_u64 len -> hist_ok capacity h ->
  hist_ok capacity
    (mkHistory (pop_output (h_stream h) len) (h_accepted h)
       (h_delivered h ++ peek_output (h_stream h) len)).
Proof.
  intros Hlen [Hwf Hm Hf Hr]. unfold is_u64 in Hlen.
  constructor; cbn [h_stream h_accepted h_delivered].
  - apply pop_output_wf; [lia|done].
  - done.
  - rewrite pop_output_que, Hf, <- app_assoc. f_equal. unfold peek_output.
    by rewrite ztake_zdrop.
  - change (_readsize (pop_output (h_stream h) len))
      with (u64 (_readsize (h_stream h) + Z.min len (size (_que (h_stream h))))).
    unfold peek_output. autorewrite with zlists.
    pose proof (size_nonneg (_que (h_stream h))).
    rewrite size_ztake by lia. rewrite Hr. ints.
Qed.

Lemma hist_ok_step capacity h o : op_ok o -> hist_ok capacity h -> hist_ok capacity (apply_op h o).
Proof.
  intros Ho Hh. destruct o as [data|len|len| |]; simpl in Ho.
  - destruct Hh as [Hwf Hm Hf Hr]. pose proof (wf_cap _ Hwf).
    constructor; cbn -[write]; [by apply write_wf|done| |done].
    change (let '(s', n) := write (h_stream h) data in _) with
      (mkHistory (fst (write (h_stream h) data))
         (h_accepted h ++ ztake (Z.min (_capacity (h_stream h)) (size data)) data)
         (h_delivered h)).
    cbn [h_stream h_accepted h_delivered].
    by rewrite write_que, ztake_min, Hf, app_assoc by lia.
  - by apply hist_ok_pop.
  - by apply hist_ok_pop.
  - destruct Hh. constructor; simpl; auto with stream.
  - destruct Hh. constructor; simpl; auto with stream.
Qed.

Lemma hist_ok_run capacity ops : is_u64 capacity -> Forall op_ok ops ->
  hist_ok capacity (run capacity ops).
Proof.
  intros Hcap Hops. unfold run.
  assert (hist_ok capacity (mkHistory (construct capacity) [] [])) as Hinit.
  { constructor; cbn [h_stream h_accepted h_delivered]; auto with stream. }
  revert Hinit. generalize (mkHistory (construct capacity) [] []).
  induction Hops as [|o ops Ho _ IH]; intros h Hh; simpl; [done|].
  apply IH. by apply hist_ok_step.
Qed.

(** C14: The stream is a bounded FIFO.  After any sequence of writes, reads, pops and end or error
    signals, the bytes accepted from the writer are exactly the bytes delivered
    to the reader followed by the bytes still buffered (nothing lost, duplicated
    or reordered), the buffer never exceeds the capacity, the remaining capacity
    is the free space, and the two 64-bit counters are the totals modulo 2^64. *)
Theorem byte_stream_fifo capacity ops : is_u64 capacity -> Forall op_ok ops ->
  let h := run capacity ops in
  h_accepted h = h_delivered h ++ _que (h_stream h) /\
  buffer_size (h_stream h) <= capacity /\
  remaining_capacity (h_stream h) = capacity - buffer_size (h_stream h) /\
  bytes_written (h_stream h) = u64 (size (h_accepted h)) /\
  bytes_read (h_stream h) = u64 (size (h_delivered h)).
Proof.
  intros Hcap Hops h. pose proof (hist_ok_run capacity ops Hcap Hops) as Hh.
  fold h in Hh. pose proof (hist_written _ _ Hh). destruct Hh as [[_ Hroom Hc _ _ _] Hm Hf Hr].
  unfold buffer_size, remaining_capacity. repeat split; try done; lia.
Qed.

Lemma byte_stream_fifo_witness :
  let h := run 3 [OpWrite [x61; x62; x63; x64]; OpRead 2; OpWrite [x65]; OpEnd] in
  h_delivered h = [x61; x62] /\
  h_accepted h = h_delivered h ++ _que (h_stream h).
Proof.
  split; [reflexivity|].
  apply (byte_stream_fifo 3 [OpWrite [x61; x62; x63; x64]; OpRead 2; OpWrite [x65]; OpEnd]).
  - unfold is_u64. lia.
  - repeat constructor; simpl; unfold is_u64; lia.
Defined.

(** ** Specification: a bounded FIFO of bytes

    What a client of the stream relies on, without the representation: the bytes
    written and the bytes delivered so far (as whole strings), the capacity, and
    the two flags.  The buffer is what has been written and not delivered; nothing
    is accepted once the input has ended. *)
Module Fifo.

Record fifo : Type := mkFifo {
  f_capacity : Z;
  f_written : bytes;
  f_delivered : bytes;
  f_ended : bool;
  f_error : bool
}.

Definition fifo_new (capacity : Z) : fifo := mkFifo capacity [] [] false false.

Definition f_buffer (q : fifo) : bytes := zdrop (size (f_delivered q)) (f_written q).
Definition f_room (q : fifo) : Z := f_capacity q - size (f_buffer q).

(** The public methods of the class, as calls with their answers. *)
Inductive call : Type :=
| Write (data : bytes) | RemainingCapacity | EndInput | SetError
| PeekOutput (len : Z) | PopOutput (len : Z) | Read (len : Z) | InputEnded | Error
| BufferSize | BufferEmpty | Eof | BytesWritten | BytesRead.

Inductive reply : Type :=
| Nothing | Count (n : Z) | Data (d : bytes) | Flag (b : bool).

Definition stream_call (s : ByteStream) (c : call) : ByteStream * reply :=
  match c with
  | Write data => let '(s', n) := write s data in (s', Count n)
  | RemainingCapacity => (s, Count (remaining_capacity s))
  | EndInput => (end_input s, Nothing)
  | SetError => (set_error s, Nothing)
  | PeekOutput len => (s, Data (peek_output s len))
  | PopOutput len => (pop_output s len, Nothing)
  | Read len => let '(s', d) := read s len in (s', Data d)
  | InputEnded => (s, Flag (input_ended s))
  | Error => (s, Flag (error s))
  | BufferSize => (s, Count (buffer_size s))
  | BufferEmpty => (s, Flag (buffer_empty s))
  | Eof => (s, Flag (eof s))
  | BytesWritten => (s, Count (bytes_written s))
  | BytesRead => (s, Count (bytes_read s))
  end.

Definition fifo_take (q : fifo) (len : Z) : fifo :=
  mkFifo (f_capacity q) (f_written q) (f_delivered q ++ ztake len (f_buffer q)) (f_ended q) (f_error q).

Definition fifo_call (q : fifo) (c : call) : fifo * reply :=
  match c with
  | Write data =>
      if f_ended q then (q, Count 0)
      else (mkFifo (f_capacity q) (f_written q ++ ztake (f_room q) data) (f_delivered q) (f_ended q) (f_error q),
            Count (size (ztake (f_room q) data)))
  | RemainingCapacity => (q, Count (f_room q))
  | EndInput => (mkFifo (f_capacity q) (f_written q) (f_delivered q) true (f_error q), Nothing)
  | SetError => (mkFifo (f_capacity q) (f_written q) (f_delivered q) (f_ended q) true, Nothing)
  | PeekOutput len => (q, Data (ztake len (f_buffer q)))
  | PopOutput len => (fifo_take q len, Nothing)
  | Read len => (fifo_take q len, Data (ztake len (f_buffer q)))
  | InputEnded => (q, Flag (f_ended q))
  | Error => (q, Flag (f_error q))
  | BufferSize => (q, Count (size (f_buffer q)))
  | BufferEmpty => (q, Flag (bool_decide (f_buffer q = [])))
  | Eof => (q, Flag (f_ended q && bool_decide (f_delivered q = f_written q)))
  | BytesWritten => (q, Count (u64 (size (f_written q))))
  | BytesRead => (q, Count (u64 (size (f_delivered q))))
  end.

Fixpoint replies {A} (step : A -> call -> A * reply) (a : A) (cs : list call) : list reply :=
  match cs with
  | [] => []
  | c :: cs => let '(a', x) := step a c in x :: replies step a' cs
  end.

(** Lengths are [size_t]. *)
Definition call_ok (c : call) : Prop :=
  match c with PeekOutput len | PopOutput len | Read len => is_u64 len | _ => True end.

(** The contract of the writer: no [write] once the input has ended. *)
Fixpoint writes_before_end (ended : bool) (cs : list call) : bool :=
  match cs with
  | [] => true
  | Write _ :: cs => negb ended && writes_before_end ended cs
  | EndInput :: cs => writes_before_end true cs
  | _ :: cs => writes_before_end ended cs
  end.

(** The representation. *)
Record represents (s : ByteStream) (q : fifo) : Prop := {
  rp_wf : wf s;
  rp_capacity : _maximumcapacity s = f_capacity q;
  rp_data : f_written q = f_delivered q ++ _que s;
  rp_read : _readsize s = u64 (size (f_delivered q));
  rp_ended : _end s = f_ended q;
  rp_error : _error s = f_error q
}.

Lemma represents_buffer s q : represents s q -> f_buffer q = _que s.
Proof. intros [_ _ Hd _ _ _]. unfold f_buffer. rewrite Hd. by rewrite zdrop_app. Qed.

Lemma represents_room s q : represents s q -> f_room q = _capacity s.
Proof.
  intros H. unfold f_room. rewrite (represents_buffer s q H).
  destruct H as [[_ ? _ _ _ _] <- _ _ _ _]. lia.
Qed.

Lemma represents_written s q : represents s q -> _writtensize s = u64 (size (f_written q)).
Proof.
  intros [[_ _ _ _ _ Hc] _ Hd Hr _ _]. rewrite Hc, Hd, Hr. autorewrite with zlists. ints.
Qed.

Lemma represents_new capacity : is_u64 capacity -> represents (construct capacity) (fifo_new capacity).
Proof. intros. constructor; try done. by apply construct_wf. Qed.

Lemma represents_write s q data : represents s q -> f_ended q = false ->
  represents (fst (stream_call s (Write data))) (fst (fifo_call q (Write data))) /\
  snd (stream_call s (Write data)) = snd (fifo_call q (Write data)).
Proof.
  intros H He. pose proof (represents_room s q H) as Hroom. destruct H as [Hwf Hm Hd Hr Hen Her].
  pose proof (wf_cap s Hwf). pose proof (size_nonneg data). unfold fifo_call. rewrite He, Hroom. split.
  - change (fst (stream_call s (Write data))) with (fst (write s data)).
    constructor; cbn [fst f_capacity f_written f_delivered f_ended f_error]; try done; [by apply write_wf| |].
    + by rewrite write_que, Hd, app_assoc by lia.
    + simpl. congruence.
  - cbn -[ztake]. f_equal. rewrite <- ztake_min, size_ztake; lia.
Qed.

Lemma represents_take s q len : is_u64 len -> represents s q -> represents (pop_output s len) (fifo_take q len).
Proof.
  intros Hlen H. pose proof (represents_buffer s q H) as Hb. destruct H as [Hwf Hm Hd Hr Hen Her].
  unfold is_u64 in Hlen. pose proof (size_nonneg (_que s)).
  constructor; cbn [fifo_take f_capacity f_written f_delivered f_ended f_error]; try done.
  - apply pop_output_wf; [lia|done].
  - by rewrite pop_output_que, zdrop_min, Hb, <- app_assoc, ztake_zdrop.
  - change (_readsize (pop_output s len)) with (u64 (_readsize s + Z.min len (size (_que s)))).
    rewrite Hb, <- ztake_min. autorewrite with zlists. rewrite size_ztake, Hr by lia. ints.
Qed.

Lemma represents_queries s q : represents s q ->
  eof s = f_ended q && bool_decide (f_delivered q = f_written q) /\
  buffer_empty s = bool_decide (f_buffer q = []).
Proof.
  intros H. rewrite (represents_buffer s q H). destruct H as [Hwf _ Hd _ Hen _].
  rewrite eof_que, buffer_empty_que, Hd, Hen by done.
  split; [f_equal|]; destruct (_que s); symmetry; (apply bool_decide_eq_true || apply bool_decide_eq_false);
    try done; [by rewrite app_nil_r|].
  intros Hx%(f_equal length). rewrite length_app in Hx. simpl in Hx. lia.
Qed.

(** One call: the same answer, and the states still correspond. *)
Lemma represents_call s q c : represents s q -> call_ok c ->
  (match c with Write _ => f_ended q = false | _ => True end) ->
  represents (fst (stream_call s c)) (fst (fifo_call q c)) /\
  snd (stream_call s c) = snd (fifo_call q c).
Proof.
  intros H Hc Hw. pose proof (represents_queries s q H) as [Heof Hemp].
  pose proof (represents_buffer s q H) as Hb. pose proof (represents_written s q H) as Hwr.
  pose proof (represents_room s q H) as Hroom.
  destruct c; [by apply represents_write| | | | | | | | | | | | |];
    cbn -[ztake pop_output fifo_take]; unfold peek_output, bytes_written, remaining_capacity, buffer_size, bytes_read in *;
    rewrite ?Hb, ?ztake_min; (split; [try done; try by apply represents_take|try (by f_equal); try done]).
  - destruct H. by constructor; try done; apply end_input_wf.
  - destruct H. by constructor; try done; apply set_error_wf.
  - f_equal. apply H.
  - f_equal. apply H.
  - f_equal. by rewrite Hemp, Hb.
  - f_equal. apply H.
Qed.

Lemma replies_agree cs : forall s q, represents s q -> Forall call_ok cs ->
  writes_before_end (f_ended q) cs = true -> replies stream_call s cs = replies fifo_call q cs.
Proof.
  induction cs as [|c cs IH]; intros s q H Hok Hw; [done|]. inversion Hok as [|? ? Hc Hok']; subst.
  destruct (represents_call s q c H Hc) as [Hrep Hans].
  { destruct c; try done. simpl in Hw. by destruct (f_ended q). }
  cbn [replies]. destruct (stream_call s c) as [s' x] eqn:Es, (fifo_call q c) as [q' y] eqn:Eq.
  cbn [fst snd] in *. subst y. f_equal. apply IH; try done.
  destruct c; simpl in Hw, Eq; simplify_eq; try done.
  destruct (f_ended q) eqn:E; [done|]. simplify_eq. simpl in *. by rewrite ?E.
Qed.

(** C13: Whatever calls are made on a new stream, of all its methods and in any
    order, every answer is that of the abstract bounded queue: [write] accepts the
    longest prefix that fits and returns its length, [read] and [peek_output] give
    the front of what has been written and not yet delivered, [read] and
    [pop_output] deliver it, the observers report the sizes, the room, the flags and
    the totals (modulo 2^64), and the end is reached when the input has ended and
    all of it has been delivered.  The writer keeps its side: no [write] after
    [end_input] (see [write_after_end_input]). *)
Theorem byte_stream_refines_fifo capacity cs : is_u64 capacity -> Forall call_ok cs ->
  writes_before_end false cs = true ->
  replies stream_call (construct capacity) cs = replies fifo_call (fifo_new capacity) cs.
Proof. intros Hc Hok Hw. apply replies_agree; [by apply represents_new|done|done]. Qed.

Lemma byte_stream_refines_fifo_witness :
  let cs := [Write [x61; x62; x63]; BufferSize; RemainingCapacity; Read 1; Write [x64; x65]; PeekOutput 5;
             EndInput; Eof; PopOutput 2; SetError; Error; InputEnded; BufferEmpty; Eof; BytesWritten; BytesRead] in
  replies fifo_call (fifo_new 2) cs =
    [Count 2; Count 2; Count 0; Data [x61]; Count 1; Data [x62; x64]; Nothing; Flag false; Nothing; Nothing;
     Flag true; Flag true; Flag true; Flag true; Count 3; Count 3] /\
  replies stream_call (construct 2) cs = replies fifo_call (fifo_new 2) cs.
Proof.
  split; [reflexivity|]. apply byte_stream_refines_fifo.
  - unfold is_u64. lia.
  - repeat constructor; simpl; unfold is_u64; lia.
  - reflexivity.
Defined.

(** [write] does not look at the flag [_end]: bytes written after the end of the
    input are accepted, and a stream that was at its end is so no longer. *)
Example write_after_end_input :
  let cs := [EndInput; Eof; Write [x61]; Eof; Read 1] in
  replies stream_call (construct 2) cs = [Nothing; Flag true; Count 1; Flag false; Data [x61]] /\
  replies fifo_call (fifo_new 2) cs = [Nothing; Flag true; Count 0; Flag true; Data []].
Proof. split; reflexivity. Qed.

End Fifo.
