(* ===== verification/WrappingIntegers.v ===== *)
(** * WrappingIntegers: 32-bit sequence numbers

    Models [libsponge/wrapping_integers.hh] and [libsponge/wrapping_integers.cc]:
    the class [WrappingInt32], its operators, and the conversions [wrap] and
    [unwrap] between 64-bit absolute sequence numbers and 32-bit relative ones. *)

From S2P Require Import Prelude.

(** ** The class and its operators *)

Record WrappingInt32 : Type := mkWrappingInt32 { raw_value : Z }.

#[export] Instance WrappingInt32_eq_dec : EqDecision WrappingInt32.
Proof. solve_decision. Defined.

(** [operator-(WrappingInt32, WrappingInt32)]: the [int32_t] distance. *)
Definition wsub (a b : WrappingInt32) : Z := s32 (u32 (raw_value a - raw_value b)).

(** [operator==] and [operator!=] *)
Definition weqb (a b : WrappingInt32) : bool := raw_value a =? raw_value b.
Definition wneqb (a b : WrappingInt32) : bool := negb (weqb a b).

(** [operator+(WrappingInt32, uint32_t)] *)
Definition wadd (a : WrappingInt32) (b : Z) : WrappingInt32 :=
  mkWrappingInt32 (u32 (raw_value a + u32 b)).

(** [operator-(WrappingInt32, uint32_t)]: [a + -b] *)
Definition wsubn (a : WrappingInt32) (b : Z) : WrappingInt32 := wadd a (u32 (- u32 b)).

(** ** wrap and unwrap *)

Definition wrap (n : Z) (isn : WrappingInt32) : WrappingInt32 :=
  let loop := Z.shiftl 1 32 in
  let additive := n mod loop in
  let additive := u32 additive in
  wadd isn additive.

Definition unwrap (n isn : WrappingInt32) (checkpoint : Z) : Z :=
  let wrapcheckpoint := wrap checkpoint isn in
  let distance := u32 (wsub n wrapcheckpoint) in
  if distance <? Z.shiftl 1 31
  then u64 (checkpoint + distance)
  else
    let temp_ans := u64 (checkpoint - (Z.shiftl 1 32 - distance)) in
    if checkpoint <? temp_ans then u64 (checkpoint + distance) else temp_ans.

(** A raw value is a [uint32_t]. *)
Definition w32 (a : WrappingInt32) : Prop := is_u32 (raw_value a).

(** ** Lemmas *)

Lemma wadd_range a b : w32 (wadd a b).
Proof. apply u32_range. Qed.

Lemma wrap_range n isn : w32 (wrap n isn).
Proof. apply wadd_range. Qed.

#[export] Hint Resolve wadd_range wrap_range : ints.

Lemma w32_eq a b : w32 a -> w32 b -> u32 (raw_value a - raw_value b) = 0 -> a = b.
Proof. destruct a, b. unfold w32. simpl. intros. f_equal. ints. Qed.

Lemma wrap_raw n isn : raw_value (wrap n isn) = u32 (raw_value isn + n).
Proof. unfold wrap, wadd. simpl. change (Z.shiftl 1 32) with 4294967296. ints. Qed.

Lemma wsub_mod a b : u32 (wsub a b) = u32 (raw_value a - raw_value b).
Proof. unfold wsub. ints. Qed.

Lemma wsub_range a b : -2147483648 <= wsub a b < 2147483648.
Proof. unfold wsub. ints. Qed.

(** The distance [unwrap] computes, as one modular expression. *)
Definition dist (n isn : WrappingInt32) (checkpoint : Z) : Z :=
  u32 (raw_value n - raw_value isn - checkpoint).

Lemma unwrap_unfold n isn checkpoint :
  unwrap n isn checkpoint =
  let d := dist n isn checkpoint in
  if d <? 2147483648 then u64 (checkpoint + d)
  else let t := u64 (checkpoint - (4294967296 - d)) in
       if checkpoint <? t then u64 (checkpoint + d) else t.
Proof.
  unfold unwrap. change (Z.shiftl 1 31) with 2147483648. change (Z.shiftl 1 32) with 4294967296.
  rewrite wsub_mod, wrap_raw.
  replace (u32 (raw_value n - u32 (raw_value isn + checkpoint))) with (dist n isn checkpoint)
    by (unfold dist; ints).
  reflexivity.
Qed.

Lemma wrap_congr n m isn : u32 n = u32 m -> wrap n isn = wrap m isn.
Proof.
  intros. enough (raw_value (wrap n isn) = raw_value (wrap m isn)) as E
    by (by destruct (wrap n isn), (wrap m isn); simpl in E; subst).
  rewrite !wrap_raw. ints.
Qed.

Lemma wrap_inj n m isn : wrap n isn = wrap m isn -> u32 n = u32 m.
Proof.
  intros E. apply (f_equal raw_value) in E. rewrite !wrap_raw in E. ints.
Qed.

Lemma unwrap_range n isn checkpoint : is_u64 (unwrap n isn checkpoint).
Proof. rewrite unwrap_unfold. simpl. repeat case_match; apply u64_range. Qed.

#[export] Hint Resolve unwrap_range : ints.

Lemma dist_wrap x isn checkpoint : dist (wrap x isn) isn checkpoint = u32 (x - checkpoint).
Proof. unfold dist. rewrite wrap_raw. ints. Qed.

Lemma wrap_dist n isn checkpoint : w32 n -> wrap (checkpoint + dist n isn checkpoint) isn = n.
Proof.
  intros. apply w32_eq; [apply wrap_range|done|].
  rewrite wrap_raw. unfold dist, w32 in *. ints.
Qed.

Lemma unwrap_near x isn checkpoint :
  is_u64 x -> is_u64 checkpoint -> Z.abs (x - checkpoint) < 2147483648 ->
  unwrap (wrap x isn) isn checkpoint = x.
Proof.
  intros Hx Hc Hd. rewrite unwrap_unfold, dist_wrap. simpl.
  repeat case_cmp; ints.
Qed.

(** ** Properties *)

(** C32: [unwrap] inverts [wrap] near the checkpoint: an absolute sequence number
    less than 2^31 away from the checkpoint is recovered exactly from its 32-bit
    form, whatever the initial sequence number. *)
Theorem unwrap_wrap x isn checkpoint :
  is_u64 x -> is_u64 checkpoint -> Z.abs (x - checkpoint) < 2147483648 ->
  unwrap (wrap x isn) isn checkpoint = x.
Proof. apply unwrap_near. Qed.

Lemma unwrap_wrap_witness :
  unwrap (wrap 4294967301 (mkWrappingInt32 4294967290)) (mkWrappingInt32 4294967290) 4294967000
  = 4294967301.
Proof. apply unwrap_wrap; unfold is_u64; lia. Defined.

(** The result of [unwrap] is always an absolute sequence number that wraps
    to the given 32-bit value, at every checkpoint (the 64-bit overflow at the
    top of the range included). *)
Theorem wrap_unwrap n isn checkpoint :
  w32 n -> is_u64 checkpoint -> wrap (unwrap n isn checkpoint) isn = n.
Proof.
  intros Hn Hc. rewrite <- (wrap_dist n isn checkpoint Hn) at 2. apply wrap_congr.
  rewrite unwrap_unfold. simpl. pose proof (u32_range (raw_value n - raw_value isn - checkpoint)).
  fold (dist n isn checkpoint) in *. repeat case_cmp; ints.
Qed.

Lemma wrap_unwrap_witness :
  wrap (unwrap (mkWrappingInt32 7) (mkWrappingInt32 100) 18446744073709551615)
    (mkWrappingInt32 100) = mkWrappingInt32 7.
Proof. apply wrap_unwrap; unfold w32, is_u32, is_u64; simpl; lia. Defined.

(** [unwrap] returns the closest candidate: no absolute sequence number that
    wraps to [n] is strictly closer to the checkpoint than the one returned, for
    every checkpoint less than 2^64 - 2^32. *)
Theorem unwrap_closest n isn checkpoint x :
  w32 n -> 0 <= checkpoint < 18446744069414584320 -> is_u64 x -> wrap x isn = n ->
  Z.abs (unwrap n isn checkpoint - checkpoint) <= Z.abs (x - checkpoint).
Proof.
  intros Hn Hc Hx <-. rewrite unwrap_unfold, dist_wrap. simpl.
  repeat case_cmp; ints.
Qed.

Lemma unwrap_closest_witness :
  Z.abs (unwrap (mkWrappingInt32 4294967295) (mkWrappingInt32 0) 4294967296 - 4294967296)
  <= Z.abs (8589934591 - 4294967296).
Proof.
  apply unwrap_closest; [unfold w32, is_u32; simpl; lia | lia | unfold is_u64; lia | reflexivity].
Defined.
