(* ===== verification/StreamReassembler.v ===== *)
(** * StreamReassembler: definitions

    Models [libsponge/stream_reassembler.hh] and
    [libsponge/stream_reassembler.cc].  The singly linked list of [Node]s that
    starts at [_head] is the list [_head]; a [Node*] into it is a position
    ([nat]), [p->next] is the next position and a null pointer is a position past
    the end.  The list owns its nodes (no other pointer to them is kept), so a
    relinking [temp->next = p->next; p->next = temp] is an insertion at the
    position after [p].  [std::string::substr] throws when its position is out of
    range, so the operations return a [result]. *)

From S2P Require Import Prelude ByteStream.

(** ** State *)

Record Node : Type := mkNode {
  _data : bytes;
  blockstart : Z;            (* index of the first byte *)
  blockend : Z;              (* index of the last byte *)
  node_eof : bool
}.

Record StreamReassembler : Type := mkReassembler {
  _output : ByteStream;
  _capacity : Z;
  _remaincapacity : Z;
  _head : list Node
}.

Definition construct_reassembler (capacity : Z) : StreamReassembler :=
  mkReassembler (ByteStream.construct capacity) capacity capacity [].

(** The copy assignments, of which the library makes no use: each copies its argument into
    a local variable and returns [*this]. *)
Definition assign_node (this p : Node) : Node :=
  let x := mkNode (_data p) (blockstart p) (blockend p) (node_eof p) in this.
Definition assign_reassembler (this p : StreamReassembler) : StreamReassembler :=
  let obj := mkReassembler (_output p) (_capacity p) (_remaincapacity p) (_head p) in this.

Definition with_output (r : StreamReassembler) (o : ByteStream) : StreamReassembler :=
  mkReassembler o (_capacity r) (_remaincapacity r) (_head r).

Definition stream_out (r : StreamReassembler) : ByteStream := _output r.

Definition unassembled_bytes (r : StreamReassembler) : Z :=
  u64 (_capacity r - _remaincapacity r).

Definition empty (r : StreamReassembler) : bool := _remaincapacity r =? _capacity r.

(** ** insert_to_linklist *)

(** The outcome of the [while (p)] scan: the block is already stored (the
    function returns), or the scan stops at the node at position [p]. *)
Inductive scan_result : Type :=
| Stored
| StopAt (p : nat).

(** The [while (p)] loop.  A null [p] leaves the loop and is dereferenced by the
    code after it. *)
Fixpoint scan (fuel : nat) (l : list Node) (p : nat) (index _writesize : Z) : result scan_result :=
  match fuel with
  | O => Throw OutOfFuel
  | S fuel =>
      match l !! p with
      | None => Throw NullDereference
      | Some n =>
          if blockend n <? u64 (index + _writesize - 1) then
            match l !! S p with
            | Some nx =>
                if (blockstart nx =? u64 (blockend n + 1)) || (blockstart nx <? index)
                then scan fuel l (S p) index _writesize
                else Ok (StopAt p)
            | None => Ok (StopAt p)
            end
          else Ok Stored
      end
  end.

(** [temp->next = p->next; p->next = temp] *)
Definition insert_after (p : nat) (temp : Node) (l : list Node) : list Node :=
  take (S p) l ++ temp :: drop (S p) l.

Fixpoint insert_loop (fuel : nat) (r : StreamReassembler) (data : bytes) (index : Z)
    (head : nat) (eof : bool) : result StreamReassembler :=
  match fuel with
  | O => Throw OutOfFuel
  | S fuel =>
      if (size data =? 0) || (_remaincapacity r =? 0) then Ok r else
      let _writesize := Z.min (size data) (_remaincapacity r) in
      match _head r with
      | [] =>
          let! _writedata := substr data 0 _writesize in
          Ok (mkReassembler (_output r) (_capacity r) (u64 (_remaincapacity r - _writesize))
                [mkNode _writedata index (u64 (index + _writesize - 1))
                   (if (_writesize =? size data) && eof then eof else false)])
      | h :: _ =>
          if index <? blockstart h then
            let _writesize := Z.min _writesize (u64 (blockstart h - index)) in
            let! _writedata := substr data 0 _writesize in
            let temp := mkNode _writedata index (u64 (index + _writesize - 1)) false in
            let r' := mkReassembler (_output r) (_capacity r)
                        (u64 (_remaincapacity r - _writesize)) (temp :: _head r) in
            let! _data := substr_from data _writesize in
            insert_loop fuel r' _data (u64 (index + _writesize)) 1 eof
          else
            let! sc := scan (S (length (_head r))) (_head r) head index _writesize in
            match sc with
            | Stored => Ok r
            | StopAt p =>
                match _head r !! p with
                | None => Throw NullDereference
                | Some n =>
                    let offset := if blockend n <? index then 0
                                  else u64 (blockend n + 1 - index) in
                    match _head r !! S p with
                    | Some nx =>
                        let! _writedata := substr_from data offset in
                        let _writesize :=
                          Z.min (Z.min _writesize (size _writedata))
                            (u64 (blockstart nx - Z.max (u64 (index - 1)) (blockend n) - 1)) in
                        let! _writedata := substr data offset _writesize in
                        let bstart := u64 (index + offset) in
                        let temp := mkNode _writedata bstart (u64 (bstart + _writesize - 1)) false in
                        let r' := mkReassembler (_output r) (_capacity r)
                                    (u64 (_remaincapacity r - _writesize))
                                    (insert_after p temp (_head r)) in
                        let! _data := substr_from data (u64 (offset + _writesize)) in
                        insert_loop fuel r' _data (u64 (blockend temp + 1)) (S (S p)) eof
                    | None =>
                        let! _writedata := substr_from data offset in
                        let _writesize := Z.min _writesize (size _writedata) in
                        let! _writedata := substr _writedata 0 _writesize in
                        let bstart := u64 (index + offset) in
                        let temp := mkNode _writedata bstart (u64 (bstart + _writesize - 1))
                                      (if (u64 (_writesize + offset) =? size data) && eof
                                       then eof else false) in
                        Ok (mkReassembler (_output r) (_capacity r)
                              (u64 (_remaincapacity r - _writesize))
                              (insert_after p temp (_head r)))
                    end
                end
            end
      end
  end.

(** Every recursive call moves past a node of the list, except the first one,
    which may push a new head. *)
Definition insert_to_linklist (r : StreamReassembler) (data : bytes) (index : Z)
    (head : nat) (eof : bool) : result StreamReassembler :=
  insert_loop (S (S (S (length (_head r))))) r data index head eof.

(** ** fetch_valid_data *)

Fixpoint fetch_loop (fuel : nat) (r : StreamReassembler) : result StreamReassembler :=
  match fuel with
  | O => Throw OutOfFuel
  | S fuel =>
      match _head r with
      | [] => Ok r
      | h :: t =>
          let out := _output r in
          if remaining_capacity out =? 0 then Ok r else
          if bytes_written out <? blockstart h then Ok r else
          if blockend h <? bytes_written out then
            fetch_loop fuel (mkReassembler out (_capacity r)
              (u64 (_remaincapacity r + size (_data h))) t)
          else
            let offset := u64 (bytes_written out - blockstart h) in
            let! data := substr_from (_data h) offset in
            if remaining_capacity out <? size data then
              let! _writedata := substr data 0 (remaining_capacity out) in
              let out' := fst (ByteStream.write out _writedata) in
              let! data' := substr_from data (remaining_capacity out') in
              Ok (mkReassembler out' (_capacity r)
                    (u64 (_remaincapacity r + (offset + size _writedata)))
                    (mkNode data' (u64 (blockstart h + (offset + size _writedata)))
                       (blockend h) (node_eof h) :: t))
            else
              let out' := fst (ByteStream.write out data) in
              fetch_loop fuel
                (mkReassembler (if node_eof h then end_input out' else out') (_capacity r)
                   (u64 (_remaincapacity r + size (_data h))) t)
      end
  end.

Definition fetch_valid_data (r : StreamReassembler) : result StreamReassembler :=
  fetch_loop (S (length (_head r))) r.

(** ** push_substring *)

Definition push_substring (r : StreamReassembler) (data : bytes) (index : Z) (eof : bool)
    : result StreamReassembler :=
  let out := _output r in
  if index <=? bytes_written out then
    if bytes_written out <=? u64 (index + size data) then
      let offset := u64 (bytes_written out - index) in
      let! _data := substr_from data offset in
      let _writesize := Z.min (size _data) (remaining_capacity out) in
      if size _data <=? _writesize then
        let out' := fst (ByteStream.write out _data) in
        fetch_valid_data (with_output r (if eof then end_input out' else out'))
      else
        let! _writedata := substr _data 0 _writesize in
        let! _keepdata := substr_from _data _writesize in
        let r1 := with_output r (fst (ByteStream.write out _writedata)) in
        let! r2 := insert_to_linklist r1 _keepdata (u64 (index + offset + _writesize)) 0 eof in
        fetch_valid_data r2
    else Ok r
  else
    let! r1 := insert_to_linklist r data index 0 eof in
    fetch_valid_data r1.
