(* ===== verification/ReassemblerList.v ===== *)
(** * ReassemblerList: the linked list of out-of-order blocks

    Invariant of the list kept by [StreamReassembler] and the specification of
    [insert_to_linklist] against it: the blocks are sorted, disjoint, and each
    holds the bytes of the underlying stream at its indices; an insertion stores
    new bytes only, never overwrites one, and stores the whole substring when
    there is room for it. *)

From S2P Require Import Prelude ByteStream StreamReassembler.

Section list_invariant.
(** [str] is the byte stream the substrings are excerpts of; no index reaches 2^64. *)
Context (str : bytes).
Context (Hstr : size str < 18446744073709551616).

(** [agrees data i]: [data] is the excerpt of [str] at index [i]. *)
Definition agrees (data : bytes) (i : Z) : Prop :=
  0 <= i /\ i + size data <= size str /\ data = slice str i (size data).

Record node_ok (n : Node) : Prop := {
  node_pos : 1 <= blockstart n;
  node_len : blockend n + 1 = blockstart n + size (_data n);
  node_data : agrees (_data n) (blockstart n);
  node_last : node_eof n = true -> blockend n + 1 = size str
}.

(** [chain B lo l]: the blocks of [l] are well-formed, in increasing order and
    disjoint, and lie between the indices [lo] and [B]. *)
Fixpoint chain (B lo : Z) (l : list Node) : Prop :=
  match l with
  | [] => lo <= B
  | n :: t => lo <= blockstart n /\ node_ok n /\ chain B (blockend n + 1) t
  end.

Fixpoint chain_end (lo : Z) (l : list Node) : Z :=
  match l with
  | [] => lo
  | n :: t => chain_end (blockend n + 1) t
  end.

(** The indices stored in the list. *)
Definition stored (l : list Node) (i : Z) : Prop :=
  exists n, n ∈ l /\ blockstart n <= i <= blockend n.

Fixpoint total (l : list Node) : Z :=
  match l with
  | [] => 0
  | n :: t => size (_data n) + total t
  end.

(** ** Excerpts *)

Lemma agrees_take data i n : 0 <= n <= size data -> agrees data i -> agrees (ztake n data) i.
Proof.
  intros Hn (Hi & Hb & Hd). unfold agrees. rewrite size_ztake by lia.
  rewrite Z.min_l by lia. split_and!; [done|lia|].
  rewrite Hd at 1. apply ztake_slice. lia.
Qed.

Lemma agrees_drop data i n : 0 <= n <= size data -> agrees data i -> agrees (zdrop n data) (i + n).
Proof.
  intros Hn (Hi & Hb & Hd). unfold agrees. rewrite size_zdrop by lia.
  rewrite Z.max_r by lia. split_and!; [lia|lia|].
  rewrite Hd at 1. rewrite zdrop_slice by lia. done.
Qed.

(** ** Chains *)

Lemma node_ok_ends n : node_ok n -> blockstart n <= blockend n + 1 <= size str.
Proof. intros [Hp Hl (_ & Hb & _) _]. pose proof (size_nonneg (_data n)). lia. Qed.

Lemma chain_le B lo l : chain B lo l -> lo <= B.
Proof.
  revert lo. induction l as [|n t IH]; intros lo; simpl; [done|].
  intros (Hlo & Hn & Ht). apply IH in Ht. pose proof (node_ok_ends n Hn). lia.
Qed.

Lemma chain_lower B lo lo' l : lo' <= lo -> chain B lo l -> chain B lo' l.
Proof. destruct l; simpl; intros; intuition lia. Qed.

Lemma chain_upper B B' lo l : B <= B' -> chain B lo l -> chain B' lo l.
Proof.
  intros HB. revert lo. induction l as [|n t IH]; intros lo; simpl; [lia|].
  intros (? & ? & ?). auto.
Qed.

Lemma chain_app B lo l1 l2 :
  chain B lo (l1 ++ l2) <-> chain (chain_end lo l1) lo l1 /\ chain B (chain_end lo l1) l2.
Proof.
  revert lo. induction l1 as [|n t IH]; intros lo; simpl.
  - split; [intros; split; [lia|done]|by intros [_ ?]].
  - rewrite IH. tauto.
Qed.

Lemma chain_stored B lo l i : chain B lo l -> stored l i -> lo <= i < B.
Proof.
  revert lo. induction l as [|n t IH]; intros lo Hc (m & Hm & Hi); [by inversion Hm|].
  simpl in Hc. destruct Hc as (Hlo & Hn & Ht). pose proof (node_ok_ends n Hn).
  apply elem_of_cons in Hm as [->|Hm].
  - apply chain_le in Ht. lia.
  - specialize (IH _ Ht (ex_intro _ m (conj Hm Hi))). lia.
Qed.

Lemma chain_node_ok B lo l n : chain B lo l -> n ∈ l -> node_ok n.
Proof.
  revert lo. induction l as [|m t IH]; intros lo Hc Hn; [by inversion Hn|].
  simpl in Hc. destruct Hc as (_ & Hm & Ht).
  apply elem_of_cons in Hn as [->|Hn]; eauto.
Qed.

Lemma stored_app l1 l2 i : stored (l1 ++ l2) i <-> stored l1 i \/ stored l2 i.
Proof.
  unfold stored. setoid_rewrite elem_of_app. split.
  - intros (n & [Hn|Hn] & Hi); [left|right]; by exists n.
  - intros [(n & Hn & Hi)|(n & Hn & Hi)]; exists n; auto.
Qed.

Lemma stored_cons n l i : stored (n :: l) i <-> blockstart n <= i <= blockend n \/ stored l i.
Proof.
  unfold stored. setoid_rewrite elem_of_cons. split.
  - intros (m & [->|Hm] & Hi); [by left|right; by exists m].
  - intros [Hi|(m & Hm & Hi)]; eexists; split; eauto.
Qed.

Lemma stored_nil i : ~ stored [] i.
Proof. intros (n & Hn & _). by apply elem_of_nil in Hn. Qed.

Lemma total_app l1 l2 : total (l1 ++ l2) = total l1 + total l2.
Proof. induction l1; simpl; lia. Qed.

Lemma total_nonneg l : 0 <= total l.
Proof. induction l as [|n t IH]; simpl; [done|]. pose proof (size_nonneg (_data n)). lia. Qed.

(** The blocks of a chain are disjoint, so they fit between its bounds. *)
Lemma chain_total B lo l : chain B lo l -> total l <= B - lo.
Proof.
  revert lo. induction l as [|n t IH]; intros lo; simpl; [lia|].
  intros (Hlo & [_ Hl _ _] & Ht). apply IH in Ht. lia.
Qed.

(** The list around a position. *)
Lemma insert_after_app l1 n l2 temp :
  insert_after (length l1) temp (l1 ++ n :: l2) = l1 ++ n :: temp :: l2.
Proof.
  unfold insert_after. replace (l1 ++ n :: l2) with ((l1 ++ [n]) ++ l2)
    by by rewrite <- app_assoc.
  rewrite take_app_length', drop_app_length' by (rewrite length_app; simpl; lia).
  by rewrite <- app_assoc.
Qed.

Lemma lookup_next (l1 l2 : list Node) n : (l1 ++ n :: l2) !! S (length l1) = head l2.
Proof.
  rewrite lookup_app_r by lia. replace (_ - _)%nat with 1%nat by lia. by destruct l2.
Qed.

(** ** The scan *)

Definition covered (l : list Node) (i j : Z) : Prop := forall k, i <= k < j -> stored l k.

(** What the scan of [insert_to_linklist] establishes. *)
Definition scan_post (l : list Node) (head : nat) (index w : Z) (res : scan_result) : Prop :=
  match res with
  | Stored => covered l index (index + w)
  | StopAt p => exists l1 n l2,
      l = l1 ++ n :: l2 /\ p = length l1 /\ (head <= p)%nat /\
      blockend n < index + w - 1 /\
      covered l index (blockend n + 1) /\
      match l2 with [] => True | nx :: _ => index <= blockstart nx end
  end.

Lemma scan_spec B lo index w : 1 <= index -> 0 < w -> index + w <= size str ->
  forall l2 l1 fuel, chain B lo (l1 ++ l2) -> l2 <> [] -> (length l2 < fuel)%nat ->
  match l2 with [] => True | n :: _ => covered (l1 ++ l2) index (blockstart n) end ->
  exists res, scan fuel (l1 ++ l2) (length l1) index w = Ok res /\
              scan_post (l1 ++ l2) (length l1) index w res.
Proof.
  intros Hi Hw Hb. induction l2 as [|n l2 IH]; intros l1 fuel Hc Hne Hf Hcov; [done|].
  destruct fuel as [|fuel]; [simpl in Hf; lia|]. simpl in Hf.
  assert (node_ok n) as Hn by (eapply chain_node_ok; [exact Hc|rewrite elem_of_app, !elem_of_cons; auto]).
  pose proof (node_ok_ends n Hn) as Hends. destruct Hn as [Hp _ _ _].
  assert (covered (l1 ++ n :: l2) index (blockend n + 1)) as Hcov'.
  { intros k Hk. destruct (Z.lt_ge_cases k (blockstart n)); [apply Hcov; lia|].
    apply stored_app. right. apply stored_cons. left. lia. }
  simpl. rewrite list_lookup_middle by done. rewrite lookup_next. rw64. case_cmp.
  - destruct l2 as [|nx l2]; simpl.
    + eexists. split; [done|]. exists l1, n, []. split_and!; done || lia.
    + assert (node_ok nx) as Hnx by (eapply chain_node_ok; [exact Hc|rewrite elem_of_app, !elem_of_cons; auto]).
      pose proof (node_ok_ends nx Hnx).
      assert (blockend n + 1 <= blockstart nx) as Hord.
      { apply chain_app in Hc as [_ Hc]. simpl in Hc. lia. }
      destruct ((blockstart nx =? blockend n + 1) || (blockstart nx <? index)) eqn:E.
      * destruct (IH (l1 ++ [n]) fuel) as (res & Hres & Hpost); simpl in *; try lia.
        { by rewrite <- app_assoc. }
        { done. }
        { rewrite <- app_assoc. simpl. intros k Hk.
          apply Hcov'. repeat case_cmp_in E; simpl in *; try done; lia. }
        rewrite <- app_assoc in Hres, Hpost. rewrite length_app in Hres, Hpost. simpl in *.
        rewrite Nat.add_1_r in Hres, Hpost. exists res. split; [done|].
        destruct res as [|p]; [done|].
        destruct Hpost as (m1 & m & m2 & ? & ? & ? & ? & ? & ?). exists m1, m, m2.
        split_and!; try done; lia.
      * exists (StopAt (length l1)). split; [done|]. exists l1, n, (nx :: l2).
        apply orb_false_iff in E as [_ E]. apply Z.ltb_ge in E. split_and!; try done; lia.
  - eexists. split; [done|]. simpl. intros k Hk. apply Hcov'. lia.
Qed.

(** ** Insertion *)

(** The specification of [insert_to_linklist]. *)
Record insert_post (B : Z) (r r' : StreamReassembler) (data : bytes) (index : Z) : Prop := {
  ip_out : _output r' = _output r;
  ip_cap : _capacity r' = _capacity r;
  ip_chain : chain B 1 (_head r');
  ip_rem : 0 <= _remaincapacity r';
  ip_room : _remaincapacity r' + total (_head r') = _remaincapacity r + total (_head r);
  ip_keep : forall i, stored (_head r) i -> stored (_head r') i;
  ip_new : forall i, stored (_head r') i -> stored (_head r) i \/ index <= i < index + size data;
  ip_full : size data <= _remaincapacity r -> covered (_head r') index (index + size data)
}.

(** One insertion of a new block: the first [k] bytes of the substring are
    accounted for, at most [k] of them in the new block. *)
Record store_step (B : Z) (r r1 : StreamReassembler) (index k : Z) : Prop := {
  st_out : _output r1 = _output r;
  st_cap : _capacity r1 = _capacity r;
  st_chain : chain B 1 (_head r1);
  st_rem : 0 <= _remaincapacity r1;
  st_use : _remaincapacity r - k <= _remaincapacity r1;
  st_room : _remaincapacity r1 + total (_head r1) = _remaincapacity r + total (_head r);
  st_keep : forall i, stored (_head r) i -> stored (_head r1) i;
  st_new : forall i, stored (_head r1) i -> stored (_head r) i \/ index <= i < index + k;
  st_cov : covered (_head r1) index (index + k)
}.

Lemma store_step_post B r r1 r' data index k : 0 <= k <= size data ->
  store_step B r r1 index k ->
  insert_post B r1 r' (zdrop k data) (index + k) -> insert_post B r r' data index.
Proof.
  intros Hk [] []. rewrite size_zdrop in * by lia. constructor; try congruence; try lia; auto.
  - intros i Hi. destruct (ip_new0 i Hi) as [Hi'|]; [destruct (st_new0 i Hi')|]; auto; lia.
  - intros Hfull i Hi. destruct (Z.lt_ge_cases i (index + k)).
    + apply ip_keep0, st_cov0. lia.
    + apply ip_full0; lia.
Qed.

Lemma insert_post_refl B r data index : chain B 1 (_head r) -> 0 <= _remaincapacity r ->
  (size data <= _remaincapacity r -> covered (_head r) index (index + size data)) ->
  insert_post B r r data index.
Proof. intros. by constructor; auto. Qed.

Lemma new_node_ok data index off w e : 1 <= index -> agrees data index ->
  0 <= off -> 0 <= w -> off + w <= size data ->
  (e = true -> index + off + w = size str) ->
  node_ok (mkNode (ztake w (zdrop off data)) (index + off) (index + off + w - 1) e).
Proof.
  intros Hi Hag Ho Hw Hb He.
  assert (size (ztake w (zdrop off data)) = w) as Hsz
    by (rewrite size_ztake, size_zdrop by lia; lia).
  constructor; simpl; [lia|lia| |intros E; apply He in E; lia].
  apply agrees_take; [rewrite size_zdrop by lia; lia|]. by apply agrees_drop; [lia|].
Qed.

(** Linking a block between [n] and what follows it. *)
Lemma chain_insert B lo l1 n temp l2 : chain B lo (l1 ++ n :: l2) -> node_ok temp ->
  blockend n + 1 <= blockstart temp -> blockend temp + 1 <= B ->
  match l2 with [] => True | nx :: _ => blockend temp + 1 <= blockstart nx end ->
  chain B lo (l1 ++ n :: temp :: l2).
Proof.
  intros Hc Ht H1 HB H2. apply chain_app in Hc as [Hc1 Hc]. apply chain_app. split; [done|].
  simpl in *. split_and!; try tauto; try lia. destruct Hc as (_ & _ & Hc).
  destruct l2; simpl in *; [lia|tauto].
Qed.

Lemma stored_insert l1 n temp l2 i :
  stored (l1 ++ n :: temp :: l2) i <->
  stored (l1 ++ n :: l2) i \/ blockstart temp <= i <= blockend temp.
Proof. rewrite !stored_app, !stored_cons. tauto. Qed.

Lemma total_insert l1 n temp l2 :
  total (l1 ++ n :: temp :: l2) = total (l1 ++ n :: l2) + size (_data temp).
Proof. rewrite !total_app. simpl. lia. Qed.

(** The two ways a block enters the list: in front of it, and after [n]. *)
Lemma store_front B r data index w e : chain B 1 (_head r) -> 1 <= index -> agrees data index ->
  0 <= w <= _remaincapacity r -> w <= size data -> index + w <= B ->
  match _head r with [] => True | h :: _ => index + w <= blockstart h end ->
  (e = true -> index + w = size str) ->
  store_step B r
    (mkReassembler (_output r) (_capacity r) (_remaincapacity r - w)
       (mkNode (ztake w data) index (index + w - 1) e :: _head r)) index w.
Proof.
  intros Hc Hi Hag Hw Hws HB Hh He.
  pose proof (new_node_ok data index 0 w e Hi Hag ltac:(lia) ltac:(lia) ltac:(lia)
    ltac:(intros E; apply He in E; lia)) as Hn.
  rewrite zdrop_0, Z.add_0_r in Hn by lia.
  constructor; simpl; try done; try lia.
  - split_and!; [lia|done|]. replace (index + w - 1 + 1) with (index + w) by lia.
    destruct (_head r); simpl in *; [lia|tauto].
  - rewrite size_ztake by lia. lia.
  - intros i ?. apply stored_cons. auto.
  - intros i [Hb|Hb]%stored_cons; [right; simpl in Hb; lia|by left].
  - intros i ?. apply stored_cons. left. simpl. lia.
Qed.

Lemma store_after B r data index l1 n l2 off w e : chain B 1 (_head r) ->
  _head r = l1 ++ n :: l2 -> 1 <= index -> agrees data index ->
  index + off = Z.max index (blockend n + 1) ->
  0 <= w <= _remaincapacity r -> 0 <= off -> off + w <= size data -> index + off + w <= B ->
  match l2 with [] => True | nx :: _ => index + off + w <= blockstart nx end ->
  covered (_head r) index (blockend n + 1) ->
  (e = true -> index + off + w = size str) ->
  store_step B r
    (mkReassembler (_output r) (_capacity r) (_remaincapacity r - w)
       (insert_after (length l1)
          (mkNode (ztake w (zdrop off data)) (index + off) (index + off + w - 1) e) (_head r)))
    index (off + w).
Proof.
  intros Hc Hl Hi Hag Hoff Hw Ho Hb HB Hnx Hcov He.
  pose proof (new_node_ok data index off w e Hi Hag Ho ltac:(lia) Hb He) as Hn.
  rewrite Hl in Hc, Hcov. constructor; cbn [_output _capacity _remaincapacity _head]; rewrite ?Hl;
    try done; try lia; rewrite insert_after_app.
  - apply chain_insert; simpl; try done; try lia. destruct l2; [done|lia].
  - rewrite total_insert. simpl. rewrite size_ztake, size_zdrop by lia. lia.
  - intros i ?. apply stored_insert. auto.
  - intros i [Hb'|Hb']%stored_insert; [by left|right; simpl in Hb'; lia].
  - intros i ?. apply stored_insert. simpl.
    destruct (Z.lt_ge_cases i (index + off)); [left; apply Hcov; lia|right; lia].
Qed.

(** The precondition of [insert_to_linklist] at cursor [head], with the fuel that
    suffices: a recursive call either stores nothing more, or resumes at a node
    that does not start after the rest of the substring. *)
Definition cursor_ok (r : StreamReassembler) (data : bytes) (index : Z) (head : nat) : Prop :=
  size data = 0 \/ _remaincapacity r = 0 \/
  exists l1 n l2, _head r = l1 ++ n :: l2 /\ head = length l1 /\ blockstart n <= index.

Record insert_pre (B : Z) (fuel : nat) (r : StreamReassembler) (data : bytes) (index : Z)
    (head : nat) (eof : bool) : Prop := {
  pre_chain : chain B 1 (_head r);
  pre_rem : is_u64 (_remaincapacity r);
  pre_index : 1 <= index;
  pre_data : agrees data index;
  pre_bound : index + size data <= B;
  pre_eof : eof = true -> index + size data = size str;
  pre_cursor : head = 0%nat \/ cursor_ok r data index head;
  pre_head : (head <= length (_head r))%nat;
  pre_fuel : (length (_head r) + (if decide (head = 0%nat) then 2 else 1) <= fuel + head)%nat
}.

Definition insert_ok (B : Z) (fuel : nat) : Prop := forall r data index head eof,
  insert_pre B fuel r data index head eof ->
  exists r', insert_loop fuel r data index head eof = Ok r' /\ insert_post B r r' data index.

(** The recursive call of a step that has stored a block. *)
Lemma insert_recurse B fuel r r1 data index k head eof : insert_ok B fuel ->
  store_step B r r1 index k -> 0 <= k <= size data ->
  is_u64 (_remaincapacity r1) -> 1 <= index -> agrees data index -> index + size data <= B ->
  (eof = true -> index + size data = size str) ->
  cursor_ok r1 (zdrop k data) (index + k) (S head) -> (S head <= length (_head r1))%nat ->
  (length (_head r1) <= fuel + head)%nat ->
  exists r', insert_loop fuel r1 (zdrop k data) (index + k) (S head) eof = Ok r' /\
             insert_post B r r' data index.
Proof.
  intros Hok Hst Hk Hrem Hi Hag HB He Hcur Hhd Hfuel.
  destruct (Hok r1 (zdrop k data) (index + k) (S head) eof) as (r' & Hr & Hpost).
  - constructor; rewrite ?size_zdrop by lia; try done; try lia.
    + by destruct Hst.
    + by apply agrees_drop.
    + by right.
    + case_decide; [done|lia].
  - exists r'. split; [done|]. by eapply store_step_post.
Qed.

Lemma chain_start_le B lo l n : chain B lo l -> n ∈ l -> lo <= blockstart n.
Proof.
  revert lo. induction l as [|m t IH]; intros lo Hc Hn; [by apply elem_of_nil in Hn|].
  simpl in Hc. destruct Hc as (Hlo & Hm & Ht). apply node_ok_ends in Hm.
  apply elem_of_cons in Hn as [->|Hn]; [lia|]. specialize (IH _ Ht Hn). lia.
Qed.

(** A cursor inside the list is behind the substring: it is never in front of
    the head. *)
Lemma cursor_head B r h t data index head : chain B 1 (_head r) -> _head r = h :: t ->
  size data <> 0 -> _remaincapacity r <> 0 -> cursor_ok r data index head ->
  blockstart h <= index.
Proof.
  intros Hc Hl Hd Hr [|[|(l1 & n & l2 & Hl' & _ & Hn)]]; try done.
  rewrite Hl in Hc, Hl'. etrans; [|exact Hn].
  apply (chain_start_le B (blockstart h) (h :: t)).
  - simpl in *. split; [lia|tauto].
  - rewrite Hl'. apply elem_of_app. rewrite elem_of_cons. auto.
Qed.

Lemma insert_front B fuel r h t data index head eof : insert_ok B fuel ->
  insert_pre B (S fuel) r data index head eof -> size data <> 0 -> _remaincapacity r <> 0 ->
  _head r = h :: t -> index < blockstart h ->
  exists r', insert_loop (S fuel) r data index head eof = Ok r' /\ insert_post B r r' data index.
Proof.
  intros Hok [Hc Hrem Hi Hag HB He [->|Hcur] Hhd Hfuel] Hd Hr Hl Hlt;
    [|eapply cursor_head in Hcur; eauto; lia]. simpl.
  pose proof Hag as (_ & Hsz & _). pose proof (size_nonneg data).
  assert (node_ok h) as Hh by (eapply chain_node_ok; [exact Hc|rewrite Hl; apply elem_of_cons; auto]).
  apply node_ok_ends in Hh. unfold is_u64 in Hrem.
  destruct (Z.eqb_spec (size data) 0); [done|]. destruct (Z.eqb_spec (_remaincapacity r) 0); [done|].
  simpl. rewrite Hl. destruct (Z.ltb_spec index (blockstart h)); [|lia].
  rewrite (u64_small (blockstart h - index)) by ints.
  set (w := Z.min _ (blockstart h - index)). assert (1 <= w) by lia.
  rewrite substr_ok, substr_from_ok by lia. simpl. rewrite zdrop_0 by lia. rw64. rewrite <- Hl.
  apply insert_recurse with (k := w); try done; try lia; simpl.
  - apply store_front; try done; try lia. by rewrite Hl; lia.
  - ints.
  - unfold cursor_ok. simpl. rewrite size_zdrop by lia.
    assert (w = size data \/ w = _remaincapacity r \/ w = blockstart h - index) as [|[|]] by lia;
      [left; lia|right; left; lia|].
    right. right. exists [mkNode (ztake w data) index (index + w - 1) false], h, t.
    rewrite Hl. split_and!; [done|done|lia].
  - lia.
  - rewrite decide_True in Hfuel by done. lia.
Qed.

(** The offset of the first byte not yet stored, after the scan stopped at [n]. *)
Lemma insert_offset n index w : node_ok n -> 1 <= index -> 0 < w ->
  index + w <= size str -> blockend n < index + w - 1 ->
  exists off, (if blockend n <? index then 0 else u64 (blockend n + 1 - index)) = off /\
    0 <= off < w /\ index + off = Z.max index (blockend n + 1).
Proof.
  intros Hn Hi Hw0 Hw Hlt. apply node_ok_ends in Hn as ?. destruct Hn as [? _ _ _]. eexists. split; [done|].
  case_cmp; [lia|]. rw64. lia.
Qed.

Lemma insert_middle B fuel r l1 n nx l2 data index head eof : insert_ok B fuel ->
  insert_pre B (S fuel) r data index head eof -> _head r = l1 ++ n :: nx :: l2 ->
  (head <= length l1)%nat -> size data <> 0 -> _remaincapacity r <> 0 ->
  blockend n < index + Z.min (size data) (_remaincapacity r) - 1 ->
  covered (_head r) index (blockend n + 1) -> index <= blockstart nx ->
  exists r',
   (let offset := if blockend n <? index then 0 else u64 (blockend n + 1 - index) in
    let! _writedata := substr_from data offset in
    let _writesize := Z.min (Z.min (Z.min (size data) (_remaincapacity r)) (size _writedata))
      (u64 (blockstart nx - Z.max (u64 (index - 1)) (blockend n) - 1)) in
    let! _writedata := substr data offset _writesize in
    let bstart := u64 (index + offset) in
    let temp := mkNode _writedata bstart (u64 (bstart + _writesize - 1)) false in
    let r' := mkReassembler (_output r) (_capacity r) (u64 (_remaincapacity r - _writesize))
                (insert_after (length l1) temp (_head r)) in
    let! _data := substr_from data (u64 (offset + _writesize)) in
    insert_loop fuel r' _data (u64 (blockend temp + 1)) (S (S (length l1))) eof) = Ok r' /\
   insert_post B r r' data index.
Proof.
  intros Hok [Hc Hrem Hi Hag HB He _ Hhd Hfuel] Hl Hp Hd Hr Hlt Hcov Hnx. cbv zeta.
  assert (node_ok n /\ node_ok nx) as [Hn Hnx'].
  { split; eapply chain_node_ok; [exact Hc| |exact Hc|];
      rewrite Hl, elem_of_app, !elem_of_cons; auto. }
  assert (blockend n + 1 <= blockstart nx) as Hord.
  { rewrite Hl in Hc. apply chain_app in Hc as [_ Hc]. simpl in Hc. tauto. }
  pose proof Hag as (_ & Hsz & _). pose proof (size_nonneg data). unfold is_u64 in Hrem.
  destruct (insert_offset n index (Z.min (size data) (_remaincapacity r)) Hn Hi ltac:(lia) ltac:(lia) Hlt)
    as (off & -> & Hoff & Hmax).
  apply node_ok_ends in Hn, Hnx'.
  rewrite substr_from_ok by lia. simpl. rewrite size_zdrop by lia. rw64.
  set (w := Z.min _ (blockstart nx - _ - 1)).
  assert (0 <= w) by lia.
  rewrite substr_ok by lia. simpl. rw64.
  replace (index + off + w - 1 + 1) with (index + (off + w)) by lia. rewrite substr_from_ok by lia. rw64. simpl.
  apply insert_recurse with (k := off + w); try done; try lia; simpl.
  - apply store_after with (l2 := nx :: l2) (n := n); try done; lia.
  - ints.
  - unfold cursor_ok. simpl. rewrite size_zdrop by lia.
    assert (off + w = size data \/ w = _remaincapacity r \/ index + off + w = blockstart nx)
      as [|[|]] by lia; [left; lia|right; left; lia|].
    right. right. rewrite Hl, insert_after_app.
    exists (l1 ++ [n; mkNode (ztake w (zdrop off data)) (index + off) (index + off + w - 1) false]), nx, l2.
    rewrite <- app_assoc, length_app. simpl. split_and!; [done|lia|lia].
  - rewrite Hl, insert_after_app, length_app. simpl. lia.
  - rewrite Hl, length_app in Hfuel. rewrite Hl, insert_after_app, length_app. simpl in *.
    case_decide; lia.
Qed.

Lemma insert_tail B fuel r l1 n data index head eof :
  insert_pre B fuel r data index head eof -> _head r = l1 ++ [n] ->
  size data <> 0 -> _remaincapacity r <> 0 ->
  blockend n < index + Z.min (size data) (_remaincapacity r) - 1 ->
  covered (_head r) index (blockend n + 1) ->
  exists r',
   (let offset := if blockend n <? index then 0 else u64 (blockend n + 1 - index) in
    let! _writedata := substr_from data offset in
    let _writesize := Z.min (Z.min (size data) (_remaincapacity r)) (size _writedata) in
    let! _writedata := substr _writedata 0 _writesize in
    let bstart := u64 (index + offset) in
    let temp := mkNode _writedata bstart (u64 (bstart + _writesize - 1))
                  (if (u64 (_writesize + offset) =? size data) && eof then eof else false) in
    Ok (mkReassembler (_output r) (_capacity r) (u64 (_remaincapacity r - _writesize))
          (insert_after (length l1) temp (_head r)))) = Ok r' /\
   insert_post B r r' data index.
Proof.
  intros [Hc Hrem Hi Hag HB He _ Hhd Hfuel] Hl Hd Hr Hlt Hcov. cbv zeta.
  assert (node_ok n) as Hn
    by (eapply chain_node_ok; [exact Hc|rewrite Hl, elem_of_app, !elem_of_cons; auto]).
  pose proof Hag as (_ & Hsz & _). pose proof (size_nonneg data). unfold is_u64 in Hrem.
  destruct (insert_offset n index (Z.min (size data) (_remaincapacity r)) Hn Hi ltac:(lia) ltac:(lia) Hlt)
    as (off & -> & Hoff & Hmax).
  apply node_ok_ends in Hn.
  rewrite substr_from_ok by lia. simpl. rewrite size_zdrop by lia.
  set (w := Z.min _ (Z.max _ _)). assert (0 <= w <= _remaincapacity r) by lia.
  assert (off + w <= size data) by lia.
  rewrite substr_ok by (rewrite size_zdrop by lia; lia). simpl. rewrite (zdrop_0 0) by lia.
  rw64. eexists. split; [done|].
  set (e := if (w + off =? size data) && eof then eof else false).
  assert (e = true -> index + off + w = size str) as Hlast.
  { unfold e. destruct (Z.eqb_spec (w + off) (size data)); simpl; [|done]. destruct eof; [|done].
    intros _. rewrite <- He by done. lia. }
  pose proof (store_after B r data index l1 n [] off w e Hc Hl Hi Hag Hmax ltac:(lia) ltac:(lia)
    ltac:(lia) ltac:(lia) I Hcov Hlast) as Hst.
  eapply store_step_post with (k := off + w); [lia|exact Hst|].
  apply insert_post_refl; [apply Hst|simpl; lia|].
  rewrite size_zdrop by lia. cbn [_remaincapacity]. intros ? i ?. lia.
Qed.

Lemma insert_empty B fuel r data index head eof :
  insert_pre B (S fuel) r data index head eof -> size data <> 0 -> _remaincapacity r <> 0 ->
  _head r = [] ->
  exists r', insert_loop (S fuel) r data index head eof = Ok r' /\ insert_post B r r' data index.
Proof.
  intros [Hc Hrem Hi Hag HB He _ Hhd Hfuel] Hd Hr Hl. simpl.
  pose proof Hag as (_ & Hsz & _). pose proof (size_nonneg data). unfold is_u64 in Hrem.
  destruct (Z.eqb_spec (size data) 0); [done|]. destruct (Z.eqb_spec (_remaincapacity r) 0); [done|].
  simpl. rewrite Hl. set (w := Z.min _ _). rewrite substr_ok by lia. simpl.
  rewrite zdrop_0 by lia. rw64. eexists. split; [done|]. rewrite <- Hl.
  set (e := if (w =? size data) && eof then eof else false).
  assert (e = true -> index + w = size str) as Hlast.
  { unfold e. destruct (Z.eqb_spec w (size data)); simpl; [|done]. destruct eof; [|done].
    intros _. rewrite <- He by done. lia. }
  pose proof (store_front B r data index w e Hc Hi Hag ltac:(lia) ltac:(lia) ltac:(lia)
    ltac:(by rewrite Hl) Hlast) as Hst.
  eapply store_step_post with (k := w); [lia|exact Hst|].
  apply insert_post_refl; [apply Hst|simpl; lia|].
  rewrite size_zdrop by lia. simpl. intros ? i ?. lia.
Qed.

Lemma insert_scan B fuel r h t data index head eof : insert_ok B fuel ->
  insert_pre B (S fuel) r data index head eof -> size data <> 0 -> _remaincapacity r <> 0 ->
  _head r = h :: t -> blockstart h <= index ->
  exists r', insert_loop (S fuel) r data index head eof = Ok r' /\ insert_post B r r' data index.
Proof.
  intros Hok Hpre Hd Hr Hl Hge. cbn [insert_loop].
  destruct (Z.eqb_spec (size data) 0); [done|]. destruct (Z.eqb_spec (_remaincapacity r) 0); [done|].
  cbn [orb]. rewrite Hl. destruct (Z.ltb_spec index (blockstart h)); [lia|]. rewrite <- Hl.
  pose proof (size_nonneg data). pose proof Hpre as [Hc Hrem Hi Hag HB He Hcur Hhd Hfuel].
  pose proof Hag as (_ & Hsz & _). unfold is_u64 in Hrem.
  assert (exists l1 n l2, _head r = l1 ++ n :: l2 /\ head = length l1 /\ blockstart n <= index)
    as (l1 & n' & l2 & Hl' & -> & Hn).
  { destruct Hcur as [->|[|[|]]]; try done. by exists [], h, t. }
  destruct (scan_spec B 1 index (Z.min (size data) (_remaincapacity r)) Hi ltac:(lia) ltac:(lia)
    (n' :: l2) l1 (S (length (_head r)))) as (res & Hres & Hpost).
  { by rewrite <- Hl'. } { done. } { rewrite Hl', length_app. simpl. lia. } { intros i ?. lia. }
  rewrite <- Hl' in Hres, Hpost. rewrite Hres. cbn [rbind]. destruct res as [|p]; simpl in Hpost.
  - exists r. split; [done|]. apply insert_post_refl; [done|lia|].
    intros ?. by rewrite Z.min_l in Hpost by lia.
  - destruct Hpost as (m1 & m & m2 & Hm & -> & Hle & Hlt & Hcov & Hnx).
    assert (_head r !! length m1 = Some m) as -> by by rewrite Hm, list_lookup_middle.
    assert (_head r !! S (length m1) = head m2) as -> by by rewrite Hm, lookup_next.
    destruct m2 as [|nx m2]; cbn [head].
    + by eapply insert_tail.
    + by eapply insert_middle.
Qed.

(** Everything together: [insert_to_linklist] terminates, never dereferences a
    null pointer, never throws, and meets its specification. *)
Lemma insert_loop_spec B fuel : insert_ok B fuel.
Proof.
  induction fuel as [|fuel IH]; intros r data index head eof Hpre.
  { destruct Hpre. case_decide; lia. }
  destruct (Z.eq_dec (size data) 0) as [Hd|Hd]; [|destruct (Z.eq_dec (_remaincapacity r) 0) as [Hr|Hr]].
  - exists r. split; [simpl; by rewrite Hd|]. destruct Hpre. apply insert_post_refl; [done|ints|].
    intros ? i ?. lia.
  - exists r. split; [simpl; by rewrite Hr, orb_true_r|]. destruct Hpre.
    apply insert_post_refl; [done|ints|]. pose proof (size_nonneg data). intros ? i ?. lia.
  - destruct (_head r) as [|h t] eqn:Hl; [by eapply insert_empty|].
    destruct (Z.lt_ge_cases index (blockstart h)); [by eapply insert_front|].
    by eapply insert_scan.
Qed.
End list_invariant.
