(* ===== verification/Reassembly.v ===== *)
(** * Reassembly: correctness of [StreamReassembler]

    The contract of the component, proved from the list lemmas of
    [ReassemblerList]: substrings of a byte stream, pushed in any order, with
    overlaps and duplicates, come out of [stream_out] as that stream.  The
    substrings are those a peer that respects the window sends: they end within the
    window that starts at the first unread byte or, when that window is empty, at
    most one byte after it (a zero-window probe).  The last section shows what
    happens further outside the window. *)

From stdpp Require Import relations.
From S2P Require Import Prelude ByteStream StreamReassembler ReassemblerList.

Section correctness.
Context (str : bytes).
Context (Hstr : size str < 18446744073709551616).

(** ** The output stream holds a slice of the stream *)

Record delivers (o : ByteStream) : Prop := {
  dl_wf : ByteStream.wf o;
  dl_read : 0 <= _readsize o;
  dl_count : _readsize o + size (_que o) = _writtensize o;
  dl_written : _writtensize o <= size str;
  dl_que : _que o = slice str (_readsize o) (size (_que o));
  dl_end : _end o = true -> _writtensize o = size str
}.

Lemma delivers_write o data : delivers o -> agrees str data (_writtensize o) ->
  size data <= remaining_capacity o ->
  delivers (fst (ByteStream.write o data)) /\
  _writtensize (fst (ByteStream.write o data)) = _writtensize o + size data.
Proof.
  intros [Hwf Hr Hc Hw Hq He] (Hi & Hb & Hd) Hroom. unfold remaining_capacity in Hroom.
  pose proof (size_nonneg data). pose proof (size_nonneg (_que o)). pose proof (wf_cap o Hwf).
  assert (_writtensize (fst (ByteStream.write o data)) = _writtensize o + size data) as Hw'.
  { unfold ByteStream.write. simpl. rewrite Z.min_r by lia. rw64. lia. }
  split; [|done]. pose proof (write_que o data ltac:(lia)) as Hq'.
  rewrite ztake_all in Hq' by lia.
  constructor; rewrite ?Hw', ?Hq'; autorewrite with zlists; try done; try (simpl; lia).
  - by apply write_wf.
  - simpl. rewrite Hq at 1. rewrite Hd at 1. rewrite <- Hc. apply slice_app; lia.
Qed.

Lemma delivers_end o : delivers o -> _writtensize o = size str -> delivers (end_input o).
Proof. intros [] ?. by constructor; simpl; auto with stream. Qed.

Lemma delivers_pop o len : 0 <= len -> delivers o -> delivers (pop_output o len).
Proof.
  intros Hlen [Hwf Hr Hc Hw Hq He]. pose proof (size_nonneg (_que o)).
  pose proof (pop_output_que o len) as Hq'. pose proof (pop_output_wf o len Hlen Hwf).
  set (n := Z.min len (size (_que o))) in *.
  assert (_readsize (pop_output o len) = _readsize o + n) as Hr'
    by (unfold pop_output; simpl; fold n; rw64; lia).
  constructor; rewrite ?Hq', ?Hr', ?size_zdrop by lia; try done; try (simpl; lia).
  rewrite Hq at 1. rewrite zdrop_slice by lia. f_equal. lia.
Qed.

(** ** The invariant *)

(** The indices the reassembler has: written to the stream, or stored. *)
Definition has (r : StreamReassembler) (i : Z) : Prop :=
  0 <= i < bytes_written (_output r) \/ stored (_head r) i.

(** The end of the window: the first index that does not fit. *)
Definition window_end (r : StreamReassembler) : Z :=
  bytes_read (_output r) + _capacity r.

(** The end of what a peer may send: the end of the window, or the one byte with
    which it probes a window of size zero. *)
Definition limit (r : StreamReassembler) : Z :=
  Z.max (window_end r) (bytes_written (_output r) + 1).

Record inv_core (r : StreamReassembler) : Prop := {
  inv_out : delivers (_output r);
  inv_cap : _capacity r = _maximumcapacity (_output r);
  inv_pos : 1 <= _capacity r;
  inv_chain : chain str (limit r) 1 (_head r);
  inv_rem : 0 <= _remaincapacity r;
  inv_room : _remaincapacity r + total (_head r) = _capacity r
}.

(** [inv]: moreover everything that can be in the output stream is, but for the
    byte of a zero-window probe: when the first index not written is stored, it is
    the last one stored. *)
Definition inv (r : StreamReassembler) : Prop :=
  inv_core r /\ (stored (_head r) (bytes_written (_output r)) ->
    forall i, stored (_head r) i -> i <= bytes_written (_output r)).

Lemma inv_window r : inv_core r ->
  window_end r = bytes_written (_output r) + remaining_capacity (_output r) /\
  0 <= remaining_capacity (_output r).
Proof.
  intros [[[] _ Hc _ _ _] Hcap _ _ _ _].
  unfold window_end, bytes_read, bytes_written, remaining_capacity in *. lia.
Qed.

Lemma inv_cap_range r : inv_core r -> is_u64 (_capacity r).
Proof. intros [[[] _ _ _ _ _] -> _ _ _ _]. done. Qed.

(** After [fetch_valid_data]: the output is full or waits for a missing byte. *)
Definition fetched (r : StreamReassembler) : Prop :=
  remaining_capacity (_output r) = 0 \/ ~ stored (_head r) (bytes_written (_output r)).

Lemma fetched_inv r : inv_core r -> fetched r -> inv r.
Proof.
  intros Hinv Hf. split; [done|]. intros Hs i Hi. destruct Hf as [Hf|]; [|done].
  pose proof (inv_window r Hinv) as [Hwin _].
  eapply chain_stored in Hi; [|by apply inv_chain]. unfold limit in Hi. lia.
Qed.

(** ** fetch_valid_data *)

Record fetch_post (r r' : StreamReassembler) : Prop := {
  fp_inv : inv_core r';
  fp_fetched : fetched r';
  fp_cap : _capacity r' = _capacity r;
  fp_read : bytes_read (_output r') = bytes_read (_output r);
  fp_written : bytes_written (_output r) <= bytes_written (_output r');
  fp_has : forall i, has r' i <-> has r i;
  fp_end : _end (_output r) = true -> _end (_output r') = true
}.

Lemma fetch_post_trans r r1 r' : fetch_post r1 r' ->
  _capacity r1 = _capacity r -> bytes_read (_output r1) = bytes_read (_output r) ->
  bytes_written (_output r) <= bytes_written (_output r1) ->
  (forall i, has r1 i <-> has r i) -> (_end (_output r) = true -> _end (_output r1) = true) ->
  fetch_post r r'.
Proof.
  intros [] ? ? ? Hh ?. constructor; try congruence; try lia; auto. intros i. by rewrite <- Hh.
Qed.

(** Dropping a block all of whose bytes have been written. *)
Lemma inv_drop r h t : inv_core r -> _head r = h :: t ->
  inv_core (mkReassembler (_output r) (_capacity r) (_remaincapacity r + size (_data h)) t).
Proof.
  intros [Ho Hc Hpos Hch Hrem Hroom] Hl. rewrite Hl in *. simpl in *.
  destruct Hch as (_ & [Hp Hn Hd He] & Hch). pose proof (size_nonneg (_data h)).
  constructor; simpl; try done; try lia.
  eapply chain_lower; [|exact Hch]. lia.
Qed.

(** Writing what is left of a block that reaches past the written bytes. *)
Lemma inv_take r h t : inv_core r -> _head r = h :: t -> remaining_capacity (_output r) <> 0 ->
  blockstart h <= bytes_written (_output r) <= blockend h ->
  let data := zdrop (bytes_written (_output r) - blockstart h) (_data h) in
  let o := fst (ByteStream.write (_output r) data) in
  size data <= remaining_capacity (_output r) /\
  delivers (if node_eof h then end_input o else o) /\
  _writtensize (if node_eof h then end_input o else o) = blockend h + 1.
Proof.
  intros Hinv Hl Hne Hb data o. pose proof (inv_window r Hinv) as [Hwin ?].
  destruct Hinv as [Ho Hc Hpos Hch Hrem Hroom]. unfold limit in Hch. rewrite Hl in Hch. simpl in Hch.
  destruct Hch as (_ & [Hp Hn Hd He] & Hch). apply chain_le in Hch.
  unfold bytes_written, remaining_capacity in *.
  assert (size data = blockend h + 1 - _writtensize (_output r)) as Hsz
    by (unfold data; rewrite size_zdrop by lia; lia).
  assert (agrees str data (_writtensize (_output r))) as Hag.
  { replace (_writtensize (_output r)) with
      (blockstart h + (_writtensize (_output r) - blockstart h)) by lia.
    apply agrees_drop; [lia|done]. }
  destruct (delivers_write (_output r) data Ho Hag ltac:(unfold remaining_capacity; lia)) as [Hdl Hw].
  fold o in Hdl, Hw. split; [lia|].
  destruct (node_eof h) eqn:E; [|split; [done|lia]].
  specialize (He eq_refl). split; [apply delivers_end; [done|]|change (_writtensize o = blockend h + 1)]; lia.
Qed.

Lemma has_pop r h t o rem : inv_core r -> _head r = h :: t ->
  blockstart h <= bytes_written (_output r) ->
  bytes_written o = Z.max (bytes_written (_output r)) (blockend h + 1) ->
  forall i, has (mkReassembler o (_capacity r) rem t) i <-> has r i.
Proof.
  intros [Ho Hc Hpos Hch Hrem Hroom] Hl Hlo Hw i. unfold has. rewrite Hl in *. simpl in *.
  destruct Hch as (_ & [Hp Hn _ _] & _). pose proof (size_nonneg (_data h)).
  rewrite Hw, stored_cons. split.
  - intros [Hi|Hi]; [|auto].
    destruct (Z.lt_ge_cases i (bytes_written (_output r))); [left|right; left]; lia.
  - intros [Hi|[Hi|Hi]]; [left; lia|left; lia|auto].
Qed.

Lemma fetch_loop_spec fuel r : inv_core r -> (length (_head r) < fuel)%nat ->
  exists r', fetch_loop fuel r = Ok r' /\ fetch_post r r'.
Proof.
  revert r. induction fuel as [|fuel IH]; intros r Hinv Hf; [lia|].
  pose proof (inv_window r Hinv) as [Hwin ?]. pose proof (inv_cap_range r Hinv) as Hu.
  assert (fetched r -> fetch_post r r) as Hdone by (intros; by constructor).
  cbn [fetch_loop]. destruct (_head r) as [|h t] eqn:Hl.
  { exists r. split; [done|]. apply Hdone. right. rewrite Hl. apply stored_nil. }
  assert (is_u64 (_remaincapacity r + size (_data h))) as Hsum.
  { destruct Hinv as [_ _ _ _ ? Hroom]. rewrite Hl in Hroom. simpl in Hroom.
    pose proof (total_nonneg t). pose proof (size_nonneg (_data h)). ints. }
  pose proof (inv_chain r Hinv) as Hch. rewrite Hl in Hch.
  destruct (Z.eqb_spec (remaining_capacity (_output r)) 0).
  { exists r. split; [done|]. apply Hdone. by left. }
  case_cmp.
  { exists r. split; [done|]. apply Hdone. right. rewrite Hl. intros Hs.
    eapply (chain_stored str _ (blockstart h)) in Hs; [lia|]. simpl in *. split; [lia|]. apply Hch. }
  simpl in Hf. case_cmp.
  - rewrite u64_small by done.
    destruct (IH (mkReassembler (_output r) (_capacity r) (_remaincapacity r + size (_data h)) t))
      as (r' & Hr & Hpost); [by apply (inv_drop r)|simpl; lia|].
    exists r'. split; [done|]. eapply fetch_post_trans; try done.
    eapply has_pop; try done. lia.
  - destruct (inv_take r h t Hinv Hl ltac:(done) ltac:(lia)) as (Hsz & Hdl & Hw).
    pose proof (dl_written _ (inv_out r Hinv)). destruct Hch as (_ & [Hp Hn _ _] & _).
    unfold bytes_written in *. rewrite (u64_small (_ - _)) by ints.
    rewrite substr_from_ok by lia. cbn [rbind].
    destruct (Z.ltb_spec (remaining_capacity (_output r))
      (size (zdrop (_writtensize (_output r) - blockstart h) (_data h)))); [lia|].
    rewrite u64_small by done. pose proof (inv_drop r h t Hinv Hl) as [_ Hc' Hpos' Hch' Hr' Hm'].
    set (o := if node_eof h then _ else _) in *.
    destruct (IH (mkReassembler o (_capacity r) (_remaincapacity r + size (_data h)) t))
      as (r' & Hr & Hpost); [|simpl; lia|].
    + constructor; simpl in *; try done; [by rewrite Hc'; unfold o; destruct (node_eof h)|].
      eapply chain_upper; [|exact Hch']. unfold limit, window_end, bytes_written in *. simpl in *.
      replace (bytes_read o) with (bytes_read (_output r)) by (unfold o; by destruct (node_eof h)). lia.
    + exists r'. split; [done|]. eapply fetch_post_trans; try done; simpl.
      * by unfold o; destruct (node_eof h).
      * unfold bytes_written. lia.
      * eapply has_pop; try done. unfold bytes_written. lia.
      * by unfold o; destruct (node_eof h).
Qed.

Lemma fetch_valid_data_spec r : inv_core r ->
  exists r', fetch_valid_data r = Ok r' /\ fetch_post r r'.
Proof. intros. apply fetch_loop_spec; [done|lia]. Qed.

(** ** push_substring *)

(** A substring of the stream, inside the window (or its last byte is a probe),
    flagged [eof] only at its end. *)
Record push_pre (r : StreamReassembler) (data : bytes) (index : Z) (eof : bool) : Prop := {
  pu_data : agrees str data index;
  pu_window : index + size data <= limit r;
  pu_eof : eof = true -> index + size data = size str
}.

Record push_post (r r' : StreamReassembler) (data : bytes) (index : Z) (eof : bool) : Prop := {
  pp_inv : inv_core r';
  pp_fetched : fetched r' \/ (r' = r /\ index + size data < bytes_written (_output r));
  pp_cap : _capacity r' = _capacity r;
  pp_read : bytes_read (_output r') = bytes_read (_output r);
  pp_written : bytes_written (_output r) <= bytes_written (_output r');
  pp_keep : forall i, has r i -> has r' i;
  pp_new : forall i, has r' i -> has r i \/ index <= i < index + size data;
  pp_full : index <= bytes_written (_output r) /\ index + size data <= window_end r \/
    size data <= _remaincapacity r ->
    forall i, index <= i < index + size data -> has r' i;
  pp_end : _end (_output r) = true -> _end (_output r') = true;
  pp_eof : eof = true -> index <= bytes_written (_output r) <= index + size data ->
    index + size data <= window_end r -> _end (_output r') = true;
  pp_past : index <= bytes_written (_output r) -> index + size data <= window_end r ->
    index + size data <= bytes_written (_output r')
}.

(** The substring starts at or before the first missing byte: the new bytes are
    written at once. *)
Lemma push_contiguous r data index eof : inv_core r -> push_pre r data index eof ->
  index <= bytes_written (_output r) <= index + size data -> index + size data <= window_end r ->
  let d := zdrop (bytes_written (_output r) - index) data in
  let o := fst (ByteStream.write (_output r) d) in
  let r1 := with_output r (if eof then end_input o else o) in
  size d <= remaining_capacity (_output r) /\ inv_core r1 /\
  bytes_written (_output r1) = index + size data.
Proof.
  intros Hinv [Hag _ Heof] Hb Hwin d o r1. pose proof (inv_window r Hinv) as [Hwe ?].
  destruct Hinv as [Ho Hc Hpos Hch Hrem Hroom]. pose proof Hag as (Hi & Hsz & _).
  unfold bytes_written, remaining_capacity in *.
  assert (size d = index + size data - _writtensize (_output r)) as Hd
    by (unfold d; rewrite size_zdrop by lia; lia).
  assert (agrees str d (_writtensize (_output r))) as Hagd.
  { replace (_writtensize (_output r)) with (index + (_writtensize (_output r) - index)) by lia.
    apply agrees_drop; [lia|done]. }
  destruct (delivers_write (_output r) d Ho Hagd ltac:(unfold remaining_capacity; lia)) as [Hdl Hw].
  fold o in Hdl, Hw. split; [lia|].
  assert (_writtensize (if eof then end_input o else o) = index + size data) as Hw'.
  { transitivity (_writtensize o); [by destruct eof|lia]. }
  split; [|done]. constructor; cbn [_output _capacity _remaincapacity _head with_output r1]; try done.
  - destruct eof; [|done]. apply delivers_end; [done|]. rewrite <- Heof by done. lia.
  - by destruct eof.
  - eapply chain_upper; [|exact Hch]. unfold limit, window_end, bytes_written in *.
    cbn [_output _capacity with_output r1].
    replace (bytes_read (if eof then _ else _)) with (bytes_read (_output r)) by (by destruct eof). lia.
Qed.

Lemma inv_insert r r' data index : inv_core r ->
  insert_post str (limit r) r r' data index -> inv_core r'.
Proof.
  intros [Ho Hc Hpos Hch Hrem Hroom] [Hout Hcap Hch' Hrem' Hroom' _ _ _].
  constructor; try done; rewrite ?Hout, ?Hcap; try done; try lia.
  unfold limit, window_end in *. by rewrite Hout, Hcap.
Qed.

(** What is not written at once goes to the list: a substring that starts after
    the first missing byte, or the byte of a zero-window probe. *)
Lemma push_store r data index eof : inv_core r -> push_pre r data index eof ->
  bytes_written (_output r) <= index -> 1 <= index ->
  exists r1, insert_to_linklist r data index 0 eof = Ok r1 /\ inv_core r1 /\
    insert_post str (limit r) r r1 data index.
Proof.
  intros Hinv [Hag Hwin Heof] Hlt Hpos. pose proof (inv_cap_range r Hinv) as Hu.
  assert (is_u64 (_remaincapacity r)) as Hru.
  { destruct Hinv as [_ _ _ _ ? ?]. pose proof (total_nonneg (_head r)). ints. }
  pose proof (wf_written _ (dl_wf _ (inv_out r Hinv))) as Hw. unfold bytes_written, is_u64 in *.
  destruct (insert_loop_spec str Hstr (limit r) (S (S (S (length (_head r))))) r data index 0%nat eof)
    as (r1 & Hr & Hpost).
  - constructor; try done; try lia.
    + by apply inv_chain.
    + rewrite decide_True by done. lia.
  - exists r1. split; [done|]. split; [by eapply inv_insert|done].
Qed.

(** The two parts of an out-of-order push: store, then fetch. *)
Lemma push_store_fetch r data index eof : inv_core r -> push_pre r data index eof ->
  bytes_written (_output r) <= index -> 1 <= index ->
  (bytes_written (_output r) = index -> window_end r < index + size data) ->
  exists r1 r', insert_to_linklist r data index 0 eof = Ok r1 /\ fetch_valid_data r1 = Ok r' /\
    push_post r r' data index eof.
Proof.
  intros Hinv Hpre Hle Hpos Hwin. destruct (push_store r data index eof Hinv Hpre Hle Hpos) as (r1 & Hr1 & Hinv1 & Hpost).
  destruct (fetch_valid_data_spec _ Hinv1) as (r' & Hr & [Hinv' Hf' Hcap' Hread' Hw' Hhas' Hend']).
  exists r1, r'. split_and!; [done|done|]. destruct Hpost as [Hout Hcap _ _ _ Hkeep Hnew Hfull].
  unfold has in Hhas'. rewrite Hout in *. constructor; try done; try congruence; auto.
  - intros i [Hb|Hb]; apply Hhas'; [by left|right; auto].
  - intros i [Hb|Hb]%Hhas'; [by left; left|]. apply Hnew in Hb as [|]; [left; by right|by right].
  - intros [?|Hfit] i Hb; [lia|]. apply Hhas'. right. by apply Hfull.
  - intros _ ? ?. lia.
  - intros ? ?. lia.
Qed.

Lemma write_nil o : ByteStream.wf o -> fst (ByteStream.write o []) = o.
Proof.
  intros []. pose proof (size_nonneg (_que o)). unfold ByteStream.write, is_u64 in *.
  change (size []) with 0. rewrite Z.min_r by lia. simpl. rw64.
  destruct o. simpl in *. f_equal; lia.
Qed.

(** A zero-window probe, cut to its last byte, is stored. *)
Lemma push_probe r data index eof : inv_core r -> push_pre r data index eof ->
  index <= bytes_written (_output r) <= index + size data -> window_end r < index + size data ->
  let d := zdrop (bytes_written (_output r) - index) data in
  remaining_capacity (_output r) = 0 /\ size d = 1 /\ index + size data = bytes_written (_output r) + 1 /\
  1 <= bytes_written (_output r) /\ push_pre r d (bytes_written (_output r)) eof.
Proof.
  intros Hinv [Hag Hwin Heof] Hb Hgt d. pose proof (inv_window r Hinv) as [Hwe Hrem]. unfold limit in Hwin.
  assert (size d = index + size data - bytes_written (_output r)) as Hd
    by (unfold d; rewrite size_zdrop by lia; lia).
  split_and!; try lia.
  - pose proof (inv_pos r Hinv). pose proof (dl_read _ (inv_out r Hinv)).
    unfold window_end, bytes_read in *. lia.
  - constructor; [|unfold limit; lia|intros E; specialize (Heof E); lia].
    replace (bytes_written (_output r)) with (index + (bytes_written (_output r) - index)) by lia.
    apply agrees_drop; [lia|done].
Qed.

Lemma push_spec r data index eof : inv_core r -> push_pre r data index eof ->
  exists r', push_substring r data index eof = Ok r' /\ push_post r r' data index eof.
Proof.
  intros Hinv Hpre. pose proof Hpre as [(Hi & Hsz & _) _ _]. pose proof (inv_window r Hinv) as [Hwe Hrem].
  pose proof (wf_written _ (dl_wf _ (inv_out r Hinv))) as Hw. unfold is_u64 in Hw.
  pose proof (size_nonneg data). unfold push_substring.
  rewrite (u64_small (index + size data)) by ints.
  destruct (Z.leb_spec index (bytes_written (_output r))) as [Hle|Hlt];
    [destruct (Z.leb_spec (bytes_written (_output r)) (index + size data)) as [Hle'|Hgt]|].
  - rewrite (u64_small (_ - _)) by (unfold bytes_written in *; ints).
    rewrite substr_from_ok by lia. cbn [rbind].
    destruct (Z.le_gt_cases (index + size data) (window_end r)) as [Hin|Hout].
    + destruct (push_contiguous r data index eof Hinv Hpre ltac:(lia) Hin) as (Hroom & Hinv1 & Hw1).
      rewrite (Z.min_l (size _)) by lia. rewrite Z.leb_refl.
      destruct (fetch_valid_data_spec _ Hinv1) as (r' & Hr & [Hinv' Hf' Hcap' Hread' Hw' Hhas' Hend']).
      exists r'. split; [done|]. unfold has in Hhas'. rewrite Hw1 in Hhas', Hw'.
      constructor; try done; auto; try lia.
      * rewrite Hread'. simpl. by destruct eof.
      * intros i [Hb|Hb]; apply Hhas'; [left; lia|by right].
      * intros i [Hb|Hb]%Hhas'; [|by left; right].
        destruct (Z.lt_ge_cases i index); [left; left|right]; lia.
      * intros _ i Hb. apply Hhas'. left. lia.
      * intros E. apply Hend'. simpl. destruct eof; [done|exact E].
      * intros -> _ _. by apply Hend'.
    + destruct (push_probe r data index eof Hinv Hpre ltac:(lia) ltac:(lia)) as (Hr0 & Hd1 & Hend & Hpos & Hpre').
      set (d := zdrop (bytes_written (_output r) - index) data) in *. rewrite Hr0, Hd1. change (Z.min 1 0) with 0.
      change (1 <=? 0) with false. cbv iota zeta. rewrite substr_ok, substr_from_ok by lia. cbn [rbind].
      rewrite ztake_0, zdrop_0, write_nil by (done || apply Hinv).
      replace (with_output r (_output r)) with r by (by destruct r).
      rewrite u64_small by (unfold bytes_written in *; ints).
      replace (index + (bytes_written (_output r) - index) + 0) with (bytes_written (_output r)) by lia.
      destruct (push_store_fetch r d (bytes_written (_output r)) eof Hinv Hpre' ltac:(lia) Hpos ltac:(lia))
        as (r1 & r' & Hr1 & Hr & Hpost). rewrite Hr1. cbn [rbind]. exists r'. split; [done|].
      destruct Hpost as [? [?|[_ ?]] ? ? ? Hkeep Hnew Hfull ? ? ?]; [|lia]. constructor; try done; auto.
      * intros i Hh. destruct (Hnew i Hh) as [|]; [by left|right; lia].
      * intros [?|Hfit] i Hb; [lia|]. destruct (Z.lt_ge_cases i (bytes_written (_output r))).
        -- apply Hkeep. left. lia.
        -- apply Hfull; [right; lia|lia].
      * intros _ _ ?. lia.
      * intros _ ?. lia.
  - exists r. split; [done|]. constructor; try done; auto; try lia.
    intros _ i Hb. left. lia.
  - destruct (push_store_fetch r data index eof Hinv Hpre ltac:(lia) ltac:(unfold bytes_written in *; lia)
      ltac:(lia)) as (r1 & r' & -> & Hr & Hpost). by exists r'.
Qed.

(** With the invariant [inv], which a push restores. *)
Lemma push_inv r r' data index eof : inv r -> push_post r r' data index eof -> inv r'.
Proof. intros Hinv [Hc [Hf|[-> _]] _ _ _ _ _ _ _ _ _]; [by apply fetched_inv|done]. Qed.

Lemma delivers_construct capacity : is_u64 capacity -> delivers (ByteStream.construct capacity).
Proof.
  intros. constructor; try done; [by apply construct_wf|]. simpl. apply size_nonneg.
Qed.

Lemma inv_construct capacity : 1 <= capacity < 18446744073709551616 -> inv (construct_reassembler capacity).
Proof.
  intros Hc. split; [|by intros []%stored_nil].
  constructor; simpl; try done; try lia; [apply delivers_construct; ints|unfold limit; simpl; lia].
Qed.

Lemma inv_read r len : is_u64 len -> inv r ->
  inv (with_output r (fst (ByteStream.read (_output r) len))).
Proof.
  intros Hlen [[Ho Hc Hpos Hch Hrem Hroom] Hsync]. unfold is_u64 in Hlen. split; [|done].
  constructor; try done; [by apply delivers_pop; [lia|]|].
  eapply chain_upper; [|exact Hch]. unfold limit, window_end, bytes_read, bytes_written. simpl.
  pose proof (size_nonneg (_que (_output r))).
  destruct Ho as [[] ? ? ? ? ?]. rw64. lia.
Qed.

(** ** Executions

    A state of an execution is the reassembler and the bytes read so far; a step
    is a push of a substring inside the window or a read of the output stream. *)
Inductive rstep : StreamReassembler * bytes -> StreamReassembler * bytes -> Prop :=
| rstep_push r d data index eof r' : push_pre r data index eof ->
    push_substring r data index eof = Ok r' -> rstep (r, d) (r', d)
| rstep_read r d len : is_u64 len ->
    rstep (r, d) (with_output r (fst (ByteStream.read (_output r) len)),
                  d ++ snd (ByteStream.read (_output r) len)).

Definition reachable (capacity : Z) (r : StreamReassembler) (d : bytes) : Prop :=
  rtc rstep (construct_reassembler capacity, []) (r, d).

Lemma rstep_inv r d r' d' : rstep (r, d) (r', d') ->
  inv r -> d = ztake (bytes_read (_output r)) str ->
  inv r' /\ d' = ztake (bytes_read (_output r')) str.
Proof.
  intros Hstep Hinv Hd. inversion Hstep as [? ? data index eof ? Hpre Hr|? ? len Hlen]; subst.
  - destruct (push_spec r data index eof (proj1 Hinv) Hpre) as (r'' & Hr' & Hpost).
    rewrite Hr in Hr'. simplify_eq. split; [by eapply push_inv|]. by rewrite (pp_read _ _ _ _ _ Hpost).
  - split; [by apply inv_read|]. destruct Hinv as [[[Hwf Hr Hc Hw Hq _] _ _ _ _ _] _].
    pose proof (size_nonneg (_que (_output r))). unfold is_u64 in Hlen. unfold bytes_read. simpl.
    set (n := Z.min len (size (_que (_output r)))). rw64. unfold peek_output. fold n.
    rewrite Hq, ztake_slice, <- !slice_prefix by lia.
    by rewrite <- (slice_app str 0 (_readsize (_output r)) n) by lia.
Qed.

Lemma reachable_inv capacity r d : 1 <= capacity < 18446744073709551616 -> reachable capacity r d ->
  inv r /\ d = ztake (bytes_read (_output r)) str.
Proof.
  intros Hc. unfold reachable.
  enough (forall x y, rtc rstep x y -> inv (fst x) -> snd x = ztake (bytes_read (_output (fst x))) str ->
    inv (fst y) /\ snd y = ztake (bytes_read (_output (fst y))) str) as Hall.
  { intros H. apply Hall in H; simpl in *; [done|by apply inv_construct|]. by rewrite ztake_0. }
  induction 1 as [x|[r1 d1] [r2 d2] z Hs _ IH]; simpl in *; [done|]. intros Hi Hd.
  destruct (rstep_inv _ _ _ _ Hs Hi Hd). by apply IH.
Qed.

Lemma reachable_capacity capacity r d : 1 <= capacity < 18446744073709551616 -> reachable capacity r d ->
  _capacity r = capacity.
Proof.
  intros Hc. unfold reachable.
  enough (forall x y, rtc rstep x y -> inv (fst x) -> _capacity (fst y) = _capacity (fst x)) as Hall.
  { intros H. apply Hall in H; simpl in *; [done|by apply inv_construct]. }
  induction 1 as [x|x y z Hs _ IH]; [done|]. intros Hi. destruct Hs as [r1 d1 data index eof r2 Hpre Hr|].
  - destruct (push_spec r1 data index eof (proj1 Hi) Hpre) as (r'' & Hr' & Hpost). rewrite Hr in Hr'.
    simplify_eq. simpl in *. rewrite IH by (by eapply push_inv). apply Hpost.
  - simpl in *. rewrite IH by (by apply inv_read). done.
Qed.

(** *** Executions inside the window

    Every push ends inside the window: no byte is pushed beyond [capacity] bytes
    after the last one read. *)
Inductive wstep : StreamReassembler * bytes -> StreamReassembler * bytes -> Prop :=
| wstep_push r d data index eof r' : push_pre r data index eof -> index + size data <= window_end r ->
    push_substring r data index eof = Ok r' -> wstep (r, d) (r', d)
| wstep_read r d len : is_u64 len ->
    wstep (r, d) (with_output r (fst (ByteStream.read (_output r) len)),
                  d ++ snd (ByteStream.read (_output r) len)).

Definition in_window (capacity : Z) (r : StreamReassembler) (d : bytes) : Prop :=
  rtc wstep (construct_reassembler capacity, []) (r, d).

Lemma in_window_reachable capacity r d : in_window capacity r d -> reachable capacity r d.
Proof. apply rtc_subrel. intros x y []; by econstructor. Qed.

(** What is received is inside the window, and the output stands at the first
    missing index. *)
Definition held_inside (r : StreamReassembler) : Prop :=
  (forall i, has r i -> i < window_end r) /\ ~ has r (bytes_written (_output r)).

Lemma bytes_written_inside r : inv_core r -> ~ stored (_head r) (bytes_written (_output r)) -> held_inside r.
Proof.
  intros Hinv Hno. destruct (inv_window r Hinv) as [Hwe Hrem]. split; [|intros [?|?]; [lia|done]].
  intros i [Hi|Hs]; [lia|]. pose proof (chain_stored _ _ _ _ _ (inv_chain r Hinv) Hs) as Hi.
  unfold limit in Hi. assert (i <> bytes_written (_output r)) by (intros ->; done). lia.
Qed.

Lemma push_held_inside r r' data index eof : push_post r r' data index eof ->
  index + size data <= window_end r -> held_inside r -> held_inside r'.
Proof.
  intros Hpost Hwin [Hin Hno]. pose proof Hpost as [Hinv' Hf Hcap Hread _ _ Hnew _ _ _ _].
  assert (window_end r' = window_end r) as Hwe by (unfold window_end; congruence).
  destruct (inv_window r' Hinv') as [Hwe' _].
  apply bytes_written_inside; [done|]. intros Hs.
  destruct Hf as [[Hf|Hf]|[-> _]]; [|done|apply Hno; by right].
  destruct (Hnew _ (or_intror Hs)) as [Hh|Hh]; [apply Hin in Hh|]; lia.
Qed.

Lemma in_window_inv capacity r d : 1 <= capacity < 18446744073709551616 -> in_window capacity r d ->
  inv r /\ d = ztake (bytes_read (_output r)) str /\ _capacity r = capacity /\ held_inside r.
Proof.
  intros Hc Hin. pose proof (in_window_reachable _ _ _ Hin) as Hreach.
  destruct (reachable_inv capacity r d Hc Hreach) as [Hinv Hd].
  split_and!; [done|done|by eapply reachable_capacity|]. clear Hinv Hd Hreach.
  enough (forall x y, rtc wstep x y -> inv (fst x) -> held_inside (fst x) -> held_inside (fst y)) as Hall.
  { eapply Hall in Hin; [done|by apply inv_construct|]. simpl.
    apply bytes_written_inside; [by apply inv_construct|]. by intros []%stored_nil. }
  induction 1 as [x|x y z Hs _ IH]; [done|]. intros Hi Hh.
  destruct Hs as [r1 d1 data index eof r2 Hpre Hw Hr|r1 d1 len Hlen]; simpl in *.
  - destruct (push_spec r1 data index eof (proj1 Hi) Hpre) as (r'' & Hr' & Hpost). rewrite Hr in Hr'.
    simplify_eq. apply IH; [by eapply push_inv|by eapply push_held_inside].
  - apply IH; [by apply inv_read|]. apply bytes_written_inside; [by apply inv_read|].
    intros Hs. apply (proj2 Hh). by right.
Qed.
End correctness.

(** ** Properties *)

(** C10: In-order delivery.  Whatever substrings of a stream [str] are pushed, in whatever
    order, with whatever overlaps and duplicates (each inside the window, but for the
    one byte that probes a window of size zero), and
    however the output is read in between: [push_substring] always returns (no
    exception, no null pointer, no endless recursion), the bytes read followed by
    the bytes waiting in [stream_out] are exactly the first [bytes_written] bytes
    of [str], and the end of input is signalled only after the last one. *)
Theorem reassembler_delivers_prefix str capacity r d :
  size str < 18446744073709551616 -> 1 <= capacity < 18446744073709551616 -> reachable str capacity r d ->
  d ++ _que (stream_out r) = ztake (bytes_written (stream_out r)) str /\
  (input_ended (stream_out r) = true -> bytes_written (stream_out r) = size str) /\
  (forall data index eof, push_pre str r data index eof ->
     exists r', push_substring r data index eof = Ok r').
Proof.
  intros Hstr Hc Hreach. destruct (reachable_inv str Hstr capacity r d Hc Hreach) as [Hinv Hd].
  pose proof Hinv as [[[Hwf Hr Hcnt Hw Hq He] _ _ _ _ _] _]. split_and!.
  - rewrite Hd. unfold stream_out, bytes_read, bytes_written. rewrite Hq, <- Hcnt.
    rewrite <- !slice_prefix. pose proof (size_nonneg (_que (_output r))).
    by rewrite <- (slice_app str 0 (_readsize (_output r))) by lia.
  - exact He.
  - intros data index eof Hpre. destruct (push_spec str Hstr r data index eof (proj1 Hinv) Hpre) as (r' & ? & _).
    by exists r'.
Qed.

Lemma reassembler_delivers_prefix_witness :
  let str := [x61; x62; x63; x64; x65] in
  exists r, reachable str 8 r [] /\ [] ++ _que (stream_out r) = ztake (bytes_written (stream_out r)) str
    /\ bytes_written (stream_out r) = 5.
Proof.
  cbv zeta. eexists. assert (reachable [x61; x62; x63; x64; x65] 8
    (mkReassembler (mkByteStream [x61; x62; x63; x64; x65] 3 8 5 0 false true) 8 8 []) []) as Hr.
  { eapply rtc_l; [apply (rstep_push _ _ _ [x63; x64; x65] 2 true);
      [split; [|vm_compute; discriminate|reflexivity]; split_and!; vm_compute; done || discriminate|reflexivity]|].
    eapply rtc_l; [apply (rstep_push _ _ _ [x61; x62; x63] 0 false);
      [split; [|vm_compute; discriminate|done]; split_and!; vm_compute; done || discriminate|reflexivity]|].
    apply rtc_refl. }
  split; [exact Hr|]. split; [|reflexivity].
  apply (fun a b => reassembler_delivers_prefix [x61; x62; x63; x64; x65] 8 _ [] a b Hr);
    vm_compute; [done|split; done || discriminate].
Defined.



(** C12: No byte is left behind.  In an execution whose pushes end inside the
    window, as soon as every index of the stream has been received the whole stream
    has been written to the output: what was read followed by what is buffered is
    the stream, and nothing waits in the list beyond it. *)
Theorem reassembler_complete str capacity r d :
  size str < 18446744073709551616 -> 1 <= capacity < 18446744073709551616 -> in_window str capacity r d ->
  (forall i, 0 <= i < size str -> has r i) ->
  bytes_written (stream_out r) = size str /\ d ++ _que (stream_out r) = str /\
  forall i, has r i -> i < bytes_written (stream_out r).
Proof.
  intros Hstr Hc Hreach Hall.
  destruct (in_window_inv str Hstr capacity r d Hc Hreach) as ([Hinv _] & Hd & _ & _ & Hno).
  pose proof Hinv as [[Hwf Hr0 Hcnt Hw Hq He] _ _ _ _ _]. pose proof (size_nonneg (_que (_output r))).
  unfold stream_out, bytes_read, bytes_written in *.
  assert (_writtensize (_output r) = size str) as Hfull.
  { destruct (Z.eq_dec (_writtensize (_output r)) (size str)) as [|Hne]; [done|].
    exfalso. apply Hno, Hall. lia. }
  split_and!; [done| |].
  - rewrite Hd, Hq, <- slice_prefix, slice_app by lia. rewrite Hcnt, Hfull. apply slice_full.
  - intros i [Hi|(n & Hn & Hb)]; [unfold bytes_written in Hi; lia|].
    pose proof (node_ok_ends str n (chain_node_ok str _ _ _ n (inv_chain str r Hinv) Hn)). lia.
Qed.

Lemma reassembler_complete_witness :
  exists r, in_window [x61; x62; x63] 4 r [] /\ bytes_written (stream_out r) = 3 /\
    [] ++ _que (stream_out r) = [x61; x62; x63].
Proof.
  eexists. assert (in_window [x61; x62; x63] 4
    (mkReassembler (mkByteStream [x61; x62; x63] 1 4 3 0 false true) 4 4 []) []) as Hr.
  { eapply rtc_l; [apply (wstep_push _ _ _ [x62; x63] 1 true);
      [split; [|vm_compute; discriminate|reflexivity]; split_and!; vm_compute; done || discriminate
      |vm_compute; discriminate|reflexivity]|].
    eapply rtc_l; [apply (wstep_push _ _ _ [x61] 0 false);
      [split; [|vm_compute; discriminate|done]; split_and!; vm_compute; done || discriminate
      |vm_compute; discriminate|reflexivity]|].
    apply rtc_refl. }
  split; [exact Hr|].
  destruct (reassembler_complete [x61; x62; x63] 4 _ [] eq_refl ltac:(split; [discriminate|reflexivity]) Hr)
    as (Hw & Hq & _); [intros i Hi; left; exact Hi|]. split; [exact Hw|exact Hq].
Defined.

(** ** Outside the window, and the end-of-stream flag

    The runs below are executions of [push_substring] on excerpts of one stream
    that do not produce it, or that keep more than the capacity allows. *)

Definition read_out (r : StreamReassembler) (len : Z) : StreamReassembler * bytes :=
  let '(o, d) := ByteStream.read (_output r) len in (with_output r o, d).

(** A block larger than the room left in the output stream is written in part;
    [fetch_valid_data] then cuts the block at [_output.remaining_capacity()],
    which the write has just made zero, so the bytes written stay in the block and
    are written again: "abcdefgh" is delivered as "abcdefef". *)
Example fetch_partial_write_duplicates :
  (let! r := push_substring (construct_reassembler 4) [x61; x62; x63; x64] 0 false in
   let! r := push_substring r [x65; x66; x67; x68] 4 true in
   let '(r, d1) := read_out r 2 in
   let! r := push_substring r [] 4 false in
   let '(r, d2) := read_out r 2 in
   let! r := push_substring r [] 6 false in
   let '(r, d3) := read_out r 4 in
   Ok (d1 ++ d2 ++ d3))
  = Ok [x61; x62; x63; x64; x65; x66; x65; x66].
Proof. reflexivity. Qed.

(** The amount to store is capped by the free space before the bytes already
    stored are discounted: byte 6 of the second substring is inside the window and
    three bytes of the list are free, yet it is dropped. *)
Example insert_overlap_drops_byte :
  (let! r := push_substring (construct_reassembler 8) [x63; x64; x65; x66] 2 false in
   let! r := push_substring r [x62; x63; x64; x65; x66; x67] 1 false in
   let! r := push_substring r [x61] 0 false in
   Ok (bytes_written (stream_out r), unassembled_bytes r))
  = Ok (6, 0).
Proof. reflexivity. Qed.

(** The end-of-stream flag of a substring whose last byte is already stored is
    forgotten: all three bytes arrive, the input never ends. *)
Example insert_forgets_eof :
  (let! r := push_substring (construct_reassembler 8) [x63] 2 false in
   let! r := push_substring r [x62; x63] 1 true in
   let! r := push_substring r [x61] 0 false in
   Ok (bytes_written (stream_out r), input_ended (stream_out r)))
  = Ok (3, false).
Proof. reflexivity. Qed.

(** An assignment leaves what was there. *)
Example assignment_assigns_nothing :
  let r := assign_reassembler (construct_reassembler 4) (construct_reassembler 8) in
  _capacity r = 4 /\ remaining_capacity (stream_out r) = 4 /\
  assign_node (mkNode [x61] 0 0 false) (mkNode [x62] 7 7 true) = mkNode [x61] 0 0 false.
Proof. done. Qed.

(** The room for a substring is counted in the list alone, not in the list and the
    output together: with the output full ("abcd" unread, capacity 4) the byte after
    the window is not discarded but stored, so that five bytes are held. *)
Example probe_byte_exceeds_capacity :
  (let! r := push_substring (construct_reassembler 4) [x61; x62; x63; x64] 0 false in
   let! r := push_substring r [x65] 4 false in
   Ok (buffer_size (stream_out r), unassembled_bytes r))
  = Ok (4, 1).
Proof. reflexivity. Qed.

(** Bytes of the list that have been written to the output by a push that filled
    it stay in the list, and are counted as unassembled: 2, where none is. *)
Example written_bytes_stay_stored :
  (let! r := push_substring (construct_reassembler 4) [x63; x64] 2 false in
   let! r := push_substring r [x61; x62; x63; x64] 0 false in
   Ok (bytes_written (stream_out r), unassembled_bytes r, StreamReassembler.empty r))
  = Ok (4, 2, false).
Proof. reflexivity. Qed.
