(* ===== verification/Parser.v ===== *)
(** * Parser: buffers, the network-order parser and unparser

    Models [libsponge/util/buffer.hh], [buffer.cc], [parser.hh] and [parser.cc].
    A [Buffer] is its shared string and offset (the string is never modified
    through a buffer, so sharing it is sharing a value).  A method of [NetParser]
    is a computation of the monad [parser]: it reads and updates the parser, and
    may throw. *)

From Stdlib Require Import Strings.String.
From S2P Require Import Prelude.

(** ** Buffer *)

Record Buffer : Type := mkBuffer {
  _storage : option bytes;       (* shared_ptr<string> *)
  _starting_offset : Z
}.

Definition empty_buffer : Buffer := mkBuffer None 0.

Definition buffer_of (s : bytes) : Buffer := mkBuffer (Some s) 0.

(** [Buffer::str], and [copy] which is the same bytes in a new string. *)
Definition str (b : Buffer) : bytes :=
  match _storage b with
  | None => []
  | Some s => zdrop (_starting_offset b) s
  end.

(** [Buffer::at]: [string_view::at] throws out of range. *)
Definition at_ (b : Buffer) (n : Z) : result Z :=
  match str b !! Z.to_nat n with
  | Some c => Ok (Z_of_byte c)
  | None => Throw OutOfRange
  end.

Definition buffer_size (b : Buffer) : Z := size (str b).

Definition buffer_remove_prefix (b : Buffer) (n : Z) : result Buffer :=
  if buffer_size b <? n then Throw OutOfRange else
  let off := u64 (_starting_offset b + n) in
  match _storage b with
  | Some s => if off =? size s then Ok (mkBuffer None off) else Ok (mkBuffer (Some s) off)
  | None => Ok (mkBuffer None off)
  end.

(** ** BufferList and BufferViewList *)

Definition BufferList : Type := list Buffer.

Definition bufferlist_append (l other : BufferList) : BufferList := l ++ other.

Definition bufferlist_to_buffer (l : BufferList) : result Buffer :=
  match l with
  | [] => Ok empty_buffer
  | [b] => Ok b
  | _ => Throw (RuntimeError
      "BufferList: please use concatenate() to combine a multi-Buffer BufferList into one Buffer")
  end.

Definition concatenate (l : BufferList) : bytes := concat (map str l).

Definition bufferlist_size (l : BufferList) : Z :=
  fold_left (fun ret b => u64 (ret + buffer_size b)) l 0.

Lemma bufferlist_size_concat l : size (concatenate l) < 18446744073709551616 ->
  bufferlist_size l = size (concatenate l).
Proof.
  unfold bufferlist_size. intros Hl. enough (forall acc, 0 <= acc -> acc + size (concatenate l) < 18446744073709551616 ->
    fold_left (fun ret b => u64 (ret + buffer_size b)) l acc = acc + size (concatenate l)) as H by (apply H; lia).
  clear Hl. unfold concatenate. induction l as [|b l IH]; intros acc Ha Hl; simpl in *; [rewrite size_nil; lia|].
  rewrite size_app in Hl |- *. pose proof (size_nonneg (str b)). pose proof (size_nonneg (concat (map str l))).
  unfold buffer_size at 2. rewrite u64_small by ints. rewrite IH by lia. lia.
Qed.

(** [BufferList::remove_prefix]: each turn of the loop drops a buffer or ends. *)
Fixpoint bufferlist_remove_prefix (l : BufferList) (n : Z) : result BufferList :=
  if n <=? 0 then Ok l else
  match l with
  | [] => Throw OutOfRange
  | b :: rest =>
      if n <? size (str b)
      then let! b' := buffer_remove_prefix b n in Ok (b' :: rest)
      else bufferlist_remove_prefix rest (n - size (str b))
  end.

(** A [BufferViewList] is a deque of string views. *)
Definition BufferViewList : Type := list bytes.

Definition views_of (l : BufferList) : BufferViewList := map str l.

Fixpoint view_remove_prefix (l : BufferViewList) (n : Z) : result BufferViewList :=
  if n <=? 0 then Ok l else
  match l with
  | [] => Throw OutOfRange
  | v :: rest =>
      if n <? size v
      then Ok (zdrop n v :: rest)
      else view_remove_prefix rest (n - size v)
  end.

Definition view_size (l : BufferViewList) : Z :=
  fold_left (fun ret v => u64 (ret + size v)) l 0.

(** ** ParseResult *)

Inductive ParseResult : Type :=
| NoError
| BadChecksum
| PacketTooShort
| WrongIPVersion
| HeaderTooShort
| TruncatedPacket
| Unsupported.

#[export] Instance ParseResult_eq_dec : EqDecision ParseResult.
Proof. solve_decision. Defined.

(** [static_cast<size_t>(r)] *)
Definition parse_result_index (r : ParseResult) : nat :=
  match r with
  | NoError => 0 | BadChecksum => 1 | PacketTooShort => 2 | WrongIPVersion => 3
  | HeaderTooShort => 4 | TruncatedPacket => 5 | Unsupported => 6
  end%nat.

Definition as_string (r : ParseResult) : result string :=
  let _names := ["NoError"; "BadChecksum"; "PacketTooShort"; "WrongIPVersion";
                 "HeaderTooShort"; "TruncatedPacket"]%string in
  match _names !! parse_result_index r with
  | Some s => Ok s
  | None => Throw OutOfBounds
  end.

(** ** NetParser *)

Record NetParser : Type := mkNetParser {
  _buffer : Buffer;
  _error : ParseResult
}.

Definition net_parser (b : Buffer) : NetParser := mkNetParser b NoError.

Definition parser (A : Type) : Type := NetParser -> result (A * NetParser).

#[export] Instance parser_ret : MRet parser := fun A a p => Ok (a, p).
#[export] Instance parser_bind : MBind parser := fun A B f m p =>
  let! (a, p') := m p in f a p'.

(** [buffer()], [get_error()], [set_error()], [error()] *)
Definition get_buffer : parser Buffer := fun p => Ok (_buffer p, p).
Definition get_error : parser ParseResult := fun p => Ok (_error p, p).
Definition set_error (res : ParseResult) : parser unit := fun p => Ok (tt, mkNetParser (_buffer p) res).
Definition error : parser bool := e ← get_error; mret (negb (bool_decide (e = NoError))).

(** A throwing operation on the buffer. *)
Definition on_buffer (f : Buffer -> result Buffer) : parser unit := fun p =>
  let! b := f (_buffer p) in Ok (tt, mkNetParser b (_error p)).

Definition _check_size (n : Z) : parser unit :=
  b ← get_buffer;
  if buffer_size b <? n then set_error PacketTooShort else mret tt.

(** [for (i = 0; i < len; i++) { ret <<= 8; ret += uint8_t(_buffer.at(i)); }] in a
    type of [8 * len] bits. *)
Fixpoint parse_bytes (b : Buffer) (len todo : nat) (ret : Z) : result Z :=
  match todo with
  | O => Ok ret
  | S todo' =>
      let! c := at_ b (Z.of_nat (len - todo)) in
      parse_bytes b len todo' ((Z.shiftl ret 8 mod 2 ^ (8 * Z.of_nat len) + c) mod 2 ^ (8 * Z.of_nat len))
  end.

Definition _parse_int (len : nat) : parser Z :=
  _ ← _check_size (Z.of_nat len);
  e ← error;
  if (e : bool) then mret 0 else
  b ← get_buffer;
  ret ← (fun p => let! v := parse_bytes b len len 0 in Ok (v, p));
  _ ← on_buffer (fun b => buffer_remove_prefix b (Z.of_nat len));
  mret ret.

Definition u32_ : parser Z := _parse_int 4.
Definition u16_ : parser Z := _parse_int 2.
Definition u8_ : parser Z := _parse_int 1.

Definition remove_prefix (n : Z) : parser unit :=
  _ ← _check_size n;
  e ← error;
  if (e : bool) then mret tt else on_buffer (fun b => buffer_remove_prefix b n).

(** ** NetUnparser *)

(** [for (i = 0; i < len; ++i) s.push_back((val >> ((len - i - 1) * 8)) & 0xff)] *)
Fixpoint unparse_bytes (todo : nat) (val : Z) : bytes :=
  match todo with
  | O => []
  | S todo' => byte_of_Z (Z.land (Z.shiftr val (Z.of_nat todo' * 8)) 255) :: unparse_bytes todo' val
  end.

Definition _unparse_int (len : nat) (s : bytes) (val : Z) : bytes := s ++ unparse_bytes len val.

Definition put_u32 (s : bytes) (val : Z) : bytes := _unparse_int 4 s val.
Definition put_u16 (s : bytes) (val : Z) : bytes := _unparse_int 2 s val.
Definition put_u8 (s : bytes) (val : Z) : bytes := _unparse_int 1 s val.

(** [ret.resize(n)], which the serializers end with. *)
Definition resize (s : bytes) (n : Z) : bytes := ztake n (s ++ replicate (Z.to_nat (n - size s)) x00).

Lemma resize_pad s n : size s <= n -> resize s n = s ++ replicate (Z.to_nat (n - size s)) x00.
Proof.
  intros Hn. unfold resize. apply ztake_all. rewrite size_app. unfold size at 2.
  rewrite length_replicate. lia.
Qed.

(** ** Reasoning about parsers

    [p ⊢ s]: the parser [p] has no error and the bytes [s] left. *)
Definition buf_ok (b : Buffer) : Prop :=
  0 <= _starting_offset b < 18446744073709551616 /\
  match _storage b with
  | Some s => _starting_offset b <= size s < 18446744073709551616
  | None => True
  end.

Definition rest (p : NetParser) (s : bytes) : Prop :=
  buf_ok (_buffer p) /\ str (_buffer p) = s /\ _error p = NoError.

(** [parses m s v s']: on a parser with bytes [s] left, [m] returns [v] and leaves
    the bytes [s']. *)
Definition parses {A} (m : parser A) (s : bytes) (v : A) (s' : bytes) : Prop :=
  forall p, rest p s -> exists p', m p = Ok (v, p') /\ rest p' s'.

(** [fails m]: on a parser without error but too few bytes, [m] sets the error. *)
Definition failed (p : NetParser) : Prop := buf_ok (_buffer p) /\ _error p <> NoError.

Lemma rest_net_parser s : size s < 18446744073709551616 -> rest (net_parser (buffer_of s)) s.
Proof.
  intros. unfold rest, net_parser, buffer_of, buf_ok. simpl. pose proof (size_nonneg s).
  split_and!; try lia; done.
Qed.

Lemma parses_ret {A} (v : A) s : parses (mret v) s v s.
Proof. intros p Hp. by exists p. Qed.

Lemma parses_bind {A B} (m : parser A) (f : A -> parser B) s a s1 v s' :
  parses m s a s1 -> parses (f a) s1 v s' -> parses (m ≫= f) s v s'.
Proof.
  intros Hm Hf p Hp. destruct (Hm p Hp) as (p1 & H1 & Hp1). destruct (Hf p1 Hp1) as (p2 & H2 & Hp2).
  exists p2. split; [|done]. unfold mbind, parser_bind. by rewrite H1.
Qed.

Lemma parses_bind_buffer {B} (f : Buffer -> parser B) s v s' :
  (forall b, str b = s -> parses (f b) s v s') -> parses (get_buffer ≫= f) s v s'.
Proof. intros Hf p Hp. pose proof Hp as (_ & Hs & _). by apply (Hf (_buffer p) Hs p). Qed.

Lemma parses_error s : parses error s false s.
Proof.
  intros p (? & ? & He). exists p. unfold error, mbind, parser_bind, get_error. simpl.
  rewrite He. by split.
Qed.

Lemma parses_get_error s : parses get_error s NoError s.
Proof. intros p Hp. exists p. split; [|done]. unfold get_error. by destruct Hp as (_ & _ & ->). Qed.

Lemma parses_check_size n s : n <= size s -> parses (_check_size n) s tt s.
Proof.
  intros Hn p Hp. exists p. split; [|done]. destruct Hp as (_ & Hs & _).
  unfold _check_size, mbind, parser_bind, get_buffer. simpl.
  unfold buffer_size. rewrite Hs. destruct (Z.ltb_spec (size s) n); [lia|done].
Qed.

(** [Buffer::remove_prefix] drops bytes of the view, and does not throw when there
    are enough of them. *)
Lemma buffer_remove_prefix_spec b n : buf_ok b -> 0 <= n <= size (str b) ->
  exists b', buffer_remove_prefix b n = Ok b' /\ buf_ok b' /\ str b' = zdrop n (str b).
Proof.
  intros [Ho Hs] Hn. unfold buffer_remove_prefix, buffer_size. destruct b as [[s|] off]; simpl in *.
  - unfold str in *. simpl in *. rewrite size_zdrop in Hn |- * by lia. case_cmp; [lia|].
    rw64. case_cmp; eexists; (split; [done|]); unfold buf_ok, str; simpl.
    + split_and!; try done; try lia. rewrite zdrop_zdrop by lia. symmetry. apply zdrop_all. lia.
    + split_and!; try done; try lia. by rewrite zdrop_zdrop by lia.
  - unfold str in *. simpl in *. case_cmp; [rewrite size_nil in *; lia|]. eexists. split; [done|].
    unfold buf_ok. simpl. split_and!; try done; try apply u64_range. by rewrite zdrop_all by (rewrite size_nil in *; lia).
Qed.

Lemma parses_remove_buffer n s : 0 <= n <= size s ->
  parses (on_buffer (fun b => buffer_remove_prefix b n)) s tt (zdrop n s).
Proof.
  intros Hn p (Hb & Hs & He). destruct (buffer_remove_prefix_spec (_buffer p) n Hb) as (b' & Hb' & Hok & Hs').
  { by rewrite Hs. }
  exists (mkNetParser b' (_error p)). unfold on_buffer. rewrite Hb'. simpl. split; [done|].
  split_and!; [done| |done]. simpl. by rewrite Hs', Hs.
Qed.

Lemma parses_remove_prefix n s : 0 <= n <= size s -> parses (remove_prefix n) s tt (zdrop n s).
Proof.
  intros Hn. unfold remove_prefix.
  eapply parses_bind; [apply parses_check_size; lia|].
  eapply parses_bind; [apply parses_error|]. simpl. by apply parses_remove_buffer.
Qed.

(** An integer that [_parse_int] returns is one of its type. *)
Lemma parse_bytes_range b len todo ret v : 0 <= ret < 2 ^ (8 * Z.of_nat len) ->
  parse_bytes b len todo ret = Ok v -> 0 <= v < 2 ^ (8 * Z.of_nat len).
Proof.
  revert ret. induction todo as [|todo IH]; intros ret Hret H; cbn [parse_bytes] in H; [by simplify_eq|].
  apply rbind_ok_inv in H as (c & _ & H). apply IH in H; [done|]. apply Z.mod_pos_bound. lia.
Qed.

Lemma parse_int_range len p v p' : _parse_int len p = Ok (v, p') -> 0 <= v < 2 ^ (8 * Z.of_nat len).
Proof.
  assert (0 <= 0 < 2 ^ (8 * Z.of_nat len)) as H0 by (split; [lia|apply Z.pow_pos_nonneg; lia]).
  unfold _parse_int, mbind, parser_bind. intros H. repeat (apply rbind_ok_inv in H as ([? ?] & ? & H)).
  case_match; [unfold mret, parser_ret in H; by simplify_eq|]. apply rbind_ok_inv in H as ([? ?] & _ & H).
  apply rbind_ok_inv in H as ([? ?] & Hw & H). apply rbind_ok_inv in Hw as (? & Hx & Hw).
  apply rbind_ok_inv in H as ([? ?] & _ & H). unfold mret, parser_ret in H. simplify_eq.
  by eapply parse_bytes_range.
Qed.

(** ** Integers in network byte order *)

(** The value of a big-endian byte string, with what has been read before it. *)
Fixpoint be_acc (ret : Z) (l : bytes) : Z :=
  match l with
  | [] => ret
  | c :: l' => be_acc (ret * 256 + Z_of_byte c) l'
  end.

Lemma size_unparse n v : size (unparse_bytes n v) = Z.of_nat n.
Proof. induction n as [|n IH]; [done|]. simpl unparse_bytes. rewrite size_cons, IH. lia. Qed.

Lemma pow256_succ n : 256 ^ Z.of_nat (S n) = 256 * 256 ^ Z.of_nat n.
Proof. rewrite Nat2Z.inj_succ, Z.pow_succ_r by lia. done. Qed.

Lemma pow256_pos n : 0 < 256 ^ Z.of_nat n.
Proof. apply Z.pow_pos_nonneg; lia. Qed.

Lemma be_acc_unparse n ret v :
  be_acc ret (unparse_bytes n v) = ret * 256 ^ Z.of_nat n + v mod 256 ^ Z.of_nat n.
Proof.
  revert ret. induction n as [|n IH]; intros ret; simpl unparse_bytes; simpl be_acc.
  { rewrite Z.pow_0_r, Z.mod_1_r. lia. }
  rewrite IH, Z_of_byte_of_Z, pow256_succ. pose proof (pow256_pos n).
  replace (256 * 256 ^ Z.of_nat n) with (256 ^ Z.of_nat n * 256) by lia.
  rewrite Z.rem_mul_r by lia.
  rewrite Z.shiftr_div_pow2 by lia. replace (2 ^ (Z.of_nat n * 8)) with (256 ^ Z.of_nat n)
    by (change 256 with (2 ^ 8); rewrite <- Z.pow_mul_r by lia; f_equal; lia).
  change 255 with (Z.ones 8). rewrite Z.land_ones by lia. change (2 ^ 8) with 256.
  rewrite u8_small by (unfold is_u8; apply Z.mod_pos_bound; lia). lia.
Qed.

Lemma parse_bytes_spec b len l : forall todo ret pre suf,
  str b = pre ++ l ++ suf -> size pre = Z.of_nat (len - todo) -> size l = Z.of_nat todo ->
  (todo <= len)%nat -> 0 <= ret < 256 ^ Z.of_nat (len - todo) ->
  parse_bytes b len todo ret = Ok (be_acc ret l).
Proof.
  induction l as [|c l IH]; intros todo ret pre suf Hs Hp Hl Hle Hr.
  - destruct todo; [done|]. rewrite size_nil in Hl. lia.
  - rewrite size_cons in Hl. pose proof (size_nonneg l). destruct todo as [|todo]; [lia|].
    cbn [parse_bytes be_acc]. unfold at_. rewrite Hs.
    replace (Z.to_nat (Z.of_nat (len - S todo))) with (List.length pre) by (unfold size in Hp; lia).
    rewrite lookup_app_r, Nat.sub_diag by lia. simpl. pose proof (Z_of_byte_range c) as Hc.
    assert (256 ^ Z.of_nat (len - todo) = 256 * 256 ^ Z.of_nat (len - S todo)) as Hpow.
    { rewrite <- pow256_succ. do 2 f_equal. lia. }
    assert (256 ^ Z.of_nat (len - todo) <= 256 ^ Z.of_nat len) by (apply Z.pow_le_mono_r; lia).
    replace (2 ^ (8 * Z.of_nat len)) with (256 ^ Z.of_nat len)
      by (change 256 with (2 ^ 8); by rewrite <- Z.pow_mul_r by lia).
    rewrite Z.shiftl_mul_pow2 by lia. change (2 ^ 8) with 256. unfold is_u8 in Hc.
    rewrite (Z.mod_small (ret * 256)) by lia. rewrite Z.mod_small by lia.
    apply IH with (pre := pre ++ [c]) (suf := suf); try lia.
    + by rewrite Hs, <- app_assoc.
    + autorewrite with zlists. lia.
Qed.

Lemma parses_int len l suf : size l = Z.of_nat len -> parses (_parse_int len) (l ++ suf) (be_acc 0 l) suf.
Proof.
  intros Hl. unfold _parse_int. pose proof (size_nonneg suf).
  eapply parses_bind; [apply parses_check_size; autorewrite with zlists; lia|].
  eapply parses_bind; [apply parses_error|]. simpl.
  intros p Hp. pose proof Hp as (Hb & Hs & He).
  destruct (parses_remove_buffer (Z.of_nat len) (l ++ suf)
    ltac:(autorewrite with zlists; lia) p Hp) as (p' & Hp' & Hrest).
  exists p'. unfold mbind, parser_bind, get_buffer. simpl.
  rewrite (parse_bytes_spec (_buffer p) len l len 0 [] suf);
    rewrite ?Nat.sub_diag; try done; try lia.
  simpl. rewrite Hp'. simpl. split; [done|]. rewrite <- Hl in Hrest.
  by rewrite zdrop_app in Hrest.
Qed.

Lemma parses_unparse len v suf : 0 <= v < 256 ^ Z.of_nat len ->
  parses (_parse_int len) (unparse_bytes len v ++ suf) v suf.
Proof.
  intros Hv. replace v with (be_acc 0 (unparse_bytes len v)) at 2.
  - apply parses_int, size_unparse.
  - rewrite be_acc_unparse. rewrite Z.mod_small by lia. lia.
Qed.

Lemma parses_u8 v suf : is_u8 v -> parses u8_ (unparse_bytes 1 v ++ suf) v suf.
Proof. intros. by apply parses_unparse. Qed.

Lemma parses_u16 v suf : is_u16 v -> parses u16_ (unparse_bytes 2 v ++ suf) v suf.
Proof. intros. by apply parses_unparse. Qed.

Lemma parses_u32 v suf : is_u32 v -> parses u32_ (unparse_bytes 4 v ++ suf) v suf.
Proof. intros. by apply parses_unparse. Qed.

Create HintDb parse discriminated.
#[export] Hint Resolve parses_u8 parses_u16 parses_u32 parses_ret parses_get_error : parse.

(** [parse_step] runs one field of a parser on a string that starts with it. *)
Ltac parse_step := eapply parses_bind; [solve [eauto with parse]|cbv beta].

(** ** Too few bytes *)

Lemma check_size_short n p : size (str (_buffer p)) < n ->
  _check_size n p = Ok (tt, mkNetParser (_buffer p) PacketTooShort).
Proof.
  intros. unfold _check_size, mbind, parser_bind, get_buffer. simpl.
  unfold buffer_size. destruct (Z.ltb_spec (size (str (_buffer p))) n); [done|lia].
Qed.

(** ** Properties *)

(** Integers survive the wire: an integer of one, two or four bytes written by [NetUnparser] and
    read back by [NetParser] is unchanged, the parser consumes exactly its bytes,
    reports no error, and does not throw. *)
Theorem netparser_roundtrip (len : nat) (v : Z) (s suf : bytes) :
  (len = 1 \/ len = 2 \/ len = 4)%nat -> 0 <= v < 256 ^ Z.of_nat len ->
  size (_unparse_int len s v ++ suf) < 18446744073709551616 ->
  exists p, (let! (_, p) := remove_prefix (size s) (net_parser (buffer_of (_unparse_int len s v ++ suf))) in
             _parse_int len p) = Ok (v, p) /\
            str (_buffer p) = suf /\ _error p = NoError.
Proof.
  intros Hlen Hv Hsz. unfold _unparse_int in *. rewrite <- app_assoc in *.
  pose proof (rest_net_parser _ Hsz) as Hp. pose proof (size_nonneg s).
  destruct (parses_remove_prefix (size s) (s ++ unparse_bytes len v ++ suf)
    ltac:(autorewrite with zlists; pose proof (size_nonneg (unparse_bytes len v)); pose proof (size_nonneg suf); lia)
    _ Hp) as (p1 & H1 & Hp1). rewrite zdrop_app in Hp1.
  destruct (parses_unparse len v suf Hv p1 Hp1) as (p2 & H2 & _ & Hs & He).
  exists p2. split; [|done]. rewrite H1. simpl. exact H2.
Qed.

Lemma netparser_roundtrip_witness :
  exists p, (let! (_, p) := remove_prefix 1 (net_parser (buffer_of (_unparse_int 2 [x61] 4660 ++ [x62]))) in
             _parse_int 2 p) = Ok (4660, p) /\
            str (_buffer p) = [x62] /\ _error p = NoError.
Proof.
  apply (netparser_roundtrip 2 4660 [x61] [x62]); [auto|lia|reflexivity].
Defined.

(** A parser that runs out of bytes reports it: reading an integer from too few
    bytes sets [PacketTooShort], returns 0, consumes nothing, and no later read or
    [remove_prefix] consumes or returns anything else. *)
Theorem netparser_short p len n : size (str (_buffer p)) < Z.of_nat len ->
  exists p1, _parse_int len p = Ok (0, p1) /\ _error p1 = PacketTooShort /\ _buffer p1 = _buffer p /\
    (forall m, exists p2, _parse_int m p1 = Ok (0, p2) /\ _error p2 = PacketTooShort /\ _buffer p2 = _buffer p) /\
    (exists p3, remove_prefix n p1 = Ok (tt, p3) /\ _error p3 = PacketTooShort /\ _buffer p3 = _buffer p).
Proof.
  intros Hs. exists (mkNetParser (_buffer p) PacketTooShort).
  assert (forall m q, _error q = PacketTooShort ->
    _check_size m q = Ok (tt, mkNetParser (_buffer q) PacketTooShort)) as Hc.
  { intros m [b e] He. simpl in He. subst e. unfold _check_size, mbind, parser_bind, get_buffer. simpl.
    by destruct (buffer_size b <? m). }
  assert (forall m q, _error q = PacketTooShort ->
    _parse_int m q = Ok (0, mkNetParser (_buffer q) PacketTooShort)) as Hi.
  { intros m q He. unfold _parse_int, mbind, parser_bind. by rewrite (Hc _ q He). }
  split_and!; try done.
  - unfold _parse_int, mbind, parser_bind. by rewrite check_size_short.
  - intros m. eexists. by rewrite Hi.
  - eexists. unfold remove_prefix, mbind, parser_bind. by rewrite Hc.
Qed.

Lemma netparser_short_witness :
  exists p1, _parse_int 4 (net_parser (buffer_of [x61; x62])) = Ok (0, p1) /\ _error p1 = PacketTooShort.
Proof.
  destruct (netparser_short (net_parser (buffer_of [x61; x62])) 4 7) as (p1 & H1 & H2 & _);
    [reflexivity|]. exists p1. split; [exact H1|exact H2].
Defined.

(** [as_string] has no name for [Unsupported]: the array has six entries and the
    index is six. *)
Example as_string_unsupported : as_string Unsupported = Throw OutOfBounds.
Proof. reflexivity. Qed.
