(* ===== verification/Checksum.v ===== *)
(** * Checksum: the Internet checksum

    Models the class [InternetChecksum] of [libsponge/util/util.hh] and
    [util.cc]: a 32-bit accumulator fed byte by byte, folded to 16 bits and
    complemented.  The loops are shown equal to closed forms modulo 65535, from
    which the two facts the packet formats rely on follow: a packet completed with
    its checksum verifies, and a corrupted word is noticed. *)

From S2P Require Import Prelude Parser.

(** ** The class *)

Record InternetChecksum : Type := mkChecksum {
  _sum : Z;                  (* uint32_t *)
  _parity : bool
}.

Definition checksum (initial_sum : Z) : InternetChecksum := mkChecksum initial_sum false.

Definition add_byte (c : InternetChecksum) (b : byte) : InternetChecksum :=
  let val := Z_of_byte b in
  let val := if negb (_parity c) then u16 (Z.shiftl val 8) else val in
  mkChecksum (u32 (_sum c + val)) (negb (_parity c)).

Definition add (c : InternetChecksum) (data : bytes) : InternetChecksum :=
  fold_left add_byte data c.

(** [while (ret > 0xffff) ret = (ret >> 16) + (ret & 0xffff)]: a 32-bit value
    leaves the loop after at most two turns. *)
Fixpoint fold_carry (fuel : nat) (ret : Z) : Z :=
  match fuel with
  | O => ret
  | S fuel =>
      if 65535 <? ret
      then fold_carry fuel (u32 (Z.shiftr ret 16 + Z.land ret 65535))
      else ret
  end.

Definition value (c : InternetChecksum) : Z :=
  let ret := fold_carry 3 (_sum c) in
  u16 (Z.lnot ret).

(** ** Closed forms *)

(** The sum of the big-endian 16-bit words of a string; [parity] tells that the
    first byte is the low half of a word. *)
Fixpoint word_sum (parity : bool) (data : bytes) : Z :=
  match data with
  | [] => 0
  | b :: data' => (if parity then Z_of_byte b else 256 * Z_of_byte b) + word_sum (negb parity) data'
  end.

(** The representative of [s] modulo 65535 that one's complement addition
    computes: 0 only for 0, otherwise between 1 and 65535. *)
Definition ones (s : Z) : Z := if s =? 0 then 0 else 1 + (s - 1) mod 65535.

Definition odd_parity (parity : bool) (data : bytes) : bool := xorb parity (Nat.odd (length data)).

Lemma word_sum_range parity data : 0 <= word_sum parity data <= 65280 * size data.
Proof.
  revert parity. induction data as [|b data IH]; intros parity; simpl; [done|].
  rewrite size_cons. specialize (IH (negb parity)). pose proof (Z_of_byte_range b). unfold is_u8 in *.
  destruct parity; lia.
Qed.

Lemma add_spec c data :
  add c data = mkChecksum (if decide (data = []) then _sum c else u32 (_sum c + word_sum (_parity c) data))
                 (odd_parity (_parity c) data).
Proof.
  revert c. induction data as [|b data IH]; intros [s p]; simpl.
  - unfold odd_parity. simpl. by rewrite xorb_false_r.
  - unfold add in *. simpl. rewrite IH. simpl. unfold odd_parity. f_equal.
    + assert (u16 (Z.shiftl (Z_of_byte b) 8) = 256 * Z_of_byte b) as Hsh.
      { rewrite Z.shiftl_mul_pow2 by lia. pose proof (Z_of_byte_range b). ints. }
      case_decide; [subst|]; destruct p; simpl; rewrite ?Hsh; ints.
    + cbn [length]. rewrite Nat.odd_succ, <- Nat.negb_odd. by destruct p, (Nat.odd (length data)).
Qed.

Lemma word_sum_app parity d1 d2 :
  word_sum parity (d1 ++ d2) = word_sum parity d1 + word_sum (odd_parity parity d1) d2.
Proof.
  revert parity. induction d1 as [|b d1 IH]; intros parity; simpl.
  - unfold odd_parity. simpl. by rewrite xorb_false_r.
  - rewrite IH. replace (odd_parity (negb parity) d1) with (odd_parity parity (b :: d1)); [lia|].
    unfold odd_parity. cbn [length]. rewrite Nat.odd_succ, <- Nat.negb_odd.
    by destruct parity, (Nat.odd (length d1)).
Qed.

Lemma word_sum_u16 v : is_u16 v -> word_sum false (unparse_bytes 2 v) = v.
Proof.
  intros Hv. cbn [unparse_bytes word_sum negb]. rewrite !Z_of_byte_of_Z.
  change (Z.of_nat 1 * 8) with 8. change (Z.of_nat 0 * 8) with 0.
  change 255 with (Z.ones 8). rewrite !Z.land_ones, Z.shiftr_0_r, Z.shiftr_div_pow2 by lia.
  change (2 ^ 8) with 256. ints.
Qed.

Lemma word_sum_u32 v : is_u32 v ->
  word_sum false (unparse_bytes 4 v) = Z.shiftr v 16 + Z.land v 65535.
Proof.
  intros Hv. cbn [unparse_bytes word_sum negb]. rewrite !Z_of_byte_of_Z.
  change (Z.of_nat 3 * 8) with 24. change (Z.of_nat 2 * 8) with 16.
  change (Z.of_nat 1 * 8) with 8. change (Z.of_nat 0 * 8) with 0.
  change 65535 with (Z.ones 16). change 255 with (Z.ones 8).
  rewrite !Z.land_ones, Z.shiftr_0_r, !Z.shiftr_div_pow2 by lia.
  change (2 ^ 8) with 256. change (2 ^ 16) with 65536. change (2 ^ 24) with 16777216. ints.
Qed.

Lemma fold_carry_arith s : Z.shiftr s 16 + Z.land s 65535 = s / 65536 + s mod 65536.
Proof.
  change 65535 with (Z.ones 16). by rewrite Z.land_ones, Z.shiftr_div_pow2 by lia.
Qed.

Lemma fold_carry_step s : is_u32 s -> 65535 < s ->
  ones (u32 (Z.shiftr s 16 + Z.land s 65535)) = ones s /\
  0 < u32 (Z.shiftr s 16 + Z.land s 65535) <= Z.max 65535 (s / 65536 + 65535).
Proof.
  intros Hs Hlt. rewrite fold_carry_arith. unfold ones. repeat case_cmp; ints.
Qed.

Lemma fold_carry_spec s : is_u32 s -> fold_carry 3 s = ones s.
Proof.
  intros Hs. assert (forall x, 0 <= x <= 65535 -> ones x = x) as Hsmall
    by (intros; unfold ones; case_cmp; lia).
  cbn [fold_carry]. case_cmp; [|symmetry; apply Hsmall; ints].
  destruct (fold_carry_step s Hs) as [<- H1]; [done|]. set (s1 := u32 _) in *. clearbody s1.
  case_cmp; [|symmetry; apply Hsmall; ints].
  destruct (fold_carry_step s1) as [<- H2]; [ints|done|]. set (s2 := u32 _) in *.
  assert (s2 <= 65535).
  { unfold s2. rewrite fold_carry_arith. ints. }
  case_cmp; [lia|]. symmetry. apply Hsmall. lia.
Qed.

Lemma value_add initial data :
  0 <= initial -> initial + word_sum false data < 4294967296 ->
  value (add (checksum initial) data) = 65535 - ones (initial + word_sum false data).
Proof.
  intros Hi Hs. pose proof (word_sum_range false data). unfold value. rewrite add_spec. cbn [_sum _parity checksum].
  replace (if decide (data = []) then initial else u32 (initial + word_sum false data))
    with (initial + word_sum false data).
  - rewrite fold_carry_spec by ints. unfold Z.lnot, ones. case_cmp; ints.
  - case_decide; [subst; simpl; lia|]. rewrite u32_small; [done|ints].
Qed.

Lemma ones_complement s : 0 <= s -> ones (s + (65535 - ones s)) = 65535.
Proof.
  intros Hs. unfold ones at 2. case_cmp; [by subst|].
  pose proof (Z.div_mod (s - 1) 65535 ltac:(lia)) as E. pose proof (Z.mod_pos_bound (s - 1) 65535).
  set (q := (s - 1) / 65535) in *. set (r := (s - 1) mod 65535) in *. clearbody q r.
  unfold ones. case_cmp; [lia|].
  replace (s + (65535 - (1 + r)) - 1) with (65534 + q * 65535) by lia.
  rewrite Z_mod_plus_full. done.
Qed.

Lemma word_sum_field pre suf v : Nat.even (length pre) = true -> is_u16 v ->
  word_sum false (pre ++ unparse_bytes 2 v ++ suf) = word_sum false (pre ++ unparse_bytes 2 0 ++ suf) + v.
Proof.
  intros Hev Hv. rewrite !word_sum_app. unfold odd_parity. rewrite <- Nat.negb_even, Hev. cbn [negb xorb].
  rewrite !word_sum_u16 by ints. simpl length. lia.
Qed.

Lemma word_sum_zero_field pre suf :
  0 <= word_sum false (pre ++ unparse_bytes 2 0 ++ suf) <= 65280 * (size pre + size suf).
Proof.
  rewrite !word_sum_app. pose proof (word_sum_range false pre).
  pose proof (word_sum_range (odd_parity (odd_parity false pre) (unparse_bytes 2 0)) suf).
  enough (word_sum (odd_parity false pre) (unparse_bytes 2 0) = 0) by lia.
  by destruct (odd_parity false pre).
Qed.

Lemma field_verifies initial pre suf :
  Nat.even (length pre) = true -> 0 <= initial ->
  initial + 65280 * (size pre + size suf) + 65535 < 4294967296 ->
  let c := value (add (checksum initial) (pre ++ unparse_bytes 2 0 ++ suf)) in
  is_u16 c /\ value (add (checksum initial) (pre ++ unparse_bytes 2 c ++ suf)) = 0.
Proof.
  intros Hev Hi Hsz c.
  pose proof (word_sum_range false (pre ++ unparse_bytes 2 0 ++ suf)) as Hr.
  assert (word_sum false (pre ++ unparse_bytes 2 0 ++ suf) <= 65280 * (size pre + size suf)) as Hle
    by apply word_sum_zero_field.
  assert (c = 65535 - ones (initial + word_sum false (pre ++ unparse_bytes 2 0 ++ suf))) as Hc
    by (apply value_add; lia).
  assert (is_u16 c) as Hu by (rewrite Hc; unfold ones; case_cmp; ints).
  split; [done|]. pose proof (word_sum_field pre suf c Hev Hu) as E. unfold is_u16 in Hu.
  rewrite value_add, E by lia.
  rewrite Z.add_assoc, Hc, ones_complement by lia. done.
Qed.

(** ** Properties *)

(** C36: [InternetChecksum] computes the Internet checksum: over a string whose
    word sum does not overflow the 32-bit accumulator, [value] is the one's
    complement of the one's-complement sum of the 16-bit words (the loop of
    [value] ends for every accumulator). *)
Theorem checksum_value initial data :
  0 <= initial -> initial + word_sum false data < 4294967296 ->
  value (add (checksum initial) data) = 65535 - ones (initial + word_sum false data).
Proof. apply value_add. Qed.

Lemma checksum_value_witness :
  value (add (checksum 0) [x00; x01; xf2; x03]) = 65535 - ones (0 + word_sum false [x00; x01; xf2; x03]).
Proof. apply checksum_value; [lia|reflexivity]. Defined.

(** A completed packet verifies: the checksum computed with a zero checksum
    field, stored in that (16-bit aligned) field, makes the checksum of the whole
    string 0, so the receiver's test passes. *)
Theorem checksum_verifies initial pre suf :
  Nat.even (length pre) = true -> 0 <= initial ->
  initial + 65280 * (size pre + size suf) + 65535 < 4294967296 ->
  let c := value (add (checksum initial) (pre ++ unparse_bytes 2 0 ++ suf)) in
  is_u16 c /\ value (add (checksum initial) (pre ++ unparse_bytes 2 c ++ suf)) = 0.
Proof. apply field_verifies. Qed.

Lemma checksum_verifies_witness :
  let c := value (add (checksum 7) ([x12; x34] ++ unparse_bytes 2 0 ++ [xff])) in
  is_u16 c /\ value (add (checksum 7) ([x12; x34] ++ unparse_bytes 2 c ++ [xff])) = 0.
Proof. apply checksum_verifies; [reflexivity|lia|reflexivity]. Defined.

(** A corrupted word is noticed: if a string verifies and one of its aligned
    16-bit words is changed, other than between the two representations 0 and
    0xffff of zero, the changed string does not verify. *)
Theorem checksum_detects initial pre suf v v' :
  Nat.even (length pre) = true -> 0 <= initial ->
  initial + 65280 * (size pre + size suf) + 65535 < 4294967296 ->
  is_u16 v -> is_u16 v' -> v <> v' -> Z.abs (v - v') <> 65535 ->
  value (add (checksum initial) (pre ++ unparse_bytes 2 v ++ suf)) = 0 ->
  value (add (checksum initial) (pre ++ unparse_bytes 2 v' ++ suf)) <> 0.
Proof.
  intros Hev Hi Hsz Hv Hv' Hne Habs.
  pose proof (word_sum_field pre suf v Hev Hv) as E. pose proof (word_sum_field pre suf v' Hev Hv') as E'.
  assert (0 <= word_sum false (pre ++ unparse_bytes 2 0 ++ suf) <= 65280 * (size pre + size suf)) as Hle
    by apply word_sum_zero_field.
  rewrite !value_add by ints. rewrite E, E'. unfold ones. unfold is_u16 in *.
  repeat case_cmp; lia.
Qed.

Lemma checksum_detects_witness :
  value (add (checksum 0) ([] ++ unparse_bytes 2 65535 ++ [])) = 0 /\
  value (add (checksum 0) ([] ++ unparse_bytes 2 4660 ++ [])) <> 0.
Proof.
  split; [reflexivity|].
  apply (checksum_detects 0 [] [] 65535 4660); try reflexivity; unfold is_u16; lia.
Defined.
