(* ===== verification/TCPSegment.v ===== *)
(** * TCPSegment: the TCP header and segment

    Models [libsponge/tcp_helpers/tcp_header.hh], [tcp_header.cc],
    [tcp_segment.hh], [tcp_segment.cc] and the constants of [tcp_config.hh]. *)

From Stdlib Require Import Strings.String.
From S2P Require Import Prelude WrappingIntegers Parser Checksum.

(** ** TCPConfig *)

Definition DEFAULT_CAPACITY : Z := 64000.
Definition MAX_PAYLOAD_SIZE : Z := 1000.
Definition TIMEOUT_DFLT : Z := 1000.
Definition MAX_RETX_ATTEMPTS : Z := 8.

Record TCPConfig : Type := mkTCPConfig {
  rt_timeout : Z;              (* uint16_t *)
  recv_capacity : Z;
  send_capacity : Z;
  fixed_isn : option WrappingInt32
}.

Definition default_config : TCPConfig :=
  mkTCPConfig TIMEOUT_DFLT DEFAULT_CAPACITY DEFAULT_CAPACITY None.

(** ** TCPHeader *)

Definition TCP_LENGTH : Z := 20.

Record TCPHeader : Type := mkTCPHeader {
  sport : Z;
  dport : Z;
  seqno : WrappingInt32;
  ackno : WrappingInt32;
  doff : Z;
  urg : bool;
  ack : bool;
  psh : bool;
  rst : bool;
  syn : bool;
  fin : bool;
  win : Z;
  cksum : Z;
  uptr : Z
}.

(** The default member initializers. *)
Definition default_header : TCPHeader :=
  mkTCPHeader 0 0 (mkWrappingInt32 0) (mkWrappingInt32 0) (TCP_LENGTH / 4)
    false false false false false false 0 0 0.

Definition with_cksum (h : TCPHeader) (c : Z) : TCPHeader :=
  mkTCPHeader (sport h) (dport h) (seqno h) (ackno h) (doff h) (urg h) (ack h) (psh h)
    (rst h) (syn h) (fin h) (win h) c (uptr h).

Definition with_ports (h : TCPHeader) (sp dp : Z) : TCPHeader :=
  mkTCPHeader sp dp (seqno h) (ackno h) (doff h) (urg h) (ack h) (psh h)
    (rst h) (syn h) (fin h) (win h) (cksum h) (uptr h).

(** [head.seqno = s; head.syn = syn; head.fin = fin] *)
Definition with_seq (h : TCPHeader) (s : WrappingInt32) (sy fi : bool) : TCPHeader :=
  mkTCPHeader (sport h) (dport h) s (ackno h) (doff h) (urg h) (ack h) (psh h)
    (rst h) sy fi (win h) (cksum h) (uptr h).

(** [header.ack = true; header.ackno = a; header.win = w] *)
Definition with_ack (h : TCPHeader) (a : WrappingInt32) (w : Z) : TCPHeader :=
  mkTCPHeader (sport h) (dport h) (seqno h) a (doff h) (urg h) true (psh h)
    (rst h) (syn h) (fin h) w (cksum h) (uptr h).

(** [header.rst = true] *)
Definition with_rst (h : TCPHeader) : TCPHeader :=
  mkTCPHeader (sport h) (dport h) (seqno h) (ackno h) (doff h) (urg h) (ack h) (psh h)
    true (syn h) (fin h) (win h) (cksum h) (uptr h).

Definition flag (fl_b mask : Z) : bool := negb (Z.land fl_b mask =? 0).

(** [TCPHeader::parse] assigns every field; the result is the header and the
    [ParseResult] it returns. *)
Definition header_parse : parser (ParseResult * TCPHeader) :=
  sport ← u16_;
  dport ← u16_;
  seqno ← u32_;
  ackno ← u32_;
  off ← u8_;
  fl_b ← u8_;
  win ← u16_;
  cksum ← u16_;
  uptr ← u16_;
  let doff := Z.shiftr off 4 in
  let h := mkTCPHeader sport dport (mkWrappingInt32 seqno) (mkWrappingInt32 ackno) doff
             (flag fl_b 32) (flag fl_b 16) (flag fl_b 8) (flag fl_b 4) (flag fl_b 2) (flag fl_b 1)
             win cksum uptr in
  if doff <? 5 then mret (HeaderTooShort, h) else
  _ ← remove_prefix (doff * 4 - TCP_LENGTH);
  e ← error;
  if (e : bool) then r ← get_error; mret (r, h) else mret (NoError, h).

Definition bit (b : bool) (mask : Z) : Z := if b then mask else 0.

Definition flags_byte (h : TCPHeader) : Z :=
  Z.lor (Z.lor (Z.lor (Z.lor (Z.lor (bit (urg h) 32) (bit (ack h) 16)) (bit (psh h) 8))
    (bit (rst h) 4)) (bit (syn h) 2)) (bit (fin h) 1).

Definition header_serialize (h : TCPHeader) : result bytes :=
  if doff h <? 5 then Throw (RuntimeError "TCP header too short") else
  let ret := [] in
  let ret := put_u16 ret (sport h) in
  let ret := put_u16 ret (dport h) in
  let ret := put_u32 ret (raw_value (seqno h)) in
  let ret := put_u32 ret (raw_value (ackno h)) in
  let ret := put_u8 ret (u8 (Z.shiftl (doff h) 4)) in
  let ret := put_u8 ret (flags_byte h) in
  let ret := put_u16 ret (win h) in
  let ret := put_u16 ret (cksum h) in
  let ret := put_u16 ret (uptr h) in
  Ok (resize ret (4 * doff h)).

(** [TCPHeader::operator==] compares all fields but the ports and the checksum. *)
Definition header_eqb (h other : TCPHeader) : bool :=
  weqb (seqno h) (seqno other) && weqb (ackno h) (ackno other) && (doff h =? doff other) &&
  Bool.eqb (urg h) (urg other) && Bool.eqb (ack h) (ack other) && Bool.eqb (psh h) (psh other) &&
  Bool.eqb (rst h) (rst other) && Bool.eqb (syn h) (syn other) && Bool.eqb (fin h) (fin other) &&
  (win h =? win other) && (uptr h =? uptr other).

(** ** TCPSegment *)

Record TCPSegment : Type := mkTCPSegment {
  _header : TCPHeader;
  _payload : Buffer
}.

Definition default_segment : TCPSegment := mkTCPSegment default_header empty_buffer.

Definition segment_parse (seg : TCPSegment) (buffer : Buffer) (datagram_layer_checksum : Z)
    : result (ParseResult * TCPSegment) :=
  let check := add (checksum datagram_layer_checksum) (str buffer) in
  if negb (value check =? 0) then Ok (BadChecksum, seg) else
  let p := net_parser buffer in
  let! (res, p) := header_parse p in
  Ok (_error p, mkTCPSegment (snd res) (_buffer p)).

Definition length_in_sequence_space (seg : TCPSegment) : Z :=
  size (str (_payload seg)) + (if syn (_header seg) then 1 else 0) +
  (if fin (_header seg) then 1 else 0).

Definition segment_serialize (seg : TCPSegment) (datagram_layer_checksum : Z) : result BufferList :=
  let header_out := with_cksum (_header seg) 0 in
  let check := checksum datagram_layer_checksum in
  let! h0 := header_serialize header_out in
  let check := add check h0 in
  let check := add check (str (_payload seg)) in
  let header_out := with_cksum header_out (value check) in
  let! h1 := header_serialize header_out in
  let ret := bufferlist_append [] [buffer_of h1] in
  Ok (bufferlist_append ret [_payload seg]).

(** ** Well-formed headers *)

(** The fields are in the range of their types, and the data offset is one that a
    four-bit field can carry. *)
Record header_ok (h : TCPHeader) : Prop := {
  ok_sport : is_u16 (sport h);
  ok_dport : is_u16 (dport h);
  ok_seqno : w32 (seqno h);
  ok_ackno : w32 (ackno h);
  ok_doff : 5 <= doff h <= 15;
  ok_win : is_u16 (win h);
  ok_cksum : is_u16 (cksum h);
  ok_uptr : is_u16 (uptr h)
}.

(** The bytes of the header before the checksum field and after it. *)
Definition header_front (h : TCPHeader) : bytes :=
  unparse_bytes 2 (sport h) ++ unparse_bytes 2 (dport h) ++
  unparse_bytes 4 (raw_value (seqno h)) ++ unparse_bytes 4 (raw_value (ackno h)) ++
  unparse_bytes 1 (u8 (Z.shiftl (doff h) 4)) ++ unparse_bytes 1 (flags_byte h) ++
  unparse_bytes 2 (win h).

Definition header_back (h : TCPHeader) : bytes :=
  unparse_bytes 2 (uptr h) ++ replicate (Z.to_nat (4 * doff h - 20)) x00.

(** The ports of a parsed segment are 16-bit integers. *)
Lemma header_parse_sport p res p' : header_parse p = Ok (res, p') -> is_u16 (sport (snd res)).
Proof.
  unfold header_parse. intros H. apply rbind_ok_inv in H as ([sp q] & Hsp & H).
  apply parse_int_range in Hsp. change (2 ^ (8 * Z.of_nat 2)) with 65536 in Hsp.
  do 8 (apply rbind_ok_inv in H as ([? ?] & _ & H)). cbv zeta in H.
  destruct (_ <? 5); [unfold mret, parser_ret in H; by simplify_eq|].
  do 2 (apply rbind_ok_inv in H as ([? ?] & _ & H)).
  case_match; [apply rbind_ok_inv in H as ([? ?] & _ & H)|]; unfold mret, parser_ret in H; by simplify_eq.
Qed.

Lemma segment_parse_sport seg b ck seg' : segment_parse seg b ck = Ok (NoError, seg') ->
  is_u16 (sport (_header seg')).
Proof.
  unfold segment_parse. cbv zeta. destruct (negb _); [done|]. intros H.
  apply rbind_ok_inv in H as ([res p] & Hp & H). simplify_eq. by eapply header_parse_sport.
Qed.

Lemma size_header_front h : size (header_front h) = 16.
Proof. reflexivity. Qed.

Lemma header_serialize_eq h : 5 <= doff h ->
  header_serialize h = Ok (header_front h ++ unparse_bytes 2 (cksum h) ++ header_back h).
Proof.
  intros Hd. unfold header_serialize. case_cmp; [lia|]. f_equal.
  unfold put_u8, put_u16, put_u32, _unparse_int. rewrite resize_pad by (change (size _) with 20; lia).
  change (size _) with 20. unfold header_front, header_back. by rewrite <- !app_assoc.
Qed.

Lemma size_header_back h : 5 <= doff h -> size (header_back h) = 4 * doff h - 18.
Proof.
  intros. unfold header_back. rewrite size_app, size_unparse. unfold size.
  rewrite length_replicate. lia.
Qed.

Lemma flags_byte_range h : is_u8 (flags_byte h).
Proof.
  by destruct h as [? ? ? ? ? [] [] [] [] [] [] ? ? ?]; split; vm_compute.
Qed.

Lemma flags_roundtrip h : let f := flags_byte h in
  flag f 32 = urg h /\ flag f 16 = ack h /\ flag f 8 = psh h /\
  flag f 4 = rst h /\ flag f 2 = syn h /\ flag f 1 = fin h.
Proof. by destruct h as [? ? ? ? ? [] [] [] [] [] [] ? ? ?]. Qed.

Lemma doff_roundtrip d : 5 <= d <= 15 -> Z.shiftr (u8 (Z.shiftl d 4)) 4 = d.
Proof.
  intros. rewrite Z.shiftl_mul_pow2, Z.shiftr_div_pow2 by lia. change (2 ^ 4) with 16. ints.
Qed.

#[export] Hint Resolve flags_byte_range : parse.

(** ** Parsing a serialized header *)

Lemma parses_header h suf : header_ok h ->
  parses header_parse (header_front h ++ unparse_bytes 2 (cksum h) ++ header_back h ++ suf)
    (NoError, h) suf.
Proof.
  intros [Hsp Hdp Hsq Hak Hd Hw Hc Hu]. unfold header_front, header_back. rewrite <- !app_assoc.
  pose proof (u8_range (Z.shiftl (doff h) 4)). unfold w32 in *.
  unfold header_parse. do 9 parse_step. rewrite doff_roundtrip by done.
  destruct (flags_roundtrip h) as (-> & -> & -> & -> & -> & ->).
  destruct (Z.ltb_spec (doff h) 5); [lia|]. unfold TCP_LENGTH.
  set (pad := replicate _ x00).
  assert (size pad = doff h * 4 - 20) as Hp by (unfold pad, size; rewrite length_replicate; lia).
  rewrite <- Hp. pose proof (size_nonneg suf).
  eapply parses_bind; [apply parses_remove_prefix; rewrite size_app; lia|].
  rewrite zdrop_app. eapply parses_bind; [apply parses_error|]. simpl.
  assert (h = mkTCPHeader (sport h) (dport h) (mkWrappingInt32 (raw_value (seqno h)))
    (mkWrappingInt32 (raw_value (ackno h))) (doff h) (urg h) (ack h) (psh h) (rst h) (syn h)
    (fin h) (win h) (cksum h) (uptr h)) as <- by (by destruct h as [? ? [] [] ? ? ? ? ? ? ? ? ? ?]).
  apply parses_ret.
Qed.

Lemma header_ok_cksum h c : header_ok h -> is_u16 c -> header_ok (with_cksum h c).
Proof. intros [] ?. by constructor. Qed.

Lemma add_app c d1 d2 : add (add c d1) d2 = add c (d1 ++ d2).
Proof. unfold add. by rewrite fold_left_app. Qed.

(** The wire image of a segment: the header with its checksum, and the payload. *)
Lemma segment_serialize_spec seg ck : header_ok (_header seg) -> 0 <= ck ->
  ck + 65280 * (4 * doff (_header seg) + size (str (_payload seg))) + 65535 < 4294967296 ->
  exists c, is_u16 c /\
    segment_serialize seg ck =
      Ok [buffer_of (header_front (_header seg) ++ unparse_bytes 2 c ++ header_back (_header seg));
          _payload seg] /\
    value (add (checksum ck) (header_front (_header seg) ++ unparse_bytes 2 c ++
      header_back (_header seg) ++ str (_payload seg))) = 0.
Proof.
  intros Hok Hck Hsz. pose proof Hok as [_ _ _ _ Hd _ _ _]. set (h := _header seg) in *.
  pose proof (size_header_back h ltac:(lia)) as Hb.
  destruct (field_verifies ck (header_front h) (header_back h ++ str (_payload seg)))
    as [Hc Hv]; [reflexivity|done|rewrite size_header_front, size_app, Hb; lia|].
  set (c := value _) in Hc, Hv. exists c. split; [done|]. split; [|done].
  unfold segment_serialize. fold h. rewrite header_serialize_eq by (simpl; lia). cbn [rbind].
  rewrite add_app, <- !app_assoc. cbn [cksum with_cksum].
  change (header_front (with_cksum h 0)) with (header_front h).
  change (header_back (with_cksum h 0)) with (header_back h). fold c.
  rewrite header_serialize_eq by (simpl; lia). done.
Qed.

(** Parsing the wire image, from any buffer that holds it. *)
Lemma segment_parse_spec seg0 h pay c ck b : header_ok h -> is_u16 c -> buf_ok b ->
  str b = header_front h ++ unparse_bytes 2 c ++ header_back h ++ pay ->
  value (add (checksum ck) (str b)) = 0 ->
  exists seg', segment_parse seg0 b ck = Ok (NoError, seg') /\
    _header seg' = with_cksum h c /\ str (_payload seg') = pay.
Proof.
  intros Hok Hc Hb Hs Hv.
  destruct (parses_header (with_cksum h c) pay (header_ok_cksum h c Hok Hc) (net_parser b))
    as (p & Hp & _ & Hst & He); [by split_and!|].
  exists (mkTCPSegment (with_cksum h c) (_buffer p)). split; [|done].
  unfold segment_parse. rewrite Hv. cbn [Z.eqb negb]. rewrite Hp. cbn [rbind snd]. by rewrite He.
Qed.

(** ** Properties *)

(** A segment on the wire, and back. *)
Lemma segment_wire seg ck : header_ok (_header seg) -> 0 <= ck ->
  ck + 65280 * (4 * doff (_header seg) + size (str (_payload seg))) + 65535 < 4294967296 ->
  exists l c seg', segment_serialize seg ck = Ok l /\
    segment_parse default_segment (buffer_of (concatenate l)) ck = Ok (NoError, seg') /\
    _header seg' = with_cksum (_header seg) c /\ is_u16 c /\ str (_payload seg') = str (_payload seg) /\
    size (concatenate l) = 4 * doff (_header seg) + size (str (_payload seg)).
Proof.
  intros Hok Hck Hsz. destruct (segment_serialize_spec seg ck Hok Hck Hsz) as (c & Hc & Hser & Hv).
  pose proof Hok as [_ _ _ _ Hd _ _ _]. set (h := _header seg) in *.
  set (wire := header_front h ++ unparse_bytes 2 c ++ header_back h ++ str (_payload seg)) in *.
  assert (concatenate [buffer_of (header_front h ++ unparse_bytes 2 c ++ header_back h); _payload seg]
    = wire) as Hcat.
  { unfold concatenate, wire. cbn [map concat]. rewrite app_nil_r. unfold buffer_of. unfold str at 1.
    cbn [_storage _starting_offset]. by rewrite zdrop_0, <- !app_assoc by lia. }
  assert (str (buffer_of wire) = wire) as Hstr by (unfold str; simpl; by rewrite zdrop_0 by lia).
  assert (size wire = 4 * doff h + size (str (_payload seg))) as Hws.
  { unfold wire. rewrite !size_app, size_header_front, size_unparse, size_header_back by lia. lia. }
  destruct (segment_parse_spec default_segment h (str (_payload seg)) c ck (buffer_of wire))
    as (seg' & Hp & Hh & Hpay); try done.
  - apply rest_net_parser. lia.
  - eexists _, c, seg'. split; [exact Hser|]. by rewrite Hcat.
Qed.

(** C33: A TCP segment survives the wire.  Serializing a segment with
    a well-formed header and parsing the bytes back (with the same pseudo-header
    checksum) reports no error and gives the same header, up to the checksum field
    which is filled in, and the same payload. *)
Theorem tcp_segment_roundtrip seg ck : header_ok (_header seg) -> 0 <= ck ->
  ck + 65280 * (4 * doff (_header seg) + size (str (_payload seg))) + 65535 < 4294967296 ->
  exists l c seg', segment_serialize seg ck = Ok l /\
    segment_parse default_segment (buffer_of (concatenate l)) ck = Ok (NoError, seg') /\
    _header seg' = with_cksum (_header seg) c /\ is_u16 c /\
    str (_payload seg') = str (_payload seg).
Proof.
  intros Hok Hck Hsz. destruct (segment_wire seg ck Hok Hck Hsz) as (l & c & seg' & ? & ? & ? & ? & ? & _).
  by exists l, c, seg'.
Qed.

Lemma tcp_segment_roundtrip_witness :
  let seg := mkTCPSegment (with_seq default_header (mkWrappingInt32 4294967295) true false)
               (buffer_of [x61; x62; x63]) in
  exists l c seg', segment_serialize seg 77 = Ok l /\
    segment_parse default_segment (buffer_of (concatenate l)) 77 = Ok (NoError, seg') /\
    _header seg' = with_cksum (_header seg) c /\ is_u16 c /\ str (_payload seg') = [x61; x62; x63].
Proof.
  apply (tcp_segment_roundtrip (mkTCPSegment (with_seq default_header (mkWrappingInt32 4294967295) true false)
               (buffer_of [x61; x62; x63])) 77); [|lia|reflexivity].
  constructor; split; by vm_compute.
Defined.

(** Errors of the segment codec: a header with a data offset under five is
    never put on the wire (the serializer throws), and a segment whose checksum
    does not verify is reported and leaves the segment object as it was. *)
Theorem tcp_segment_errors seg ck buffer :
  (doff (_header seg) < 5 ->
     segment_serialize seg ck = Throw (RuntimeError "TCP header too short")) /\
  (value (add (checksum ck) (str buffer)) <> 0 ->
     segment_parse seg buffer ck = Ok (BadChecksum, seg)).
Proof.
  split; intros H.
  - unfold segment_serialize, header_serialize. simpl. destruct (Z.ltb_spec (doff (_header seg)) 5); [done|lia].
  - unfold segment_parse. destruct (Z.eqb_spec (value (add (checksum ck) (str buffer))) 0); done.
Qed.

Lemma tcp_segment_errors_witness :
  segment_serialize (mkTCPSegment (mkTCPHeader 1 2 (mkWrappingInt32 3) (mkWrappingInt32 4) 4
      false true false false false false 5 0 0) empty_buffer) 0
    = Throw (RuntimeError "TCP header too short") /\
  segment_parse default_segment (buffer_of [x01; x02]) 0 = Ok (BadChecksum, default_segment).
Proof.
  split.
  - apply (tcp_segment_errors (mkTCPSegment (mkTCPHeader 1 2 (mkWrappingInt32 3) (mkWrappingInt32 4) 4
      false true false false false false 5 0 0) empty_buffer) 0 empty_buffer). reflexivity.
  - apply (tcp_segment_errors default_segment 0 (buffer_of [x01; x02])). vm_compute. discriminate.
Defined.

(** [TCPSegment::parse] discards the result of [TCPHeader::parse] and returns the
    error of the parser, which a short data offset does not set: a segment with
    data offset 4 and a correct checksum is accepted, with [NoError]. *)
Example segment_parse_accepts_short_doff :
  let wire := header_front (mkTCPHeader 1 2 (mkWrappingInt32 3) (mkWrappingInt32 4) 4
      false true false false false false 5 0 0) ++ unparse_bytes 2 49120 ++ unparse_bytes 2 0 in
  (let! (res, _) := header_parse (net_parser (buffer_of wire)) in Ok (fst res)) = Ok HeaderTooShort /\
  (let! (res, _) := segment_parse default_segment (buffer_of wire) 0 in Ok res) = Ok NoError.
Proof. split; reflexivity. Qed.
