(* ===== verification/TCPReceiver.v ===== *)
(** * TCPReceiver: from segments to the inbound stream

    Models [libsponge/tcp_receiver.hh] and [libsponge/tcp_receiver.cc].  The
    correctness theorems compose the contract of the reassembler (file
    [Reassembly]) with that of [unwrap] (file [WrappingIntegers]): the sequence
    numbers of a peer that sends a byte stream from an initial sequence number
    are translated back into indices of that stream. *)

From stdpp Require Import relations.
From S2P Require Import Prelude WrappingIntegers ByteStream StreamReassembler ReassemblerList Reassembly.
From S2P Require Import Parser TCPSegment.

(** ** State and operations *)

Record TCPReceiver : Type := mkTCPReceiver {
  _reassembler : StreamReassembler;
  _capacity : Z;
  _isn : WrappingInt32;
  _set_isn : bool
}.

Definition construct_receiver (capacity : Z) : TCPReceiver :=
  mkTCPReceiver (construct_reassembler capacity) capacity (mkWrappingInt32 0) false.

Definition receiver_stream_out (r : TCPReceiver) : ByteStream := stream_out (_reassembler r).

Definition with_stream_out (r : TCPReceiver) (o : ByteStream) : TCPReceiver :=
  mkTCPReceiver (with_output (_reassembler r) o) (_capacity r) (_isn r) (_set_isn r).

Definition receiver_unassembled_bytes (r : TCPReceiver) : Z := unassembled_bytes (_reassembler r).

Definition segment_received (r : TCPReceiver) (seg : TCPSegment) : result TCPReceiver :=
  let header := _header seg in
  let _headerseq := seqno header in
  let '(isn, _headerseq, set_isn) :=
    if syn header then (seqno header, wadd _headerseq 1, true)
    else (_isn r, _headerseq, _set_isn r) in
  let eof := if fin header then true else false in
  let r := mkTCPReceiver (_reassembler r) (_capacity r) isn set_isn in
  if set_isn then
    let bw := bytes_written (receiver_stream_out r) in
    let abs_seq_no := unwrap _headerseq isn bw in
    if (abs_seq_no =? 0) || ((bw <? abs_seq_no) && (_capacity r <? u64 (abs_seq_no - bw)))
    then Ok r
    else
      let! reassembler := push_substring (_reassembler r) (str (_payload seg)) (u64 (abs_seq_no - 1)) eof in
      Ok (mkTCPReceiver reassembler (_capacity r) isn set_isn)
  else Ok r.

Definition receiver_ackno (r : TCPReceiver) : option WrappingInt32 :=
  if negb (_set_isn r) then None else
  let writtensize := u64 (bytes_written (receiver_stream_out r) + 1) in
  if input_ended (receiver_stream_out r)
  then Some (wadd (_isn r) (u32 (writtensize + 1)))
  else Some (wadd (_isn r) (u32 writtensize)).

Definition window_size (r : TCPReceiver) : Z :=
  u64 (_capacity r - ByteStream.buffer_size (receiver_stream_out r)).

(** ** The peer

    The peer sends the bytes [data] from the initial sequence number [isn]. *)
Section peer.
Context (data : bytes) (isn : WrappingInt32) (capacity : Z).
Context (Hdata : size data < 18446744073709551615).
Context (Hcap : 1 <= capacity < 2147483647).

(** [carries r seg i]: the segment holds the bytes of the stream from index [i]
    (SYN and FIN at its two ends), inside the receiver's window (or probing it) and
    less than 2^31 bytes behind its first missing byte. *)
Record carries (r : TCPReceiver) (seg : TCPSegment) (i : Z) : Prop := {
  ca_seqno : seqno (_header seg) = wrap (if syn (_header seg) then 0 else i + 1) isn;
  ca_isn : w32 isn;
  ca_syn : syn (_header seg) = true -> i = 0;
  ca_push : push_pre data (_reassembler r) (str (_payload seg)) i (fin (_header seg));
  ca_recent : bytes_written (receiver_stream_out r) - i < 2147483648
}.

Record rinv (r : TCPReceiver) : Prop := {
  ri_inv : inv data (_reassembler r);
  ri_cap : StreamReassembler._capacity (_reassembler r) = capacity;
  ri_capacity : _capacity r = capacity;
  ri_isn : _set_isn r = true -> _isn r = isn
}.

Lemma rinv_construct : rinv (construct_receiver capacity).
Proof.
  constructor; try done. apply inv_construct; lia.
Qed.

Lemma wrap_0 : w32 isn -> wrap 0 isn = isn.
Proof.
  intros. apply w32_eq; [apply wrap_range|done|]. rewrite wrap_raw. unfold w32 in *. ints.
Qed.

Lemma wadd_wrap n k : is_u32 k -> wadd (wrap n isn) k = wrap (n + k) isn.
Proof.
  intros. apply w32_eq; [apply wadd_range|apply wrap_range|].
  rewrite wrap_raw. unfold wadd. cbn [raw_value]. rewrite wrap_raw. ints.
Qed.

(** The numbers that come out of [rinv]. *)
Lemma rinv_bounds r : rinv r ->
  let o := receiver_stream_out r in
  0 <= bytes_read o /\ bytes_read o + ByteStream.buffer_size o = bytes_written o /\
  bytes_written o <= size data /\ window_end (_reassembler r) = bytes_read o + capacity /\
  limit (_reassembler r) = Z.max (bytes_read o + capacity) (bytes_written o + 1) /\
  0 <= ByteStream.buffer_size o <= capacity.
Proof.
  intros [[[[[] ? ? ? ? ?] Hc _ _ _ _] _] Hcap' _ _]. simpl.
  unfold limit, window_end, receiver_stream_out, stream_out, bytes_read, bytes_written, ByteStream.buffer_size in *.
  rewrite Hcap' in *. pose proof (size_nonneg (_que (_output (_reassembler r)))).
  split_and!; lia.
Qed.

(** [unwrap] finds the index of the segment. *)
Lemma carries_unwrap r seg i : rinv r -> carries r seg i ->
  unwrap (if syn (_header seg) then wadd (seqno (_header seg)) 1 else seqno (_header seg)) isn
    (bytes_written (receiver_stream_out r)) = i + 1.
Proof.
  intros Hr [-> Hw Hs [(Hi & Hsz & _) Hwin _] Hrec]. apply rinv_bounds in Hr. simpl in Hr.
  pose proof (size_nonneg (str (_payload seg))).
  replace (if syn (_header seg) then _ else _) with (wrap (i + 1) isn).
  - apply unwrap_near; unfold is_u64; lia.
  - destruct (syn (_header seg)); [|done]. by rewrite wadd_wrap, Hs.
Qed.

(** The test that ignores a segment, and the index handed to the reassembler. *)
Lemma window_test q s (e : bool) i bw : 0 <= i < 18446744073709551615 -> is_u64 bw ->
  (if (i + 1 =? 0) || ((bw <? i + 1) && (capacity <? u64 (i + 1 - bw)))
   then Ok (mkTCPReceiver q capacity isn true)
   else let! re := push_substring q s (u64 (i + 1 - 1)) (if e then true else false) in
        Ok (mkTCPReceiver re capacity isn true))
  = if capacity <? i + 1 - bw then Ok (mkTCPReceiver q capacity isn true)
    else let! re := push_substring q s i e in Ok (mkTCPReceiver re capacity isn true).
Proof.
  intros. replace (if e then true else false) with e by (by destruct e).
  destruct (Z.eqb_spec (i + 1) 0); [lia|]. rewrite (u64_small (i + 1 - 1)), Z.add_simpl_r by ints.
  destruct (Z.ltb_spec bw (i + 1)); simpl; [by rewrite u64_small by ints|].
  destruct (Z.ltb_spec capacity (i + 1 - bw)); [lia|done].
Qed.

Abbreviation received r i := (has (_reassembler r) i).

(** The effect of one segment of the peer. *)
Record seg_post (r r' : TCPReceiver) (seg : TCPSegment) (i : Z) : Prop := {
  sp_inv : rinv r';
  sp_set : _set_isn r' = _set_isn r || syn (_header seg);
  sp_read : bytes_read (receiver_stream_out r') = bytes_read (receiver_stream_out r);
  sp_written : bytes_written (receiver_stream_out r) <= bytes_written (receiver_stream_out r');
  sp_keep : forall j, received r j -> received r' j;
  sp_new : forall j, received r' j -> received r j \/ i <= j < i + size (str (_payload seg));
  sp_full : _set_isn r' = true ->
    i <= bytes_written (receiver_stream_out r) /\ i + size (str (_payload seg)) <= window_end (_reassembler r) \/
    size (str (_payload seg)) + receiver_unassembled_bytes r <= capacity ->
    forall j, i <= j < i + size (str (_payload seg)) -> received r' j;
  sp_end : input_ended (receiver_stream_out r) = true -> input_ended (receiver_stream_out r') = true;
  sp_fin : _set_isn r' = true -> fin (_header seg) = true ->
    i <= bytes_written (receiver_stream_out r) <= i + size (str (_payload seg)) ->
    i + size (str (_payload seg)) <= window_end (_reassembler r) ->
    input_ended (receiver_stream_out r') = true;
  sp_past : _set_isn r' = true -> i <= bytes_written (receiver_stream_out r) ->
    i + size (str (_payload seg)) <= window_end (_reassembler r) ->
    i + size (str (_payload seg)) <= bytes_written (receiver_stream_out r')
}.

Lemma rinv_free r : rinv r ->
  receiver_unassembled_bytes r = capacity - _remaincapacity (_reassembler r).
Proof.
  intros [[[_ _ _ _ Hrem Hroom] _] Hc _ _]. unfold receiver_unassembled_bytes, unassembled_bytes.
  pose proof (total_nonneg (_head (_reassembler r))). rewrite Hc in *. ints.
Qed.

(** A segment dropped by the receiver: nothing of it is missed. *)
Lemma seg_post_drop r seg i set : rinv r -> push_pre data (_reassembler r) (str (_payload seg)) i (fin (_header seg)) ->
  set = _set_isn r || syn (_header seg) ->
  (set = true -> bytes_written (receiver_stream_out r) + capacity <= i) ->
  forall isn', (set = true -> isn' = isn) ->
  seg_post r (mkTCPReceiver (_reassembler r) (_capacity r) isn' set) seg i.
Proof.
  intros Hr [_ Hwin _] Hset Hfar isn' Hisn. pose proof (rinv_bounds r Hr) as Hb. simpl in Hb.
  pose proof (size_nonneg (str (_payload seg))).
  destruct Hr. constructor; try done; auto.
  - intros Hs Hor j Hj. simpl in Hs. specialize (Hfar Hs). lia.
  - intros Hs Hf Hi. simpl in Hs. specialize (Hfar Hs). lia.
  - intros Hs Hi. simpl in Hs. specialize (Hfar Hs). lia.
Qed.

(** On a segment of the peer, [segment_received] is a push at the index of the
    segment, unless no SYN has arrived or the segment starts past the window. *)
Lemma segment_received_eq r seg i : rinv r -> carries r seg i ->
  segment_received r seg =
    if _set_isn r || syn (_header seg) then
      if capacity <? i + 1 - bytes_written (receiver_stream_out r)
      then Ok (mkTCPReceiver (_reassembler r) (_capacity r) isn true)
      else let! re := push_substring (_reassembler r) (str (_payload seg)) i (fin (_header seg)) in
           Ok (mkTCPReceiver re (_capacity r) isn true)
    else Ok r.
Proof.
  intros Hr Hca. pose proof (carries_unwrap r seg i Hr Hca) as Hun.
  pose proof (rinv_bounds r Hr) as Hb. pose proof (size_nonneg (str (_payload seg))). simpl in Hb.
  pose proof Hca as [Hseq Hw Hs Hpre _]. pose proof Hpre as [(Hi & Hsz & _) Hwin _].
  pose proof (ri_capacity r Hr) as Hc. pose proof (ri_isn r Hr) as Hisn.
  unfold segment_received, receiver_stream_out in *. destruct (syn (_header seg)).
  - rewrite Hseq, wrap_0, orb_true_r in * by done. cbn [_reassembler _capacity]. rewrite Hun, Hc.
    apply window_test; ints.
  - rewrite orb_false_r. destruct (_set_isn r) eqn:E; [|by destruct r; simpl in *; subst].
    rewrite Hisn by done. cbn [_reassembler _capacity]. rewrite Hun, Hc. apply window_test; ints.
Qed.

Lemma segment_spec r seg i : rinv r -> carries r seg i ->
  exists r', segment_received r seg = Ok r' /\ seg_post r r' seg i.
Proof.
  intros Hr Hca. rewrite (segment_received_eq r seg i Hr Hca).
  pose proof (rinv_free r Hr) as Hfree. pose proof (ca_push r seg i Hca) as Hpre.
  destruct (_set_isn r || syn (_header seg)) eqn:Eset;
    [destruct (Z.ltb_spec capacity (i + 1 - bytes_written (receiver_stream_out r)))|].
  - eexists. split; [done|]. apply seg_post_drop; try done. lia.
  - destruct (push_spec data ltac:(lia) (_reassembler r) (str (_payload seg)) i (fin (_header seg)))
      as (re & -> & Hpost); [apply Hr|done|]. pose proof (push_inv data _ _ _ _ _ (ri_inv r Hr) Hpost) as Hi'.
    destruct Hpost as [_ _ Hc' Hr' Hw' Hk Hn Hfull He Hf Hpast].
    eexists. split; [done|]. destruct Hr as [? Hcr ? ?].
    constructor; simpl; try done.
    + constructor; simpl; try done. congruence.
    + intros _ Hor. apply Hfull. rewrite Hfree in Hor. destruct Hor; [by left|right; lia].
  - exists r. split; [done|]. replace r with (mkTCPReceiver (_reassembler r) (_capacity r) (_isn r) false) at 2.
    + by apply seg_post_drop.
    + destruct r; simpl in *. f_equal. by apply orb_false_iff in Eset as [-> _].
Qed.

(** ** Executions: segments of the peer arrive, the application reads *)

Inductive rcv_step : TCPReceiver * bytes -> TCPReceiver * bytes -> Prop :=
| rcv_segment r d seg i r' : carries r seg i -> segment_received r seg = Ok r' ->
    rcv_step (r, d) (r', d)
| rcv_read r d len : is_u64 len ->
    rcv_step (r, d) (with_stream_out r (fst (ByteStream.read (receiver_stream_out r) len)),
                     d ++ snd (ByteStream.read (receiver_stream_out r) len)).

Definition rcv_reachable (r : TCPReceiver) (d : bytes) : Prop :=
  rtc rcv_step (construct_receiver capacity, []) (r, d).

Definition read_prefix (x : TCPReceiver * bytes) : Prop :=
  snd x = ztake (bytes_read (receiver_stream_out (fst x))) data.

Lemma rcv_step_inv x y : rcv_step x y -> rinv (fst x) /\ read_prefix x -> rinv (fst y) /\ read_prefix y.
Proof.
  intros [r d seg i r' Hca Hr|r d len Hlen] [Hi Hd]; unfold read_prefix in *; simpl in *.
  - destruct (segment_spec r seg i Hi Hca) as (r'' & Hr' & Hpost). rewrite Hr in Hr'. simplify_eq.
    split; [apply Hpost|]. by rewrite (sp_read _ _ _ _ Hpost).
  - destruct Hi as [Hinv Hc Hc' Hisn].
    destruct (rstep_inv data ltac:(lia) _ _ _ _ (rstep_read data (_reassembler r) d len Hlen) Hinv Hd)
      as [Hinv' Hd'].
    split; [by constructor|exact Hd'].
Qed.

Lemma rcv_reachable_inv r d : rcv_reachable r d ->
  rinv r /\ d = ztake (bytes_read (receiver_stream_out r)) data.
Proof.
  intros H. change (rinv (fst (r, d)) /\ read_prefix (r, d)).
  assert (forall x y, rtc rcv_step x y -> rinv (fst x) /\ read_prefix x -> rinv (fst y) /\ read_prefix y)
    as Hall by (induction 1; eauto using rcv_step_inv).
  apply (Hall _ _ H). split; [apply rinv_construct|done].
Qed.

(** The executions in which every segment ends inside the window at its arrival. *)
Inductive rcv_wstep : TCPReceiver * bytes -> TCPReceiver * bytes -> Prop :=
| rcv_wsegment r d seg i r' : carries r seg i -> i + size (str (_payload seg)) <= window_end (_reassembler r) ->
    segment_received r seg = Ok r' -> rcv_wstep (r, d) (r', d)
| rcv_wread r d len : is_u64 len ->
    rcv_wstep (r, d) (with_stream_out r (fst (ByteStream.read (receiver_stream_out r) len)),
                      d ++ snd (ByteStream.read (receiver_stream_out r) len)).

Definition rcv_in_window (r : TCPReceiver) (d : bytes) : Prop :=
  rtc rcv_wstep (construct_receiver capacity, []) (r, d).

Lemma segment_held r seg i r' : rinv r -> carries r seg i ->
  i + size (str (_payload seg)) <= window_end (_reassembler r) -> segment_received r seg = Ok r' ->
  held_inside (_reassembler r) -> held_inside (_reassembler r').
Proof.
  intros Hr Hca Hwin. rewrite (segment_received_eq r seg i Hr Hca).
  destruct (_ || _); [destruct (_ <? _)|]; [by intros [= <-]| |by intros [= <-]].
  destruct (push_spec data ltac:(lia) (_reassembler r) (str (_payload seg)) i (fin (_header seg)))
    as (re & -> & Hpost); [apply Hr|apply Hca|]. intros [= <-]. by eapply push_held_inside.
Qed.

Lemma rcv_wstep_held x y : rcv_wstep x y -> (rinv (fst x) /\ read_prefix x) /\ held_inside (_reassembler (fst x)) ->
  (rinv (fst y) /\ read_prefix y) /\ held_inside (_reassembler (fst y)).
Proof.
  intros Hs [Hi Hh]. assert (rcv_step x y) as Hs' by (destruct Hs; by econstructor).
  pose proof (rcv_step_inv x y Hs' Hi) as Hi'. split; [done|].
  destruct Hs as [r d seg i r' Hca Hwin Hr|r d len Hlen]; simpl in *.
  - eapply segment_held; try done. apply Hi.
  - apply (bytes_written_inside data); [apply Hi'|]. intros Hst. apply (proj2 Hh). by right.
Qed.

(** In them, the next byte to be written is the first one not received. *)
Lemma rcv_in_window_missing r d : rcv_in_window r d -> ~ has (_reassembler r) (bytes_written (receiver_stream_out r)).
Proof.
  intros H.
  assert (forall x y, rtc rcv_wstep x y -> (rinv (fst x) /\ read_prefix x) /\ held_inside (_reassembler (fst x)) ->
    (rinv (fst y) /\ read_prefix y) /\ held_inside (_reassembler (fst y))) as Hall
    by (induction 1; eauto using rcv_wstep_held).
  refine (proj2 (proj2 (Hall _ _ H _))). split; [split; [apply rinv_construct|done]|].
  apply (bytes_written_inside data); [apply rinv_construct|]. by intros []%stored_nil.
Qed.

(** The absolute sequence number the receiver waits for. *)
Definition next_abs (r : TCPReceiver) : Z :=
  bytes_written (receiver_stream_out r) + 1 +
  (if input_ended (receiver_stream_out r) then 1 else 0).

Lemma ackno_next_abs r : rinv r -> _set_isn r = true -> receiver_ackno r = Some (wrap (next_abs r) isn).
Proof.
  intros Hr Hs. unfold receiver_ackno, next_abs. rewrite Hs, (ri_isn r Hr Hs). cbn [negb].
  destruct (input_ended _); f_equal; apply w32_eq; try apply wadd_range; try apply wrap_range;
    rewrite wrap_raw; unfold wadd; cbn [raw_value]; ints.
Qed.

End peer.

(** ** Properties *)

(** C15: The receiver reproduces the peer's stream.  Whatever segments of the
    stream [data] arrive (any order, overlaps and repetitions, before or after
    the SYN, each inside the window), whatever the initial sequence number, and
    however the application reads: what was read followed by what is buffered is
    the beginning of [data], the end is signalled only after the last byte, and
    [segment_received] accepts every further such segment without an exception. *)
Theorem receiver_delivers data isn capacity r d :
  size data < 18446744073709551615 -> 1 <= capacity < 2147483647 ->
  rcv_reachable data isn capacity r d ->
  d ++ _que (receiver_stream_out r) = ztake (bytes_written (receiver_stream_out r)) data /\
  (input_ended (receiver_stream_out r) = true -> bytes_written (receiver_stream_out r) = size data) /\
  (forall seg i, carries data isn r seg i -> exists r', segment_received r seg = Ok r').
Proof.
  intros Hd Hc Hreach. destruct (rcv_reachable_inv data isn capacity Hd Hc r d Hreach) as [Hinv Hpre].
  pose proof (ri_inv _ _ _ _ Hinv) as [[[Hwf Hr Hcnt Hw Hq He] _ _ _ _] _]. split_and!.
  - rewrite Hpre. unfold receiver_stream_out, stream_out, bytes_read, bytes_written. rewrite Hq, <- Hcnt.
    rewrite <- !slice_prefix. pose proof (size_nonneg (_que (_output (_reassembler r)))).
    by rewrite <- (slice_app data 0 (_readsize (_output (_reassembler r)))) by lia.
  - exact He.
  - intros seg i Hca. destruct (segment_spec data isn capacity Hd Hc r seg i Hinv Hca) as (r' & ? & _). eauto.
Qed.

(** A segment for the witnesses: sequence number, flags, payload. *)
Definition mk_seg (s : WrappingInt32) (sy fi : bool) (p : bytes) : TCPSegment :=
  mkTCPSegment (with_seq default_header s sy fi) (buffer_of p).

Ltac carries_tac :=
  constructor; [by vm_compute|split; by vm_compute|intros; by vm_compute
    |split; [split_and!; by vm_compute|by vm_compute|intros; by vm_compute]
    |by vm_compute].

Lemma receiver_delivers_witness :
  exists r, rcv_reachable [x61; x62; x63] (mkWrappingInt32 4294967295) 10 r [] /\
    [] ++ _que (receiver_stream_out r) = ztake (bytes_written (receiver_stream_out r)) [x61; x62; x63] /\
    bytes_written (receiver_stream_out r) = 3.
Proof.
  eexists. assert (rcv_reachable [x61; x62; x63] (mkWrappingInt32 4294967295) 10
    (mkTCPReceiver (mkReassembler (mkByteStream [x61; x62; x63] 7 10 3 0 false true) 10 10 [])
       10 (mkWrappingInt32 4294967295) true) []) as Hr.
  { eapply rtc_l; [apply (rcv_segment _ _ _ _ (mk_seg (mkWrappingInt32 4294967295) true false []) 0);
      [carries_tac|vm_compute; reflexivity]|].
    eapply rtc_l; [apply (rcv_segment _ _ _ _ (mk_seg (mkWrappingInt32 1) false true [x62; x63]) 1);
      [carries_tac|vm_compute; reflexivity]|].
    eapply rtc_l; [apply (rcv_segment _ _ _ _ (mk_seg (mkWrappingInt32 0) false false [x61]) 0);
      [carries_tac|vm_compute; reflexivity]|]. apply rtc_refl. }
  split; [exact Hr|]. split; [|by vm_compute].
  apply (fun a b => receiver_delivers [x61; x62; x63] (mkWrappingInt32 4294967295) 10 _ [] a b Hr);
    [by vm_compute|split; by vm_compute].
Defined.

(** C16: The acknowledgment number and the window.  In every state of an
    execution, [ackno] is empty until a SYN has arrived and afterwards names the
    next byte to be written to the stream (or the position after the FIN once the
    stream has ended), and its unwrapped form is exact.  Every byte before that one
    has been received; and if every segment ended inside the window when it arrived,
    that one has not: it is the first byte not received.  (A segment that reaches one
    byte past a window of size zero can have left it in the list: then nothing after
    it has been received; see [ackno_of_stored_probe].)  [window_size] is the free
    space of the buffer: the window that starts at that byte ends [capacity] bytes
    after the first unread one. *)
Theorem receiver_ackno_window data isn capacity r d :
  size data < 18446744073709551615 -> 1 <= capacity < 2147483647 ->
  rcv_reachable data isn capacity r d ->
  (_set_isn r = false -> receiver_ackno r = None) /\
  (_set_isn r = true -> exists a, receiver_ackno r = Some a /\ a = wrap (next_abs r) isn /\
     (next_abs r < 18446744073709551616 ->
       unwrap a isn (bytes_written (receiver_stream_out r)) = next_abs r)) /\
  (forall j, 0 <= j < bytes_written (receiver_stream_out r) -> has (_reassembler r) j) /\
  (rcv_in_window data isn capacity r d -> ~ has (_reassembler r) (bytes_written (receiver_stream_out r))) /\
  (has (_reassembler r) (bytes_written (receiver_stream_out r)) ->
     forall j, has (_reassembler r) j -> j <= bytes_written (receiver_stream_out r)) /\
  window_size r = capacity - ByteStream.buffer_size (receiver_stream_out r) /\
  bytes_written (receiver_stream_out r) + window_size r = bytes_read (receiver_stream_out r) + capacity.
Proof.
  intros Hd Hc Hreach. destruct (rcv_reachable_inv data isn capacity Hd Hc r d Hreach) as [Hinv _].
  pose proof (rinv_bounds data isn capacity r Hinv) as Hb. simpl in Hb.
  assert (window_size r = capacity - ByteStream.buffer_size (receiver_stream_out r)) as Hw.
  { unfold window_size. rewrite (ri_capacity _ _ _ _ Hinv). ints. }
  split_and!.
  - unfold receiver_ackno. by intros ->.
  - intros Hs. exists (wrap (next_abs r) isn). split; [by eapply ackno_next_abs|]. split; [done|].
    intros Hn. unfold next_abs in *. pose proof (size_nonneg (_que (receiver_stream_out r))).
    unfold ByteStream.buffer_size in *. apply unwrap_near; destruct (input_ended _); ints.
  - by left.
  - apply rcv_in_window_missing; done.
  - destruct (ri_inv _ _ _ _ Hinv) as [_ Hsync]. unfold receiver_stream_out, stream_out in *.
    intros [?|Hs] j [?|Hj]; try lia. by apply Hsync.
  - done.
  - lia.
Qed.

Lemma receiver_ackno_window_witness :
  exists r, segment_received (construct_receiver 8) (mk_seg (mkWrappingInt32 9) true false [x61; x62]) = Ok r /\
    receiver_ackno r = Some (mkWrappingInt32 12) /\ window_size r = 6 /\
    ~ has (_reassembler r) 2 /\ window_size r = 8 - ByteStream.buffer_size (receiver_stream_out r).
Proof.
  eexists. split; [reflexivity|]. split; [reflexivity|]. split; [reflexivity|].
  refine ((fun H => conj (proj1 (proj2 (proj2 (proj2 H))) _) (proj1 (proj2 (proj2 (proj2 (proj2 (proj2 H)))))))
    (receiver_ackno_window [x61; x62; x63] (mkWrappingInt32 9) 8 _ [] _ _ _));
    [|reflexivity|split; vm_compute; congruence|].
  - eapply rtc_l; [apply (rcv_wsegment _ _ _ _ (mk_seg (mkWrappingInt32 9) true false [x61; x62]) 0);
      [carries_tac|vm_compute; discriminate|reflexivity]|]. apply rtc_refl.
  - eapply rtc_l; [apply (rcv_segment _ _ _ _ (mk_seg (mkWrappingInt32 9) true false [x61; x62]) 0);
      [carries_tac|reflexivity]|]. apply rtc_refl.
Defined.

(** With the window closed the byte of a probe is stored, and [ackno] still names it:
    it is then not "the first byte in the stream that the receiver hasn't received". *)
Example ackno_of_stored_probe :
  (let! r := segment_received (construct_receiver 4) (mk_seg (mkWrappingInt32 9) true false [x61; x62; x63; x64]) in
   let! r := segment_received r (mk_seg (mkWrappingInt32 14) false false [x65]) in
   Ok (receiver_ackno r, window_size r, receiver_unassembled_bytes r))
  = Ok (Some (mkWrappingInt32 14), 0, 1).
Proof. reflexivity. Qed.

(** Progress of the receiver.  A segment that arrives after the SYN (or with
    it), starting at or before the first missing byte and ending in the window, is
    received in full: the first missing byte moves past it and never back; with FIN,
    the stream has ended and the acknowledgment covers the FIN. *)
Theorem receiver_progress data isn capacity r d seg i :
  size data < 18446744073709551615 -> 1 <= capacity < 2147483647 ->
  rcv_reachable data isn capacity r d -> carries data isn r seg i ->
  exists r', segment_received r seg = Ok r' /\
    bytes_written (receiver_stream_out r) <= bytes_written (receiver_stream_out r') /\
    (_set_isn r || syn (_header seg) = true -> i <= bytes_written (receiver_stream_out r) ->
     i + size (str (_payload seg)) <= window_end (_reassembler r) ->
       i + size (str (_payload seg)) <= bytes_written (receiver_stream_out r') /\
       (fin (_header seg) = true -> bytes_written (receiver_stream_out r) <= i + size (str (_payload seg)) ->
        input_ended (receiver_stream_out r') = true /\ next_abs r' = size data + 2)).
Proof.
  intros Hd Hc Hreach Hca. destruct (rcv_reachable_inv data isn capacity Hd Hc r d Hreach) as [Hinv _].
  destruct (segment_spec data isn capacity Hd Hc r seg i Hinv Hca) as (r' & Hr & Hpost).
  exists r'. split; [done|]. destruct Hpost as [Hinv' Hset Hread Hw' Hkeep Hnew Hfull Hend Hfin Hin].
  split; [done|]. intros Hs Hi Hwin. rewrite <- Hset in Hs. split; [by apply Hin|].
  intros Hf Hi'. assert (input_ended (receiver_stream_out r') = true) as E by (apply Hfin; [done|done|lia|done]).
  split; [done|]. pose proof (ri_inv _ _ _ _ Hinv') as [[[_ _ _ _ _ He] _ _ _ _ _] _].
  unfold next_abs. rewrite E. unfold receiver_stream_out, stream_out, input_ended in *.
  unfold bytes_written. rewrite (He E). lia.
Qed.

Lemma receiver_progress_witness :
  exists r', segment_received (construct_receiver 8) (mk_seg (mkWrappingInt32 9) true true [x61; x62]) = Ok r' /\
    input_ended (receiver_stream_out r') = true /\ next_abs r' = size [x61; x62] + 2.
Proof.
  destruct (receiver_progress [x61; x62] (mkWrappingInt32 9) 8 (construct_receiver 8) []
    (mk_seg (mkWrappingInt32 9) true true [x61; x62]) 0) as (r' & Hr & _ & Hin).
  - reflexivity.
  - split; vm_compute; congruence.
  - apply rtc_refl.
  - carries_tac.
  - exists r'. split; [exact Hr|]. apply Hin; vm_compute; congruence.
Defined.
