(* ===== verification/TCPSender.v ===== *)
(** * TCPSender: from the outbound stream to segments

    Models [libsponge/tcp_sender.hh] and [libsponge/tcp_sender.cc]: the
    retransmission timer, the sender's state and every method.  An
    [unsigned int] is 32 bits wide, [size_t] 64.  The queues [_segments_out] and
    [_wait_ack] are lists with their front first. *)

From S2P Require Import Prelude WrappingIntegers ByteStream Parser TCPSegment.

(** ** The retransmission timer *)

Record Timer : Type := mkTimer {
  active : bool;
  expired : bool;
  _init_timeout : Z;
  _timeout : Z;
  _cur_time : Z
}.

Definition construct_timer (retx_timeout : Z) : Timer :=
  mkTimer false false retx_timeout retx_timeout 0.

Definition timer_start (t : Timer) : Timer :=
  mkTimer true false (_init_timeout t) (_timeout t) 0.

(** [expire]: the pair is the timer and the counter passed by reference. *)
Definition timer_expire (t : Timer) (win_size _consecutive_num : Z) : Timer * Z :=
  if negb (win_size =? 0) then
    (mkTimer (active t) (expired t) (_init_timeout t) (u32 (_timeout t * 2)) (_cur_time t),
     u32 (_consecutive_num + 1))
  else (t, _consecutive_num).

Definition timer_tictoc (t : Timer) (win_size _tictoc_time _consecutive_num : Z) : Timer * Z :=
  if active t then
    let t := mkTimer (active t) (expired t) (_init_timeout t) (_timeout t)
               (u32 (_cur_time t + _tictoc_time)) in
    if _timeout t <=? _cur_time t then
      let t := mkTimer false (expired t) (_init_timeout t) (_timeout t) (_cur_time t) in
      let '(t, n) := timer_expire t win_size _consecutive_num in
      (mkTimer (active t) true (_init_timeout t) (_timeout t) (_cur_time t), n)
    else (t, _consecutive_num)
  else (t, _consecutive_num).

Definition timer_reset (t : Timer) : Timer :=
  mkTimer (active t) (expired t) (_init_timeout t) (_init_timeout t) (_cur_time t).

Definition timer_stop (t : Timer) : Timer :=
  mkTimer false (expired t) (_init_timeout t) (_timeout t) (_cur_time t).

Definition isexpired (t : Timer) : bool := expired t.
Definition started (t : Timer) : bool := active t.

(** ** State *)

Record TCPSender : Type := mkTCPSender {
  _isn : WrappingInt32;
  _segments_out : list TCPSegment;
  _initial_retransmission_timeout : Z;
  _stream : ByteStream;
  _next_seqno : Z;
  _window_sz : Z;
  _ackno : Z;
  _flight_bytes : Z;
  _set_fin : bool;
  _wait_ack : list TCPSegment;
  _timer : Timer;
  _consecutive_transmit_num : Z
}.

(** The initial sequence number is the fixed one, or what the random device
    returns, an argument here. *)
Definition construct_sender (capacity retx_timeout : Z) (fixed_isn : option WrappingInt32)
    (random : Z) : TCPSender :=
  mkTCPSender (match fixed_isn with Some i => i | None => mkWrappingInt32 (u32 random) end)
    [] retx_timeout (ByteStream.construct capacity) 0 1 0 0 false [] (construct_timer retx_timeout) 0.

Definition stream_in (s : TCPSender) : ByteStream := _stream s.
Definition segments_out (s : TCPSender) : list TCPSegment := _segments_out s.
Definition bytes_in_flight (s : TCPSender) : Z := _flight_bytes s.
Definition consecutive_retransmissions (s : TCPSender) : Z := _consecutive_transmit_num s.
Definition next_seqno_absolute (s : TCPSender) : Z := _next_seqno s.
Definition next_seqno (s : TCPSender) : WrappingInt32 := wrap (_next_seqno s) (_isn s).

(** The writer's and the connection's access through the returned references. *)
Definition with_stream (s : TCPSender) (st : ByteStream) : TCPSender :=
  mkTCPSender (_isn s) (_segments_out s) (_initial_retransmission_timeout s) st (_next_seqno s)
    (_window_sz s) (_ackno s) (_flight_bytes s) (_set_fin s) (_wait_ack s) (_timer s)
    (_consecutive_transmit_num s).

Definition with_segments_out (s : TCPSender) (q : list TCPSegment) : TCPSender :=
  mkTCPSender (_isn s) q (_initial_retransmission_timeout s) (_stream s) (_next_seqno s)
    (_window_sz s) (_ackno s) (_flight_bytes s) (_set_fin s) (_wait_ack s) (_timer s)
    (_consecutive_transmit_num s).

(** ** fill_window *)

(** The first half of the loop body: the next segment, its length, and the state
    with the stream read, [_set_fin] and [_next_seqno] updated. *)
Definition next_segment (s : TCPSender) (_win_size : Z) : TCPSender * TCPSegment * Z :=
  let '(sy, seqlen) := if _next_seqno s =? 0 then (true, 1) else (false, 0) in
  let '(st, payload) := ByteStream.read (_stream s) (Z.min (u64 (_win_size - seqlen)) MAX_PAYLOAD_SIZE) in
  let buffer := buffer_of payload in
  let seqlen := u64 (seqlen + Parser.buffer_size buffer) in
  let '(fi, seqlen, set_fin) :=
    if ByteStream.eof st && (seqlen <? _win_size) then (true, u64 (seqlen + 1), true)
    else (false, seqlen, _set_fin s) in
  (mkTCPSender (_isn s) (_segments_out s) (_initial_retransmission_timeout s) st
     (u64 (_next_seqno s + seqlen)) (_window_sz s) (_ackno s) (_flight_bytes s) set_fin
     (_wait_ack s) (_timer s) (_consecutive_transmit_num s),
   mkTCPSegment (with_seq default_header (next_seqno s) sy fi) buffer,
   seqlen).

(** The second half: the segment goes to both queues. *)
Definition send_segment (s : TCPSender) (seg : TCPSegment) (seqlen : Z) : TCPSender :=
  mkTCPSender (_isn s) (_segments_out s ++ [seg]) (_initial_retransmission_timeout s) (_stream s)
    (_next_seqno s) (_window_sz s) (_ackno s) (u64 (_flight_bytes s + seqlen)) (_set_fin s)
    (_wait_ack s ++ [seg])
    (if negb (started (_timer s)) then timer_start (_timer s) else _timer s)
    (_consecutive_transmit_num s).

Fixpoint fill_loop (fuel : nat) (s : TCPSender) (_win_size : Z) : result TCPSender :=
  if (0 <? _win_size) && negb (_set_fin s) then
    match fuel with
    | O => Throw OutOfFuel
    | S fuel =>
        let '(s, seg, seqlen) := next_segment s _win_size in
        if 0 <? seqlen then
          let s := send_segment s seg seqlen in
          let _win_size := u64 (_win_size - seqlen) in
          if _win_size =? 0 then Ok s else fill_loop fuel s _win_size
        else Ok s
    end
  else Ok s.

(** [_ackno + (_window_sz != 0 ? _window_sz : 1)] *)
Definition right_edge (s : TCPSender) : Z :=
  u64 (_ackno s + (if negb (_window_sz s =? 0) then _window_sz s else 1)).

(** Every turn of the loop takes at least one sequence number of the window. *)
Definition fill_window (s : TCPSender) : result TCPSender :=
  if _set_fin s then Ok s else
  if right_edge s <=? _next_seqno s then Ok s else
  let _win_size := u64 (right_edge s - next_seqno_absolute s) in
  fill_loop (Z.to_nat _win_size) s _win_size.

(** ** ack_received *)

(** The [while (!_wait_ack.empty())] loop: what is left of the queue, the flight
    counter, and whether something was acknowledged. *)
Fixpoint pop_acked (isn : WrappingInt32) (checkpoint abs_ack_no : Z) (q : list TCPSegment)
    (flight : Z) (_newdata_acked : bool) : list TCPSegment * Z * bool :=
  match q with
  | [] => ([], flight, _newdata_acked)
  | temp :: q' =>
      let abs_seg_no := unwrap (seqno (_header temp)) isn checkpoint in
      if u64 (abs_seg_no + length_in_sequence_space temp) <=? abs_ack_no
      then pop_acked isn checkpoint abs_ack_no q'
             (u64 (flight - length_in_sequence_space temp)) true
      else (q, flight, _newdata_acked)
  end.

Definition ack_received (s : TCPSender) (ackno : WrappingInt32) (window_size : Z) : TCPSender :=
  let checkpoint := _next_seqno s in
  let abs_ack_no := unwrap ackno (_isn s) checkpoint in
  if next_seqno_absolute s <? abs_ack_no then
    mkTCPSender (_isn s) (_segments_out s) (_initial_retransmission_timeout s) (_stream s)
      (_next_seqno s) (_window_sz s) abs_ack_no (_flight_bytes s) (_set_fin s) (_wait_ack s)
      (_timer s) (_consecutive_transmit_num s)
  else
    let '(q, flight, _newdata_acked) :=
      pop_acked (_isn s) checkpoint abs_ack_no (_wait_ack s) (_flight_bytes s) false in
    let '(timer, num) :=
      if (_newdata_acked : bool) then
        (if negb (match q with [] => true | _ => false end)
         then timer_start (timer_reset (_timer s)) else timer_stop (timer_reset (_timer s)), 0)
      else (_timer s, _consecutive_transmit_num s) in
    mkTCPSender (_isn s) (_segments_out s) (_initial_retransmission_timeout s) (_stream s)
      (_next_seqno s) window_size abs_ack_no flight (_set_fin s) q timer num.

(** ** tick *)

(** [tictoc] takes the window as a [uint16_t] and the time as an [unsigned int]. *)
Definition tick (s : TCPSender) (ms_since_last_tick : Z) : TCPSender :=
  let '(timer, num) := timer_tictoc (_timer s) (u16 (_window_sz s)) (u32 ms_since_last_tick)
                         (_consecutive_transmit_num s) in
  let '(out, timer) :=
    if isexpired timer then
      match _wait_ack s with
      | [] => (_segments_out s, timer)
      | front :: _ => (_segments_out s ++ [front], timer_start timer)
      end
    else (_segments_out s, timer) in
  mkTCPSender (_isn s) out (_initial_retransmission_timeout s) (_stream s) (_next_seqno s)
    (_window_sz s) (_ackno s) (_flight_bytes s) (_set_fin s) (_wait_ack s) timer num.

Definition send_empty_segment (s : TCPSender) : TCPSender :=
  let seg := mkTCPSegment (with_seq default_header (next_seqno s) false false) empty_buffer in
  with_segments_out s (_segments_out s ++ [seg]).
