(* ===== verification/Transmission.v ===== *)
(** * Transmission: correctness of [TCPSender]

    The invariant of the sender, relative to three quantities that the code does
    not store: the bytes [w] accepted by the outbound stream so far, the list
    [sent] of the segments created so far, and the highest acknowledgment [a]
    received.  The segments tile the sequence space from 0 to [_next_seqno], their
    payloads are the beginning of [w], and the unacknowledged ones are a suffix. *)

From stdpp Require Import relations.
From S2P Require Import Prelude WrappingIntegers ByteStream Parser TCPSegment ReassemblerList TCPSender.

(** ** Lists of segments *)

Definition payload_of (seg : TCPSegment) : bytes := str (_payload seg).

Definition payloads (l : list TCPSegment) : bytes := concat (map payload_of l).

Fixpoint span (l : list TCPSegment) : Z :=
  match l with
  | [] => 0
  | seg :: l => length_in_sequence_space seg + span l
  end.

Definition is_nil {A} (l : list A) : bool := match l with [] => true | _ => false end.

(** [layout isn p l e]: the segments of [l] follow one another from absolute
    sequence number [p]; only number 0 is a SYN, and the last segment is a FIN
    exactly if [e]. *)
Fixpoint layout (isn : WrappingInt32) (p : Z) (l : list TCPSegment) (e : bool) : Prop :=
  match l with
  | [] => True
  | seg :: l' =>
      seqno (_header seg) = wrap p isn /\
      syn (_header seg) = (p =? 0) /\
      fin (_header seg) = e && is_nil l' /\
      size (payload_of seg) <= MAX_PAYLOAD_SIZE /\
      0 < length_in_sequence_space seg /\
      layout isn (p + length_in_sequence_space seg) l' e
  end.

Lemma span_app l1 l2 : span (l1 ++ l2) = span l1 + span l2.
Proof. induction l1 as [|seg l1 IH]; simpl; [done|]. rewrite IH. lia. Qed.

Lemma payloads_app l1 l2 : payloads (l1 ++ l2) = payloads l1 ++ payloads l2.
Proof. unfold payloads. by rewrite map_app, concat_app. Qed.

Lemma length_nonneg seg : 0 <= length_in_sequence_space seg.
Proof.
  unfold length_in_sequence_space. pose proof (size_nonneg (str (_payload seg))).
  destruct (syn _), (fin _); lia.
Qed.

Lemma span_nonneg l : 0 <= span l.
Proof. induction l as [|seg l IH]; simpl; [done|]. pose proof (length_nonneg seg). lia. Qed.

Lemma length_bound seg : size (payload_of seg) <= MAX_PAYLOAD_SIZE -> length_in_sequence_space seg <= 1002.
Proof.
  unfold length_in_sequence_space, payload_of, MAX_PAYLOAD_SIZE. destruct (syn _), (fin _); lia.
Qed.

Lemma layout_app isn p l1 l2 e : layout isn p (l1 ++ l2) e -> layout isn (p + span l1) l2 e.
Proof.
  revert p. induction l1 as [|seg l1 IH]; intros p H; simpl in *; [by rewrite Z.add_0_r|].
  destruct H as (_ & _ & _ & _ & _ & H). apply IH in H. by rewrite Z.add_assoc.
Qed.

Lemma layout_snoc isn p l seg :
  layout isn p l false -> seqno (_header seg) = wrap (p + span l) isn ->
  syn (_header seg) = (p + span l =? 0) -> size (payload_of seg) <= MAX_PAYLOAD_SIZE ->
  0 < length_in_sequence_space seg -> layout isn p (l ++ [seg]) (fin (_header seg)).
Proof.
  revert p. induction l as [|x l IH]; intros p Hl Hs Hy Hp Hz; simpl in *.
  - rewrite Z.add_0_r in *. by rewrite andb_true_r.
  - destruct Hl as (? & ? & Hf & ? & ? & Hl). split_and!; try done.
    + rewrite Hf. destruct l; by rewrite andb_false_r.
    + apply IH; by rewrite <- ?Z.add_assoc.
Qed.

(** The payload bytes before a segment: the sequence numbers before it less the
    one of the SYN. *)
Lemma layout_payloads isn p l1 seg l2 e : 0 <= p -> layout isn p (l1 ++ seg :: l2) e ->
  size (payloads l1) = span l1 - (if (p =? 0) && negb (is_nil l1) then 1 else 0).
Proof.
  revert p. induction l1 as [|x l1 IH]; intros p Hp H; [simpl; by rewrite andb_false_r|].
  destruct H as (_ & Hy & Hf & _ & Hz & H). apply IH in H; [|lia].
  unfold payloads in *. simpl. rewrite size_app, H.
  destruct (Z.eqb_spec (p + length_in_sequence_space x) 0); [lia|]. simpl.
  assert (fin (_header x) = false) as Hf' by (rewrite Hf; destruct l1; simpl; apply andb_false_r).
  unfold length_in_sequence_space, payload_of in *. rewrite Hy, Hf'.
  destruct (Z.eqb_spec p 0); simpl; lia.
Qed.

(** ** The invariant *)

(** A segment of [send_empty_segment]. *)
Definition bare (isn : WrappingInt32) (next : Z) (seg : TCPSegment) : Prop :=
  payload_of seg = [] /\ syn (_header seg) = false /\ fin (_header seg) = false /\
  exists n, 0 <= n <= next /\ seqno (_header seg) = wrap n isn.

(** The sender leaves the fields of the receiver alone. *)
Definition plain (seg : TCPSegment) : Prop := ack (_header seg) = false /\ win (_header seg) = 0.

(** The first unacknowledged segment ends after the highest acknowledgment. *)
Definition first_unacked (q : list TCPSegment) (next a : Z) : Prop :=
  match q with
  | [] => True
  | seg :: _ => a < next - span q + length_in_sequence_space seg
  end.

(** The timer: running exactly while something is unacknowledged, never left
    expired, and the timeout is the initial one doubled [n] times. *)
Record timer_ok (t : Timer) (num : Z) (running : bool) : Prop := {
  tm_active : active t = running;
  tm_expired : expired t = false;
  tm_init : is_u16 (_init_timeout t);
  tm_rto : exists n : nat, _timeout t = u32 (_init_timeout t * 2 ^ Z.of_nat n) /\
             num = u32 (Z.of_nat n)
}.

Record sinv (s : TCPSender) (w : bytes) (sent : list TCPSegment) (a : Z) : Prop := {
  si_stream : ByteStream.wf (_stream s);
  si_data : w = payloads sent ++ _que (_stream s);
  si_read : _readsize (_stream s) = size (payloads sent);
  si_layout : layout (_isn s) 0 sent (_set_fin s);
  si_next : _next_seqno s = span sent;
  si_fin : _set_fin s = true -> _end (_stream s) = true /\ _que (_stream s) = [] /\ 0 < _next_seqno s;
  si_wait : exists acked, sent = acked ++ _wait_ack s;
  si_flight : _flight_bytes s = span (_wait_ack s);
  si_win : is_u16 (_window_sz s);
  si_ackno : 0 <= _ackno s <= a;
  si_a : a <= _next_seqno s <= a + 65535;
  si_first : first_unacked (_wait_ack s) (_next_seqno s) a;
  si_timer : timer_ok (_timer s) (_consecutive_transmit_num s) (negb (is_nil (_wait_ack s)));
  si_out : Forall (fun seg => seg ∈ sent \/ (plain seg /\ bare (_isn s) (_next_seqno s) seg)) (_segments_out s);
  si_plain : Forall plain sent
}.

(** The size of what has been sent: the data, the SYN and the FIN. *)
Lemma layout_span isn p l e : 0 <= p -> layout isn p l e ->
  span l = size (payloads l) + (if (p =? 0) && negb (is_nil l) then 1 else 0) +
           (if e && negb (is_nil l) then 1 else 0).
Proof.
  revert p. induction l as [|x l IH]; intros p Hp H; [simpl; by rewrite !andb_false_r|].
  destruct H as (_ & Hy & Hf & _ & Hz & H). apply IH in H; [|lia].
  unfold payloads in *. simpl. rewrite size_app, H.
  destruct (Z.eqb_spec (p + length_in_sequence_space x) 0); [lia|].
  unfold length_in_sequence_space, payload_of. rewrite Hy, Hf.
  destruct (p =? 0), e, l; simpl; lia.
Qed.

Lemma sinv_bounds s w sent a : sinv s w sent a -> size w < 9223372036854775808 ->
  0 <= _next_seqno s < 9223372036854775810.
Proof.
  intros [_ Hd _ Hl Hn _ _ _ _ _ _ _ _ _ _] Hw. rewrite Hn. pose proof (span_nonneg sent).
  apply layout_span in Hl; [|lia]. pose proof (size_nonneg (_que (_stream s))).
  rewrite Hd, size_app in Hw. repeat case_match; lia.
Qed.

(** Everything in flight is close to [_next_seqno]. *)
Lemma sinv_flight s w sent a : sinv s w sent a -> span (_wait_ack s) <= 66537.
Proof.
  intros [_ _ _ Hl _ _ [acked Hs] _ _ _ Ha Hf _ _ _]. rewrite Hs in Hl. apply layout_app in Hl.
  destruct (_wait_ack s) as [|seg q]; [done|]. destruct Hl as (_ & _ & _ & Hp & _).
  apply length_bound in Hp. unfold first_unacked in Hf. lia.
Qed.

Lemma sinv_written s w sent a : sinv s w sent a -> size w < 9223372036854775808 ->
  bytes_written (_stream s) = size w.
Proof.
  intros [Hst Hd Hrd _ _ _ _ _ _ _ _ _ _ _ _] Hw. unfold bytes_written.
  rewrite (wf_count _ Hst), Hrd, Hd, size_app. rewrite Hd, size_app in Hw.
  pose proof (size_nonneg (payloads sent)). pose proof (size_nonneg (_que (_stream s))). ints.
Qed.

(** [_next_seqno] counts the SYN, the bytes taken from the stream, and the FIN. *)
Lemma sinv_next s w sent a : sinv s w sent a -> _next_seqno s <> 0 ->
  _next_seqno s = 1 + size w - size (_que (_stream s)) + (if _set_fin s then 1 else 0).
Proof.
  intros [Hst Hd Hrd Hl Hn _ _ _ _ _ _ _ _ _ _] Hz. apply layout_span in Hl; [|lia].
  rewrite Hn, Hl, Hd, size_app. destruct sent; [by rewrite Hn in Hz|]. simpl.
  rewrite andb_true_r. lia.
Qed.

Lemma sinv_construct capacity retx fixed random : is_u64 capacity -> is_u16 retx ->
  sinv (construct_sender capacity retx fixed random) [] [] 0.
Proof.
  intros Hc Hr. constructor; try done; simpl; try (unfold is_u16; lia).
  - by apply construct_wf.
  - by exists [].
  - constructor; try done. exists 0%nat. simpl. split; [ints|done].
Qed.

(** ** The writer's operations and the empty segment *)

Lemma sinv_write s w sent a data : sinv s w sent a -> _end (_stream s) = false ->
  sinv (with_stream s (fst (ByteStream.write (_stream s) data)))
    (w ++ ztake (snd (ByteStream.write (_stream s) data)) data) sent a.
Proof.
  intros [Hst Hd Hrd Hl Hn Hfin Hw Hfl Hwin Ha Hr Hf Ht Ho Hpl] He.
  pose proof (write_que (_stream s) data ltac:(pose proof (wf_cap _ Hst); lia)) as Hq.
  rewrite <- ztake_min in Hq. pose proof (write_wf _ data Hst) as Hwf.
  constructor; try done.
  - cbn [with_stream _stream]. by rewrite Hq, Hd, app_assoc.
  - intros E. simpl in E. apply Hfin in E as [E _]. congruence.
Qed.

Lemma sinv_end s w sent a : sinv s w sent a -> sinv (with_stream s (end_input (_stream s))) w sent a.
Proof.
  intros [Hst Hd Hrd Hl Hn Hfin Hw Hfl Hwin Ha Hr Hf Ht Ho Hpl]. constructor; try done; simpl.
  - by apply end_input_wf.
  - intros E. split; [done|]. by apply Hfin.
Qed.

(** The connection takes segments from the front of the queue. *)
Lemma sinv_dequeue s w sent a q1 q2 : sinv s w sent a -> _segments_out s = q1 ++ q2 ->
  sinv (with_segments_out s q2) w sent a.
Proof.
  intros [Hst Hd Hrd Hl Hn Hfin Hw Hfl Hwin Ha Hr Hf Ht Ho Hpl] E. constructor; try done.
  rewrite E in Ho. by apply Forall_app in Ho as [_ Ho].
Qed.

Lemma sinv_empty s w sent a : sinv s w sent a -> sinv (send_empty_segment s) w sent a.
Proof.
  intros [Hst Hd Hrd Hl Hn Hfin Hw Hfl Hwin Ha Hr Hf Ht Ho Hpl]. constructor; try done.
  apply Forall_app. split; [done|]. apply Forall_singleton. right. split; [done|]. split_and!; try done.
  exists (_next_seqno s). split; [|done]. pose proof (span_nonneg sent).
  change (0 <= _next_seqno s <= _next_seqno s). lia.
Qed.

(** ** fill_window *)

(** What [next_segment] computes when the window has room. *)
Lemma next_segment_eq s w sent a win : sinv s w sent a -> size w < 9223372036854775808 ->
  0 < win <= 65535 ->
  let sy := _next_seqno s =? 0 in
  let n := if sy then 1 else 0 in
  let k := Z.min (win - n) MAX_PAYLOAD_SIZE in
  let d := ztake k (_que (_stream s)) in
  let rest := zdrop k (_que (_stream s)) in
  let fi := _end (_stream s) && is_nil rest && (n + size d <? win) in
  let len := n + size d + (if fi then 1 else 0) in
  let seg := mkTCPSegment (with_seq default_header (next_seqno s) sy fi) (buffer_of d) in
  next_segment s win =
    (mkTCPSender (_isn s) (_segments_out s) (_initial_retransmission_timeout s)
       (pop_output (_stream s) k) (_next_seqno s + len) (_window_sz s) (_ackno s) (_flight_bytes s)
       (fi || _set_fin s) (_wait_ack s) (_timer s) (_consecutive_transmit_num s), seg, len) /\
  _que (pop_output (_stream s) k) = rest /\ 0 <= size d <= k /\ length_in_sequence_space seg = len.
Proof.
  intros Hinv Hw Hwin sy n k d rest fi len seg.
  pose proof (sinv_bounds s w sent a Hinv Hw) as Hb. pose proof (si_stream _ _ _ _ Hinv) as Hst.
  assert (0 <= n <= 1) as Hn by (unfold n; destruct sy; lia).
  assert (0 <= k <= 1000) as Hk by (unfold k, MAX_PAYLOAD_SIZE; lia).
  assert (0 <= size d <= k) as Hd by (unfold d; pose proof (size_nonneg (_que (_stream s)));
    rewrite size_ztake by lia; lia).
  assert (_que (pop_output (_stream s) k) = rest) as Hq by (by rewrite pop_output_que, zdrop_min).
  assert (str (buffer_of d) = d) as Hstr by (unfold str; simpl; by rewrite zdrop_0 by lia).
  assert (peek_output (_stream s) k = d) as Hpk by apply ztake_min.
  assert (ByteStream.eof (pop_output (_stream s) k) = _end (_stream s) && is_nil rest) as He.
  { rewrite eof_que by (apply pop_output_wf; [lia|done]). by rewrite Hq. }
  split_and!; try done; try lia.
  - unfold next_segment, ByteStream.read.
    assert ((if _next_seqno s =? 0 then (true, 1) else (false, 0)) = (sy, n)) as ->
      by (unfold n, sy; by destruct (_next_seqno s =? 0)).
    rewrite (u64_small (win - n)) by ints. fold k. rewrite Hpk, He.
    unfold Parser.buffer_size. rewrite Hstr. rewrite (u64_small (n + size d)) by ints. fold fi.
    unfold len, seg. destruct fi; cbn [orb]; rewrite ?(u64_small (_ + 1)) by ints;
      rewrite ?Z.add_0_r; rewrite (u64_small (_next_seqno s + _)) by ints; done.
  - unfold length_in_sequence_space. cbn [_payload seg _header with_seq syn fin]. rewrite Hstr.
    unfold len, n. destruct sy, fi; lia.
Qed.

Record fill_post (s s' : TCPSender) (new : list TCPSegment) : Prop := {
  fo_out : _segments_out s' = _segments_out s ++ new;
  fo_wait : _wait_ack s' = _wait_ack s ++ new;
  fo_next : _next_seqno s' = _next_seqno s + span new;
  fo_isn : _isn s' = _isn s;
  fo_ackno : _ackno s' = _ackno s;
  fo_win : _window_sz s' = _window_sz s;
  fo_num : _consecutive_transmit_num s' = _consecutive_transmit_num s;
  fo_end : _end (_stream s') = _end (_stream s)
}.

Lemma fill_post_refl s : fill_post s s [].
Proof. constructor; try done; by rewrite ?app_nil_r, ?Z.add_0_r. Qed.

Lemma fill_post_trans s s1 s' n1 n2 : fill_post s s1 n1 -> fill_post s1 s' n2 -> fill_post s s' (n1 ++ n2).
Proof.
  intros [] []. constructor; try congruence; rewrite ?span_app, ?app_assoc; congruence || lia.
Qed.

Lemma first_unacked_snoc q seg next a : a <= next -> 0 < length_in_sequence_space seg ->
  first_unacked q next a -> first_unacked (q ++ [seg]) (next + length_in_sequence_space seg) a.
Proof.
  intros Ha Hs H. destruct q as [|x q]; simpl in *; [lia|]. rewrite span_app. simpl. lia.
Qed.

Lemma timer_ok_start t num b : timer_ok t num b ->
  timer_ok (if negb (started t) then timer_start t else t) num true.
Proof.
  intros [Ha He Hi Hn]. unfold started. destruct (active t) eqn:E; simpl; by constructor.
Qed.

(** Sending the next segment keeps the invariant. *)
Lemma sinv_send s w sent a st seg fi : sinv s w sent a -> _set_fin s = false ->
  ByteStream.wf st -> payload_of seg ++ _que st = _que (_stream s) ->
  _readsize st = _readsize (_stream s) + size (payload_of seg) -> _end st = _end (_stream s) ->
  seqno (_header seg) = wrap (_next_seqno s) (_isn s) ->
  syn (_header seg) = (_next_seqno s =? 0) -> fin (_header seg) = fi ->
  (fi = true -> _end st = true /\ _que st = []) ->
  size (payload_of seg) <= MAX_PAYLOAD_SIZE -> 0 < length_in_sequence_space seg -> plain seg ->
  _next_seqno s + length_in_sequence_space seg <= a + 65535 ->
  let s1 := mkTCPSender (_isn s) (_segments_out s) (_initial_retransmission_timeout s) st
       (_next_seqno s + length_in_sequence_space seg) (_window_sz s) (_ackno s) (_flight_bytes s)
       fi (_wait_ack s) (_timer s) (_consecutive_transmit_num s) in
  sinv (send_segment s1 seg (length_in_sequence_space seg)) w (sent ++ [seg]) a /\
  fill_post s (send_segment s1 seg (length_in_sequence_space seg)) [seg].
Proof.
  intros Hinv Hnf Hst Hpay Hrs Hend Hseq Hsyn Hfi Hcl Hsz Hlen Hps Hroom s1.
  pose proof (sinv_flight _ _ _ _ Hinv) as Hfl66. apply length_bound in Hsz as Hlb.
  destruct Hinv as [_ Hd Hrd Hl Hn _ [acked Hw] Hfl Hwin Ha Hr Hf Ht Ho Hpl].
  assert (is_nil (_wait_ack s ++ [seg]) = false) as Hnil by (by destruct (_wait_ack s)).
  pose proof (span_nonneg (_wait_ack s)).
  split; [|constructor; simpl; try done; lia].
  constructor; cbn [send_segment s1 _isn _segments_out _stream _next_seqno _window_sz _ackno
    _flight_bytes _set_fin _wait_ack _timer _consecutive_transmit_num]; try done.
  - by rewrite payloads_app, <- app_assoc; unfold payloads at 2; simpl; rewrite app_nil_r, Hpay.
  - rewrite payloads_app, size_app, Hrs, Hrd. unfold payloads at 3. simpl. by rewrite app_nil_r.
  - rewrite <- Hfi. rewrite Hnf in Hl. apply layout_snoc; rewrite ?Z.add_0_l, <- ?Hn; done.
  - rewrite span_app. simpl. lia.
  - intros E. destruct (Hcl E). split_and!; try done. pose proof (span_nonneg sent). lia.
  - exists acked. by rewrite Hw, app_assoc.
  - rewrite span_app, Hfl. simpl. ints.
  - lia.
  - apply first_unacked_snoc; [lia|done|done].
  - rewrite Hnil. simpl. by eapply timer_ok_start.
  - apply Forall_app. split; [|apply Forall_singleton; left; apply elem_of_app; right; by left].
    eapply Forall_impl; [exact Ho|]. intros x [Hx|[? (? & ? & ? & m & ? & ?)]]; [left; apply elem_of_app; by left|].
    right. split; [done|]. split_and!; try done. exists m. split; [lia|done].
  - apply Forall_app. by split; [|apply Forall_singleton].
Qed.

Lemma sinv_idle s w sent a st : sinv s w sent a -> ByteStream.wf st ->
  _que st = _que (_stream s) -> _readsize st = _readsize (_stream s) -> _end st = _end (_stream s) ->
  sinv (with_stream s st) w sent a.
Proof.
  intros [_ Hd Hrd Hl Hn Hfin Hw Hfl Hwin Ha Hr Hf Ht Ho Hpl] Hst Hq Hrs He.
  constructor; try done; simpl; rewrite ?Hq, ?Hrs, ?He; done.
Qed.

(** One turn of the loop. *)
Lemma fill_step s w sent a win : sinv s w sent a -> size w < 9223372036854775808 ->
  _set_fin s = false -> 0 < win <= 65535 -> _next_seqno s + win <= a + 65535 ->
  exists s1 seg len, next_segment s win = (s1, seg, len) /\ 0 <= len <= win /\
    (len = 0 -> sinv s1 w sent a /\ fill_post s s1 [] /\ _que (_stream s1) = [] /\ _end (_stream s1) = false) /\
    (0 < len -> len = length_in_sequence_space seg /\ sinv (send_segment s1 seg len) w (sent ++ [seg]) a /\
       fill_post s (send_segment s1 seg len) [seg]).
Proof.
  intros Hinv Hw Hnf Hwin Hroom.
  destruct (next_segment_eq s w sent a win Hinv Hw Hwin) as (Hns & Hq & Hd & Hlen).
  set (n := if _next_seqno s =? 0 then 1 else 0) in *.
  set (k := Z.min (win - n) MAX_PAYLOAD_SIZE) in *.
  set (d := ztake k (_que (_stream s))) in *.
  set (fi := _end (_stream s) && is_nil (zdrop k (_que (_stream s))) && (n + size d <? win)) in *.
  set (len := n + size d + (if fi then 1 else 0)) in *.
  set (seg := mkTCPSegment _ _) in *. rewrite Hnf, orb_false_r in Hns.
  assert (0 <= n <= 1) as Hn by (unfold n; case_cmp; lia).
  assert (0 <= len <= win) as Hlw.
  { unfold len, fi, k in *. destruct (Z.ltb_spec (n + size d) win).
    - destruct (_ && true); lia.
    - rewrite andb_false_r. lia. }
  pose proof (pop_output_wf (_stream s) k ltac:(lia) (si_stream _ _ _ _ Hinv)) as Hst.
  assert (_readsize (pop_output (_stream s) k) = _readsize (_stream s) + size d) as Hrs.
  { pose proof (si_read _ _ _ _ Hinv) as Hrd. pose proof (si_data _ _ _ _ Hinv) as Hdt.
    apply (f_equal size) in Hdt. rewrite size_app in Hdt. pose proof (size_nonneg (payloads sent)).
    pose proof (size_nonneg (_que (_stream s))). unfold d. rewrite size_ztake by lia.
    unfold pop_output. cbn [_readsize]. rewrite u64_small by ints. done. }
  eexists _, seg, len. split; [exact Hns|]. split; [done|]. split; intros Hl.
  - assert (n = 0 /\ size d = 0 /\ fi = false) as (Hn0 & Hd0 & Hfi)
      by (unfold len in Hl; destruct fi; split_and!; done || lia).
    assert (_que (_stream s) = []) as Hq0.
    { apply size_zero. unfold d, k, MAX_PAYLOAD_SIZE in Hd0. rewrite size_ztake in Hd0 by lia.
      pose proof (size_nonneg (_que (_stream s))). lia. }
    assert (zdrop k (_que (_stream s)) = []) as Hz by (rewrite Hq0; unfold zdrop; apply drop_nil).
    assert (_end (_stream s) = false) as He.
    { unfold fi in Hfi. rewrite Hz, Hn0, Hd0 in Hfi. destruct (_end _); [|done]. simpl in Hfi.
      apply Z.ltb_ge in Hfi. lia. }
    rewrite Hl, Z.add_0_r, Hfi. rewrite Hfi, Hl, Z.add_0_r in Hns. split_and!; try done.
    + assert (sinv (with_stream s (pop_output (_stream s) k)) w sent a) as Hs.
      { apply sinv_idle; try done; [by rewrite Hq, Hz, Hq0|by rewrite Hrs, Hd0, Z.add_0_r]. }
      unfold with_stream in Hs. by rewrite Hnf in Hs.
    + constructor; simpl; by rewrite ?app_nil_r, ?Z.add_0_r.
    + simpl. by rewrite pop_front_n_drop, Hq0, drop_nil.
  - split; [done|]. rewrite <- Hlen.
    apply sinv_send; try done; try (rewrite Hlen; lia).
    + rewrite Hq. unfold payload_of, seg, str. simpl. rewrite zdrop_0 by lia. apply ztake_zdrop.
    + intros E. unfold fi in E. apply andb_true_iff in E as [[E1 E2]%andb_true_iff _].
      split; [done|]. rewrite Hq. by destruct (zdrop k _).
    + unfold payload_of, seg, str. simpl. rewrite zdrop_0 by lia. unfold k in Hd. lia.
Qed.

(** The loop stops for one of three reasons. *)
Definition filled (s : TCPSender) (edge : Z) : Prop :=
  _set_fin s = true \/ _next_seqno s = edge \/
  (_que (_stream s) = [] /\ _end (_stream s) = false).

Lemma fill_loop_spec fuel s w sent a win : sinv s w sent a -> size w < 9223372036854775808 ->
  0 <= win <= 65535 -> win <= Z.of_nat fuel -> _next_seqno s + win <= a + 65535 ->
  exists s' new, fill_loop fuel s win = Ok s' /\ sinv s' w (sent ++ new) a /\ fill_post s s' new /\
    _next_seqno s' <= _next_seqno s + win /\ filled s' (_next_seqno s + win).
Proof.
  revert s sent win. induction fuel as [|fuel IH]; intros s sent win Hinv Hw Hwin Hf Hroom;
    cbn [fill_loop].
  all: destruct (Z.ltb_spec 0 win) as [Hpos|Hz]; cbn [andb]; [|
    exists s, []; rewrite app_nil_r; split_and!; try done; [apply fill_post_refl|lia|right; left; lia]].
  { lia. }
  destruct (_set_fin s) eqn:Hnf; cbn [negb].
  { exists s, []. rewrite app_nil_r. split_and!; try done; [apply fill_post_refl|lia|by left]. }
  destruct (fill_step s w sent a win Hinv Hw Hnf ltac:(lia) Hroom)
    as (s1 & seg & len & -> & Hlen & H0 & H1).
  destruct (Z.ltb_spec 0 len) as [Hlp|Hlz].
  - destruct (H1 Hlp) as (Hls & Hinv1 & Hpost). pose proof (fo_next _ _ _ Hpost) as Hnx. cbn [span] in Hnx.
    rewrite (u64_small (win - len)) by ints. destruct (Z.eqb_spec (win - len) 0).
    + exists (send_segment s1 seg len), [seg]. split_and!; try done; [lia|right; left; lia].
    + destruct (IH (send_segment s1 seg len) (sent ++ [seg]) (win - len))
        as (s' & new & Hs' & Hinv' & Hpost' & Hle & Hfill); try done; try lia.
      exists s', (seg :: new). split; [done|]. rewrite <- app_assoc in Hinv'. split; [done|].
      split; [by apply (fill_post_trans s (send_segment s1 seg len) s' [seg])|].
      split; [lia|]. by replace (_next_seqno s + win)
        with (_next_seqno (send_segment s1 seg len) + (win - len)) by lia.
  - destruct H0 as (Hinv1 & Hpost & Hq & He); [lia|].
    exists s1, []. rewrite app_nil_r. pose proof (fo_next _ _ _ Hpost) as Hnx. cbn [span] in Hnx.
    split_and!; try done; [lia|]. by right; right.
Qed.

(** The right edge of the peer's window, without wrap-around. *)
Definition edge (s : TCPSender) : Z := _ackno s + Z.max 1 (_window_sz s).

Lemma fill_window_spec s w sent a : sinv s w sent a -> size w < 9223372036854775808 ->
  exists s' new, fill_window s = Ok s' /\ sinv s' w (sent ++ new) a /\ fill_post s s' new /\
    _next_seqno s' <= Z.max (_next_seqno s) (edge s) /\
    (_set_fin s' = true \/ edge s <= _next_seqno s' \/
     (_que (_stream s') = [] /\ _end (_stream s') = false)).
Proof.
  intros Hinv Hw. pose proof (sinv_bounds s w sent a Hinv Hw) as Hb.
  pose proof (si_ackno _ _ _ _ Hinv). pose proof (si_a _ _ _ _ Hinv).
  pose proof (si_win _ _ _ _ Hinv) as Hwin. unfold is_u16 in Hwin.
  unfold fill_window. destruct (_set_fin s) eqn:Hf.
  { exists s, []. rewrite app_nil_r. split_and!; try done; [apply fill_post_refl|lia|by left]. }
  assert (right_edge s = edge s) as Hre.
  { unfold right_edge, edge. destruct (Z.eqb_spec (_window_sz s) 0); simpl; ints. }
  rewrite Hre. destruct (Z.leb_spec (edge s) (_next_seqno s)).
  { exists s, []. rewrite app_nil_r. split_and!; try done; [apply fill_post_refl|lia|auto]. }
  unfold next_seqno_absolute, edge in *. rewrite (u64_small (_ - _)) by ints.
  set (win := _ackno s + Z.max 1 (_window_sz s) - _next_seqno s) in *.
  destruct (fill_loop_spec (Z.to_nat win) s w sent a win Hinv Hw ltac:(lia) ltac:(lia) ltac:(lia))
    as (s' & new & Hs' & Hinv' & Hpost & Hle & Hfill).
  exists s', new. split_and!; try done; [lia|]. destruct Hfill as [?|[?|?]]; auto. right. left. lia.
Qed.

(** ** ack_received *)

(** Only the front of the queue goes. *)
Lemma pop_acked_suffix isn cp a q f b : exists l, q = l ++ fst (fst (pop_acked isn cp a q f b)).
Proof.
  revert f b. induction q as [|t q IH]; intros f b; cbn [pop_acked]; [by exists []|].
  destruct (_ <=? _); [|by exists []]. destruct (IH (u64 (f - length_in_sequence_space t)) true) as [l E].
  exists (t :: l). simpl. by rewrite <- E.
Qed.

(** The loop removes the segments that end at or before the acknowledgment. *)
Lemma pop_acked_spec isn next k q p e b : layout isn p q e -> 0 <= p -> p + span q = next ->
  is_u64 next -> span q < 2147483648 ->
  exists popped rest, q = popped ++ rest /\
    pop_acked isn next k q (span q) b = (rest, span rest, b || negb (is_nil popped)) /\
    (popped <> [] -> p + span popped <= k) /\
    match rest with
    | [] => True
    | seg :: _ => k < p + span popped + length_in_sequence_space seg
    end.
Proof.
  revert p b. induction q as [|seg q IH]; intros p b Hl Hp Hn Hu Hs; simpl in *.
  { exists [], []. by rewrite orb_false_r. }
  destruct Hl as (Hseq & _ & _ & _ & Hlen & Hl). pose proof (span_nonneg q).
  rewrite Hseq, unwrap_near by ints. rewrite (u64_small (p + _)) by ints.
  destruct (Z.leb_spec (p + length_in_sequence_space seg) k).
  - rewrite u64_small by ints. rewrite Z.add_simpl_l.
    destruct (IH (p + length_in_sequence_space seg) true Hl) as (popped & rest & Hq & Hr & Hle & Hgt);
      try done; try lia.
    exists (seg :: popped), rest. simpl. rewrite Hq, <- Hq, Hr. split; [done|].
    split; [by rewrite orb_true_r|]. split.
    + intros _. destruct popped; [simpl; lia|]. specialize (Hle ltac:(done)). simpl in *. lia.
    + destruct rest; [done|]. lia.
  - exists [], (seg :: q). simpl. rewrite orb_false_r. split_and!; try done. lia.
Qed.

(** [acks s ackno k]: [ackno] is the 32-bit form of the absolute acknowledgment
    [k], of a byte that has been sent and that is not 2^31 bytes old. *)
Record acks (s : TCPSender) (ackno : WrappingInt32) (k : Z) : Prop := {
  ak_wrap : ackno = wrap k (_isn s);
  ak_sent : 0 <= k <= _next_seqno s;
  ak_recent : _next_seqno s - k < 2147483648
}.

Record ack_post (s s' : TCPSender) (k win : Z) : Prop := {
  ap_ackno : _ackno s' = k;
  ap_win : _window_sz s' = win;
  ap_next : _next_seqno s' = _next_seqno s;
  ap_out : _segments_out s' = _segments_out s;
  ap_stream : _stream s' = _stream s;
  ap_isn : _isn s' = _isn s;
  ap_popped : exists popped, _wait_ack s = popped ++ _wait_ack s' /\
    (popped <> [] -> _next_seqno s - span (_wait_ack s') <= k) /\
    (popped <> [] -> _consecutive_transmit_num s' = 0) /\
    (popped = [] -> _timer s' = _timer s /\ _consecutive_transmit_num s' = _consecutive_transmit_num s);
  ap_rest : first_unacked (_wait_ack s') (_next_seqno s) k
}.

Lemma first_unacked_max q next a b : first_unacked q next a -> first_unacked q next b ->
  first_unacked q next (Z.max a b).
Proof. destruct q; simpl; [done|]. lia. Qed.

Lemma first_unacked_suffix isn p popped rest e a : layout isn p (popped ++ rest) e ->
  first_unacked (popped ++ rest) (p + span (popped ++ rest)) a ->
  first_unacked rest (p + span (popped ++ rest)) a.
Proof.
  destruct popped as [|x popped]; [done|]. destruct rest as [|y rest]; [done|].
  intros (_ & _ & _ & _ & _ & Hl) H. unfold first_unacked in *.
  change ((x :: popped) ++ y :: rest) with (x :: popped ++ y :: rest) in *.
  cbn [span] in *. rewrite span_app in *. cbn [span] in *.
  apply layout_app in Hl. destruct Hl as (_ & _ & _ & _ & Hy & _). pose proof (span_nonneg popped). lia.
Qed.

Lemma timer_ok_ack t num b q : timer_ok t num b ->
  timer_ok (if negb (is_nil q) then timer_start (timer_reset t) else timer_stop (timer_reset t)) 0
    (negb (is_nil (q : list TCPSegment))).
Proof.
  intros [Ha He Hi _]. unfold is_u16 in Hi.
  destruct (is_nil q); constructor; try done; exists 0%nat; (split; [simpl; ints|done]).
Qed.

Lemma ack_received_spec s w sent a ackno k win : sinv s w sent a -> size w < 9223372036854775808 ->
  acks s ackno k -> is_u16 win ->
  let s' := ack_received s ackno win in
  sinv s' w sent (Z.max a k) /\ ack_post s s' k win.
Proof.
  intros Hinv Hw [-> Hk Hrec] Hwin s'.
  pose proof (sinv_bounds _ _ _ _ Hinv Hw) as Hb. pose proof (sinv_flight _ _ _ _ Hinv) as Hfl66.
  destruct Hinv as [Hst Hd Hrd Hl Hn Hfin [acked Hwa] Hfl Hwi Ha Hr Hf Ht Ho Hpl].
  pose proof Hl as Hl0. rewrite Hwa in Hl0. apply layout_app in Hl0. rewrite Z.add_0_l in Hl0.
  assert (span acked + span (_wait_ack s) = _next_seqno s) as Hsum by (rewrite Hn, Hwa, span_app; lia).
  pose proof (span_nonneg acked).
  destruct (pop_acked_spec (_isn s) (_next_seqno s) k (_wait_ack s) (span acked) (_set_fin s) false)
    as (popped & rest & Hq & Hpop & Hle & Hgt); try done; try (unfold is_u64; lia).
  unfold s', ack_received. rewrite unwrap_near by ints.
  unfold next_seqno_absolute. destruct (Z.ltb_spec (_next_seqno s) k); [lia|].
  rewrite Hfl, Hpop. cbn [orb].
  set (tn := if negb (is_nil popped) then _ else _).
  assert (timer_ok (fst tn) (snd tn) (negb (is_nil rest))) as Htn.
  { unfold tn. destruct popped as [|x popped]; simpl; [by rewrite Hq in Ht|].
    by apply (timer_ok_ack _ _ _ rest) in Ht. }
  assert (first_unacked rest (_next_seqno s) k) as Hk'.
  { destruct rest as [|seg rest]; [done|]. simpl. rewrite Hq, span_app in Hsum. simpl in Hsum. lia. }
  rewrite Hq in Hf, Hl0. rewrite <- Hsum in Hf. rewrite Hq in Hf.
  apply (first_unacked_suffix _ _ _ _ _ _ Hl0) in Hf. rewrite <- Hq, Hsum in Hf.
  destruct tn as [tm num] eqn:Etn. simpl in Htn.
  split; constructor; simpl; try done; try lia.
  - exists (acked ++ popped). by rewrite Hwa, Hq, app_assoc.
  - by apply first_unacked_max.
  - exists popped. split; [done|]. rewrite Hq, span_app in Hsum. subst tn. split_and!.
    + intros Hne. specialize (Hle Hne). lia.
    + intros Hne. destruct popped; [done|]. simpl in Etn. by simplify_eq.
    + intros ->. simpl in Etn. by simplify_eq.
Qed.

(** ** tick *)

Record tick_post (s s' : TCPSender) (out : list TCPSegment) (t rto num : Z) : Prop := {
  tk_out : _segments_out s' = _segments_out s ++ out;
  tk_time : _cur_time (_timer s') = t;
  tk_rto : _timeout (_timer s') = rto;
  tk_num : _consecutive_transmit_num s' = num;
  tk_wait : _wait_ack s' = _wait_ack s
}.

Lemma timer_ok_double t num b : timer_ok t num b -> forall a e c,
  exists n : nat, _timeout (mkTimer a e (_init_timeout t) (u32 (_timeout t * 2)) c) =
    u32 (_init_timeout t * 2 ^ Z.of_nat n) /\ u32 (num + 1) = u32 (Z.of_nat n).
Proof.
  intros [_ _ _ (n & Hr & Hn)] a e c. exists (S n). cbn [_timeout]. rewrite Hr, Hn.
  rewrite Nat2Z.inj_succ, Z.pow_succ_r by lia.
  replace (_init_timeout t * (2 * 2 ^ Z.of_nat n)) with (_init_timeout t * 2 ^ Z.of_nat n * 2) by lia.
  split; ints.
Qed.

Lemma tick_spec s w sent a ms : sinv s w sent a -> is_u64 ms ->
  sinv (tick s ms) w sent a /\
  match _wait_ack s with
  | [] => tick_post s (tick s ms) [] (_cur_time (_timer s)) (_timeout (_timer s))
            (_consecutive_transmit_num s)
  | front :: _ =>
      let t := u32 (_cur_time (_timer s) + ms) in
      if t <? _timeout (_timer s)
      then tick_post s (tick s ms) [] t (_timeout (_timer s)) (_consecutive_transmit_num s)
      else if _window_sz s =? 0
      then tick_post s (tick s ms) [front] 0 (_timeout (_timer s)) (_consecutive_transmit_num s)
      else tick_post s (tick s ms) [front] 0 (u32 (_timeout (_timer s) * 2))
             (u32 (_consecutive_transmit_num s + 1))
  end.
Proof.
  intros [Hst Hd Hrd Hl Hn Hfin Hw Hfl Hwin Ha Hr Hf Ht Ho Hpl] Hms.
  pose proof (timer_ok_double _ _ _ Ht) as Hdbl. destruct Ht as [Hact Hexp Hin Hrto].
  unfold tick, timer_tictoc. rewrite (u16_small (_window_sz s)) by done.
  replace (u32 (_cur_time (_timer s) + u32 ms)) with (u32 (_cur_time (_timer s) + ms)) by ints.
  rewrite Hact, Hexp. destruct (_wait_ack s) as [|front q] eqn:Hwa; cbn [is_nil negb].
  { cbn [isexpired]. unfold isexpired. rewrite Hexp.
    split; constructor; simpl; try done; rewrite ?app_nil_r, ?Hwa; try done. }
  cbn [_timeout _cur_time _init_timeout active expired].
  rewrite Z.leb_antisym. destruct (_ <? _timeout (_timer s)); cbn [negb].
  { split; constructor; simpl; rewrite ?app_nil_r, ?Hwa; try done. }
  assert (Forall (fun seg => seg ∈ sent \/ (plain seg /\ bare (_isn s) (_next_seqno s) seg))
    (_segments_out s ++ [front])) as Ho'.
  { apply Forall_app. split; [done|]. apply Forall_singleton. left. destruct Hw as [acked ->].
    apply elem_of_app. right. by left. }
  unfold timer_expire. destruct (Z.eqb_spec (_window_sz s) 0); cbn [negb isexpired expired];
    (split; constructor; simpl; rewrite ?Hwa; try done; constructor; simpl; try done).
  all: apply (Hdbl true true 0).
Qed.

(** ** Executions

    A state of an execution is the sender and the bytes its stream accepted. *)
Inductive snd_step : TCPSender * bytes -> TCPSender * bytes -> Prop :=
| snd_write s w data : _end (_stream s) = false ->
    snd_step (s, w) (with_stream s (fst (ByteStream.write (_stream s) data)),
                     w ++ ztake (snd (ByteStream.write (_stream s) data)) data)
| snd_end s w : snd_step (s, w) (with_stream s (end_input (_stream s)), w)
| snd_fill s w s' : fill_window s = Ok s' -> snd_step (s, w) (s', w)
| snd_ack s w ackno k win : acks s ackno k -> is_u16 win ->
    snd_step (s, w) (ack_received s ackno win, w)
| snd_tick s w ms : is_u64 ms -> snd_step (s, w) (tick s ms, w)
| snd_empty s w : snd_step (s, w) (send_empty_segment s, w)
| snd_dequeue s w q1 q2 : _segments_out s = q1 ++ q2 -> snd_step (s, w) (with_segments_out s q2, w).

Definition snd_reachable (capacity retx : Z) (isn : WrappingInt32) (s : TCPSender) (w : bytes) : Prop :=
  rtc snd_step (construct_sender capacity retx (Some isn) 0, []) (s, w).

Lemma snd_step_grows x y : snd_step x y -> size (snd x) <= size (snd y).
Proof.
  intros []; simpl; try lia. rewrite size_app.
  pose proof (size_nonneg (ztake (Z.min (_capacity (_stream s)) (size data)) data)). lia.
Qed.

Lemma snd_step_inv x y : snd_step x y -> size (snd x) < 9223372036854775808 ->
  (exists sent a, sinv (fst x) (snd x) sent a) -> _isn (fst y) = _isn (fst x) /\
  exists sent a, sinv (fst y) (snd y) sent a.
Proof.
  intros Hs Hw (sent & a & Hi). destruct Hs; simpl in *.
  - split; [done|]. exists sent, a. by apply sinv_write.
  - split; [done|]. exists sent, a. by apply sinv_end.
  - destruct (fill_window_spec s w sent a Hi Hw) as (s'' & new & Hs & Hi' & Hp & _).
    assert (s'' = s') as -> by congruence. split; [apply Hp|eauto].
  - destruct (ack_received_spec s w sent a ackno k win Hi Hw) as [Hi' Hp]; try done.
    split; [apply Hp|eauto].
  - split; [|destruct (tick_spec s w sent a ms Hi) as [Hi' _]; [done|eauto]].
    unfold tick. repeat case_match; done.
  - split; [done|]. exists sent, a. by apply sinv_empty.
  - split; [done|]. exists sent, a. by eapply sinv_dequeue.
Qed.

Lemma snd_reachable_inv capacity retx isn s w : is_u64 capacity -> is_u16 retx ->
  snd_reachable capacity retx isn s w -> size w < 9223372036854775808 ->
  _isn s = isn /\ exists sent a, sinv s w sent a.
Proof.
  intros Hc Hr H. change (size (snd (s, w)) < 9223372036854775808 ->
    _isn (fst (s, w)) = isn /\ exists sent a, sinv (fst (s, w)) (snd (s, w)) sent a).
  refine (rtc_ind_r (fun z => size (snd z) < 9223372036854775808 ->
    _isn (fst z) = isn /\ exists sent a, sinv (fst z) (snd z) sent a) _ _ _ _ H); clear H.
  - intros _. split; [done|]. exists [], 0. by apply sinv_construct.
  - intros y z _ Hs IH Hz. pose proof (snd_step_grows y z Hs). destruct IH as [Hi Hinv]; [lia|].
    destruct (snd_step_inv y z Hs ltac:(lia) Hinv) as [Hi' ?]. split; [congruence|done].
Qed.

(** [segment_of data isn seg i]: the segment holds the bytes of [data] from index
    [i], with SYN at index 0 and FIN at the end. *)
Record segment_of (data : bytes) (isn : WrappingInt32) (seg : TCPSegment) (i : Z) : Prop := {
  so_seqno : seqno (_header seg) = wrap (if syn (_header seg) then 0 else i + 1) isn;
  so_syn : syn (_header seg) = true -> i = 0;
  so_data : agrees data (payload_of seg) i;
  so_fin : fin (_header seg) = true -> i + size (payload_of seg) = size data
}.

Lemma sinv_segment_of s w sent a seg : sinv s w sent a -> seg ∈ sent -> exists i,
  segment_of w (_isn s) seg i /\
  i + 1 + size (payload_of seg) + (if fin (_header seg) then 1 else 0) <= _next_seqno s /\
  (fin (_header seg) = true -> _set_fin s = true /\ _end (_stream s) = true /\ _que (_stream s) = []).
Proof.
  intros [Hst Hd Hrd Hl Hn Hfin Hw Hfl Hwin Ha Hr Hf Ht Ho Hpl] Hin.
  apply list_elem_of_split in Hin as (l1 & l2 & ->).
  pose proof (layout_payloads _ 0 l1 seg l2 _ ltac:(lia) Hl) as Hp.
  pose proof (layout_app _ _ _ _ _ Hl) as (Hseq & Hsyn & Hfi & Hmax & Hlen & _).
  rewrite Z.add_0_l in *. rewrite payloads_app in Hd.
  change (payloads (seg :: l2)) with (payload_of seg ++ payloads l2) in Hd. rewrite <- !app_assoc in Hd.
  exists (size (payloads l1)). pose proof (size_nonneg (payloads l1)). pose proof (span_nonneg l1).
  assert (syn (_header seg) = true -> l1 = []) as Hnil.
  { intros E. rewrite Hsyn in E. apply Z.eqb_eq in E. destruct l1 as [|x l1]; [done|].
    destruct Hl as (_ & _ & _ & _ & Hx & _). simpl in E. pose proof (span_nonneg l1). lia. }
  split; [constructor|].
  - destruct (syn (_header seg)) eqn:E; [by rewrite Hnil in Hseq|].
    symmetry in Hsyn. apply Z.eqb_neq in Hsyn. destruct l1; [done|]. simpl in Hp. rewrite Hseq.
    f_equal. simpl. lia.
  - intros E. by rewrite Hnil.
  - rewrite Hd. split_and!; [done| |].
    + rewrite !size_app. pose proof (size_nonneg (payloads l2)). pose proof (size_nonneg (_que (_stream s))). lia.
    + unfold slice. by rewrite zdrop_app, ztake_app.
  - intros E. rewrite E in Hfi. symmetry in Hfi. apply andb_true_iff in Hfi as [Hsf Hnl].
    destruct l2; [|done]. destruct (Hfin Hsf) as (_ & Hq & _). rewrite Hd, Hq, !size_app. change (payloads []) with (@nil byte). rewrite !(@size_nil byte). lia.
  - split; [|intros E; rewrite E in Hfi; symmetry in Hfi; apply andb_true_iff in Hfi as [Hsf _];
      destruct (Hfin Hsf) as (? & ? & _); done].
    rewrite Hn, span_app. cbn [span]. pose proof (span_nonneg l2).
    unfold length_in_sequence_space, payload_of in *. destruct l1 as [|x l1].
    + change (span []) with 0 in Hsyn. rewrite Hsyn. change (span []) with 0. change (payloads []) with (@nil byte).
      rewrite size_nil. simpl. lia.
    + change (0 =? 0) with true in Hp. cbn [is_nil negb andb] in Hp. rewrite Hp. destruct (syn (_header seg)); lia.
Qed.

(** ** Properties *)

(** C17: What the sender sends is the stream.  In every execution (writes, end
    of input, window filling, acknowledgments of sent bytes, ticks and dequeues in
    any order), every segment waiting to be transmitted or acknowledged is either
    an empty one of [send_empty_segment] or carries exactly the bytes of the
    accepted stream at the place its sequence number says, at most
    [MAX_PAYLOAD_SIZE] of them, with SYN only at the beginning and FIN only at the
    end of an ended stream of which nothing is left unsent. *)
Theorem sender_segments_carry_stream capacity retx isn s w seg :
  is_u64 capacity -> is_u16 retx -> snd_reachable capacity retx isn s w ->
  size w < 9223372036854775808 -> seg ∈ segments_out s \/ seg ∈ _wait_ack s ->
  bare isn (next_seqno_absolute s) seg \/
  exists i, segment_of w isn seg i /\ size (str (_payload seg)) <= MAX_PAYLOAD_SIZE /\
    (fin (_header seg) = true -> input_ended (stream_in s) = true /\ _que (stream_in s) = []).
Proof.
  intros Hc Hr Hreach Hw Hin.
  destruct (snd_reachable_inv capacity retx isn s w Hc Hr Hreach Hw) as [<- (sent & a & Hinv)].
  assert (seg ∈ sent \/ bare (_isn s) (_next_seqno s) seg) as [Hs|?]; [|right|by left].
  { destruct Hin as [Hin|Hin].
    - pose proof (si_out _ _ _ _ Hinv) as Ho. rewrite Forall_forall in Ho.
      destruct (Ho seg Hin) as [|[_ ?]]; auto.
    - left. destruct (si_wait _ _ _ _ Hinv) as [acked ->]. apply elem_of_app. by right. }
  destruct (sinv_segment_of s w sent a seg Hinv Hs) as (i & Hso & _ & Hfin).
  exists i. split_and!; [done| |].
  - apply list_elem_of_split in Hs as (l1 & l2 & ->). pose proof (si_layout _ _ _ _ Hinv) as Hl.
    apply layout_app in Hl. apply Hl.
  - intros E. by destruct (Hfin E) as (_ & ? & ?).
Qed.

(** A run for the witnesses: "ab" written, SYN sent and acknowledged with a
    window of 10, the two bytes sent. *)
Definition sample_isn : WrappingInt32 := mkWrappingInt32 4294967295.

Definition sample_sender : result TCPSender :=
  let s := construct_sender 100 1000 (Some sample_isn) 0 in
  let! s := fill_window s in
  let s := ack_received s (mkWrappingInt32 0) 10 in
  let s := with_stream s (fst (ByteStream.write (_stream s) [x61; x62])) in
  fill_window s.

Definition sample_state : TCPSender :=
  match sample_sender with Ok s => s | Throw _ => construct_sender 0 0 None 0 end.

Lemma sample_reachable : snd_reachable 100 1000 sample_isn sample_state [x61; x62].
Proof.
  unfold snd_reachable.
  eapply rtc_l; [apply snd_fill; vm_compute; reflexivity|].
  eapply rtc_l; [apply (snd_ack _ _ (mkWrappingInt32 0) 1 10); [constructor|split]; by vm_compute|].
  eapply rtc_l; [apply (snd_write _ _ [x61; x62]); by vm_compute|].
  eapply rtc_l; [apply snd_fill; vm_compute; reflexivity|]. vm_compute. apply rtc_refl.
Qed.

Definition sample_segment : TCPSegment :=
  mkTCPSegment (with_seq default_header (mkWrappingInt32 0) false false) (buffer_of [x61; x62]).

Lemma sender_segments_carry_stream_witness :
  sample_segment ∈ _wait_ack sample_state /\
  (bare sample_isn (next_seqno_absolute sample_state) sample_segment \/
   exists i, segment_of [x61; x62] sample_isn sample_segment i /\
    size (str (_payload sample_segment)) <= MAX_PAYLOAD_SIZE /\
    (fin (_header sample_segment) = true ->
       input_ended (stream_in sample_state) = true /\ _que (stream_in sample_state) = [])).
Proof.
  assert (sample_segment ∈ _wait_ack sample_state) as Hin by (vm_compute; left).
  split; [exact Hin|].
  apply (sender_segments_carry_stream 100 1000 sample_isn sample_state [x61; x62]);
    [split; by vm_compute|split; by vm_compute|exact sample_reachable|by vm_compute|by right].
Defined.

(** C18: [fill_window] fills the peer's window and no more.  It returns, appends
    the same new segments to the transmission queue and to the retransmission
    queue, never goes past the right edge of the advertised window (a window of 0
    counting as 1), and stops only when the FIN is out, the window is full, or the
    stream is empty and not ended. *)
Theorem sender_fill_window capacity retx isn s w :
  is_u64 capacity -> is_u16 retx -> snd_reachable capacity retx isn s w ->
  size w < 9223372036854775808 ->
  exists s' new, fill_window s = Ok s' /\
    segments_out s' = segments_out s ++ new /\ _wait_ack s' = _wait_ack s ++ new /\
    next_seqno_absolute s' = next_seqno_absolute s + span new /\
    bytes_in_flight s' = bytes_in_flight s + span new /\
    next_seqno_absolute s' <= Z.max (next_seqno_absolute s) (_ackno s + Z.max 1 (_window_sz s)) /\
    (_set_fin s' = true \/ _ackno s + Z.max 1 (_window_sz s) <= next_seqno_absolute s' \/
     (_que (stream_in s') = [] /\ input_ended (stream_in s') = false)).
Proof.
  intros Hc Hr Hreach Hw.
  destruct (snd_reachable_inv capacity retx isn s w Hc Hr Hreach Hw) as [<- (sent & a & Hinv)].
  destruct (fill_window_spec s w sent a Hinv Hw) as (s' & new & Hs & Hinv' & Hpost & Hle & Hfill).
  exists s', new. destruct Hpost as [Ho Hwa Hn _ _ _ _ _]. split_and!; try done.
  unfold bytes_in_flight. rewrite (si_flight _ _ _ _ Hinv'), (si_flight _ _ _ _ Hinv), Hwa. apply span_app.
Qed.

Lemma sender_fill_window_witness :
  exists s' new, fill_window sample_state = Ok s' /\
    next_seqno_absolute s' = next_seqno_absolute sample_state + span new /\
    next_seqno_absolute s' <= 11.
Proof.
  destruct (sender_fill_window 100 1000 sample_isn sample_state [x61; x62])
    as (s' & new & Hs & _ & _ & Hn & _ & Hle & _);
    [split; by vm_compute|split; by vm_compute|exact sample_reachable|by vm_compute|].
  exists s', new. split; [exact Hs|]. split; [exact Hn|].
  replace (Z.max _ _) with 11 in Hle by (by vm_compute). exact Hle.
Defined.

(** C19: Effect of an acknowledgment.  An acknowledgment of [k] sequence numbers
    that have been sent removes from the retransmission queue exactly the segments
    it covers entirely (a prefix of the queue: all of them end at or before [k],
    the next one ends after it), leaves [bytes_in_flight] at the sequence numbers
    still unacknowledged, records the window, resets the retransmission counter if
    something new was acknowledged, and stops the timer exactly when nothing is
    left in flight. *)
Theorem sender_ack_received capacity retx isn s w ackno k win :
  is_u64 capacity -> is_u16 retx -> snd_reachable capacity retx isn s w ->
  size w < 9223372036854775808 -> acks s ackno k -> is_u16 win ->
  let s' := ack_received s ackno win in
  exists popped, _wait_ack s = popped ++ _wait_ack s' /\
    (popped <> [] -> next_seqno_absolute s - span (_wait_ack s') <= k /\ consecutive_retransmissions s' = 0) /\
    match _wait_ack s' with
    | [] => True
    | seg :: _ => k < next_seqno_absolute s - span (_wait_ack s') + length_in_sequence_space seg
    end /\
    bytes_in_flight s' = span (_wait_ack s') /\
    (k = next_seqno_absolute s -> bytes_in_flight s' = 0) /\
    started (_timer s') = negb (is_nil (_wait_ack s')) /\
    _window_sz s' = win.
Proof.
  intros Hc Hr Hreach Hw Hack Hwin s'.
  destruct (snd_reachable_inv capacity retx isn s w Hc Hr Hreach Hw) as [<- (sent & a & Hinv)].
  destruct (ack_received_spec s w sent a ackno k win Hinv Hw Hack Hwin) as [Hinv' Hpost].
  fold s' in Hinv', Hpost. destruct Hpost as [_ Hwi _ _ _ _ (popped & Hq & H1 & H2 & _) Hrest].
  assert (bytes_in_flight s' = span (_wait_ack s')) as Hfl by apply Hinv'.
  exists popped. split_and!; try done; auto.
  - intros ->. rewrite Hfl. unfold first_unacked, next_seqno_absolute in *.
    destruct (_wait_ack s') as [|seg q] eqn:E; [done|]. exfalso.
    pose proof (span_nonneg q). simpl in Hrest. lia.
  - apply (si_timer _ _ _ _ Hinv').
Qed.

Lemma sender_ack_received_witness :
  let s' := ack_received sample_state (mkWrappingInt32 2) 5 in
  exists popped, _wait_ack sample_state = popped ++ _wait_ack s' /\
    bytes_in_flight s' = 0 /\ _window_sz s' = 5.
Proof.
  destruct (sender_ack_received 100 1000 sample_isn sample_state [x61; x62] (mkWrappingInt32 2) 3 5)
    as (popped & Hq & _ & _ & _ & Hz & _ & Hw);
    [split; by vm_compute|split; by vm_compute|exact sample_reachable|by vm_compute
    |constructor; by vm_compute|split; by vm_compute|].
  exists popped. split; [exact Hq|]. split; [|exact Hw]. apply Hz. by vm_compute.
Defined.

(** C20: Retransmission.  A tick sends nothing while nothing is outstanding or
    the timeout has not elapsed; when it elapses, exactly the oldest
    unacknowledged segment is sent again, the clock restarts, and, unless the
    advertised window is 0, the timeout doubles and the retransmission counter
    goes up by one (both in 32-bit arithmetic). *)
Theorem sender_tick capacity retx isn s w ms :
  is_u64 capacity -> is_u16 retx -> snd_reachable capacity retx isn s w ->
  size w < 9223372036854775808 -> is_u64 ms ->
  match _wait_ack s with
  | [] => tick_post s (tick s ms) [] (_cur_time (_timer s)) (_timeout (_timer s))
            (consecutive_retransmissions s)
  | front :: _ =>
      let t := u32 (_cur_time (_timer s) + ms) in
      if t <? _timeout (_timer s)
      then tick_post s (tick s ms) [] t (_timeout (_timer s)) (consecutive_retransmissions s)
      else if _window_sz s =? 0
      then tick_post s (tick s ms) [front] 0 (_timeout (_timer s)) (consecutive_retransmissions s)
      else tick_post s (tick s ms) [front] 0 (u32 (_timeout (_timer s) * 2))
             (u32 (consecutive_retransmissions s + 1))
  end.
Proof.
  intros Hc Hr Hreach Hw Hms.
  destruct (snd_reachable_inv capacity retx isn s w Hc Hr Hreach Hw) as [_ (sent & a & Hinv)].
  apply (tick_spec s w sent a ms Hinv Hms).
Qed.

Lemma sender_tick_witness :
  tick_post sample_state (tick sample_state 1000) [sample_segment] 0 2000 1.
Proof.
  apply (sender_tick 100 1000 sample_isn sample_state [x61; x62] 1000);
    [split; by vm_compute|split; by vm_compute|exact sample_reachable|by vm_compute|split; by vm_compute].
Defined.

(** C21: The sender's counters.  In every state of an execution,
    [bytes_in_flight] is the length in sequence space of the unacknowledged
    segments, which are the last ones before [next_seqno]; the timer runs exactly
    while it is positive; and the timeout is the initial one doubled once per
    consecutive retransmission. *)
Theorem sender_flight_and_timer capacity retx isn s w :
  is_u64 capacity -> is_u16 retx -> snd_reachable capacity retx isn s w ->
  size w < 9223372036854775808 ->
  layout isn (next_seqno_absolute s - bytes_in_flight s) (_wait_ack s) (_set_fin s) /\
  bytes_in_flight s = span (_wait_ack s) /\ 0 <= bytes_in_flight s <= next_seqno_absolute s /\
  started (_timer s) = (0 <? bytes_in_flight s) /\
  (exists n : nat, consecutive_retransmissions s = u32 (Z.of_nat n) /\
     _timeout (_timer s) = u32 (_init_timeout (_timer s) * 2 ^ Z.of_nat n)).
Proof.
  intros Hc Hr Hreach Hw.
  destruct (snd_reachable_inv capacity retx isn s w Hc Hr Hreach Hw) as [<- (sent & a & Hinv)].
  destruct Hinv as [_ _ _ Hl Hn _ [acked Hs] Hfl _ _ _ _ [Hact _ _ (n & Hrto & Hnum)] _ _].
  unfold bytes_in_flight, next_seqno_absolute, started. rewrite Hs in Hl. apply layout_app in Hl as Hl'.
  pose proof (span_nonneg acked). pose proof (span_nonneg (_wait_ack s)).
  rewrite Hs, span_app in Hn. rewrite Hfl. split_and!; try lia.
  - by replace (_next_seqno s - span (_wait_ack s)) with (0 + span acked) by lia.
  - rewrite Hact. destruct (_wait_ack s) as [|seg q]; [done|]. destruct Hl' as (_ & _ & _ & _ & Hp & _).
    pose proof (span_nonneg q). cbn [is_nil negb span]. symmetry. apply Z.ltb_lt. lia.
  - by exists n.
Qed.

Lemma sender_flight_and_timer_witness :
  layout sample_isn (next_seqno_absolute sample_state - bytes_in_flight sample_state)
    (_wait_ack sample_state) (_set_fin sample_state) /\ bytes_in_flight sample_state = 2.
Proof.
  split; [|by vm_compute].
  apply (sender_flight_and_timer 100 1000 sample_isn sample_state [x61; x62]);
    [split; by vm_compute|split; by vm_compute|exact sample_reachable|by vm_compute].
Defined.

(** An acknowledgment of bytes that were never sent is meant to be ignored, but
    [_ackno] is assigned before the test: with a window of 10 and 3 sequence
    numbers sent, an acknowledgment of number 100 lets [fill_window] run
    32 sequence numbers past the edge of the window. *)
Example impossible_ack_opens_window :
  let s := with_stream sample_state (fst (ByteStream.write (_stream sample_state) (replicate 40 x7a))) in
  (let! s1 := fill_window s in Ok (next_seqno_absolute s1)) = Ok 11 /\
  (let! s1 := fill_window (ack_received s (wrap 100 sample_isn) 10) in
   Ok (next_seqno_absolute s1)) = Ok 43.
Proof. split; reflexivity. Qed.
