(* ===== verification/TCPConnection.v ===== *)
(** * TCPConnection: an endpoint

    Models [libsponge/tcp_connection.hh] and [libsponge/tcp_connection.cc]: the
    state and every method, composed of the operations of [TCPSender] and
    [TCPReceiver] in the order of the code.  A method returns a [result] because
    the reassembler's [substr] calls can throw. *)

From S2P Require Import Prelude WrappingIntegers ByteStream StreamReassembler Parser TCPSegment.
From S2P Require Import TCPReceiver TCPSender.

(** ** State *)

Record TCPConnection : Type := mkTCPConnection {
  _cfg : TCPConfig;
  _receiver : TCPReceiver;
  _sender : TCPSender;
  _segments_out : list TCPSegment;
  _linger_after_streams_finish : bool;
  _active : bool;
  _wait_segment_time : Z
}.

Definition construct_connection (cfg : TCPConfig) (random : Z) : TCPConnection :=
  mkTCPConnection cfg (construct_receiver (recv_capacity cfg))
    (construct_sender (send_capacity cfg) (rt_timeout cfg) (fixed_isn cfg) random)
    [] true true 0.

(** Assignments to one member. *)
Definition set_receiver (c : TCPConnection) (r : TCPReceiver) : TCPConnection :=
  mkTCPConnection (_cfg c) r (_sender c) (_segments_out c) (_linger_after_streams_finish c)
    (_active c) (_wait_segment_time c).
Definition set_sender (c : TCPConnection) (s : TCPSender) : TCPConnection :=
  mkTCPConnection (_cfg c) (_receiver c) s (_segments_out c) (_linger_after_streams_finish c)
    (_active c) (_wait_segment_time c).
Definition set_out (c : TCPConnection) (q : list TCPSegment) : TCPConnection :=
  mkTCPConnection (_cfg c) (_receiver c) (_sender c) q (_linger_after_streams_finish c)
    (_active c) (_wait_segment_time c).
Definition set_linger (c : TCPConnection) (b : bool) : TCPConnection :=
  mkTCPConnection (_cfg c) (_receiver c) (_sender c) (_segments_out c) b (_active c)
    (_wait_segment_time c).
Definition set_active (c : TCPConnection) (b : bool) : TCPConnection :=
  mkTCPConnection (_cfg c) (_receiver c) (_sender c) (_segments_out c)
    (_linger_after_streams_finish c) b (_wait_segment_time c).
Definition set_wait_time (c : TCPConnection) (t : Z) : TCPConnection :=
  mkTCPConnection (_cfg c) (_receiver c) (_sender c) (_segments_out c)
    (_linger_after_streams_finish c) (_active c) t.

(** [_receiver.stream_out().set_error()] and [_sender.stream_in().set_error()] *)
Definition error_inbound (c : TCPConnection) : TCPConnection :=
  set_receiver c (with_stream_out (_receiver c) (ByteStream.set_error (receiver_stream_out (_receiver c)))).
Definition error_outbound (c : TCPConnection) : TCPConnection :=
  set_sender c (with_stream (_sender c) (ByteStream.set_error (stream_in (_sender c)))).

(** ** Accessors *)

Definition remaining_outbound_capacity (c : TCPConnection) : Z :=
  remaining_capacity (stream_in (_sender c)).
Definition bytes_in_flight (c : TCPConnection) : Z := TCPSender.bytes_in_flight (_sender c).
Definition unassembled_bytes (c : TCPConnection) : Z := receiver_unassembled_bytes (_receiver c).
Definition time_since_last_segment_received (c : TCPConnection) : Z := _wait_segment_time c.
Definition inbound_stream (c : TCPConnection) : ByteStream := receiver_stream_out (_receiver c).
Definition active (c : TCPConnection) : bool := _active c.

(** ** Sending *)

(** The fields the receiver fills in. *)
Definition stamp (r : TCPReceiver) (seg : TCPSegment) : TCPSegment :=
  match receiver_ackno r with
  | Some a => mkTCPSegment (with_ack (_header seg) a (u16 (window_size r))) (_payload seg)
  | None => seg
  end.

(** [send_segments]: the loop empties the sender's queue; the receiver does not
    change meanwhile. *)
Fixpoint send_loop (r : TCPReceiver) (q out : list TCPSegment) : list TCPSegment :=
  match q with
  | [] => out
  | seg :: q' => send_loop r q' (out ++ [stamp r seg])
  end.

Definition send_segments (c : TCPConnection) : TCPConnection :=
  let out := send_loop (_receiver c) (segments_out (_sender c)) (_segments_out c) in
  set_out (set_sender c (with_segments_out (_sender c) [])) out.

Definition try_clean_close (c : TCPConnection) : TCPConnection :=
  let st := stream_in (_sender c) in
  if ByteStream.eof st && input_ended (receiver_stream_out (_receiver c)) &&
     (bytes_in_flight c =? 0) &&
     (next_seqno_absolute (_sender c) =? u64 (bytes_written st + 2)) &&
     ((10 * rt_timeout (_cfg c) <=? _wait_segment_time c) || negb (_linger_after_streams_finish c))
  then set_active c false else c.

Definition send_rst_seg (c : TCPConnection) : TCPConnection :=
  let header := with_seq (with_rst default_header) (next_seqno (_sender c)) false false in
  let seg := stamp (_receiver c) (mkTCPSegment header empty_buffer) in
  set_out c (_segments_out c ++ [seg]).

(** ** The methods *)

Definition segment_received (c : TCPConnection) (seg : TCPSegment) : result TCPConnection :=
  let c := set_wait_time c 0 in
  if rst (_header seg) then
    let c := set_active c false in
    let c := error_inbound c in
    Ok (error_outbound c)
  else
    let! r := TCPReceiver.segment_received (_receiver c) seg in
    let c := set_receiver c r in
    match receiver_ackno (_receiver c) with
    | Some _ =>
        let c := if ack (_header seg)
                 then set_sender c (ack_received (_sender c) (ackno (_header seg)) (win (_header seg)))
                 else c in
        let! s := fill_window (_sender c) in
        let c := set_sender c s in
        let c := if negb (length_in_sequence_space seg =? 0) then
                   match segments_out (_sender c) with
                   | [] => set_sender c (send_empty_segment (_sender c))
                   | _ :: _ => c
                   end
                 else c in
        let c := send_segments c in
        let c := if negb (ByteStream.eof (stream_in (_sender c))) &&
                    input_ended (receiver_stream_out (_receiver c))
                 then set_linger c false else c in
        Ok (try_clean_close c)
    | None => Ok (try_clean_close c)
    end.

Definition write (c : TCPConnection) (data : bytes) : result (TCPConnection * Z) :=
  let '(st, writesize) := ByteStream.write (stream_in (_sender c)) data in
  let c := set_sender c (with_stream (_sender c) st) in
  let! s := fill_window (_sender c) in
  let c := set_sender c s in
  let c := send_segments c in
  Ok (try_clean_close c, writesize).

Definition tick (c : TCPConnection) (ms_since_last_tick : Z) : TCPConnection :=
  let c := set_sender c (TCPSender.tick (_sender c) ms_since_last_tick) in
  if MAX_RETX_ATTEMPTS <? consecutive_retransmissions (_sender c) then
    let c := send_rst_seg c in
    let c := set_active c false in
    let c := error_outbound c in
    error_inbound c
  else
    let c := set_wait_time c (u64 (_wait_segment_time c + ms_since_last_tick)) in
    let c := send_segments c in
    try_clean_close c.

Definition end_input_stream (c : TCPConnection) : result TCPConnection :=
  let c := set_sender c (with_stream (_sender c) (end_input (stream_in (_sender c)))) in
  let! s := fill_window (_sender c) in
  Ok (send_segments (set_sender c s)).

Definition connect (c : TCPConnection) : result TCPConnection :=
  let! s := fill_window (_sender c) in
  Ok (send_segments (set_sender c s)).

(** [~TCPConnection] *)
Definition destruct_connection (c : TCPConnection) : TCPConnection :=
  if active c then
    let c := send_rst_seg c in
    let c := error_inbound c in
    let c := error_outbound c in
    let c := set_active c false in
    send_segments c
  else c.

(** ** Lemmas on the parts *)

Lemma send_loop_map r q out : send_loop r q out = out ++ map (stamp r) q.
Proof.
  revert out. induction q as [|seg q IH]; intros out; simpl; [by rewrite app_nil_r|].
  by rewrite IH, <- app_assoc.
Qed.

(** The condition of [try_clean_close]. *)
Definition closable (c : TCPConnection) : bool :=
  ByteStream.eof (stream_in (_sender c)) && input_ended (inbound_stream c) &&
  (bytes_in_flight c =? 0) &&
  (next_seqno_absolute (_sender c) =? u64 (bytes_written (stream_in (_sender c)) + 2)) &&
  ((10 * rt_timeout (_cfg c) <=? _wait_segment_time c) || negb (_linger_after_streams_finish c)).

Lemma try_clean_close_eq c : try_clean_close c = if closable c then set_active c false else c.
Proof. done. Qed.

(** [same_but_active c c']: the two differ at most in [_active]. *)
Definition same_but_active (c c' : TCPConnection) : Prop := exists b, c' = set_active c b.

Lemma try_clean_close_spec c :
  same_but_active c (try_clean_close c) /\
  active (try_clean_close c) = active c && negb (closable (try_clean_close c)).
Proof.
  rewrite try_clean_close_eq. destruct (closable c) eqn:E; split.
  - by exists false.
  - change (closable (set_active c false)) with (closable c). by rewrite E, andb_false_r.
  - exists (_active c). by destruct c.
  - by rewrite E, andb_true_r.
Qed.

(** ** Calls *)

Inductive conn_op : Type :=
| CSegment (seg : TCPSegment)
| CWrite (data : bytes)
| CTick (ms : Z)
| CEndInput
| CConnect
| CDestruct.

Definition conn_run (c : TCPConnection) (op : conn_op) : result TCPConnection :=
  match op with
  | CSegment seg => segment_received c seg
  | CWrite data => let! (c', _) := write c data in Ok c'
  | CTick ms => Ok (tick c ms)
  | CEndInput => end_input_stream c
  | CConnect => connect c
  | CDestruct => Ok (destruct_connection c)
  end.

(** A segment carries the receiver's acknowledgment and window. *)
Definition stamped (r : TCPReceiver) (seg : TCPSegment) : Prop :=
  match receiver_ackno r with
  | Some a => ack (_header seg) = true /\ ackno (_header seg) = a /\ win (_header seg) = u16 (window_size r)
  | None => True
  end.

Lemma stamp_stamped r seg : stamped r (stamp r seg).
Proof. unfold stamped, stamp. by destruct (receiver_ackno r). Qed.

(** [sends c c']: [c'] is [c] with stamped segments added to the queue. *)
Definition sends (c c' : TCPConnection) : Prop :=
  exists new, _segments_out c' = _segments_out c ++ new /\ Forall (stamped (_receiver c')) new.

Lemma sends_refl c c' : _segments_out c' = _segments_out c -> sends c c'.
Proof. exists []. by rewrite app_nil_r. Qed.

Lemma sends_segments c c0 : _segments_out c0 = _segments_out c -> sends c (send_segments c0).
Proof.
  intros E. exists (map (stamp (_receiver c0)) (segments_out (_sender c0))).
  unfold send_segments. cbn [_segments_out set_out _receiver set_sender]. rewrite send_loop_map, E.
  split; [done|]. apply Forall_fmap, Forall_true. intros seg. apply stamp_stamped.
Qed.

(** Changing the flags, or the error flag of a stream, keeps [sends]. *)
Lemma sends_weaken c c1 c2 : sends c c1 -> _segments_out c2 = _segments_out c1 ->
  receiver_ackno (_receiver c2) = receiver_ackno (_receiver c1) ->
  window_size (_receiver c2) = window_size (_receiver c1) -> sends c c2.
Proof.
  intros (new & E & Hf) Eo Ea Ew. exists new. split; [congruence|].
  eapply Forall_impl; [exact Hf|]. intros seg. unfold stamped. by rewrite Ea, Ew.
Qed.

Lemma sends_close c c1 : sends c c1 -> sends c (try_clean_close c1).
Proof.
  intros H. destruct (try_clean_close_spec c1) as [[b E] _]. rewrite E.
  by eapply sends_weaken.
Qed.

Lemma sends_rst c c0 : _segments_out c0 = _segments_out c -> sends c (send_rst_seg c0).
Proof.
  intros E. eexists. unfold send_rst_seg. cbn [_segments_out set_out]. rewrite E. split; [done|].
  apply Forall_singleton. apply stamp_stamped.
Qed.

Lemma sends_trans c c1 c2 : sends c c1 -> sends c1 c2 ->
  receiver_ackno (_receiver c2) = receiver_ackno (_receiver c1) ->
  window_size (_receiver c2) = window_size (_receiver c1) -> sends c c2.
Proof.
  intros (n1 & E1 & H1) (n2 & E2 & H2) Ea Ew. exists (n1 ++ n2). split; [by rewrite E2, E1, app_assoc|].
  apply Forall_app. split; [|done]. eapply Forall_impl; [exact H1|]. intros seg. unfold stamped.
  by rewrite Ea, Ew.
Qed.

(** The state in which [segment_received] sends, after the receiver accepted the
    segment ([r]) and the sender filled its window ([s]). *)
Definition with_reply (c : TCPConnection) (seg : TCPSegment) (r : TCPReceiver) (s : TCPSender) : TCPConnection :=
  let c := set_sender (set_receiver (set_wait_time c 0) r) s in
  if negb (length_in_sequence_space seg =? 0) then
    match segments_out s with
    | [] => set_sender c (send_empty_segment s)
    | _ :: _ => c
    end
  else c.

Definition update_linger (c : TCPConnection) : TCPConnection :=
  if negb (ByteStream.eof (stream_in (_sender c))) && input_ended (inbound_stream c)
  then set_linger c false else c.

(** The shape of a successful [segment_received]. *)
Lemma segment_received_inv c seg c' : segment_received c seg = Ok c' ->
  (rst (_header seg) = true /\
     c' = error_outbound (error_inbound (set_active (set_wait_time c 0) false))) \/
  (rst (_header seg) = false /\ exists r, TCPReceiver.segment_received (_receiver c) seg = Ok r /\
     ((receiver_ackno r = None /\ c' = try_clean_close (set_receiver (set_wait_time c 0) r)) \/
      (exists a s, receiver_ackno r = Some a /\
         fill_window (if ack (_header seg)
           then ack_received (_sender c) (ackno (_header seg)) (win (_header seg)) else _sender c) = Ok s /\
         c' = try_clean_close (update_linger (send_segments (with_reply c seg r s)))))).
Proof.
  unfold segment_received. destruct (rst (_header seg)); [intros [= <-]; by left|].
  intros H. right. split; [done|]. apply rbind_ok_inv in H as (r & Hr & H).
  exists r. split; [exact Hr|]. cbn [_receiver set_receiver] in H.
  destruct (receiver_ackno r) as [a|] eqn:Ea; [right|left; by simplify_eq].
  apply rbind_ok_inv in H as (s & Hs & H). exists a, s. split; [done|]. split.
  - by destruct (ack (_header seg)).
  - unfold with_reply, update_linger. simplify_eq. by destruct (ack (_header seg)).
Qed.

Lemma with_reply_out c seg r s : _segments_out (with_reply c seg r s) = _segments_out c.
Proof. unfold with_reply. repeat case_match; done. Qed.

Lemma update_linger_keeps c : _segments_out (update_linger c) = _segments_out c /\
  _receiver (update_linger c) = _receiver c /\ _sender (update_linger c) = _sender c /\
  _active (update_linger c) = _active c.
Proof. unfold update_linger. by case_match. Qed.

Lemma sends_linger c c1 : sends c c1 -> sends c (update_linger c1).
Proof.
  intros H. destruct (update_linger_keeps c1) as (Eo & Er & _ & _).
  eapply sends_weaken; [exact H|done|by rewrite Er|by rewrite Er].
Qed.

(** ** Properties *)


(** The peer's SYN, for the witnesses. *)
Definition syn_seg (s : Z) : TCPSegment :=
  mkTCPSegment (with_seq default_header (mkWrappingInt32 s) true false) empty_buffer.


(** What [segment_received] leaves: the sender's queue, stamped, in the connection's. *)
Lemma segment_received_out c seg r s :
  let c1 := with_reply c seg r s in
  let c' := try_clean_close (update_linger (send_segments c1)) in
  _receiver c' = r /\ _sender c' = with_segments_out (_sender c1) [] /\
  _segments_out c' = _segments_out c ++ map (stamp r) (segments_out (_sender c1)).
Proof.
  cbv zeta. set (c1 := with_reply c seg r s). destruct (try_clean_close_spec (update_linger (send_segments c1))) as [[x ->] _].
  destruct (update_linger_keeps (send_segments c1)) as (Eo & Er & Es & _).
  assert (_receiver c1 = r) as Hr by (unfold c1, with_reply; by repeat case_match).
  cbn [_receiver _sender _segments_out set_active]. rewrite Eo, Er, Es. split_and!; [done|done|].
  unfold send_segments. cbn [_segments_out set_out]. rewrite send_loop_map, Hr. unfold c1. by rewrite with_reply_out.
Qed.

(** A segment with sequence numbers leaves something to send. *)
Lemma with_reply_queue c seg r s : 0 < length_in_sequence_space seg -> segments_out (_sender (with_reply c seg r s)) <> [].
Proof.
  intros Hlen. unfold with_reply. destruct (Z.eqb_spec (length_in_sequence_space seg) 0); [lia|]. cbn [negb].
  destruct (segments_out s) eqn:Eq; simpl; [|by rewrite Eq].
  unfold segments_out, send_empty_segment, with_segments_out in *. simpl. by rewrite Eq.
Qed.

(** C24: Every inbound segment without RST that occupies sequence numbers is
    answered: once the peer's SYN has been received (by this segment or before), a
    segment with a SYN, a FIN or payload, and with the RST flag clear, leaves at least
    one segment with the current acknowledgment number in the queue, and nothing
    stays behind in the sender's queue.  (A segment with RST is not
    answered: it kills the connection.) *)
Theorem connection_replies c seg c' a : segment_received c seg = Ok c' -> rst (_header seg) = false ->
  0 < length_in_sequence_space seg -> receiver_ackno (_receiver c') = Some a ->
  exists new seg', _segments_out c' = _segments_out c ++ new /\ seg' ∈ new /\
    ack (_header seg') = true /\ ackno (_header seg') = a /\ segments_out (_sender c') = [].
Proof.
  intros H Hrst Hlen Ha. apply segment_received_inv in H as [[? _]|(_ & r & Hr & [[Hn Hc]|(b & s & Hb & Hs & Hc)])].
  - congruence.
  - destruct (try_clean_close_spec (set_receiver (set_wait_time c 0) r)) as [[x E] _]. rewrite <- Hc in E.
    rewrite E in Ha. simpl in Ha. congruence.
  - destruct (segment_received_out c seg r s) as (Er & Es & Eo). rewrite <- Hc in Er, Es, Eo. rewrite Er in Ha.
    pose proof (with_reply_queue c seg r s Hlen) as Hne. destruct (segments_out (_sender (with_reply c seg r s))) as [|x q]; [done|].
    exists (map (stamp r) (x :: q)), (stamp r x). rewrite Es. split_and!; [done|left|..]; unfold stamp; by rewrite ?Ha.
Qed.

Lemma connection_replies_witness :
  let syn_seg := mkTCPSegment (with_seq default_header (mkWrappingInt32 41) true false) empty_buffer in
  exists c', segment_received (construct_connection default_config 7) syn_seg = Ok c' /\
    exists new seg', _segments_out c' = [] ++ new /\ seg' ∈ new /\ ack (_header seg') = true /\
      ackno (_header seg') = mkWrappingInt32 42 /\ segments_out (_sender c') = [].
Proof.
  cbv zeta. eexists. split; [vm_compute; reflexivity|].
  apply (connection_replies (construct_connection default_config 7)
    (mkTCPSegment (with_seq default_header (mkWrappingInt32 41) true false) empty_buffer));
    by vm_compute.
Defined.

(** The calls that kill the connection at once. *)
Definition kills (c : TCPConnection) (op : conn_op) : Prop :=
  (exists seg, op = CSegment seg /\ rst (_header seg) = true) \/
  (exists ms, op = CTick ms /\
     MAX_RETX_ATTEMPTS < consecutive_retransmissions (TCPSender.tick (_sender c) ms)) \/
  op = CDestruct.

(** The calls that end with [try_clean_close]. *)
Definition closes (op : conn_op) : bool :=
  match op with CSegment _ | CWrite _ | CTick _ => true | _ => false end.

(** Every call kills the connection, or leaves [_active] alone but for a final
    [try_clean_close]. *)
Lemma conn_run_active c op c' : conn_run c op = Ok c' ->
  (kills c op /\ active c' = false \/ kills c op /\ active c = false) \/
  (exists c1, closes op = true /\ active c1 = active c /\ c' = try_clean_close c1) \/
  (closes op = false /\ active c' = active c).
Proof.
  intros H. destruct op as [seg|data|ms| | |]; simpl in H.
  - apply segment_received_inv in H as [[Hr ->]|(_ & r & _ & [[_ Hc]|(a & s & _ & _ & Hc)])].
    + left. left. split; [|done]. left. eauto.
    + right. left. by exists (set_receiver (set_wait_time c 0) r).
    + right. left. eexists. split; [done|]. split; [|exact Hc]. unfold active.
      destruct (update_linger_keeps (send_segments (with_reply c seg r s))) as (_ & _ & _ & ->).
      unfold with_reply. by repeat case_match.
  - apply rbind_ok_inv in H as ([c1 n] & H & [= <-]). unfold write in H.
    apply rbind_ok_inv in H as (s & _ & [= <- _]). right. left.
    exists (send_segments (set_sender (set_sender c (with_stream (_sender c)
      (fst (ByteStream.write (stream_in (_sender c)) data)))) s)). done.
  - simplify_eq. unfold tick. cbn [_sender set_sender].
    destruct (Z.ltb_spec MAX_RETX_ATTEMPTS (consecutive_retransmissions (TCPSender.tick (_sender c) ms))).
    + left. left. split; [|done]. right. left. eauto.
    + right. left. eexists. split; [done|]. split; [|reflexivity]. done.
  - unfold end_input_stream in H. apply rbind_ok_inv in H as (s & _ & [= <-]). by right; right.
  - unfold connect in H. apply rbind_ok_inv in H as (s & _ & [= <-]). by right; right.
  - left. simplify_eq. unfold destruct_connection. destruct (active c) eqn:E;
      [left|right]; (split; [by right; right|done]).
Qed.

(** C23: When a connection stops being active.  It does so only because the peer
    reset it, because it gave up retransmitting, because it was destroyed, or
    because the streams are done: the inbound stream has ended, every byte of the
    ended outbound stream and its FIN have been sent and acknowledged, and the
    linger time (10 times the retransmission timeout) has passed or is not needed.
    Conversely, as soon as that holds after an inbound segment, a write or a tick,
    the connection is not active. *)
Theorem connection_clean_close c op c' : conn_run c op = Ok c' -> active c = true ->
  (active c' = false ->
     (exists seg, op = CSegment seg /\ rst (_header seg) = true) \/
     (exists ms, op = CTick ms /\
        MAX_RETX_ATTEMPTS < consecutive_retransmissions (TCPSender.tick (_sender c) ms)) \/
     op = CDestruct \/
     (ByteStream.eof (stream_in (_sender c')) = true /\ input_ended (inbound_stream c') = true /\
      bytes_in_flight c' = 0 /\
      next_seqno_absolute (_sender c') = u64 (bytes_written (stream_in (_sender c')) + 2) /\
      (10 * rt_timeout (_cfg c') <= time_since_last_segment_received c' \/
       _linger_after_streams_finish c' = false))) /\
  (closes op = true -> closable c' = true -> active c' = false).
Proof.
  intros H Hact. destruct (conn_run_active c op c' H) as [[[Hk Ha]|[_ Ha]]|[(c1 & Hcl & Ha & Hc)|[Hcl Ha]]].
  - split; [|done]. intros _. unfold kills in Hk. intuition auto.
  - congruence.
  - destruct (try_clean_close_spec c1) as [_ E]. rewrite <- Hc, Ha, Hact in E. simpl in E. rewrite E.
    split; [|by intros _ ->]. intros Hcn. right. right. right. apply negb_false_iff in Hcn.
    unfold closable in Hcn. rewrite !andb_true_iff, orb_true_iff, Z.leb_le, !Z.eqb_eq, negb_true_iff in Hcn.
    unfold time_since_last_segment_received. intuition auto.
  - rewrite Hcl. split; [congruence|done].
Qed.

(** A passive close, for the witness: SYN from the peer, its FIN with the
    acknowledgment of our SYN, our end of input, the acknowledgment of our FIN. *)
Definition ack_seg (s a : Z) (fi : bool) : TCPSegment :=
  mkTCPSegment (with_ack (with_seq default_header (mkWrappingInt32 s) false fi) (mkWrappingInt32 a) 1000)
    empty_buffer.

Definition passive_close : result TCPConnection :=
  let cfg := mkTCPConfig 1000 64000 64000 (Some (mkWrappingInt32 100)) in
  let! c := segment_received (construct_connection cfg 0) (syn_seg 41) in
  let! c := segment_received c (ack_seg 42 101 true) in
  end_input_stream c.

Definition passive_state : TCPConnection :=
  match passive_close with Ok c => c | Throw _ => construct_connection default_config 0 end.

Lemma connection_clean_close_witness :
  active passive_state = true /\
  exists c', conn_run passive_state (CSegment (ack_seg 43 102 false)) = Ok c' /\ active c' = false /\
    (closes (CSegment (ack_seg 43 102 false)) = true -> closable c' = true -> active c' = false).
Proof.
  split; [by vm_compute|]. eexists. split; [vm_compute; reflexivity|]. split; [by vm_compute|].
  apply (connection_clean_close passive_state (CSegment (ack_seg 43 102 false))); by vm_compute.
Defined.

(** The advertised window is truncated to 16 bits: a receiver with 65536 bytes of
    free space advertises a window of 0. *)
Example window_truncated :
  let cfg := mkTCPConfig 1000 65536 64000 (Some (mkWrappingInt32 100)) in
  (let! c := segment_received (construct_connection cfg 0) (syn_seg 41) in
   Ok (window_size (_receiver c), map (fun seg => win (_header seg)) (_segments_out c)))
  = Ok (65536, [0]).
Proof. reflexivity. Qed.
