(* ===== verification/TCPState.v ===== *)
(** * TCPState: the official states of a connection

    Models [libsponge/tcp_helpers/tcp_state.hh] and [tcp_state.cc]: the summary
    strings of a sender and a receiver, the twelve states of RFC 793 as such
    summaries, and [TCPConnection::state].  The theorems relate the calls of a
    connection to the transitions of the state machine. *)

From Stdlib Require Import Strings.String.
From S2P Require Import Prelude WrappingIntegers ByteStream StreamReassembler Parser TCPSegment.
From S2P Require Import TCPReceiver TCPSender Transmission TCPConnection.

(** ** The summaries *)

Module TCPReceiverStateSummary.
Definition ERROR : string := "error (connection was reset)".
Definition LISTEN : string := "waiting for SYN: ackno is empty".
Definition SYN_RECV : string := "SYN received (ackno exists), and input to stream hasn't ended".
Definition FIN_RECV : string := "input to stream has ended".
End TCPReceiverStateSummary.

Module TCPSenderStateSummary.
Definition ERROR : string := "error (connection was reset)".
Definition CLOSED : string := "waiting for stream to begin (no SYN sent)".
Definition SYN_SENT : string := "stream started but nothing acknowledged".
Definition SYN_ACKED : string := "stream ongoing".
Definition FIN_SENT : string := "stream finished (FIN sent) but not fully acknowledged".
Definition FIN_ACKED : string := "stream finished and fully acknowledged".
End TCPSenderStateSummary.

Module R := TCPReceiverStateSummary.
Module S := TCPSenderStateSummary.

Record TCPState : Type := mkTCPState {
  _sender : string;
  _receiver : string;
  _active : bool;
  _linger_after_streams_finish : bool
}.

#[export] Instance string_eq_decision : EqDecision string := String.string_dec.

#[export] Instance TCPState_eq_dec : EqDecision TCPState.
Proof. solve_decision. Defined.

(** [operator==] and [operator!=] *)
Definition state_eqb (a other : TCPState) : bool :=
  Bool.eqb (_active a) (_active other) &&
  Bool.eqb (_linger_after_streams_finish a) (_linger_after_streams_finish other) &&
  String.eqb (_sender a) (_sender other) && String.eqb (_receiver a) (_receiver other).

Definition state_neqb (a other : TCPState) : bool := negb (state_eqb a other).

(** [to_string] of a [bool] *)
Definition bool_to_string (b : bool) : string := if b then "1" else "0".

Definition name (t : TCPState) : string :=
  "sender=`" ++ _sender t ++ "`, receiver=`" ++ _receiver t ++ "`, active=" ++
  bool_to_string (_active t) ++ ", linger_after_streams_finish=" ++
  bool_to_string (_linger_after_streams_finish t).

Inductive State : Type :=
| LISTEN | SYN_RCVD | SYN_SENT | ESTABLISHED | CLOSE_WAIT | LAST_ACK
| FIN_WAIT_1 | FIN_WAIT_2 | CLOSING | TIME_WAIT | CLOSED | RESET.

#[export] Instance State_eq_dec : EqDecision State.
Proof. solve_decision. Defined.

(** The constructor from an official state; [_active] and
    [_linger_after_streams_finish] are [true] unless assigned. *)
Definition official (state : State) : TCPState :=
  match state with
  | LISTEN => mkTCPState S.CLOSED R.LISTEN true true
  | SYN_RCVD => mkTCPState S.SYN_SENT R.SYN_RECV true true
  | SYN_SENT => mkTCPState S.SYN_SENT R.LISTEN true true
  | ESTABLISHED => mkTCPState S.SYN_ACKED R.SYN_RECV true true
  | CLOSE_WAIT => mkTCPState S.SYN_ACKED R.FIN_RECV true false
  | LAST_ACK => mkTCPState S.FIN_SENT R.FIN_RECV true false
  | CLOSING => mkTCPState S.FIN_SENT R.FIN_RECV true true
  | FIN_WAIT_1 => mkTCPState S.FIN_SENT R.SYN_RECV true true
  | FIN_WAIT_2 => mkTCPState S.FIN_ACKED R.SYN_RECV true true
  | TIME_WAIT => mkTCPState S.FIN_ACKED R.FIN_RECV true true
  | RESET => mkTCPState S.ERROR R.ERROR false false
  | CLOSED => mkTCPState S.FIN_ACKED R.FIN_RECV false false
  end.

Definition state_summary_receiver (receiver : TCPReceiver) : string :=
  if ByteStream.error (receiver_stream_out receiver) then R.ERROR
  else match receiver_ackno receiver with
  | None => R.LISTEN
  | Some _ => if input_ended (receiver_stream_out receiver) then R.FIN_RECV else R.SYN_RECV
  end.

Definition state_summary_sender (sender : TCPSender) : string :=
  if ByteStream.error (stream_in sender) then S.ERROR
  else if next_seqno_absolute sender =? 0 then S.CLOSED
  else if next_seqno_absolute sender =? TCPSender.bytes_in_flight sender then S.SYN_SENT
  else if negb (ByteStream.eof (stream_in sender)) then S.SYN_ACKED
  else if next_seqno_absolute sender <? u64 (bytes_written (stream_in sender) + 2) then S.SYN_ACKED
  else if negb (TCPSender.bytes_in_flight sender =? 0) then S.FIN_SENT
  else S.FIN_ACKED.

Definition make_state (sender : TCPSender) (receiver : TCPReceiver) (active linger : bool) : TCPState :=
  mkTCPState (state_summary_sender sender) (state_summary_receiver receiver) active
    (if active then linger else false).

(** [TCPConnection::state] *)
Definition state (c : TCPConnection) : TCPState :=
  make_state (TCPConnection._sender c) (TCPConnection._receiver c) (TCPConnection.active c)
    (TCPConnection._linger_after_streams_finish c).

(** ** Properties *)

(** The twelve official states are told apart by the comparison of
    [TCPState]s, and that comparison is equality. *)
Theorem official_states_distinct :
  (forall a b, state_eqb a b = true <-> a = b) /\
  (forall x y, state_neqb (official x) (official y) = true <-> x <> y).
Proof.
  assert (forall a b, state_eqb a b = true <-> a = b) as Heq.
  { intros [s1 r1 a1 l1] [s2 r2 a2 l2]. unfold state_eqb. simpl.
    rewrite !andb_true_iff, !Bool.eqb_true_iff, !String.eqb_eq. split; [|by intros [=]; subst].
    by intros [[[-> ->] ->] ->]. }
  split; [done|]. intros x y. unfold state_neqb. rewrite negb_true_iff, <- not_true_iff_false, Heq.
  split; intros H E; apply H; [by subst|]. by destruct x, y.
Qed.

(** ** Resets

    The resets the connection tests want obeyed ([tests/fsm_ack_rst.cc]): once the
    peer's SYN has been received, those whose sequence number is in the receive
    window (or at its beginning, when it is empty); before, those that acknowledge
    exactly what has been sent, if anything has. *)
Definition acceptable_rst (c : TCPConnection) (seg : TCPSegment) : bool :=
  rst (_header seg) &&
  match receiver_ackno (TCPConnection._receiver c) with
  | Some a =>
      let offset := u32 (raw_value (seqno (_header seg)) - raw_value a) in
      (offset =? 0) || (offset <? TCPReceiver.window_size (TCPConnection._receiver c))
  | None =>
      (0 <? next_seqno_absolute (TCPConnection._sender c)) && ack (_header seg) &&
      (raw_value (ackno (_header seg)) =? raw_value (next_seqno (TCPConnection._sender c)))
  end.


(** A segment with RST, from the sequence number [s]; with an acknowledgment of [a]. *)
Definition rst_seg (s : Z) : TCPSegment :=
  mkTCPSegment (with_rst (with_seq default_header (mkWrappingInt32 s) false false)) empty_buffer.

Definition rst_ack_seg (s a : Z) : TCPSegment :=
  mkTCPSegment (with_rst (with_ack (with_seq default_header (mkWrappingInt32 s) false false)
    (mkWrappingInt32 a) 1000)) empty_buffer.


(** The code does not look at the sequence or acknowledgment number of a segment with
    RST: one outside the window, one in LISTEN, and one without the acknowledgment of
    the SYN (or with a wrong one) in SYN_SENT reset the connection, where the tests
    expect them to be ignored. *)
Example unacceptable_rst_obeyed :
  let cfg := mkTCPConfig 1000 64000 64000 (Some (mkWrappingInt32 100)) in
  let resets c seg :=
    acceptable_rst c seg = false /\ (let! c' := segment_received c seg in Ok (state_eqb (state c') (official RESET))) = Ok true in
  resets passive_state (rst_seg 42) /\ resets passive_state (rst_seg 64100) /\
  resets (construct_connection cfg 0) (rst_seg 7) /\
  exists c, connect (construct_connection cfg 0) = Ok c /\
    resets c (rst_seg 7) /\ resets c (rst_ack_seg 7 100) /\ resets c (rst_ack_seg 7 102) /\
    acceptable_rst c (rst_ack_seg 7 101) = true.
Proof.
  cbv zeta. split_and!; try reflexivity. eexists. split; [reflexivity|]. split_and!; reflexivity.
Qed.

(** The test of [_active] at the head of [segment_received] is commented out: a
    connection that has been reset goes on receiving and answering. *)
Example inactive_connection_answers :
  (let! c := segment_received passive_state (rst_seg 43) in
   let! c' := segment_received c (ack_seg 43 101 true) in
   Ok (TCPConnection.active c, length (TCPConnection._segments_out c') - length (TCPConnection._segments_out c))%nat)
  = Ok (false, 1%nat).
Proof. vm_compute. reflexivity. Qed.

(** ** The three-way handshake

    Both ends have the default configuration, with arbitrary initial sequence
    numbers [a] (client) and [b] (server).  The segments and the states of the two
    halves at each stage: *)

Definition config_with (isn : WrappingInt32) : TCPConfig :=
  mkTCPConfig TIMEOUT_DFLT DEFAULT_CAPACITY DEFAULT_CAPACITY (Some isn).

Definition syn_of (a : WrappingInt32) : TCPSegment :=
  mkTCPSegment (with_seq default_header a true false) (buffer_of []).

Definition sent_syn (a : WrappingInt32) : TCPSender :=
  mkTCPSender a [] 1000 (ByteStream.construct 64000) 1 1 0 1 false [syn_of a]
    (mkTimer true false 1000 1000 0) 0.

Definition syn_acked (a : WrappingInt32) : TCPSender :=
  mkTCPSender a [] 1000 (ByteStream.construct 64000) 1 64000 1 0 false []
    (mkTimer false false 1000 1000 0) 0.

Definition got_syn (a : WrappingInt32) : TCPReceiver :=
  mkTCPReceiver (construct_reassembler 64000) 64000 a true.

Lemma wadd_1 a : wadd a 1 = wrap 1 a.
Proof. unfold wrap. by change (Z.shiftl 1 32) with 4294967296. Qed.

Lemma unwrap_small x isn c : 0 <= x <= 1 -> 0 <= c <= 1 -> unwrap (wrap x isn) isn c = x.
Proof. intros. apply unwrap_near; unfold is_u64; lia. Qed.

Lemma recv_syn a fl w : TCPReceiver.segment_received (construct_receiver 64000)
    (mkTCPSegment (mkTCPHeader 0 0 a w 5 false fl false false true false (if fl then 64000 else 0) 0 0)
       (buffer_of [])) = Ok (got_syn a).
Proof.
  unfold TCPReceiver.segment_received. cbn -[unwrap wadd wrap push_substring].
  rewrite wadd_1. rewrite unwrap_small by lia. reflexivity.
Qed.

Lemma recv_ack a w : TCPReceiver.segment_received (got_syn a)
    (mkTCPSegment (with_ack (with_seq default_header (wrap 1 a) false false) w 64000) empty_buffer)
  = Ok (got_syn a).
Proof.
  unfold TCPReceiver.segment_received. cbn -[unwrap wadd wrap push_substring].
  rewrite unwrap_small by lia. reflexivity.
Qed.

Lemma ack_of_syn a : w32 a -> ack_received (sent_syn a) (wrap 1 a) 64000 = syn_acked a.
Proof.
  intros Ha. unfold ack_received. cbn -[unwrap wrap pop_acked]. rewrite unwrap_small by lia.
  cbn -[unwrap wrap]. rewrite <- (wrap_0 a Ha) at 1. rewrite unwrap_small by lia. reflexivity.
Qed.

Lemma fill_syn_acked a : fill_window (syn_acked a) = Ok (syn_acked a).
Proof. cbv -[wrap]. reflexivity. Qed.

Lemma fill_syn a : w32 a ->
  fill_window (construct_sender DEFAULT_CAPACITY TIMEOUT_DFLT (Some a) 0) =
  Ok (with_segments_out (sent_syn a) [syn_of a]).
Proof. intros Ha. cbv -[wrap]. by rewrite (wrap_0 a Ha). Qed.

(** The calls of a handler, rewritten with [H] up to conversion of the left-hand side. *)
Ltac step_recv H :=
  match goal with
  | |- context [TCPReceiver.segment_received ?r ?s] =>
      let E := fresh in pose proof (H : TCPReceiver.segment_received r s = Ok _) as E; rewrite E; clear E
  end; cbn -[fill_window wrap wadd ack_received].
Ltac step_ack H :=
  match goal with
  | |- context [ack_received ?s ?a ?w] =>
      let E := fresh in pose proof (H : ack_received s a w = _) as E; rewrite E; clear E
  end.
Ltac step_fill H :=
  match goal with
  | |- context [fill_window ?s] =>
      let E := fresh in pose proof (H : fill_window s = Ok _) as E; rewrite E; clear E
  end; cbn -[wrap wadd]; unfold stamp; cbn -[wrap wadd]; rewrite ?wadd_1.

(** C22: The three-way handshake, for all initial sequence numbers.  A connect
    sends one SYN (client in SYN_SENT); the server answers it with one SYN/ACK
    (SYN_RCVD); the client answers that with one acknowledgment and is
    ESTABLISHED; the acknowledgment makes the server ESTABLISHED, and it sends
    nothing more. *)
Theorem three_way_handshake a b : w32 a -> w32 b ->
  exists c1 s1 c2 s2 syn_seg synack_seg ack_seg,
    connect (construct_connection (config_with a) 0) = Ok c1 /\
    TCPConnection._segments_out c1 = [syn_seg] /\
    segment_received (construct_connection (config_with b) 0) syn_seg = Ok s1 /\
    TCPConnection._segments_out s1 = [synack_seg] /\
    segment_received (set_out c1 []) synack_seg = Ok c2 /\
    TCPConnection._segments_out c2 = [ack_seg] /\
    segment_received (set_out s1 []) ack_seg = Ok s2 /\ TCPConnection._segments_out s2 = [] /\
    state c1 = official SYN_SENT /\ state s1 = official SYN_RCVD /\
    state c2 = official ESTABLISHED /\ state s2 = official ESTABLISHED.
Proof.
  intros Ha Hb.
  exists (mkTCPConnection (config_with a) (construct_receiver 64000) (sent_syn a) [syn_of a] true true 0).
  pose (synack := mkTCPSegment (with_ack (with_seq default_header b true false) (wrap 1 a) 64000) (buffer_of [])).
  pose (fin_ack := mkTCPSegment (with_ack (with_seq default_header (wrap 1 a) false false) (wrap 1 b) 64000) empty_buffer).
  exists (mkTCPConnection (config_with b) (got_syn a) (sent_syn b) [synack] true true 0).
  exists (mkTCPConnection (config_with a) (got_syn b) (syn_acked a) [fin_ack] true true 0).
  exists (mkTCPConnection (config_with b) (got_syn a) (syn_acked b) [] true true 0).
  exists (syn_of a), synack, fin_ack. split_and!; try done.
  - unfold connect. step_fill (fill_syn a Ha). reflexivity.
  - unfold segment_received. cbn -[fill_window wrap TCPReceiver.segment_received].
    step_recv (recv_syn a false (mkWrappingInt32 0)). step_fill (fill_syn b Hb). reflexivity.
  - unfold segment_received. cbn -[fill_window wrap TCPReceiver.segment_received ack_received].
    step_recv (recv_syn b true (wrap 1 a)). step_ack (ack_of_syn a Ha). step_fill (fill_syn_acked a).
    reflexivity.
  - unfold segment_received. cbn -[fill_window wrap TCPReceiver.segment_received ack_received].
    step_recv (recv_ack a (wrap 1 b)). step_ack (ack_of_syn b Hb). step_fill (fill_syn_acked b). reflexivity.
Qed.

Lemma three_way_handshake_witness :
  exists c1 s1 c2 s2 syn_seg synack_seg ack_seg,
    connect (construct_connection (config_with (mkWrappingInt32 4294967295)) 0) = Ok c1 /\
    TCPConnection._segments_out c1 = [syn_seg] /\
    segment_received (construct_connection (config_with (mkWrappingInt32 5)) 0) syn_seg = Ok s1 /\
    TCPConnection._segments_out s1 = [synack_seg] /\
    segment_received (set_out c1 []) synack_seg = Ok c2 /\
    TCPConnection._segments_out c2 = [ack_seg] /\
    segment_received (set_out s1 []) ack_seg = Ok s2 /\ TCPConnection._segments_out s2 = [] /\
    state c1 = official SYN_SENT /\ state s1 = official SYN_RCVD /\
    state c2 = official ESTABLISHED /\ state s2 = official ESTABLISHED.
Proof. apply three_way_handshake; split; by vm_compute. Defined.

(** What the sender's summary says.  In every state of an execution without
    an error, the summary is CLOSED before the SYN has been sent, SYN_SENT while
    nothing that was sent has been acknowledged, SYN_ACKED until the FIN has been
    sent, FIN_SENT while something is still unacknowledged and FIN_ACKED after. *)
Theorem sender_state_summary capacity retx isn s w :
  is_u64 capacity -> is_u16 retx -> snd_reachable capacity retx isn s w ->
  size w < 9223372036854775808 -> ByteStream.error (stream_in s) = false ->
  state_summary_sender s =
    if next_seqno_absolute s =? 0 then S.CLOSED
    else if next_seqno_absolute s =? TCPSender.bytes_in_flight s then S.SYN_SENT
    else if negb (_set_fin s) then S.SYN_ACKED
    else if negb (is_nil (_wait_ack s)) then S.FIN_SENT else S.FIN_ACKED.
Proof.
  intros Hc Hr Hreach Hw He.
  destruct (snd_reachable_inv capacity retx isn s w Hc Hr Hreach Hw) as [<- (sent & a & Hinv)].
  pose proof (sinv_written _ _ _ _ Hinv Hw) as Hbw. pose proof (sinv_next _ _ _ _ Hinv) as Hnx.
  unfold state_summary_sender. rewrite He. unfold next_seqno_absolute, TCPSender.bytes_in_flight, stream_in in *.
  destruct (Z.eqb_spec (_next_seqno s) 0) as [|Hz]; [done|]. specialize (Hnx Hz).
  destruct (_next_seqno s =? _flight_bytes s); [done|].
  pose proof (size_nonneg (_que (_stream s))). pose proof (size_nonneg w).
  rewrite eof_que, Hbw, u64_small by (apply Hinv || ints).
  destruct (_set_fin s) eqn:Hf; cbn [negb].
  - destruct (si_fin _ _ _ _ Hinv Hf) as (He' & Hq & _). rewrite He', Hq in *. cbn [andb negb].
    change (size []) with 0 in Hnx. destruct (Z.ltb_spec (_next_seqno s) (size w + 2)); [lia|].
    rewrite (si_flight _ _ _ _ Hinv). pose proof (si_layout _ _ _ _ Hinv) as Hl.
    destruct (si_wait _ _ _ _ Hinv) as [acked E]. rewrite E in Hl. apply layout_app in Hl.
    destruct (_wait_ack s) as [|seg q]; [done|]. destruct Hl as (_ & _ & _ & _ & Hp & _).
    pose proof (span_nonneg q). cbn [is_nil negb span].
    destruct (Z.eqb_spec (length_in_sequence_space seg + span q) 0); [lia|done].
  - destruct (Z.ltb_spec (_next_seqno s) (size w + 2)); [|lia]. by case_match.
Qed.

Lemma sender_state_summary_witness :
  state_summary_sender sample_state =
    if next_seqno_absolute sample_state =? 0 then S.CLOSED
    else if next_seqno_absolute sample_state =? TCPSender.bytes_in_flight sample_state then S.SYN_SENT
    else if negb (_set_fin sample_state) then S.SYN_ACKED
    else if negb (is_nil (_wait_ack sample_state)) then S.FIN_SENT else S.FIN_ACKED.
Proof.
  apply (sender_state_summary 100 1000 sample_isn sample_state [x61; x62]);
    [split; by vm_compute|split; by vm_compute|exact sample_reachable|by vm_compute|by vm_compute].
Defined.
