(* ===== verification/SegmentBounds.v ===== *)
(** * SegmentBounds: what a connection emits fits on the wire

    Every segment a [TCPConnection] puts in its queue has a header the serializer
    accepts and at most [MAX_PAYLOAD_SIZE] bytes of payload, whatever the peer sends
    and the application writes: the adapters never fail on it. *)

From S2P Require Import Prelude WrappingIntegers ByteStream Parser TCPSegment TCPReceiver TCPSender Transmission TCPConnection.

(** A header that can be serialized, without options, and a bounded payload. *)
Record neat (seg : TCPSegment) : Prop := {
  nt_header : header_ok (_header seg);
  nt_doff : doff (_header seg) = 5;
  nt_payload : size (str (_payload seg)) <= MAX_PAYLOAD_SIZE
}.

Record neat_sender (s : TCPSender) : Prop := {
  ns_out : Forall neat (TCPSender._segments_out s);
  ns_wait : Forall neat (_wait_ack s)
}.

Record neat_conn (c : TCPConnection) : Prop := {
  nc_sender : neat_sender (_sender c);
  nc_out : Forall neat (_segments_out c)
}.

Lemma neat_fresh isn n sy fi pay : size pay <= MAX_PAYLOAD_SIZE ->
  neat (mkTCPSegment (with_seq default_header (wrap n isn) sy fi) (buffer_of pay)).
Proof.
  intros Hp. split; [|done|done].
  constructor; simpl; first [apply wrap_range|by split].
Qed.

Lemma neat_stamp r seg : neat seg -> neat (stamp r seg).
Proof.
  intros [[H1 H2 H3 H4 H5 H6 H7 H8] Hd Hp]. unfold stamp. destruct (receiver_ackno r) as [a|] eqn:Ea; [|done].
  assert (w32 a) as Ha.
  { unfold receiver_ackno in Ea. destruct (negb _); [done|]. destruct (input_ended _); injection Ea as <-; apply wadd_range. }
  split; [|done|done]. constructor; simpl; try done. ints.
Qed.

Lemma next_segment_neat s n s' seg len : next_segment s n = (s', seg, len) ->
  neat seg /\ TCPSender._segments_out s' = TCPSender._segments_out s /\ _wait_ack s' = _wait_ack s.
Proof.
  unfold next_segment. destruct (if _next_seqno s =? 0 then _ else _) as [sy l0].
  destruct (ByteStream.read _ _) as [st pay] eqn:Er.
  assert (size pay <= MAX_PAYLOAD_SIZE) as Hp.
  { unfold ByteStream.read, peek_output in Er. injection Er as _ <-. unfold MAX_PAYLOAD_SIZE.
    match goal with |- size (ztake ?n ?q) <= _ => destruct (Z.le_gt_cases n 0); [rewrite ztake_0 by done; done|rewrite size_ztake; lia] end. }
  destruct (_ && _); intros [= <- <- _]; (split; [by apply neat_fresh|done]).
Qed.

Lemma fill_loop_neat fuel s n s' : neat_sender s -> fill_loop fuel s n = Ok s' -> neat_sender s'.
Proof.
  revert s n. induction fuel as [|fuel IH]; intros s n Hs; cbn [fill_loop]; destruct (_ && _); try congruence.
  destruct (next_segment s n) as [[s1 seg] len] eqn:En. apply next_segment_neat in En as (Hseg & Eo & Ew).
  assert (neat_sender s1) as H1 by (destruct Hs; split; by rewrite ?Eo, ?Ew).
  assert (neat_sender (send_segment s1 seg len)) as H2.
  { destruct H1 as [Ho Hw]. split; simpl; apply Forall_app; auto. }
  destruct (0 <? len); [|congruence]. destruct (_ =? 0); [congruence|]. by apply IH.
Qed.

Lemma fill_window_neat s s' : neat_sender s -> fill_window s = Ok s' -> neat_sender s'.
Proof.
  unfold fill_window. intros Hs. destruct (_set_fin s); [congruence|]. destruct (_ <=? _); [congruence|]. by apply fill_loop_neat.
Qed.

Lemma ack_received_neat s a win : neat_sender s -> neat_sender (ack_received s a win).
Proof.
  intros [Ho Hw]. unfold ack_received. destruct (_ <? _); [by split|].
  destruct (pop_acked_suffix (_isn s) (_next_seqno s) (unwrap a (_isn s) (_next_seqno s)) (_wait_ack s) (_flight_bytes s) false) as [l E].
  destruct (pop_acked _ _ _ _ _ _) as [[q f] b]. simpl in E. rewrite E in Hw. apply Forall_app in Hw as [_ Hw].
  destruct b; by split.
Qed.

Lemma tick_neat s ms : neat_sender s -> neat_sender (TCPSender.tick s ms).
Proof.
  intros [Ho Hw]. unfold TCPSender.tick. destruct (timer_tictoc _ _ _ _) as [t n]. destruct (isexpired t); [|by split].
  destruct (_wait_ack s) as [|x q] eqn:E; [by split; rewrite ?E|]. split; simpl; [|done].
  apply Forall_app. inversion Hw; auto.
Qed.

Lemma neat_empty s (rst' : bool) : neat_sender s -> neat (mkTCPSegment (with_seq (if rst' then with_rst default_header else default_header)
    (next_seqno s) false false) empty_buffer).
Proof.
  intros _. split; [|by destruct rst'|done]. destruct rst'; constructor; simpl; first [apply wrap_range|by split].
Qed.

Lemma send_segments_neat c : neat_conn c -> neat_conn (send_segments c).
Proof.
  intros [[Ho Hw] Hc]. split; [by split|]. simpl. unfold segments_out.
  assert (forall q out, Forall neat q -> Forall neat out -> Forall neat (send_loop (_receiver c) q out)) as Hl.
  { induction q as [|x q IH]; intros out Hq Hout; simpl; [done|]. inversion Hq; simplify_eq. apply IH; [done|].
    apply Forall_app. auto using neat_stamp. }
  by apply Hl.
Qed.

(** Changes that keep the queues. *)
Lemma neat_ext c c' : neat_conn c -> TCPSender._segments_out (_sender c') = TCPSender._segments_out (_sender c) ->
  _wait_ack (_sender c') = _wait_ack (_sender c) -> _segments_out c' = _segments_out c -> neat_conn c'.
Proof. intros [[Ho Hw] Hc] E1 E2 E3. split; [split|]; congruence. Qed.

Lemma close_neat c : neat_conn c -> neat_conn (try_clean_close c).
Proof. intros Hc. unfold try_clean_close. destruct (_ && _); [|done]. by apply (neat_ext c). Qed.

Lemma rst_neat c : neat_conn c -> neat_conn (send_rst_seg c).
Proof.
  intros [Hs Hc]. split; [done|]. simpl. apply Forall_app. split; [done|]. constructor; [|done].
  apply neat_stamp. by apply (neat_empty _ true).
Qed.

Lemma conn_run_neat c op c' : neat_conn c -> conn_run c op = Ok c' -> neat_conn c'.
Proof.
  intros Hc. pose proof Hc as [Hs Ho].
  destruct op as [seg|data|ms| | |]; simpl.
  - intros [[_ ->]|(_ & r & _ & [[_ ->]|(a & s & _ & Hf & ->)])]%segment_received_inv; [by apply (neat_ext c)|apply close_neat; by apply (neat_ext c)|].
    apply fill_window_neat in Hf; [|destruct (ack _); [by apply ack_received_neat|done]].
    apply close_neat. assert (neat_conn (send_segments (with_reply c seg r s))) as H1.
    { apply send_segments_neat. unfold with_reply. destruct (negb _); [destruct (segments_out s) eqn:Es|]; split; try done.
      simpl. destruct Hf as [Hfo Hfw]. split; [|done]. simpl. apply Forall_app. split; [done|]. constructor; [|done].
      by apply (neat_empty s false). }
    unfold update_linger. destruct (_ && _); [|done]. by apply (neat_ext _ _ H1).
  - intros H. apply rbind_ok_inv in H as ([c1 n] & Hw & [= <-]). unfold write in Hw.
    destruct (ByteStream.write _ _) as [st k]. apply rbind_ok_inv in Hw as (s & Hf & [= <- _]).
    apply close_neat, send_segments_neat. apply fill_window_neat in Hf; [by split|]. destruct Hs. by split.
  - intros [= <-]. unfold tick. destruct (_ <? _).
    + apply (neat_ext (send_rst_seg (set_sender c (TCPSender.tick (_sender c) ms)))); try done.
      apply rst_neat. split; [by apply tick_neat|done].
    + apply close_neat, send_segments_neat. split; [by apply tick_neat|done].
  - intros H. apply rbind_ok_inv in H as (s & Hf & [= <-]). apply send_segments_neat.
    apply fill_window_neat in Hf; [by split|]. destruct Hs. by split.
  - intros H. apply rbind_ok_inv in H as (s & Hf & [= <-]). apply send_segments_neat.
    apply fill_window_neat in Hf; [by split|done].
  - intros [= <-]. unfold destruct_connection. destruct (active c); [|done].
    apply send_segments_neat, (neat_ext (send_rst_seg c)); try done. by apply rst_neat.
Qed.

(** ** Properties *)

(** A sequence of calls. *)
Fixpoint conn_runs (c : TCPConnection) (ops : list conn_op) : result TCPConnection :=
  match ops with
  | [] => Ok c
  | op :: ops => let! c := conn_run c op in conn_runs c ops
  end.

Lemma conn_runs_neat ops c c' : neat_conn c -> conn_runs c ops = Ok c' -> neat_conn c'.
Proof.
  revert c. induction ops as [|op ops IH]; intros c Hc; cbn [conn_runs]; [by intros [= <-]|].
  intros (c1 & E1 & E2)%rbind_ok_inv. eapply IH; [|exact E2]. by eapply conn_run_neat.
Qed.

(** C30: What a connection emits fits on the wire.  After any sequence of calls on a
    connection (arbitrary segments from the peer among them), every queued segment has
    every header field in the range of its type, a header of five words, and at most
    MAX_PAYLOAD_SIZE bytes of payload; it is serialized without an exception, for every
    pseudo-header checksum, to 20 bytes more than its payload. *)
Theorem connection_segments_bounded cfg random ops c seg ck :
  conn_runs (construct_connection cfg random) ops = Ok c -> seg ∈ _segments_out c -> 0 <= ck <= 783360 ->
  header_ok (_header seg) /\ doff (_header seg) = 5 /\ size (str (_payload seg)) <= MAX_PAYLOAD_SIZE /\
  exists l, segment_serialize seg ck = Ok l /\ size (concatenate l) = 20 + size (str (_payload seg)).
Proof.
  intros Hr Hin Hck. assert (neat_conn (construct_connection cfg random)) as H0 by (by repeat constructor).
  destruct (conn_runs_neat _ _ _ H0 Hr) as [_ Hout]. rewrite Forall_forall in Hout.
  destruct (Hout seg Hin) as [Hh Hd Hp]. split_and!; try done. unfold MAX_PAYLOAD_SIZE in Hp.
  destruct (segment_serialize_spec seg ck Hh) as (k & _ & -> & _); [lia|lia|]. eexists. split; [done|].
  unfold concatenate. cbn [map concat]. rewrite app_nil_r. change (str (buffer_of ?x)) with x.
  rewrite !size_app, size_header_front, size_unparse, size_header_back by lia. lia.
Qed.

Lemma connection_segments_bounded_witness :
  exists c seg, conn_runs (construct_connection default_config 7) [CConnect; CTick 1000] = Ok c /\ seg ∈ _segments_out c /\
    (header_ok (_header seg) /\ doff (_header seg) = 5 /\ size (str (_payload seg)) <= MAX_PAYLOAD_SIZE /\
     exists l, segment_serialize seg 77 = Ok l /\ size (concatenate l) = 20 + size (str (_payload seg))).
Proof.
  eexists _, _. split; [vm_compute; reflexivity|]. split; [left|].
  apply (connection_segments_bounded default_config 7 [CConnect; CTick 1000]
    ltac:(let c := eval vm_compute in (conn_runs (construct_connection default_config 7) [CConnect; CTick 1000]) in
          match c with Ok ?c => exact c end)); [vm_compute; reflexivity|left|lia].
Defined.
