(* ===== verification/EndToEnd.v ===== *)
(** * EndToEnd: two connections over an unreliable network

    Two [TCPConnection]s exchange segments through a network that may lose,
    repeat, delay and reorder them.  The invariant of one endpoint ([conn_ok])
    joins the invariants of its sender (file [Transmission]) and its receiver (file
    [TCPReceiver]) and says of every segment it has emitted that it carries its
    outbound stream, acknowledges only what the peer has sent, and grants no more
    than its own receiver takes; of the sender, that it has sent no more than the
    peer's receiver takes ([within]).  Nothing is assumed of the network but that it
    does not invent segments. *)

From stdpp Require Import relations.
From S2P Require Import Prelude WrappingIntegers ByteStream StreamReassembler ReassemblerList Reassembly.
From S2P Require Import Parser TCPSegment TCPReceiver TCPSender Transmission TCPConnection.

(** ** Segments without sequence numbers *)

Lemma push_empty W r index : size W < 18446744073709551616 -> inv_core W r -> is_u64 index ->
  exists r', push_substring r [] index false = Ok r' /\ push_post W r r' [] index false.
Proof.
  intros HW Hcore Hi.
  pose proof (dl_written _ _ (inv_out _ _ Hcore)) as Hw. unfold is_u64 in Hi.
  destruct (Z.le_gt_cases index (bytes_written (_output r))) as [Hle|Hgt].
  - assert (agrees W [] index) as Hag.
    { split_and!; [lia|change (size []) with 0; unfold bytes_written in *; lia|]. symmetry. by apply slice_empty. }
    apply push_spec; [done|done|]. constructor; [done| |done].
    unfold limit. change (size []) with 0. lia.
  - unfold push_substring. destruct (Z.leb_spec index (bytes_written (_output r))); [lia|].
    change (insert_to_linklist r [] index 0 false) with (Ok r). cbn [rbind].
    destruct (fetch_valid_data_spec W HW r Hcore) as (r' & -> & [Hinv' Hf' Hcap' Hread' Hw' Hhas' Hend']).
    exists r'. split; [done|]. change (size []) with 0. constructor; try done; change (size []) with 0; auto; try lia.
    + intros i. apply Hhas'.
    + intros i Hh. left. by apply Hhas'.
Qed.

(** A segment with neither payload nor SYN nor FIN changes nothing the receiver
    has, wherever its sequence number is. *)
Lemma bare_spec W isn capacity r seg n : size W < 18446744073709551615 -> 1 <= capacity < 2147483647 ->
  rinv W isn capacity r -> payload_of seg = [] -> syn (_header seg) = false -> fin (_header seg) = false ->
  seqno (_header seg) = wrap n isn -> is_u64 n ->
  Z.abs (n - bytes_written (receiver_stream_out r)) < 2147483648 ->
  exists r', TCPReceiver.segment_received r seg = Ok r' /\ rinv W isn capacity r' /\
    _set_isn r' = _set_isn r /\ bytes_read (receiver_stream_out r') = bytes_read (receiver_stream_out r) /\
    bytes_written (receiver_stream_out r) <= bytes_written (receiver_stream_out r') /\
    (forall j, has (_reassembler r') j -> has (_reassembler r) j) /\
    (input_ended (receiver_stream_out r) = true -> input_ended (receiver_stream_out r') = true).
Proof.
  intros HW Hcap Hr Hp Hs Hf Hseq Hn Hrec. unfold TCPReceiver.segment_received. rewrite Hs, Hf.
  unfold payload_of in Hp. rewrite Hp. destruct (_set_isn r) eqn:Eset.
  2:{ exists r. split; [by destruct r; simpl in *; subst|]. done. }
  rewrite (ri_isn _ _ _ _ Hr Eset), Hseq. cbn [_reassembler _capacity].
  unfold receiver_stream_out in *. cbn [_reassembler].
  pose proof (rinv_bounds _ _ _ _ Hr) as Hb. simpl in Hb. unfold receiver_stream_out in Hb.
  unfold is_u64 in Hn. rewrite unwrap_near by (unfold is_u64; lia).
  assert (r = mkTCPReceiver (_reassembler r) (_capacity r) isn true) as Er.
  { pose proof (ri_isn _ _ _ _ Hr Eset). destruct r; simpl in *. by subst. }
  destruct ((n =? 0) || _) eqn:Et; [exists r; by rewrite <- Er|].
  apply orb_false_iff in Et as [Hnz%Z.eqb_neq _].
  rewrite (u64_small (n - 1)) by (unfold is_u64; lia).
  destruct (push_empty W (_reassembler r) (n - 1)) as (re & -> & Hpost);
    [lia|apply Hr|unfold is_u64; lia|]. pose proof (push_inv W _ _ _ _ _ (ri_inv _ _ _ _ Hr) Hpost) as Hi'.
  destruct Hpost as [_ _ Hc' Hr' Hw' Hk Hnew _ He' _ _].
  eexists. split; [done|]. split; [|split; [done|split; [done|split; [done|split; [|exact He']]]]].
  - destruct Hr as [? ? ? ?]. constructor; simpl; try done. congruence.
  - intros j Hj. destruct (Hnew j Hj) as [|Hin]; [done|]. change (size []) with 0 in Hin. lia.
Qed.

Lemma agrees_prefix W W' d i : W = ztake (size W) W' -> agrees W d i -> agrees W' d i.
Proof.
  intros E (Hi & Hs & Hd). assert (size W <= size W').
  { rewrite E, size_ztake by apply size_nonneg. lia. }
  pose proof (size_nonneg d). split_and!; [done|lia|]. rewrite Hd at 1. rewrite E at 1.
  rewrite <- (ztake_zdrop (size W) W') at 2. symmetry. apply slice_app_l; [lia|lia|]. by rewrite <- E.
Qed.

Lemma prefix_app (W t : bytes) : W = ztake (size W) (W ++ t).
Proof. by rewrite ztake_app. Qed.

(** ** One endpoint

    The endpoint sends the stream [Wh] from [isn_h]; its peer sends [Wp] from
    [isn_p].  The bounds keep every sequence number of a connection within 2^31 of
    every other, so that no delayed segment is misread. *)
Section endpoint.
Context (Wh Wp : bytes) (isn_h isn_p : WrappingInt32) (capacity : Z).
Context (HWh : size Wh < 2147400000) (HWp : size Wp < 2147400000).
Context (Hip : w32 isn_p) (Hcap : 1 <= capacity < 2147483647).

(** What the receiver knows of the peer, of which [np] sequence numbers have been
    sent, the FIN among them if [fp]. *)
Record rcv_ok (r : TCPReceiver) (np : Z) (fp : bool) : Prop := {
  ro_inv : rinv Wp isn_p capacity r;
  ro_open : fp = false -> rinv (Wp ++ [x00]) isn_p capacity r;
  ro_has : forall j, has (_reassembler r) j -> j + 2 <= np;
  ro_syn : _set_isn r = true -> 1 <= np
}.

Definition peer_ok (np : Z) (fp : bool) : Prop :=
  0 <= np <= size Wp + 2 /\ (fp = true -> np = size Wp + 2).

(** What an emitted segment says: of the emitter's stream [W], of which [next]
    sequence numbers have been sent (with FIN if [f]), and of the other one: it
    acknowledges numbers that have been sent, and, unless the other one is done, the
    window it grants does not reach past [lim], the limit of its emitter's
    reassembler. *)
Record wire_ok (W : bytes) (isn isn' : WrappingInt32) (next : Z) (f : bool) (next' : Z) (f' : bool)
    (lim : Z) (seg : TCPSegment) : Prop := {
  wo_kind : bare isn next seg \/
    exists i, segment_of W isn seg i /\
      i + 1 + size (payload_of seg) + (if fin (_header seg) then 1 else 0) <= next;
  wo_fin : fin (_header seg) = true -> f = true;
  wo_ack : ack (_header seg) = true -> exists k, ackno (_header seg) = wrap k isn' /\ 0 <= k <= next' /\
    (f' = true \/ k + Z.max 1 (win (_header seg)) <= lim + 1);
  wo_win : is_u16 (win (_header seg))
}.

Lemma wire_ok_mono W isn isn' n f n' f' l m g m' g' l' seg : n <= m -> (f = true -> g = true) ->
  n' <= m' -> (f' = true -> g' = true) -> l <= l' ->
  wire_ok W isn isn' n f n' f' l seg -> wire_ok W isn isn' m g m' g' l' seg.
Proof.
  intros Hn Hf Hn' Hf' Hl [Hk Hfi Ha Hw]. constructor; auto.
  - destruct Hk as [(? & ? & ? & k & ? & ?)|(i & ? & ?)]; [left|right].
    + split_and!; try done. exists k. split; [lia|done].
    + exists i. split; [done|lia].
  - intros E. destruct (Ha E) as (k & ? & ? & Hor). exists k. split_and!; [done|lia|lia|].
    destruct Hor; [left; auto|right; lia].
Qed.

Lemma rcv_ok_mono r np fp np' fp' : np <= np' -> (fp = true -> fp' = true) ->
  rcv_ok r np fp -> rcv_ok r np' fp'.
Proof.
  intros Hn Hf [Hi Ho Hh Hs]. constructor; [done| | |].
  - intros E. apply Ho. destruct fp; [|done]. by rewrite Hf in E.
  - intros j Hj. specialize (Hh j Hj). lia.
  - intros E. specialize (Hs E). lia.
Qed.

Lemma rcv_ok_construct : rcv_ok (construct_receiver capacity) 0 false.
Proof.
  constructor; [by apply rinv_construct|intros _; by apply rinv_construct| |done].
  intros j [Hj|Hj]; [simpl in Hj; lia|by apply stored_nil in Hj].
Qed.

(** The input has not ended while the peer has not sent its FIN: otherwise it
    would have ended at two different places. *)
Lemma rcv_open_not_ended r np : rcv_ok r np false -> input_ended (receiver_stream_out r) = false.
Proof.
  intros [Hi Ho _ _]. specialize (Ho eq_refl).
  pose proof (ri_inv _ _ _ _ Hi) as [[[_ _ _ Hw _ He] _ _ _ _ _] _].
  pose proof (ri_inv _ _ _ _ Ho) as [[[_ _ _ _ _ He'] _ _ _ _ _] _].
  unfold receiver_stream_out, stream_out, input_ended. destruct (_end (_output (_reassembler r))); [|done].
  specialize (He eq_refl). specialize (He' eq_refl). rewrite size_app in He'. change (size [x00]) with 1 in He'. lia.
Qed.

(** What has been taken in is something the peer has sent. *)
Lemma rcv_next_abs r np fp : rcv_ok r np fp -> peer_ok np fp -> _set_isn r = true -> 1 <= next_abs r <= np.
Proof.
  intros Hr [Hnp Hfp] Hs. pose proof (ro_inv _ _ _ Hr) as Hinv.
  pose proof (rinv_bounds _ _ _ _ Hinv) as Hb. simpl in Hb. unfold next_abs. pose proof (ro_syn _ _ _ Hr Hs). destruct fp.
  - specialize (Hfp eq_refl). destruct (input_ended _); lia.
  - rewrite (rcv_open_not_ended r np Hr).
    destruct (Z.eq_dec (bytes_written (receiver_stream_out r)) 0); [lia|].
    assert (has (_reassembler r) (bytes_written (receiver_stream_out r) - 1)) as Hh.
    { left. unfold receiver_stream_out, stream_out in *. lia. }
    apply (ro_has _ _ _ Hr) in Hh. lia.
Qed.

(** The acknowledgment number is of something the peer has sent. *)
Lemma rcv_ackno_ok r np fp a : rcv_ok r np fp -> peer_ok np fp -> receiver_ackno r = Some a ->
  exists k, a = wrap k isn_p /\ 0 <= k <= np /\
    (fp = true \/ k + Z.max 1 (u16 (window_size r)) <= limit (_reassembler r) + 1).
Proof.
  intros Hr Hp Ha. pose proof (ro_inv _ _ _ Hr) as Hinv.
  assert (_set_isn r = true) as Hs by (unfold receiver_ackno in Ha; by destruct (_set_isn r)).
  rewrite (ackno_next_abs _ _ _ r Hinv Hs) in Ha. simplify_eq. exists (next_abs r). split; [done|].
  pose proof (rcv_next_abs r np fp Hr Hp Hs). split; [lia|]. destruct fp; [by left|right].
  pose proof (rinv_bounds _ _ _ _ Hinv) as Hb. simpl in Hb. unfold next_abs. rewrite (rcv_open_not_ended r np Hr).
  assert (u16 (window_size r) <= capacity - ByteStream.buffer_size (receiver_stream_out r)) as Hwin.
  { unfold window_size. rewrite (ri_capacity _ _ _ _ Hinv). ints. }
  lia.
Qed.

Lemma segment_carries W r seg i : segment_of W isn_p seg i -> rinv Wp isn_p capacity r ->
  i + size (payload_of seg) <= limit (_reassembler r) -> carries W isn_p r seg i.
Proof.
  intros [Hs Hy Hd Hf] Hr Hw. pose proof (rinv_bounds _ _ _ _ Hr) as Hb. simpl in Hb.
  pose proof Hd as (Hi & _). constructor; try done. lia.
Qed.

Lemma segment_of_open W t isn seg i : fin (_header seg) = false -> segment_of W isn seg i ->
  segment_of (W ++ t) isn seg i.
Proof.
  intros E [Hs Hy Hd Hf]. constructor; try done; [|congruence].
  eapply agrees_prefix; [apply prefix_app|done].
Qed.

(** The end of the data among the first [np] sequence numbers. *)
Definition data_end (np : Z) (fp : bool) : Z := np - 1 - (if fp then 1 else 0).

Lemma segment_within np fp seg i l : peer_ok np fp -> segment_of Wp isn_p seg i ->
  i + 1 + size (payload_of seg) + (if fin (_header seg) then 1 else 0) <= np -> data_end np fp <= l ->
  i + size (payload_of seg) <= l.
Proof.
  intros [_ Hfp] [_ _ (_ & Hmax & _) _] Hle Hl. unfold data_end, payload_of in *.
  destruct fp; [specialize (Hfp eq_refl); lia|]. destruct (fin _); lia.
Qed.

(** A segment of a peer that has not sent data past the limit. *)
Lemma rcv_ok_segment r np fp seg n' f' l : rcv_ok r np fp -> peer_ok np fp ->
  wire_ok Wp isn_p isn_h np fp n' f' l seg -> data_end np fp <= limit (_reassembler r) ->
  exists r', TCPReceiver.segment_received r seg = Ok r' /\ rcv_ok r' np fp /\
    bytes_read (receiver_stream_out r') = bytes_read (receiver_stream_out r) /\
    bytes_written (receiver_stream_out r) <= bytes_written (receiver_stream_out r') /\
    (input_ended (receiver_stream_out r) = true -> input_ended (receiver_stream_out r') = true) /\
    (_set_isn r = true -> _set_isn r' = true).
Proof.
  intros [Hi Ho Hh Hs] [Hnp Hfp] [Hk Hfi _ _] Hlim.
  pose proof (rinv_bounds _ _ _ _ Hi) as Hb. simpl in Hb.
  pose proof (size_nonneg (_que (receiver_stream_out r))).
  assert (size (Wp ++ [x00]) = size Wp + 1) as Hsz by (by rewrite size_app).
  assert (fp = false -> fin (_header seg) = false) as Hff.
  { intros ->. destruct (fin _); [|done]. by specialize (Hfi eq_refl). }
  destruct Hk as [(Hp & Hy & Hf & n & Hn & Hseq)|(i & Hso & Hle)].
  - unfold ByteStream.buffer_size in Hb.
    assert (is_u64 n) as Hu by (unfold is_u64; lia).
    assert (Z.abs (n - bytes_written (receiver_stream_out r)) < 2147483648) as Hrec by lia.
    destruct (bare_spec Wp isn_p capacity r seg n ltac:(lia) Hcap Hi Hp Hy Hf Hseq Hu Hrec)
      as (r' & Hr & Hi' & Hs' & Hrd & Hwr & Hh' & He'). exists r'. split; [done|]. split; [|split_and!; [done..|by rewrite Hs']].
    constructor; [done| |auto|by rewrite Hs'].
    intros E. destruct (bare_spec (Wp ++ [x00]) isn_p capacity r seg n ltac:(lia) Hcap (Ho E) Hp Hy Hf Hseq Hu Hrec)
      as (r'' & Hr' & Hi'' & _). rewrite Hr in Hr'. by simplify_eq.
  - pose proof (segment_within np fp seg i _ (conj Hnp Hfp) Hso Hle Hlim) as Hwin.
    pose proof (segment_carries Wp r seg i Hso Hi Hwin) as Hca.
    destruct (segment_spec Wp isn_p capacity ltac:(lia) Hcap r seg i Hi Hca) as (r' & Hr & Hpost).
    exists r'. split; [done|]. split; [|split_and!; [by eapply sp_read|by eapply sp_written|by eapply sp_end|
      intros E; by rewrite (sp_set _ _ _ _ _ _ _ Hpost), E]]. constructor; [apply Hpost| | |].
    + intros E. pose proof (segment_carries (Wp ++ [x00]) r seg i
        (segment_of_open _ _ _ _ _ (Hff E) Hso) Hi Hwin) as Hca'.
      destruct (segment_spec (Wp ++ [x00]) isn_p capacity ltac:(lia) Hcap r seg i (Ho E) Hca')
        as (r'' & Hr' & Hpost'). rewrite Hr in Hr'. simplify_eq. apply Hpost'.
    + intros j Hj. destruct (sp_new _ _ _ _ _ _ _ Hpost j Hj) as [Hj'|Hin]; [by apply Hh|].
      unfold payload_of in Hle. destruct (fin _); lia.
    + rewrite (sp_set _ _ _ _ _ _ _ Hpost). intros E. destruct (_set_isn r); [by apply Hs|].
      pose proof (so_data _ _ _ _ Hso) as (? & _). pose proof (size_nonneg (payload_of seg)).
      destruct (fin _); lia.
Qed.

Lemma rcv_ok_stream r np fp o : rcv_ok r np fp ->
  (forall W, size W < 18446744073709551616 -> inv W (_reassembler r) -> inv W (with_output (_reassembler r) o)) ->
  (forall j, has (with_output (_reassembler r) o) j -> has (_reassembler r) j) ->
  rcv_ok (with_stream_out r o) np fp.
Proof.
  intros [Hi Ho Hh Hs] Hinv Hhas. constructor; try done.
  - destruct Hi. constructor; try done. apply Hinv; [lia|done].
  - intros E. destruct (Ho E). constructor; try done. apply Hinv; [|done].
    rewrite size_app. change (size [x00]) with 1. lia.
  - intros j Hj. by apply Hh, Hhas.
Qed.

Lemma rcv_ok_error r np fp : rcv_ok r np fp ->
  rcv_ok (with_stream_out r (ByteStream.set_error (receiver_stream_out r))) np fp.
Proof.
  intros H. apply rcv_ok_stream; try done. intros W _ [[Ho Hc Hpos Hch Hrem Hroom] Hsync].
  split; [|done]. constructor; try done. destruct Ho. constructor; try done. by apply set_error_wf.
Qed.

Lemma rcv_ok_read r np fp len : is_u64 len -> rcv_ok r np fp ->
  rcv_ok (with_stream_out r (fst (ByteStream.read (receiver_stream_out r) len))) np fp.
Proof. intros Hl H. apply rcv_ok_stream; try done. intros W HW. by apply inv_read. Qed.

(** ** The invariant of a connection *)

Abbreviation sent_seq c := (_next_seqno (_sender c)).
Abbreviation sent_fin c := (_set_fin (_sender c)).
Abbreviation limit_of c := (limit (_reassembler (_receiver c))).

(** The sender keeps to what the peer's receiver takes, up to its limit [lp]: what
    it has sent, and what it may send until it hears from the peer again. *)
Definition within (s : TCPSender) (lp : Z) : Prop :=
  data_end (_next_seqno s) (_set_fin s) <= lp /\ (_set_fin s = true \/ edge s <= lp + 1).

Record conn_ok (c : TCPConnection) (w : bytes) (wire : list TCPSegment) (np : Z) (fp : bool) (lp : Z) : Prop := {
  co_snd : exists sent a, sinv (_sender c) w sent a;
  co_isn : TCPSender._isn (_sender c) = isn_h;
  co_pre : w = ztake (size w) Wh;
  co_end : _end (stream_in (_sender c)) = true -> w = Wh;
  co_rcv : rcv_ok (_receiver c) np fp;
  co_within : within (_sender c) lp;
  co_wire : Forall (wire_ok Wh isn_h isn_p (sent_seq c) (sent_fin c) np fp (limit_of c)) (_segments_out c ++ wire)
}.

Lemma conn_size c w wire np fp lp : conn_ok c w wire np fp lp -> size w <= size Wh.
Proof.
  intros H. rewrite (co_pre _ _ _ _ _ _ H), size_ztake by apply size_nonneg. lia.
Qed.

(** The invariant only looks at the two halves and the queue. *)
Lemma conn_ok_ext c c' w wire np fp lp : _sender c' = _sender c -> _receiver c' = _receiver c ->
  _segments_out c' = _segments_out c -> conn_ok c w wire np fp lp -> conn_ok c' w wire np fp lp.
Proof. intros Es Er Eo []. constructor; by rewrite ?Es, ?Er, ?Eo. Qed.

Lemma conn_ok_close c w wire np fp lp : conn_ok c w wire np fp lp -> conn_ok (try_clean_close c) w wire np fp lp.
Proof. intros H. destruct (try_clean_close_spec c) as [[b ->] _]. by apply (conn_ok_ext c). Qed.

Lemma conn_ok_linger c w wire np fp lp : conn_ok c w wire np fp lp -> conn_ok (update_linger c) w wire np fp lp.
Proof. intros H. destruct (update_linger_keeps c) as (? & ? & ? & _). by apply (conn_ok_ext c). Qed.

Lemma conn_ok_receiver c w wire np fp lp r : conn_ok c w wire np fp lp -> rcv_ok r np fp ->
  limit_of c <= limit (_reassembler r) -> conn_ok (set_receiver c r) w wire np fp lp.
Proof.
  intros [Hs Hi Hp He Hr Hin Hw] ? Hl. constructor; try done.
  eapply Forall_impl; [exact Hw|]. intros seg. by apply wire_ok_mono.
Qed.

(** A new state of the sender. *)
Lemma conn_ok_sender c w wire np fp lp s w' : conn_ok c w wire np fp lp ->
  (exists sent a, sinv s w' sent a) -> TCPSender._isn s = TCPSender._isn (_sender c) ->
  w' = ztake (size w') Wh -> (_end (_stream s) = true -> w' = Wh) ->
  sent_seq c <= _next_seqno s -> (sent_fin c = true -> _set_fin s = true) -> within s lp ->
  conn_ok (set_sender c s) w' wire np fp lp.
Proof.
  intros [_ Hi _ _ Hr _ Hw] Hs His Hp He Hn Hf Hin. constructor; try done; [by cbn; rewrite His|].
  eapply Forall_impl; [exact Hw|]. intros seg. by apply wire_ok_mono.
Qed.

(** A segment of the sender, stamped by the receiver, may go on the wire. *)
Lemma stamp_wire_ok c w wire np fp lp seg : conn_ok c w wire np fp lp -> peer_ok np fp ->
  (bare isn_h (sent_seq c) seg \/ exists i, segment_of w isn_h seg i /\
     i + 1 + size (payload_of seg) + (if fin (_header seg) then 1 else 0) <= sent_seq c /\
     (fin (_header seg) = true -> sent_fin c = true /\ w = Wh)) ->
  ack (_header seg) = false -> is_u16 (win (_header seg)) ->
  wire_ok Wh isn_h isn_p (sent_seq c) (sent_fin c) np fp (limit_of c) (stamp (_receiver c) seg).
Proof.
  intros Hok Hp Hk Hack Hwin. pose proof (co_pre _ _ _ _ _ _ Hok) as Hpre.
  assert (wire_ok Wh isn_h isn_p (sent_seq c) (sent_fin c) np fp (limit_of c) seg) as [Hk' Hf _ _].
  { constructor; try done; [| |congruence].
    - destruct Hk as [|(i & [Hs Hy Hd Hfi] & Hle & Hfin)]; [by left|right]. exists i. split; [|done].
      constructor; try done; [by eapply agrees_prefix|]. intros E. destruct (Hfin E) as [_ Hw]. rewrite <- Hw. by apply Hfi.
    - intros E. destruct Hk as [(_ & _ & Hf & _)|(i & _ & _ & Hfin)]; [congruence|by apply Hfin]. }
  unfold stamp. destruct (receiver_ackno (_receiver c)) as [a|] eqn:Ea.
  - constructor; try done; simpl.
    + destruct Hk' as [Hb|(i & [Hs Hy Hd Hfi] & Hle)]; [left; exact Hb|right].
      exists i. split; [by constructor|exact Hle].
    + intros _. destruct (rcv_ackno_ok _ np fp a (co_rcv _ _ _ _ _ _ Hok) Hp Ea) as (k & -> & ?). by exists k.
    + apply u16_range.
  - constructor; try done. congruence.
Qed.

Lemma conn_ok_out c w wire np fp lp new : conn_ok c w wire np fp lp ->
  Forall (wire_ok Wh isn_h isn_p (sent_seq c) (sent_fin c) np fp (limit_of c)) new ->
  conn_ok (set_out c (_segments_out c ++ new)) w wire np fp lp.
Proof.
  intros [Hs Hi Hp He Hr Hin Hw] Hn. constructor; try done. simpl in *.
  rewrite !Forall_app in *. tauto.
Qed.

Lemma conn_ok_send c w wire np fp lp : conn_ok c w wire np fp lp -> peer_ok np fp ->
  conn_ok (send_segments c) w wire np fp lp.
Proof.
  intros Hok Hp. unfold send_segments. rewrite send_loop_map.
  destruct (co_snd _ _ _ _ _ _ Hok) as (sent & a & Hinv).
  assert (conn_ok (set_sender c (with_segments_out (_sender c) [])) w wire np fp lp) as Hok'.
  { apply (conn_ok_sender c w); try done; try apply Hok.
    exists sent, a. eapply (sinv_dequeue _ _ _ _ (TCPSender._segments_out (_sender c)) []); [done|].
    by rewrite app_nil_r. }
  apply (conn_ok_out _ w wire np fp lp (map (stamp (_receiver c)) (segments_out (_sender c)))) in Hok'; [done|].
  apply Forall_fmap, Forall_forall. intros seg Hin. simpl.
  pose proof (si_out _ _ _ _ Hinv) as Ho. rewrite Forall_forall in Ho. specialize (Ho seg Hin).
  rewrite (co_isn _ _ _ _ _ _ Hok) in Ho.
  assert (plain seg) as [Ha Hw].
  { destruct Ho as [Hs|[? _]]; [|done]. pose proof (si_plain _ _ _ _ Hinv) as Hpl.
    rewrite Forall_forall in Hpl. by apply Hpl. }
  apply (stamp_wire_ok c w wire np fp lp); try done; [|by rewrite Hw].
  destruct Ho as [Hs|[_ ?]]; [right|by left].
  destruct (sinv_segment_of _ _ _ _ seg Hinv Hs) as (i & Hso & Hle & Hfin).
  rewrite (co_isn _ _ _ _ _ _ Hok) in Hso. exists i. split_and!; try done. intros E.
  destruct (Hfin E) as (Hf & He & _). split; [done|]. by apply (co_end _ _ _ _ _ _ Hok).
Qed.

Lemma conn_ok_rst c w wire np fp lp : conn_ok c w wire np fp lp -> peer_ok np fp ->
  conn_ok (send_rst_seg c) w wire np fp lp.
Proof.
  intros Hok Hp. unfold send_rst_seg. apply conn_ok_out; [done|]. apply Forall_singleton.
  apply (stamp_wire_ok c w wire np fp lp); try done. left. split_and!; try done.
  exists (sent_seq c). split; [|simpl; unfold next_seqno; by rewrite (co_isn _ _ _ _ _ _ Hok)].
  destruct (co_snd _ _ _ _ _ _ Hok) as (sent & a & Hinv). pose proof (conn_size _ _ _ _ _ _ Hok).
  pose proof (sinv_bounds _ _ _ _ Hinv ltac:(lia)). lia.
Qed.

Lemma fill_within s s' new lp : within s lp -> fill_window s = Ok s' -> fill_post s s' new ->
  _next_seqno s' <= Z.max (_next_seqno s) (edge s) -> within s' lp.
Proof.
  intros [Hd He] Hs Hpost Hle. unfold within, data_end in *. destruct (_set_fin s) eqn:Ef.
  { unfold fill_window in Hs. rewrite Ef in Hs. simplify_eq. by rewrite Ef. }
  unfold edge in *. rewrite (fo_ackno _ _ _ Hpost), (fo_win _ _ _ Hpost).
  destruct He as [|He]; [done|]. split; [|by right]. destruct (_set_fin s'); lia.
Qed.

(** [fill_window] after the sender has been brought to a state [s]. *)
Lemma conn_ok_fill c w wire np fp lp : conn_ok c w wire np fp lp ->
  exists s, fill_window (_sender c) = Ok s /\ conn_ok (set_sender c s) w wire np fp lp /\
    sent_seq c <= _next_seqno s /\ (sent_fin c = true -> _set_fin s = true).
Proof.
  intros Hok. destruct (co_snd _ _ _ _ _ _ Hok) as (sent & a & Hinv). pose proof (conn_size _ _ _ _ _ _ Hok).
  destruct (fill_window_spec _ w sent a Hinv ltac:(lia)) as (s & new & Hs & Hinv' & Hpost & Hle & _).
  assert (sent_seq c <= _next_seqno s) as Hn by (rewrite (fo_next _ _ _ Hpost); pose proof (span_nonneg new); lia).
  assert (sent_fin c = true -> _set_fin s = true) as Hf.
  { intros E. unfold fill_window in Hs. rewrite E in Hs. by simplify_eq. }
  exists s. split_and!; try done. apply (conn_ok_sender c w); try done; [eauto|apply Hpost|apply Hok| |].
  - rewrite (fo_end _ _ _ Hpost). apply Hok.
  - eapply fill_within; [apply Hok|done|done|done].
Qed.

Lemma conn_ok_error c w wire np fp lp : conn_ok c w wire np fp lp ->
  conn_ok (error_outbound (error_inbound c)) w wire np fp lp.
Proof.
  intros Hok. unfold error_outbound. apply (conn_ok_sender _ w); try done.
  - apply conn_ok_receiver; [done| |apply Z.le_refl]. by apply rcv_ok_error, Hok.
  - destruct (co_snd _ _ _ _ _ _ Hok) as (sent & a & Hinv). exists sent, a.
    destruct Hinv. constructor; try done. by apply set_error_wf.
  - apply Hok.
  - apply Hok.
  - apply Hok.
Qed.

(** ** The calls of a connection preserve the invariant *)

Record op_post (c c' : TCPConnection) (w' : bytes) (wire : list TCPSegment) (np : Z) (fp : bool) (lp : Z) : Prop := {
  op_ok : conn_ok c' w' wire np fp lp;
  op_next : sent_seq c <= sent_seq c';
  op_fin : sent_fin c = true -> sent_fin c' = true;
  op_read : bytes_read (inbound_stream c') = bytes_read (inbound_stream c);
  op_limit : limit_of c <= limit_of c'
}.

(** [fill_window], [send_segments] and [try_clean_close], from a state [c1] whose
    sender has been changed. *)
Lemma op_fill_send c c1 w wire np fp lp : conn_ok c1 w wire np fp lp -> peer_ok np fp ->
  sent_seq c <= sent_seq c1 -> (sent_fin c = true -> sent_fin c1 = true) ->
  bytes_read (inbound_stream c1) = bytes_read (inbound_stream c) -> limit_of c <= limit_of c1 ->
  exists s, fill_window (_sender c1) = Ok s /\ op_post c (send_segments (set_sender c1 s)) w wire np fp lp.
Proof.
  intros Hok Hp Hn Hf Hrd Hl. destruct (conn_ok_fill c1 w wire np fp lp Hok) as (s & Hs & Hok' & Hn' & Hf').
  exists s. split; [done|]. constructor; [by apply conn_ok_send|simpl; lia|simpl; auto|done|done].
Qed.

Lemma op_close c c1 w wire np fp lp : op_post c c1 w wire np fp lp -> op_post c (try_clean_close c1) w wire np fp lp.
Proof.
  intros [Hok Hn Hf Hr Hl]. pose proof (conn_ok_close _ _ _ _ _ _ Hok) as Hok'.
  destruct (try_clean_close_spec c1) as [[b E] _]. rewrite E in *. by constructor.
Qed.

Lemma op_linger c c1 w wire np fp lp : op_post c c1 w wire np fp lp -> op_post c (update_linger c1) w wire np fp lp.
Proof.
  intros [Hok Hn Hf Hr Hl]. pose proof (conn_ok_linger _ _ _ _ _ _ Hok) as Hok'.
  destruct (update_linger_keeps c1) as (_ & Er & Es & _).
  constructor; rewrite ?Es, ?Er; try done. unfold inbound_stream in *. by rewrite Er.
Qed.

Lemma op_write c w wire np fp lp data : conn_ok c w wire np fp lp -> peer_ok np fp ->
  _end (stream_in (_sender c)) = false -> data = slice Wh (size w) (size data) ->
  exists c' n, write c data = Ok (c', n) /\ op_post c c' (w ++ ztake n data) wire np fp lp.
Proof.
  intros Hok Hp He Hd. destruct (co_snd _ _ _ _ _ _ Hok) as (sent & a & Hinv).
  set (st := fst (ByteStream.write (stream_in (_sender c)) data)).
  set (n := snd (ByteStream.write (stream_in (_sender c)) data)).
  assert (0 <= n <= size data) as Hn.
  { unfold n, ByteStream.write. simpl. pose proof (wf_cap _ (si_stream _ _ _ _ Hinv)).
    pose proof (size_nonneg data). unfold stream_in. lia. }
  pose proof (co_pre _ _ _ _ _ _ Hok) as Hpre. pose proof (size_nonneg w).
  destruct (op_fill_send c (set_sender c (with_stream (_sender c) st)) (w ++ ztake n data) wire np fp lp)
    as (s & Hs & Hpost); try done.
  - apply (conn_ok_sender c w); try done.
    + exists sent, a. by apply sinv_write.
    + rewrite size_app, size_ztake, Z.min_l by lia. rewrite Hpre at 1. rewrite Hd at 1.
      rewrite ztake_slice, <- !slice_prefix by lia. apply (slice_app Wh 0 (size w) n); lia.
    + intros E. change (_end (_stream (with_stream (_sender c) st))) with (_end (stream_in (_sender c))) in E. congruence.
    + apply Hok.
  - eexists _, n. split; [|by apply op_close].
    unfold write. change (ByteStream.write (stream_in (_sender c)) data) with (st, n). cbv beta iota zeta.
    by rewrite Hs.
Qed.

Lemma op_end c w wire np fp lp : conn_ok c w wire np fp lp -> peer_ok np fp -> w = Wh ->
  exists c', end_input_stream c = Ok c' /\ op_post c c' w wire np fp lp.
Proof.
  intros Hok Hp Hw. destruct (co_snd _ _ _ _ _ _ Hok) as (sent & a & Hinv).
  destruct (op_fill_send c (set_sender c (with_stream (_sender c) (end_input (stream_in (_sender c))))) w wire np fp lp)
    as (s & Hs & Hpost); try done.
  - apply (conn_ok_sender c w); try done; [exists sent, a; by apply sinv_end|apply Hok|apply Hok].
  - eexists. split; [|exact Hpost]. unfold end_input_stream. by rewrite Hs.
Qed.

Lemma op_connect c w wire np fp lp : conn_ok c w wire np fp lp -> peer_ok np fp ->
  exists c', connect c = Ok c' /\ op_post c c' w wire np fp lp.
Proof.
  intros Hok Hp. destruct (op_fill_send c c w wire np fp lp) as (s & Hs & Hpost); try done.
  eexists. split; [|exact Hpost]. unfold connect. by rewrite Hs.
Qed.

Lemma tick_keeps s ms : _next_seqno (TCPSender.tick s ms) = _next_seqno s /\
  _set_fin (TCPSender.tick s ms) = _set_fin s /\ _stream (TCPSender.tick s ms) = _stream s /\
  TCPSender._isn (TCPSender.tick s ms) = TCPSender._isn s /\ edge (TCPSender.tick s ms) = edge s.
Proof. unfold TCPSender.tick. repeat case_match; done. Qed.

Lemma op_tick c w wire np fp lp ms : conn_ok c w wire np fp lp -> peer_ok np fp -> is_u64 ms ->
  op_post c (tick c ms) w wire np fp lp.
Proof.
  intros Hok Hp Hms. destruct (co_snd _ _ _ _ _ _ Hok) as (sent & a & Hinv).
  destruct (tick_keeps (_sender c) ms) as (En & Ef & Est & Ei & Ee).
  assert (conn_ok (set_sender c (TCPSender.tick (_sender c) ms)) w wire np fp lp) as Hok1.
  { apply (conn_ok_sender c w); try done; [|apply Hok|rewrite Est; apply Hok|by rewrite En|by rewrite Ef|].
    - exists sent, a. by apply tick_spec.
    - unfold within. rewrite En, Ef, Ee. apply Hok. }
  unfold tick. case_match.
  - constructor; simpl; rewrite ?En, ?Ef; try done.
    apply (conn_ok_ext (error_outbound (error_inbound (send_rst_seg (set_sender c (TCPSender.tick (_sender c) ms))))));
      try done. by apply conn_ok_error, conn_ok_rst.
  - apply op_close. constructor; simpl; rewrite ?En, ?Ef; try done.
    apply conn_ok_send; [|done]. by apply (conn_ok_ext (set_sender c (TCPSender.tick (_sender c) ms))).
Qed.

Lemma segment_received_ok c seg r a s : rst (_header seg) = false ->
  TCPReceiver.segment_received (_receiver c) seg = Ok r -> receiver_ackno r = Some a ->
  fill_window (if ack (_header seg)
    then ack_received (_sender c) (ackno (_header seg)) (win (_header seg)) else _sender c) = Ok s ->
  segment_received c seg = Ok (try_clean_close (update_linger (send_segments (with_reply c seg r s)))).
Proof.
  intros Hrst Hr Ha Hs. unfold segment_received. rewrite Hrst.
  change (_receiver (set_wait_time c 0)) with (_receiver c). rewrite Hr. cbn [rbind].
  change (_receiver (set_receiver (set_wait_time c 0) r)) with r. rewrite Ha.
  by destruct (ack (_header seg)); cbn [_sender set_sender set_receiver set_wait_time]; rewrite Hs.
Qed.

(** The acknowledgment of a segment of the peer, handed to the sender. *)
Lemma conn_ok_ack c w wire np fp lp seg : conn_ok c w wire np fp lp ->
  wire_ok Wp isn_p isn_h np fp (sent_seq c) (sent_fin c) lp seg ->
  let s := if ack (_header seg)
    then ack_received (_sender c) (ackno (_header seg)) (win (_header seg)) else _sender c in
  conn_ok (set_sender c s) w wire np fp lp /\ _next_seqno s = sent_seq c /\ _set_fin s = sent_fin c.
Proof.
  intros Hok [_ _ Ha Hw] s. unfold s. clear s. destruct (ack (_header seg)).
  2:{ split; [|done]. by apply (conn_ok_ext c). }
  destruct (co_snd _ _ _ _ _ _ Hok) as (sent & a & Hinv). pose proof (conn_size _ _ _ _ _ _ Hok).
  destruct (Ha eq_refl) as (k & Ek & Hk & Hlim). rewrite Ek. pose proof (sinv_bounds _ _ _ _ Hinv ltac:(lia)).
  assert (acks (_sender c) (wrap k isn_h) k) as Hacks.
  { constructor; [by rewrite (co_isn _ _ _ _ _ _ Hok)|done|].
    pose proof (sinv_next _ _ _ _ Hinv). pose proof (size_nonneg (_que (_stream (_sender c)))).
    destruct (Z.eq_dec (sent_seq c) 0); [lia|]. destruct (sent_fin c); lia. }
  destruct (ack_received_spec (_sender c) w sent a _ k (win (_header seg)) Hinv ltac:(lia) Hacks Hw)
    as [Hinv' Hpost].
  set (s' := ack_received _ _ _) in *.
  assert (_set_fin s' = sent_fin c) as Ef by (unfold s', ack_received; repeat case_match; done).
  split; [|split; [apply Hpost|exact Ef]].
  apply (conn_ok_sender c w); try done; [eauto|apply Hpost|apply Hok| | |by rewrite Ef|].
  - rewrite (ap_stream _ _ _ _ Hpost). apply Hok.
  - rewrite (ap_next _ _ _ _ Hpost). lia.
  - unfold within, edge. rewrite Ef, (ap_next _ _ _ _ Hpost), (ap_ackno _ _ _ _ Hpost), (ap_win _ _ _ _ Hpost).
    split; [apply Hok|done].
Qed.

Lemma conn_ok_reply c w wire np fp lp seg r s : conn_ok (set_sender (set_receiver c r) s) w wire np fp lp ->
  conn_ok (with_reply c seg r s) w wire np fp lp /\ sent_seq (with_reply c seg r s) = _next_seqno s /\
  sent_fin (with_reply c seg r s) = _set_fin s /\ _receiver (with_reply c seg r s) = r.
Proof.
  intros Hok. assert (conn_ok (set_sender (set_receiver (set_wait_time c 0) r) s) w wire np fp lp) as Hok'
    by (by apply (conn_ok_ext (set_sender (set_receiver c r) s))).
  unfold with_reply. case_match; [|done]. case_match; [|done]. split; [|done].
  apply (conn_ok_sender _ w _ _ _ _ (send_empty_segment s) w) in Hok'; try done; try apply Hok'.
  destruct (co_snd _ _ _ _ _ _ Hok') as (sent & a & Hinv). exists sent, a. by apply sinv_empty.
Qed.

Lemma limit_mono np fp r r' : rcv_ok r np fp -> rcv_ok r' np fp ->
  bytes_read (receiver_stream_out r) <= bytes_read (receiver_stream_out r') ->
  bytes_written (receiver_stream_out r) <= bytes_written (receiver_stream_out r') ->
  limit (_reassembler r) <= limit (_reassembler r').
Proof.
  intros [Hr _ _ _] [Hr' _ _ _] ? ?. apply rinv_bounds in Hr, Hr'. simpl in *. lia.
Qed.

Lemma op_segment c w wire np fp lp seg : conn_ok c w wire np fp lp -> peer_ok np fp ->
  wire_ok Wp isn_p isn_h np fp (sent_seq c) (sent_fin c) lp seg -> data_end np fp <= limit_of c ->
  exists c', segment_received c seg = Ok c' /\ op_post c c' w wire np fp lp.
Proof.
  intros Hok Hp Hwo Hlim.
  destruct (rst (_header seg)) eqn:Hrst.
  { eexists. unfold segment_received. rewrite Hrst. split; [done|].
    constructor; try done. apply conn_ok_error. by apply (conn_ok_ext c). }
  destruct (rcv_ok_segment _ np fp seg _ _ _ (co_rcv _ _ _ _ _ _ Hok) Hp Hwo Hlim) as (r & Hr & Hrok & Hrd & Hwr & _).
  assert (limit_of c <= limit (_reassembler r)) as Hmono
    by (eapply limit_mono; [apply Hok|done|lia|done]).
  pose proof (conn_ok_receiver c w wire np fp lp r Hok Hrok Hmono) as Hok1.
  destruct (receiver_ackno r) as [a|] eqn:Ea.
  - destruct (conn_ok_ack (set_receiver c r) w wire np fp lp seg Hok1 Hwo) as (Hok2 & En & Ef).
    simpl in En, Ef, Hok2. set (s0 := if ack (_header seg) then _ else _) in *.
    destruct (conn_ok_fill _ w wire np fp lp Hok2) as (s & Hs & Hok3 & Hn & Hf). simpl in Hs, Hn, Hf.
    rewrite (segment_received_ok c seg r a s Hrst Hr Ea Hs). eexists. split; [done|].
    destruct (conn_ok_reply c w wire np fp lp seg r s) as (Hok4 & En4 & Ef4 & Er4).
    { by apply (conn_ok_ext (set_sender (set_sender (set_receiver c r) s0) s)). }
    apply op_close, op_linger. constructor; [by apply conn_ok_send| | | |].
    + simpl. rewrite En4. lia.
    + simpl. rewrite Ef4. intros E. apply Hf. congruence.
    + unfold inbound_stream. simpl. by rewrite Er4.
    + simpl. by rewrite Er4.
  - exists (try_clean_close (set_receiver (set_wait_time c 0) r)). split.
    + unfold segment_received. rewrite Hrst. change (_receiver (set_wait_time c 0)) with (_receiver c).
      rewrite Hr. cbn [rbind]. change (_receiver (set_receiver (set_wait_time c 0) r)) with r. by rewrite Ea.
    + apply op_close. constructor; try done. by apply (conn_ok_ext (set_receiver c r)).
Qed.

Lemma op_read_inbound c w wire np fp lp len : conn_ok c w wire np fp lp -> is_u64 len ->
  let r := with_stream_out (_receiver c) (fst (ByteStream.read (inbound_stream c) len)) in
  conn_ok (set_receiver c r) w wire np fp lp /\ limit_of c <= limit (_reassembler r).
Proof.
  intros Hok Hl r. pose proof (co_rcv _ _ _ _ _ _ Hok) as Hr.
  pose proof (rcv_ok_read _ np fp len Hl Hr) as Hr'. fold (inbound_stream c) r in Hr'.
  assert (limit_of c <= limit (_reassembler r)) as Hmono.
  { apply (limit_mono np fp); try done. pose proof (rinv_bounds _ _ _ _ (ro_inv _ _ _ Hr)) as Hb.
    pose proof (rinv_bounds _ _ _ _ (ro_inv _ _ _ Hr')) as Hb'. cbv zeta in Hb, Hb'.
    change (bytes_written (receiver_stream_out r)) with (bytes_written (receiver_stream_out (_receiver c))) in Hb'.
    assert (ByteStream.buffer_size (receiver_stream_out r) <= ByteStream.buffer_size (receiver_stream_out (_receiver c))) as Hle.
    { unfold ByteStream.buffer_size. change (receiver_stream_out r) with (pop_output (inbound_stream c) len).
      rewrite pop_output_que. unfold is_u64 in Hl. pose proof (size_nonneg (_que (inbound_stream c))).
      rewrite size_zdrop by lia. unfold inbound_stream in *. lia. }
    lia. }
  split; [by apply conn_ok_receiver|done].
Qed.

Lemma op_transmit c w wire np fp lp q1 q2 : conn_ok c w wire np fp lp -> _segments_out c = q1 ++ q2 ->
  conn_ok (set_out c q2) w (wire ++ q1) np fp lp.
Proof.
  intros [Hs Hi Hp He Hr Hin Hw] E. constructor; try done. simpl. rewrite E, !Forall_app in *. tauto.
Qed.
End endpoint.

(** ** Two hosts and a network *)

(** A host: its connection, the bytes its application has written and read, and
    every segment it has put on the network. *)
Record host : Type := mkHost {
  h_conn : TCPConnection;
  h_written : bytes;
  h_read : bytes;
  h_wire : list TCPSegment
}.

(** A step of the host that sends [Wh], whose peer has put the segments [peer] on
    the network.  The application writes pieces of [Wh] in order and ends the stream
    after the last; any segment of the peer may arrive, at any time and any number
    of times.  That goes on when the connection is no longer active: the test of
    [_active] in [segment_received] is commented out, so the code handles the segment
    (see [inactive_connection_answers] in [TCPState]); a socket's loop just stops
    reading segments then. *)
Inductive host_step (Wh : bytes) (peer : list TCPSegment) : host -> host -> Prop :=
| hs_write h data c' n : _end (stream_in (_sender (h_conn h))) = false ->
    data = slice Wh (size (h_written h)) (size data) -> write (h_conn h) data = Ok (c', n) ->
    host_step Wh peer h (mkHost c' (h_written h ++ ztake n data) (h_read h) (h_wire h))
| hs_end h c' : h_written h = Wh -> end_input_stream (h_conn h) = Ok c' ->
    host_step Wh peer h (mkHost c' (h_written h) (h_read h) (h_wire h))
| hs_connect h c' : connect (h_conn h) = Ok c' ->
    host_step Wh peer h (mkHost c' (h_written h) (h_read h) (h_wire h))
| hs_tick h ms : is_u64 ms ->
    host_step Wh peer h (mkHost (tick (h_conn h) ms) (h_written h) (h_read h) (h_wire h))
| hs_read h len : is_u64 len ->
    host_step Wh peer h
      (mkHost (set_receiver (h_conn h) (with_stream_out (_receiver (h_conn h))
                 (fst (ByteStream.read (inbound_stream (h_conn h)) len)))) (h_written h)
         (h_read h ++ snd (ByteStream.read (inbound_stream (h_conn h)) len)) (h_wire h))
| hs_transmit h q1 q2 : _segments_out (h_conn h) = q1 ++ q2 ->
    host_step Wh peer h (mkHost (set_out (h_conn h) q2) (h_written h) (h_read h) (h_wire h ++ q1))
| hs_receive h seg c' : seg ∈ peer -> segment_received (h_conn h) seg = Ok c' ->
    host_step Wh peer h (mkHost c' (h_written h) (h_read h) (h_wire h)).

Record host_ok (Wh Wp : bytes) (isn_h isn_p : WrappingInt32) (capacity : Z) (h : host) (np : Z) (fp : bool) (lp : Z) : Prop := {
  ho_conn : conn_ok Wh Wp isn_h isn_p capacity (h_conn h) (h_written h) (h_wire h) np fp lp;
  ho_read : h_read h = ztake (bytes_read (inbound_stream (h_conn h))) Wp
}.

Abbreviation h_seq h := (_next_seqno (_sender (h_conn h))).
Abbreviation h_fin h := (_set_fin (_sender (h_conn h))).
Abbreviation h_limit h := (limit (_reassembler (_receiver (h_conn h)))).

Lemma host_ok_mono Wh Wp ih ip cap h np fp lp np' fp' lp' : np <= np' -> (fp = true -> fp' = true) -> lp <= lp' ->
  host_ok Wh Wp ih ip cap h np fp lp -> host_ok Wh Wp ih ip cap h np' fp' lp'.
Proof.
  intros Hn Hf Hl [[Hs Hi Hp He Hr Hin Hw] Hrd]. constructor; [|done]. constructor; try done.
  - by eapply rcv_ok_mono.
  - destruct Hin as [Hd Hedge]. split; [lia|]. destruct Hedge; [by left|right; lia].
  - eapply Forall_impl; [exact Hw|]. intros seg. by apply wire_ok_mono.
Qed.

(** What a host has sent, as its peer sees it. *)
Lemma host_peer_ok Wh Wp ih ip cap h np fp lp : size Wh < 2147400000 ->
  host_ok Wh Wp ih ip cap h np fp lp -> peer_ok Wh (h_seq h) (h_fin h).
Proof.
  intros HW [Hok _]. pose proof (conn_size _ _ _ _ _ _ _ _ _ _ _ Hok) as Hsz.
  destruct (co_snd _ _ _ _ _ _ _ _ _ _ _ Hok) as (sent & a & Hinv).
  pose proof (sinv_bounds _ _ _ _ Hinv ltac:(lia)). pose proof (sinv_next _ _ _ _ Hinv) as Hn.
  pose proof (size_nonneg (_que (_stream (_sender (h_conn h))))). pose proof (size_nonneg Wh). split.
  - destruct (Z.eq_dec (h_seq h) 0); [lia|]. destruct (h_fin h); lia.
  - intros Hf. destruct (si_fin _ _ _ _ Hinv Hf) as (He & Hq & Hp). rewrite Hf, Hq in Hn.
    rewrite <- (co_end _ _ _ _ _ _ _ _ _ _ _ Hok He). change (size []) with 0 in Hn. lia.
Qed.

Lemma read_grows Wp ip cap r len : rinv Wp ip cap r -> is_u64 len -> size Wp < 2147400000 ->
  ztake (bytes_read (receiver_stream_out r)) Wp ++ snd (ByteStream.read (receiver_stream_out r) len)
  = ztake (bytes_read (fst (ByteStream.read (receiver_stream_out r) len))) Wp.
Proof.
  intros Hr Hl HW. destruct (rstep_inv Wp ltac:(lia) _ _ _ _
    (rstep_read Wp (_reassembler r) (ztake (bytes_read (receiver_stream_out r)) Wp) len Hl)
    (ri_inv _ _ _ _ Hr) eq_refl) as [_ E]. exact E.
Qed.

Lemma host_step_ok Wh Wp ih ip cap peer h h' np fp lp :
  size Wh < 2147400000 -> size Wp < 2147400000 -> w32 ip -> 1 <= cap < 2147483647 ->
  host_step Wh peer h h' -> host_ok Wh Wp ih ip cap h np fp lp -> peer_ok Wp np fp ->
  Forall (wire_ok Wp ip ih np fp (h_seq h) (h_fin h) lp) peer -> data_end np fp <= h_limit h ->
  host_ok Wh Wp ih ip cap h' np fp lp /\ h_seq h <= h_seq h' /\ (h_fin h = true -> h_fin h' = true) /\
  h_limit h <= h_limit h'.
Proof.
  intros HWh HWp Hip Hcap Hstep [Hok Hrd] Hp Hpeer Hlim.
  assert (forall c' w', op_post Wh Wp ih ip cap (h_conn h) c' w' (h_wire h) np fp lp ->
    host_ok Wh Wp ih ip cap (mkHost c' w' (h_read h) (h_wire h)) np fp lp /\
    h_seq h <= _next_seqno (_sender c') /\ (h_fin h = true -> _set_fin (_sender c') = true) /\
    h_limit h <= limit (_reassembler (_receiver c'))) as Hop.
  { intros c' w' [Hok' Hn Hf Hr Hl]. split; [|done]. constructor; [done|]. simpl. by rewrite Hr. }
  destruct Hstep as [h data c' n He Hd Hw|h c' Hw He|h c' Hc|h ms Hms|h len Hl|h q1 q2 E|h seg c' Hin Hs]; simpl.
  - destruct (op_write Wh Wp ih ip cap HWh Hcap _ _ _ _ _ _ data Hok Hp He Hd) as (c'' & n' & Hw' & Hpost).
    rewrite Hw in Hw'. simplify_eq. by apply Hop.
  - destruct (op_end Wh Wp ih ip cap HWh Hcap _ _ _ _ _ _ Hok Hp Hw) as (c'' & He' & Hpost).
    rewrite He in He'. simplify_eq. by apply Hop.
  - destruct (op_connect Wh Wp ih ip cap HWh Hcap _ _ _ _ _ _ Hok Hp) as (c'' & Hc' & Hpost).
    rewrite Hc in Hc'. simplify_eq. by apply Hop.
  - apply Hop. by apply op_tick.
  - destruct (op_read_inbound Wh Wp ih ip cap HWp _ _ _ _ _ _ len Hok Hl) as [Hok' Hl'].
    split; [|done]. constructor; [done|]. simpl. rewrite Hrd.
    apply (read_grows Wp ip cap); [apply Hok|done|done].
  - split; [|done]. constructor; [by apply op_transmit|done].
  - rewrite Forall_forall in Hpeer.
    destruct (op_segment Wh Wp ih ip cap HWh HWp Hip Hcap _ _ _ _ _ _ seg Hok Hp (Hpeer seg Hin) Hlim)
      as (c'' & Hs' & Hpost). rewrite Hs in Hs'. simplify_eq. by apply Hop.
Qed.

Section network.
Context (WA WB : bytes) (cfgA cfgB : TCPConfig) (rA rB : Z) (isnA isnB : WrappingInt32).

Inductive net_step : host * host -> host * host -> Prop :=
| net_a a b a' : host_step WA (h_wire b) a a' -> net_step (a, b) (a', b)
| net_b a b b' : host_step WB (h_wire a) b b' -> net_step (a, b) (a, b').

(** A new connection; [random] is what the random device returned. *)
Definition start (cfg : TCPConfig) (random : Z) : host := mkHost (construct_connection cfg random) [] [] [].

Definition net_reachable (a b : host) : Prop := rtc net_step (start cfgA rA, start cfgB rB) (a, b).

(** The configuration of a host with initial sequence number [isn]: the fixed one, or
    the random number. *)
Record config_ok (cfg : TCPConfig) (random : Z) (isn : WrappingInt32) : Prop := {
  cfg_isn : match fixed_isn cfg with Some i => i | None => mkWrappingInt32 (u32 random) end = isn;
  cfg_w32 : w32 isn;
  cfg_recv : 1 <= recv_capacity cfg < 2147483647;
  cfg_send : is_u64 (send_capacity cfg);
  cfg_rto : is_u16 (rt_timeout cfg)
}.

Definition net_ok (x : host * host) : Prop :=
  host_ok WA WB isnA isnB (recv_capacity cfgA) (fst x) (h_seq (snd x)) (h_fin (snd x)) (h_limit (snd x)) /\
  host_ok WB WA isnB isnA (recv_capacity cfgB) (snd x) (h_seq (fst x)) (h_fin (fst x)) (h_limit (fst x)).

Lemma start_ok Wh Wp isn_p cfg random isn lp : config_ok cfg random isn -> 1 <= lp ->
  host_ok Wh Wp isn isn_p (recv_capacity cfg) (start cfg random) 0 false lp.
Proof.
  intros [Hi Hw Hr Hs Ht] Hlp. constructor; [|simpl; by rewrite ztake_0].
  constructor; simpl; try done; [exists [], 0; by apply sinv_construct| |].
  - by apply rcv_ok_construct.
  - unfold within, data_end, edge. simpl. split; [lia|right; lia].
Qed.

Context (HWA : size WA < 2147400000) (HWB : size WB < 2147400000).
Context (HA : config_ok cfgA rA isnA) (HB : config_ok cfgB rB isnB).

Lemma net_step_ok x y : net_step x y -> net_ok x -> net_ok y.
Proof.
  intros Hstep [Ha Hb]. pose proof (host_peer_ok _ _ _ _ _ _ _ _ _ HWA Ha) as Hpa.
  pose proof (host_peer_ok _ _ _ _ _ _ _ _ _ HWB Hb) as Hpb.
  pose proof (ho_conn _ _ _ _ _ _ _ _ _ Ha) as [_ _ _ _ _ [Hia _] [_ Hwa]%Forall_app].
  pose proof (ho_conn _ _ _ _ _ _ _ _ _ Hb) as [_ _ _ _ _ [Hib _] [_ Hwb]%Forall_app].
  destruct Hstep as [a b a' Hs|a b b' Hs]; simpl in *.
  - destruct (host_step_ok WA WB isnA isnB (recv_capacity cfgA) _ a a' _ _ _ HWA HWB
      (cfg_w32 _ _ _ HB) (cfg_recv _ _ _ HA) Hs Ha Hpb Hwb Hib) as (Ha' & Hn & Hf & Hl).
    split; [done|]. by eapply host_ok_mono.
  - destruct (host_step_ok WB WA isnB isnA (recv_capacity cfgB) _ b b' _ _ _ HWB HWA
      (cfg_w32 _ _ _ HA) (cfg_recv _ _ _ HB) Hs Hb Hpa Hwa Hia) as (Hb' & Hn & Hf & Hl).
    split; [|done]. by eapply host_ok_mono.
Qed.

Lemma net_reachable_ok a b : net_reachable a b -> net_ok (a, b).
Proof.
  intros H. assert (forall x y, rtc net_step x y -> net_ok x -> net_ok y) as Hall
    by (induction 1; eauto using net_step_ok).
  apply (Hall _ _ H). split; simpl; apply start_ok; try done; unfold limit; simpl; lia.
Qed.

(** No call of a connection fails. *)
Lemma net_ok_calls a b : net_ok (a, b) ->
  (exists c', connect (h_conn a) = Ok c') /\
  (forall data, _end (stream_in (_sender (h_conn a))) = false ->
     data = slice WA (size (h_written a)) (size data) -> exists r, write (h_conn a) data = Ok r) /\
  (h_written a = WA -> exists c', end_input_stream (h_conn a) = Ok c') /\
  (forall seg, seg ∈ h_wire b -> exists c', segment_received (h_conn a) seg = Ok c').
Proof.
  intros [Ha Hb]. simpl in *.
  pose proof (host_peer_ok _ _ _ _ _ _ _ _ _ HWB Hb) as Hpb. pose proof (cfg_recv _ _ _ HA) as Hcap.
  pose proof (ho_conn _ _ _ _ _ _ _ _ _ Hb) as [_ _ _ _ _ [Hib _] [_ Hwb]%Forall_app].
  rewrite Forall_forall in Hwb. pose proof (ho_conn _ _ _ _ _ _ _ _ _ Ha) as Hok. split_and!.
  - destruct (op_connect WA WB isnA isnB _ HWA Hcap _ _ _ _ _ _ Hok Hpb) as (c' & ? & _). eauto.
  - intros data He Hd.
    destruct (op_write WA WB isnA isnB _ HWA Hcap _ _ _ _ _ _ data Hok Hpb He Hd) as (c' & n & ? & _). eauto.
  - intros Hw. destruct (op_end WA WB isnA isnB _ HWA Hcap _ _ _ _ _ _ Hok Hpb Hw) as (c' & ? & _). eauto.
  - intros seg Hin. destruct (op_segment WA WB isnA isnB _ HWA HWB (cfg_w32 _ _ _ HB) Hcap
      _ _ _ _ _ _ seg Hok Hpb (Hwb seg Hin) Hib) as (c' & ? & _). eauto.
Qed.

(** What [host_ok] gives for the stream a host receives. *)
Lemma host_delivers Wh Wp ih ip cap h np fp lp : size Wp < 2147400000 ->
  host_ok Wh Wp ih ip cap h np fp lp ->
  h_read h ++ _que (inbound_stream (h_conn h)) = ztake (bytes_written (inbound_stream (h_conn h))) Wp /\
  (input_ended (inbound_stream (h_conn h)) = true -> bytes_written (inbound_stream (h_conn h)) = size Wp).
Proof.
  intros HW [Hok Hrd]. pose proof (ro_inv _ _ _ _ _ _ (co_rcv _ _ _ _ _ _ _ _ _ _ _ Hok)) as Hr.
  pose proof (ri_inv _ _ _ _ Hr) as [[[_ Hr0 Hcnt Hw Hq He] _ _ _ _ _] _]. split; [|exact He].
  rewrite Hrd. unfold inbound_stream, receiver_stream_out, stream_out, bytes_read, bytes_written.
  rewrite Hq, <- Hcnt, <- !slice_prefix. pose proof (size_nonneg (_que (_output (_reassembler (_receiver (h_conn h)))))).
  by rewrite <- (slice_app Wp 0 (_readsize (_output (_reassembler (_receiver (h_conn h)))))) by lia.
Qed.
End network.

(** ** Properties *)

(** C1: Reliable delivery, end to end.  Two connections with any (valid)
    configurations and initial sequence numbers exchange the streams [WA] and [WB]
    over a network that loses, repeats, delays and reorders segments at will; the
    applications write, read, connect, end their streams and let time pass in any
    interleaving.  At every moment, what each application has read, followed by
    what waits in its inbound stream, is a prefix of what the other one sends, and
    the end of the stream is signalled only after all of it. *)
Theorem end_to_end_delivery WA WB cfgA cfgB rA rB isnA isnB a b :
  size WA < 2147400000 -> size WB < 2147400000 -> config_ok cfgA rA isnA -> config_ok cfgB rB isnB ->
  net_reachable WA WB cfgA cfgB rA rB a b ->
  (h_read b ++ _que (inbound_stream (h_conn b)) = ztake (bytes_written (inbound_stream (h_conn b))) WA /\
   (input_ended (inbound_stream (h_conn b)) = true -> bytes_written (inbound_stream (h_conn b)) = size WA)) /\
  (h_read a ++ _que (inbound_stream (h_conn a)) = ztake (bytes_written (inbound_stream (h_conn a))) WB /\
   (input_ended (inbound_stream (h_conn a)) = true -> bytes_written (inbound_stream (h_conn a)) = size WB)).
Proof.
  intros HWA HWB HA HB Hreach.
  destruct (net_reachable_ok WA WB cfgA cfgB rA rB isnA isnB HWA HWB HA HB a b Hreach) as [Ha Hb].
  split; [by apply (host_delivers _ _ _ _ _ _ _ _ _ HWA Hb)|by apply (host_delivers _ _ _ _ _ _ _ _ _ HWB Ha)].
Qed.

(** C2: No call of a connection fails, no acknowledgment lies, and no window is
    overrun.  In every state of such an execution: writing, ending the stream,
    connecting, and receiving any segment on the network return normally (no
    exception, null pointer or endless loop); every acknowledgment on the network is
    of sequence numbers the peer has really sent; and every segment that carries data
    ends within the receiver's window, or one byte after it when the window is empty
    (a probe). *)
Theorem end_to_end_safety WA WB cfgA cfgB rA rB isnA isnB a b :
  size WA < 2147400000 -> size WB < 2147400000 -> config_ok cfgA rA isnA -> config_ok cfgB rB isnB ->
  net_reachable WA WB cfgA cfgB rA rB a b ->
  (exists c', connect (h_conn a) = Ok c') /\
  (forall data, input_ended (stream_in (_sender (h_conn a))) = false ->
     data = slice WA (size (h_written a)) (size data) -> exists r, write (h_conn a) data = Ok r) /\
  (h_written a = WA -> exists c', end_input_stream (h_conn a) = Ok c') /\
  (forall seg, seg ∈ h_wire b -> exists c', segment_received (h_conn a) seg = Ok c') /\
  (forall seg, seg ∈ h_wire b -> ack (_header seg) = true ->
     exists k, ackno (_header seg) = wrap k isnA /\ 0 <= k <= next_seqno_absolute (_sender (h_conn a))) /\
  (forall seg, seg ∈ h_wire b -> str (_payload seg) <> [] ->
     exists i, segment_of WB isnB seg i /\
       i + size (str (_payload seg)) <= limit (_reassembler (_receiver (h_conn a)))).
Proof.
  intros HWA HWB HA HB Hreach.
  pose proof (net_reachable_ok WA WB cfgA cfgB rA rB isnA isnB HWA HWB HA HB a b Hreach) as Hok.
  destruct (net_ok_calls WA WB cfgA cfgB rA rB isnA isnB HWA HWB HA HB a b Hok) as (? & ? & ? & ?).
  destruct Hok as [Ha Hb]. pose proof (host_peer_ok _ _ _ _ _ _ _ _ _ HWB Hb) as Hpb.
  pose proof (ho_conn _ _ _ _ _ _ _ _ _ Hb) as [_ _ _ _ _ [Hib _] [_ Hwb]%Forall_app].
  rewrite Forall_forall in Hwb. split_and!; try done.
  - intros seg Hin E. destruct (Hwb seg Hin) as [_ _ Hack _]. destruct (Hack E) as (k & ? & ? & _). by exists k.
  - intros seg Hin Hne. destruct (wo_kind _ _ _ _ _ _ _ _ _ (Hwb seg Hin)) as [(Hp & _)|(i & Hso & Hle)]; [done|].
    exists i. split; [done|]. by eapply (segment_within WB isnB).
Qed.

(** A run for the witnesses: the handshake, with a repeated SYN, then "ab" from A
    to B. *)
Definition run_config (isn : Z) : TCPConfig := mkTCPConfig 1000 64000 64000 (Some (mkWrappingInt32 isn)).

Lemma run_config_ok isn : is_u32 isn -> config_ok (run_config isn) 0 (mkWrappingInt32 isn).
Proof. intros. constructor; try done; simpl; unfold is_u64, is_u16; lia. Qed.

Ltac run_connect side := eapply rtc_l; [eapply side, hs_connect; vm_compute; reflexivity|].
Ltac run_transmit side := eapply rtc_l; [eapply side, (hs_transmit _ _ _ _ []); rewrite app_nil_r; vm_compute; reflexivity|].
Tactic Notation "run_receive" constr(side) integer(n) :=
  eapply rtc_l; [eapply side, hs_receive;
    [vm_compute; do n right; left|vm_compute; reflexivity]|].

Lemma run_reachable : exists a b, net_reachable [x61; x62] [] (run_config 4294967295) (run_config 7) 0 0 a b /\
  bytes_written (inbound_stream (h_conn b)) = 2.
Proof.
  eexists _, _. split.
  - run_connect net_a. run_transmit net_a. run_receive net_b 0. run_receive net_b 0. run_transmit net_b.
    run_receive net_a 0.
    eapply rtc_l; [eapply net_a, (hs_write _ _ _ [x61; x62]); vm_compute; reflexivity|].
    run_transmit net_a. run_receive net_b 2. apply rtc_refl.
  - vm_compute. reflexivity.
Qed.

Lemma end_to_end_delivery_witness : exists a b,
  net_reachable [x61; x62] [] (run_config 4294967295) (run_config 7) 0 0 a b /\
  h_read b ++ _que (inbound_stream (h_conn b)) = [x61; x62].
Proof.
  destruct run_reachable as (a & b & Hr & Hw). exists a, b. split; [exact Hr|].
  destruct (end_to_end_delivery [x61; x62] [] (run_config 4294967295) (run_config 7) 0 0
    (mkWrappingInt32 4294967295) (mkWrappingInt32 7) a b) as [[E _] _];
    [by vm_compute|by vm_compute|by apply run_config_ok; split; vm_compute
    |by apply run_config_ok; split; vm_compute|exact Hr|].
  rewrite E, Hw. reflexivity.
Defined.

Lemma end_to_end_safety_witness : exists a b,
  net_reachable [x61; x62] [] (run_config 4294967295) (run_config 7) 0 0 a b /\
  (exists c', connect (h_conn a) = Ok c').
Proof.
  destruct run_reachable as (a & b & Hr & _). exists a, b. split; [exact Hr|].
  apply (end_to_end_safety [x61; x62] [] (run_config 4294967295) (run_config 7) 0 0
    (mkWrappingInt32 4294967295) (mkWrappingInt32 7) a b);
    [by vm_compute|by vm_compute|by apply run_config_ok; split; vm_compute
    |by apply run_config_ok; split; vm_compute|exact Hr].
Defined.
