(* ===== verification/Hosts.v ===== *)
(** * Hosts: what the programs around a connection rely on

    Facts about the hosts of file [EndToEnd] that the socket and the benchmark share:
    which configurations are acceptable, that only [end_input_stream] ends the
    outbound stream, how much a write takes, and what a host has delivered. *)

From stdpp Require Import relations.
From S2P Require Import Prelude WrappingIntegers ByteStream TCPSegment TCPReceiver TCPSender TCPConnection Transmission EndToEnd.

(** ** Configurations *)

(** The configuration of a connection. *)
Record tcp_config_ok (cfg : TCPConfig) : Prop := {
  tc_isn : forall i, fixed_isn cfg = Some i -> w32 i;
  tc_recv : 1 <= recv_capacity cfg < 2147483647;
  tc_send : is_u64 (send_capacity cfg);
  tc_rto : is_u16 (rt_timeout cfg)
}.

Lemma config_isn cfg random : tcp_config_ok cfg -> exists isn, config_ok cfg random isn.
Proof.
  intros [H1 H2 H3 H4]. eexists. constructor; [done| |done|done|done].
  destruct (fixed_isn cfg) as [i|]; [by apply H1|]. unfold w32. simpl. ints.
Qed.

(** ** Only [end_input_stream] ends the outbound stream *)

Definition out_end (c : TCPConnection) : bool := _end (stream_in (_sender c)).

Lemma fill_loop_end fuel s n s' : fill_loop fuel s n = Ok s' -> _end (_stream s') = _end (_stream s).
Proof.
  revert s n. induction fuel as [|fuel IH]; intros s n; cbn [fill_loop]; destruct (_ && _); try congruence.
  destruct (next_segment s n) as [[s1 seg] len] eqn:En.
  assert (_end (_stream s1) = _end (_stream s)) as E1.
  { unfold next_segment in En. destruct (_next_seqno s =? 0), (ByteStream.read _ _) as [st pay] eqn:Er;
      unfold ByteStream.read in Er; injection Er as <- <-; destruct (_ && _); by injection En as <- _ _. }
  destruct (0 <? len); [|congruence]. destruct (_ =? 0); [by intros [= <-]|]. intros ->%IH. exact E1.
Qed.

Lemma fill_window_end s s' : fill_window s = Ok s' -> _end (_stream s') = _end (_stream s).
Proof. unfold fill_window. destruct (_set_fin s); [congruence|]. destruct (_ <=? _); [congruence|]. apply fill_loop_end. Qed.

Lemma ack_received_stream s a win : _stream (ack_received s a win) = _stream s.
Proof.
  unfold ack_received. destruct (_ <? _); [done|]. destruct (pop_acked _ _ _ _ _ _) as [[q f] b]. by destruct b.
Qed.

Lemma tick_stream s ms : _stream (TCPSender.tick s ms) = _stream s.
Proof.
  unfold TCPSender.tick. destruct (timer_tictoc _ _ _ _) as [t n]. destruct (isexpired t); [|done].
  by destruct (_wait_ack s).
Qed.

Lemma out_end_close c : out_end (try_clean_close c) = out_end c.
Proof. by destruct (try_clean_close_spec c) as [[b ->] _]. Qed.

Lemma out_end_segment c seg c' : segment_received c seg = Ok c' -> out_end c' = out_end c.
Proof.
  intros [[_ ->]|(_ & r & _ & [[_ ->]|(a & s & _ & Hf & ->)])]%segment_received_inv; [done|by rewrite out_end_close|].
  rewrite out_end_close. apply fill_window_end in Hf.
  assert (out_end (update_linger (send_segments (with_reply c seg r s))) = _end (_stream s)) as ->.
  { unfold update_linger. destruct (_ && _); unfold out_end, send_segments, with_reply;
      (destruct (negb _); [destruct (segments_out s)|]); done. }
  rewrite Hf. unfold out_end. destruct (ack _); [by rewrite ack_received_stream|done].
Qed.

Lemma out_end_write c data c' n : TCPConnection.write c data = Ok (c', n) -> out_end c' = out_end c.
Proof.
  unfold TCPConnection.write. destruct (ByteStream.write _ _) as [st k] eqn:Ew.
  destruct (fill_window _) as [s|] eqn:Hf; [|done]. simpl. intros [= <- _].
  rewrite out_end_close. apply fill_window_end in Hf. unfold out_end. simpl in *. rewrite Hf.
  unfold ByteStream.write in Ew. by injection Ew as <- _.
Qed.

Lemma out_end_tick c ms : out_end (tick c ms) = out_end c.
Proof.
  unfold tick. destruct (_ <? _).
  - unfold out_end. simpl. by rewrite tick_stream.
  - rewrite out_end_close. unfold out_end, send_segments. simpl. by rewrite tick_stream.
Qed.

Lemma write_amount c data c' n : TCPConnection.write c data = Ok (c', n) ->
  n = Z.min (remaining_outbound_capacity c) (size data).
Proof.
  unfold TCPConnection.write, ByteStream.write. simpl. destruct (fill_window _); [|done]. simpl. by intros [= _ <-].
Qed.

Lemma out_end_connect c c' : connect c = Ok c' -> out_end c' = out_end c.
Proof.
  unfold connect. destruct (fill_window _) as [x|] eqn:Hf; [|done]. simpl. intros [= <-].
  apply fill_window_end in Hf. unfold out_end. simpl. done.
Qed.

(** ** Delivery *)

Lemma net_ok_swap WA WB cA cB iA iB a b : net_ok WA WB cA cB iA iB (a, b) -> net_ok WB WA cB cA iB iA (b, a).
Proof. intros [Ha Hb]. by split. Qed.

(** What [host_ok] gives for the bytes an owner gets. *)
Lemma delivered Wh Wp ih ip cap h np fp lp : size Wp < 2147400000 -> host_ok Wh Wp ih ip cap h np fp lp ->
  h_read h `prefix_of` Wp /\
  forall c, Some (h_conn h) = Some c -> eof (inbound_stream c) = true -> h_read h = Wp.
Proof.
  intros HW Hok. destruct (host_delivers _ _ _ _ _ _ _ _ _ HW Hok) as [E He]. split.
  - transitivity (h_read h ++ _que (inbound_stream (h_conn h))); [by apply prefix_app_r|]. rewrite E.
    exists (zdrop (bytes_written (inbound_stream (h_conn h))) Wp). by rewrite ztake_zdrop.
  - intros c [= <-] [Hend Hrw%Z.eqb_eq]%andb_true_iff. rewrite (ho_read _ _ _ _ _ _ _ _ _ Hok).
    apply ztake_all. rewrite <- (He Hend). unfold bytes_read, bytes_written. lia.
Qed.
