(* ===== verification/Wire.v ===== *)
(** * Wire: the interface of a packet format

    What the link and the adapters rely on from a packet class with [parse] and
    [serialize]: a valid object is serialized without an exception, and parsing
    the bytes into a fresh object reports no error and gives the object back, up to
    the fields the serializer fills in.  [IPv4], [Ethernet] and [ARP] provide
    instances; [Ethernet] uses it for whatever a frame carries. *)

From S2P Require Import Prelude Parser.

Class WireFormat (T : Type) : Type := {
  wire_encode : T -> result bytes;
  wire_decode : bytes -> result (ParseResult * T);
  wire_valid : T -> Prop;
  wire_same : T -> T -> Prop;
  wire_roundtrip t : wire_valid t ->
    exists b t', wire_encode t = Ok b /\
      wire_decode b = Ok (NoError, t') /\ wire_same t t'
}.

(** Lists of octets read one by one, as the loops over an [EthernetAddress] do. *)
Fixpoint parse_octets (n : nat) : parser (list Z) :=
  match n with
  | O => mret []
  | S n => b ← u8_; l ← parse_octets n; mret (b :: l)
  end.

Fixpoint put_octets (s : bytes) (l : list Z) : bytes :=
  match l with
  | [] => s
  | b :: l => put_octets (put_u8 s b) l
  end.

Definition octets (l : list Z) : bytes := concat (map (unparse_bytes 1) l).

Lemma put_octets_app s l : put_octets s l = s ++ octets l.
Proof.
  revert s. induction l as [|b l IH]; intros s; simpl; [by rewrite app_nil_r|].
  rewrite IH. unfold put_u8, _unparse_int, octets. by rewrite <- app_assoc.
Qed.

Lemma size_octets l : size (octets l) = size l.
Proof.
  unfold octets. induction l as [|b l IH]; [done|]. cbn [map concat].
  by rewrite size_app, size_unparse, size_cons, IH.
Qed.

Lemma parses_octets n l suf : length l = n -> Forall is_u8 l ->
  parses (parse_octets n) (octets l ++ suf) l suf.
Proof.
  revert l. induction n as [|n IH]; intros l Hl Hf.
  - destruct l; [|done]. apply parses_ret.
  - destruct l as [|b l]; [done|]. apply Forall_cons in Hf as [Hb Hf]. cbn [parse_octets].
    unfold octets. cbn [map concat]. rewrite <- app_assoc.
    eapply parses_bind; [by apply parses_u8|]. eapply parses_bind; [apply IH; [by injection Hl|done]|].
    apply parses_ret.
Qed.

#[export] Hint Resolve parses_octets : parse.
