(* ===== verification/IPv4.v ===== *)
(** * IPv4: the Internet header and datagram

    Models [libsponge/tcp_helpers/ipv4_header.hh], [ipv4_header.cc],
    [ipv4_datagram.hh] and [ipv4_datagram.cc], except the human-readable
    [to_string] and [summary]. *)

From Stdlib Require Import Strings.String.
From S2P Require Import Prelude Parser Checksum Wire.

(** ** IPv4Header *)

Definition LENGTH : Z := 20.
Definition DEFAULT_TTL : Z := 128.
Definition PROTO_TCP : Z := 6.

Record IPv4Header : Type := mkIPv4Header {
  ver : Z;
  hlen : Z;
  tos : Z;
  len : Z;
  id : Z;
  df : bool;
  mf : bool;
  offset : Z;
  ttl : Z;
  proto : Z;
  cksum : Z;
  src : Z;
  dst : Z
}.

Definition default_ipv4_header : IPv4Header :=
  mkIPv4Header 4 (LENGTH / 4) 0 0 0 true false 0 DEFAULT_TTL PROTO_TCP 0 0 0.

(** [header_out.cksum = c] *)
Definition ip_with_cksum (h : IPv4Header) (c : Z) : IPv4Header :=
  mkIPv4Header (ver h) (hlen h) (tos h) (len h) (id h) (df h) (mf h) (offset h) (ttl h) (proto h)
    c (src h) (dst h).

(** [IPv4Header::parse] on a header object [h]: the first test leaves it as it is,
    afterwards every field is assigned. *)
Definition ipv4_header_parse (h : IPv4Header) : parser (ParseResult * IPv4Header) :=
  original_serialized_version ← get_buffer;
  let data_size := buffer_size original_serialized_version in
  if data_size <? LENGTH then mret (PacketTooShort, h) else
  first_byte ← u8_;
  tos ← u8_;
  len ← u16_;
  id ← u16_;
  fo_val ← u16_;
  ttl ← u8_;
  proto ← u8_;
  cksum ← u16_;
  src ← u32_;
  dst ← u32_;
  let ver := Z.shiftr first_byte 4 in
  let hlen := Z.land first_byte 15 in
  let h := mkIPv4Header ver hlen tos len id (negb (Z.land fo_val 16384 =? 0))
             (negb (Z.land fo_val 8192 =? 0)) (Z.land fo_val 8191) ttl proto cksum src dst in
  if data_size <? 4 * hlen then mret (PacketTooShort, h) else
  if negb (ver =? 4) then mret (WrongIPVersion, h) else
  if hlen <? 5 then mret (HeaderTooShort, h) else
  if negb (data_size =? len) then mret (TruncatedPacket, h) else
  _ ← remove_prefix (hlen * 4 - LENGTH);
  e ← error;
  if (e : bool) then r ← get_error; mret (r, h) else
  let check := add (checksum 0) (ztake (4 * hlen) (str original_serialized_version)) in
  if negb (value check =? 0) then mret (BadChecksum, h) else mret (NoError, h).

Definition ipv4_header_serialize (h : IPv4Header) : result bytes :=
  if negb (ver h =? 4) then Throw (RuntimeError "wrong IP version") else
  if 4 * hlen h <? LENGTH then Throw (RuntimeError "IP header too short") else
  let first_byte := u8 (Z.lor (Z.shiftl (ver h) 4) (Z.land (hlen h) 15)) in
  let ret := put_u8 [] first_byte in
  let ret := put_u8 ret (tos h) in
  let ret := put_u16 ret (len h) in
  let ret := put_u16 ret (id h) in
  let fo_val := u16 (Z.lor (Z.lor (if df h then 16384 else 0) (if mf h then 8192 else 0))
                       (Z.land (offset h) 8191)) in
  let ret := put_u16 ret fo_val in
  let ret := put_u8 ret (ttl h) in
  let ret := put_u8 ret (proto h) in
  let ret := put_u16 ret (cksum h) in
  let ret := put_u32 ret (src h) in
  let ret := put_u32 ret (dst h) in
  Ok (resize ret (4 * hlen h)).

Definition payload_length (h : IPv4Header) : Z := u16 (len h - 4 * hlen h).

Definition pseudo_cksum (h : IPv4Header) : Z :=
  let pcksum := u32 (Z.shiftr (src h) 16 + Z.land (src h) 65535) in
  let pcksum := u32 (pcksum + u32 (Z.shiftr (dst h) 16 + Z.land (dst h) 65535)) in
  let pcksum := u32 (pcksum + proto h) in
  u32 (pcksum + payload_length h).

(** ** IPv4Datagram *)

Record IPv4Datagram : Type := mkIPv4Datagram {
  dgram_header : IPv4Header;
  dgram_payload : BufferList
}.

Definition default_datagram : IPv4Datagram := mkIPv4Datagram default_ipv4_header [].

(** The result of [IPv4Header::parse] is discarded. *)
Definition datagram_parse (d : IPv4Datagram) (buffer : Buffer) : result (ParseResult * IPv4Datagram) :=
  let p := net_parser buffer in
  let! (res, p) := ipv4_header_parse (dgram_header d) p in
  let header := snd res in
  let payload := [_buffer p] in
  let d := mkIPv4Datagram header payload in
  if negb (bufferlist_size payload =? payload_length header) then Ok (PacketTooShort, d)
  else Ok (_error p, d).

Definition datagram_serialize (d : IPv4Datagram) : result BufferList :=
  if negb (bufferlist_size (dgram_payload d) =? payload_length (dgram_header d))
  then Throw (RuntimeError "IPv4Datagram::serialize: payload is wrong size") else
  let header_out := ip_with_cksum (dgram_header d) 0 in
  let! header_zero_checksum := ipv4_header_serialize header_out in
  let check := add (checksum 0) header_zero_checksum in
  let header_out := ip_with_cksum header_out (value check) in
  let! h1 := ipv4_header_serialize header_out in
  Ok (bufferlist_append (bufferlist_append [] [buffer_of h1]) (dgram_payload d)).

(** ** The header on the wire *)

Record ipv4_ok (h : IPv4Header) : Prop := {
  ip_ver : ver h = 4;
  ip_hlen : 5 <= hlen h <= 15;
  ip_tos : is_u8 (tos h);
  ip_len : is_u16 (len h);
  ip_id : is_u16 (id h);
  ip_offset : 0 <= offset h < 8192;
  ip_ttl : is_u8 (ttl h);
  ip_proto : is_u8 (proto h);
  ip_src : is_u32 (src h);
  ip_dst : is_u32 (dst h)
}.

Definition fo_val (h : IPv4Header) : Z :=
  u16 (Z.lor (Z.lor (if df h then 16384 else 0) (if mf h then 8192 else 0)) (Z.land (offset h) 8191)).

Definition first_byte (h : IPv4Header) : Z := u8 (Z.lor (Z.shiftl (ver h) 4) (Z.land (hlen h) 15)).

Definition ip_front (h : IPv4Header) : bytes :=
  unparse_bytes 1 (first_byte h) ++ unparse_bytes 1 (tos h) ++ unparse_bytes 2 (len h) ++
  unparse_bytes 2 (id h) ++ unparse_bytes 2 (fo_val h) ++ unparse_bytes 1 (ttl h) ++
  unparse_bytes 1 (proto h).

Definition ip_back (h : IPv4Header) : bytes :=
  unparse_bytes 4 (src h) ++ unparse_bytes 4 (dst h) ++ replicate (Z.to_nat (4 * hlen h - 20)) x00.

Lemma size_ip_front h : size (ip_front h) = 10.
Proof. reflexivity. Qed.

Lemma size_ip_back h : 5 <= hlen h -> size (ip_back h) = 4 * hlen h - 12.
Proof.
  intros. unfold ip_back. rewrite !size_app, !size_unparse. unfold size. rewrite length_replicate. lia.
Qed.

Lemma ipv4_serialize_eq h : ver h = 4 -> 5 <= hlen h ->
  ipv4_header_serialize h = Ok (ip_front h ++ unparse_bytes 2 (cksum h) ++ ip_back h).
Proof.
  intros Hv Hh. unfold ipv4_header_serialize, LENGTH. rewrite Hv. cbn [Z.eqb negb Pos.eqb].
  destruct (Z.ltb_spec (4 * hlen h) 20); [lia|]. f_equal.
  unfold put_u8, put_u16, put_u32, _unparse_int. rewrite resize_pad by (change (size _) with 20; lia).
  change (size _) with 20. unfold ip_front, ip_back, first_byte, fo_val. rewrite Hv. by rewrite <- !app_assoc.
Qed.

(** The bit fields. *)
Lemma first_byte_fields h : ver h = 4 -> 5 <= hlen h <= 15 ->
  Z.shiftr (first_byte h) 4 = 4 /\ Z.land (first_byte h) 15 = hlen h.
Proof.
  intros Hv Hh. unfold first_byte. rewrite Hv.
  assert (hlen h = 5 \/ hlen h = 6 \/ hlen h = 7 \/ hlen h = 8 \/ hlen h = 9 \/ hlen h = 10 \/ hlen h = 11
    \/ hlen h = 12 \/ hlen h = 13 \/ hlen h = 14 \/ hlen h = 15) as Hc by lia.
  destruct Hc as [->|[->|[->|[->|[->|[->|[->|[->|[->|[->| ->]]]]]]]]]]; done.
Qed.

(** A bit of weight [2 ^ k] is not set in a number below it. *)
Lemma land_pow2_small x k : 0 <= k -> 0 <= x < 2 ^ k -> Z.land x (2 ^ k) = 0.
Proof.
  intros Hk Hx. apply Z.bits_inj'. intros n Hn. rewrite Z.land_spec, Z.bits_0, Z.pow2_bits_eqb by done.
  destruct (Z.eqb_spec k n) as [<-|]; [|by rewrite andb_false_r].
  rewrite andb_true_r. destruct (Z.eq_dec x 0) as [->|]; [apply Z.bits_0|].
  apply Z.bits_above_log2; [lia|]. apply Z.log2_lt_pow2; lia.
Qed.

Lemma lor_low a b k : 0 <= k -> 0 <= a -> a mod 2 ^ k = 0 -> 0 <= b < 2 ^ k -> Z.lor a b = a + b.
Proof.
  intros Hk Ha Hm Hb. assert (Z.land a b = 0) as Hl.
  { apply Z.bits_inj'. intros n Hn. rewrite Z.land_spec, Z.bits_0.
    destruct (Z.lt_ge_cases n k).
    - rewrite <- (Z.mod_pow2_bits_low a k n), Hm, Z.bits_0 by lia. done.
    - rewrite andb_comm. destruct (Z.eq_dec b 0) as [->|]; [by rewrite Z.bits_0|].
      rewrite (Z.bits_above_log2 b) by (try (apply Z.lt_le_trans with k; [apply Z.log2_lt_pow2|]); lia). done. }
  by rewrite <- Z.lxor_lor, <- Z.add_nocarry_lxor.
Qed.

Lemma fo_val_fields h : 0 <= offset h < 8192 ->
  is_u16 (fo_val h) /\ negb (Z.land (fo_val h) 16384 =? 0) = df h /\
  negb (Z.land (fo_val h) 8192 =? 0) = mf h /\ Z.land (fo_val h) 8191 = offset h.
Proof.
  intros Ho. split; [apply u16_range|]. unfold fo_val.
  assert (Z.land (offset h) 8191 = offset h) as ->
    by (change 8191 with (Z.ones 13); rewrite Z.land_ones by lia; apply Z.mod_small; lia).
  pose proof (land_pow2_small (offset h) 13 ltac:(lia) Ho) as H13.
  pose proof (land_pow2_small (offset h) 14 ltac:(lia) ltac:(lia)) as H14.
  change (2 ^ 13) with 8192 in H13. change (2 ^ 14) with 16384 in H14.
  assert (forall x, Z.land x 8191 = x mod 8192) as Hl
    by (intros; change 8191 with (Z.ones 13); by rewrite Z.land_ones by lia).
  destruct (df h), (mf h);
    (match goal with |- context [Z.lor ?c (offset h)] => let v := eval vm_compute in c in change c with v end);
    rewrite (u16_small (Z.lor _ _)) by (rewrite (lor_low _ (offset h) 13) by (try done; lia); ints);
    rewrite !Z.land_lor_distr_l, H13, H14, !Z.lor_0_r;
    (split_and!; [done|done|]);
    rewrite !Hl, (Z.mod_small (offset h)) by lia; done.
Qed.

Definition ip_bytes (h : IPv4Header) : bytes := ip_front h ++ unparse_bytes 2 (cksum h) ++ ip_back h.

Lemma size_ip_bytes h : 5 <= hlen h -> size (ip_bytes h) = 4 * hlen h.
Proof. intros. unfold ip_bytes. rewrite !size_app, size_ip_front, size_unparse, size_ip_back by done. lia. Qed.

Lemma parses_ipv4_header h0 h suf : ipv4_ok h -> is_u16 (cksum h) ->
  size (ip_bytes h ++ suf) = len h -> value (add (checksum 0) (ip_bytes h)) = 0 ->
  parses (ipv4_header_parse h0) (ip_bytes h ++ suf) (NoError, h) suf.
Proof.
  intros [Hv Hh Ht Hl Hi Ho Htt Hp Hs Hd] Hc Hlen Hck. unfold ipv4_header_parse.
  apply parses_bind_buffer. intros b Hb.
  assert (buffer_size b = len h) as -> by (unfold buffer_size; by rewrite Hb).
  pose proof (size_ip_bytes h ltac:(lia)) as Hsz. rewrite size_app, Hsz in Hlen. pose proof (size_nonneg suf).
  unfold LENGTH. destruct (Z.ltb_spec (len h) 20); [lia|].
  assert (ztake (4 * hlen h) (str b) = ip_bytes h) as Hz by (by rewrite Hb, <- Hsz, ztake_app).
  unfold ip_bytes at 1, ip_front, ip_back. rewrite <- !app_assoc.
  destruct (fo_val_fields h Ho) as (Hfo & Edf & Emf & Eof).
  pose proof (u8_range (Z.lor (Z.shiftl (ver h) 4) (Z.land (hlen h) 15))) as Hfb. fold (first_byte h) in Hfb.
  do 10 parse_step. rewrite Edf, Emf, Eof. destruct (first_byte_fields h Hv Hh) as [-> ->].
  rewrite Hz.
  destruct (Z.ltb_spec (len h) (4 * hlen h)); [lia|]. cbn [Z.eqb Pos.eqb negb].
  destruct (Z.ltb_spec (hlen h) 5); [lia|]. rewrite Z.eqb_refl. cbn [negb].
  set (pad := replicate _ x00).
  assert (size pad = hlen h * 4 - 20) as Hpad by (unfold pad, size; rewrite length_replicate; lia).
  rewrite <- Hpad. eapply parses_bind; [apply parses_remove_prefix; rewrite size_app; lia|].
  rewrite zdrop_app. eapply parses_bind; [apply parses_error|]. cbv beta iota. rewrite Hck. cbn [Z.eqb negb].
  replace (mkIPv4Header 4 (hlen h) (tos h) (len h) (id h) (df h) (mf h) (offset h) (ttl h) (proto h) (cksum h) (src h) (dst h))
    with h by (by destruct h; simpl in *; subst). apply parses_ret.
Qed.

(** What [datagram_serialize] puts on the wire. *)
Lemma datagram_serialize_spec d : ipv4_ok (dgram_header d) ->
  bufferlist_size (dgram_payload d) = payload_length (dgram_header d) ->
  exists c, is_u16 c /\ let h := ip_with_cksum (dgram_header d) c in
    datagram_serialize d = Ok (buffer_of (ip_bytes h) :: dgram_payload d) /\
    value (add (checksum 0) (ip_bytes h)) = 0.
Proof.
  intros Hok Hsz. pose proof (ip_hlen _ Hok) as Hh. pose proof (ip_ver _ Hok) as Hv.
  set (h := dgram_header d) in *. pose proof (size_ip_back h ltac:(lia)) as Hb.
  destruct (field_verifies 0 (ip_front h) (ip_back h)) as [Hc Hck];
    [reflexivity|lia|rewrite size_ip_front, Hb; lia|]. set (c := value _) in Hc, Hck.
  exists c. split; [done|]. split; [|exact Hck].
  unfold datagram_serialize. fold h. rewrite Hsz, Z.eqb_refl. cbn [negb].
  rewrite ipv4_serialize_eq by (simpl; lia). cbn [rbind].
  change (ip_front (ip_with_cksum h 0)) with (ip_front h). change (ip_back (ip_with_cksum h 0)) with (ip_back h).
  cbn [cksum ip_with_cksum]. fold c. by rewrite ipv4_serialize_eq by (simpl; lia).
Qed.

Lemma datagram_wire d : ipv4_ok (dgram_header d) ->
  len (dgram_header d) = 4 * hlen (dgram_header d) + size (concatenate (dgram_payload d)) ->
  exists l c d' p, datagram_serialize d = Ok l /\ size (concatenate l) = len (dgram_header d) /\
    datagram_parse default_datagram (buffer_of (concatenate l)) = Ok (NoError, d') /\
    ipv4_header_parse default_ipv4_header (net_parser (buffer_of (concatenate l)))
      = Ok ((NoError, dgram_header d'), p) /\
    dgram_header d' = ip_with_cksum (dgram_header d) c /\ is_u16 c /\
    concatenate (dgram_payload d') = concatenate (dgram_payload d) /\
    exists b, dgram_payload d' = [b] /\ buf_ok b.
Proof.
  intros Hok Hlen. pose proof (ip_len _ Hok) as Hl16. pose proof (ip_hlen _ Hok) as Hh. unfold is_u16 in Hl16.
  pose proof (size_nonneg (concatenate (dgram_payload d))) as Hnn.
  assert (payload_length (dgram_header d) = size (concatenate (dgram_payload d))) as Hpl
    by (unfold payload_length; ints).
  destruct (datagram_serialize_spec d Hok) as (c & Hc & Hser & Hck).
  { rewrite Hpl. apply bufferlist_size_concat. lia. }
  set (h := ip_with_cksum (dgram_header d) c) in *. set (pay := concatenate (dgram_payload d)) in *.
  assert (concatenate (buffer_of (ip_bytes h) :: dgram_payload d) = ip_bytes h ++ pay) as Hcat
    by reflexivity.
  assert (size (ip_bytes h ++ pay) = len h) as Hsz
    by (rewrite size_app, size_ip_bytes by (simpl; lia); simpl; lia).
  assert (ipv4_ok h) as Hok' by (destruct Hok; by constructor).
  destruct (parses_ipv4_header default_ipv4_header h pay Hok' Hc Hsz Hck (net_parser (buffer_of (ip_bytes h ++ pay))))
    as (p & Hp & Hb & Hs & He); [apply rest_net_parser; rewrite Hsz; simpl; lia|].
  eexists _, c, (mkIPv4Datagram h [_buffer p]), p. split; [exact Hser|]. rewrite Hcat.
  assert (concatenate [_buffer p] = pay) as Hpay by (unfold concatenate; simpl; by rewrite app_nil_r).
  split_and!; try done; [|by exists (_buffer p)]. unfold datagram_parse. simpl dgram_header. rewrite Hp. cbn [rbind snd].
  rewrite bufferlist_size_concat, Hpay by (rewrite Hpay; lia).
  change (payload_length h) with (payload_length (dgram_header d)). rewrite Hpl, Z.eqb_refl. cbn [negb].
  by rewrite He.
Qed.

(** The pseudo-header: addresses, zero and protocol, length. *)
Definition pseudo_header (h : IPv4Header) : bytes :=
  unparse_bytes 4 (src h) ++ unparse_bytes 4 (dst h) ++ unparse_bytes 2 (proto h) ++
  unparse_bytes 2 (payload_length h).

Lemma pseudo_cksum_words h : ipv4_ok h -> pseudo_cksum h = word_sum false (pseudo_header h).
Proof.
  intros [_ _ _ _ _ _ _ Hp Hs Hd]. unfold pseudo_header. rewrite !word_sum_app. change (odd_parity false (unparse_bytes 4 (src h))) with false.
  change (odd_parity false (unparse_bytes 4 (dst h))) with false.
  change (odd_parity false (unparse_bytes 2 (proto h))) with false.
  rewrite !word_sum_u32, !word_sum_u16 by (try done; try apply u16_range; ints).
  unfold pseudo_cksum. pose proof (u16_range (len h - 4 * hlen h)) as Hl. fold (payload_length h) in Hl.
  rewrite !fold_carry_arith. ints.
Qed.

Lemma pseudo_cksum_bound h : ipv4_ok h -> 0 <= pseudo_cksum h <= 783360.
Proof.
  intros Hok. rewrite (pseudo_cksum_words h Hok). pose proof (word_sum_range false (pseudo_header h)) as Hr.
  change (size (pseudo_header h)) with 12 in Hr. lia.
Qed.

(** ** The interface *)

(** A valid datagram, and two datagrams that are the same but for the checksum and
    the division of the payload into buffers. *)
Definition datagram_valid (d : IPv4Datagram) : Prop :=
  ipv4_ok (dgram_header d) /\
  len (dgram_header d) = 4 * hlen (dgram_header d) + size (concatenate (dgram_payload d)).

Definition datagram_same (d d' : IPv4Datagram) : Prop :=
  ip_with_cksum (dgram_header d) 0 = ip_with_cksum (dgram_header d') 0 /\
  concatenate (dgram_payload d) = concatenate (dgram_payload d').

#[export, refine] Instance datagram_wire_format : WireFormat IPv4Datagram := {
  wire_encode d := let! l := datagram_serialize d in Ok (concatenate l);
  wire_decode b := datagram_parse default_datagram (buffer_of b);
  wire_valid := datagram_valid;
  wire_same := datagram_same
}.
Proof.
  intros d [Hok Hlen]. destruct (datagram_wire d Hok Hlen) as (l & c & d' & p & Hs & Hsz & Hp & _ & Hh & _ & Hpay & _).
  exists (concatenate l), d'. rewrite Hs. split_and!; try done. split; [by rewrite Hh|done].
Defined.

(** ** Properties *)

(** An Internet datagram survives the wire.  A datagram with a well-formed
    header whose length fields match its payload is serialized without an
    exception; parsing the bytes back reports no error, neither from the header
    (whose checksum verifies) nor from the datagram, and gives the same header, up
    to the checksum filled in, and the same payload bytes. *)
Theorem ipv4_datagram_roundtrip d : ipv4_ok (dgram_header d) ->
  len (dgram_header d) = 4 * hlen (dgram_header d) + size (concatenate (dgram_payload d)) ->
  exists l c d' p, datagram_serialize d = Ok l /\
    datagram_parse default_datagram (buffer_of (concatenate l)) = Ok (NoError, d') /\
    ipv4_header_parse default_ipv4_header (net_parser (buffer_of (concatenate l)))
      = Ok ((NoError, dgram_header d'), p) /\
    dgram_header d' = ip_with_cksum (dgram_header d) c /\ is_u16 c /\
    concatenate (dgram_payload d') = concatenate (dgram_payload d).
Proof.
  intros Hok Hlen. destruct (datagram_wire d Hok Hlen) as (l & c & d' & p & Hs & _ & Hp & Hhp & Hh & Hc & Hpay & _).
  by exists l, c, d', p.
Qed.

Definition sample_datagram : IPv4Datagram :=
  mkIPv4Datagram (mkIPv4Header 4 5 0 23 99 true false 0 64 6 0 3232235777 3232235778)
    [buffer_of [x61]; buffer_of [x62; x63]].

Lemma ipv4_datagram_roundtrip_witness :
  exists l c d' p, datagram_serialize sample_datagram = Ok l /\
    datagram_parse default_datagram (buffer_of (concatenate l)) = Ok (NoError, d') /\
    ipv4_header_parse default_ipv4_header (net_parser (buffer_of (concatenate l)))
      = Ok ((NoError, dgram_header d'), p) /\
    dgram_header d' = ip_with_cksum (dgram_header sample_datagram) c /\ is_u16 c /\
    concatenate (dgram_payload d') = concatenate (dgram_payload sample_datagram).
Proof.
  apply (ipv4_datagram_roundtrip sample_datagram); [|by vm_compute].
  constructor; (by vm_compute) || (split; by vm_compute).
Defined.

(** [pseudo_cksum] is the word sum of the TCP pseudo-header (source address,
    destination address, zero and protocol, length), without 32-bit overflow: the
    value with which a TCP checksum over pseudo-header and segment starts. *)
Theorem pseudo_cksum_is_word_sum h : ipv4_ok h ->
  pseudo_cksum h = word_sum false (pseudo_header h) /\ is_u32 (pseudo_cksum h).
Proof. intros Hok. split; [by apply pseudo_cksum_words|apply u32_range]. Qed.

Lemma pseudo_cksum_is_word_sum_witness :
  let h := dgram_header sample_datagram in
  pseudo_cksum h = word_sum false (pseudo_header h) /\ is_u32 (pseudo_cksum h).
Proof.
  apply (pseudo_cksum_is_word_sum (dgram_header sample_datagram)).
  constructor; (by vm_compute) || (split; by vm_compute).
Defined.

(** [IPv4Datagram::parse] discards what [IPv4Header::parse] returns: a datagram of
    version 6 and one with a wrong header checksum are accepted. *)
Example datagram_accepts_bad_headers :
  let wire v c := unparse_bytes 1 (16 * v + 5) ++ unparse_bytes 1 0 ++ unparse_bytes 2 20 ++
    unparse_bytes 4 0 ++ unparse_bytes 2 16390 ++ unparse_bytes 2 c ++ unparse_bytes 4 1 ++ unparse_bytes 4 2 in
  let header_result w := let! (res, _) := ipv4_header_parse default_ipv4_header (net_parser (buffer_of w)) in Ok (fst res) in
  let result w := let! (res, _) := datagram_parse default_datagram (buffer_of w) in Ok res in
  header_result (wire 6 0) = Ok WrongIPVersion /\ result (wire 6 0) = Ok NoError /\
  header_result (wire 4 0) = Ok BadChecksum /\ result (wire 4 0) = Ok NoError.
Proof. by vm_compute. Qed.

