(* ===== verification/Ethernet.v ===== *)
(** * Ethernet: frames and ARP messages

    Models [libsponge/tcp_helpers/ethernet_header.hh], [ethernet_header.cc],
    [ethernet_frame.hh], [ethernet_frame.cc], [arp_message.hh] and
    [arp_message.cc], except the human-readable [to_string]s.  An
    [EthernetAddress] is a list of six octets. *)

From Stdlib Require Import Strings.String.
From S2P Require Import Prelude Parser Checksum Wire IPv4.

(** ** EthernetHeader *)

Definition EthernetAddress : Type := list Z.
Definition ETHERNET_BROADCAST : EthernetAddress := [255; 255; 255; 255; 255; 255].

Definition ETHERNET_LENGTH : Z := 14.
Definition TYPE_IPv4 : Z := 2048.
Definition TYPE_ARP : Z := 2054.

Record EthernetHeader : Type := mkEthernetHeader {
  dst : EthernetAddress;
  src : EthernetAddress;
  type : Z
}.

(** Value-initialized: [EthernetHeader _header{}]. *)
Definition default_ethernet_header : EthernetHeader :=
  mkEthernetHeader (replicate 6 0) (replicate 6 0) 0.

Definition ethernet_header_parse (h : EthernetHeader) : parser (ParseResult * EthernetHeader) :=
  b ← get_buffer;
  if buffer_size b <? ETHERNET_LENGTH then mret (PacketTooShort, h) else
  dst ← parse_octets 6;
  src ← parse_octets 6;
  type ← u16_;
  e ← get_error;
  mret (e, mkEthernetHeader dst src type).

Definition ethernet_header_serialize (h : EthernetHeader) : bytes :=
  let ret := put_octets [] (dst h) in
  let ret := put_octets ret (src h) in
  put_u16 ret (type h).

(** ** EthernetFrame *)

Record EthernetFrame : Type := mkEthernetFrame {
  frame_header : EthernetHeader;
  frame_payload : BufferList
}.

Definition default_frame : EthernetFrame := mkEthernetFrame default_ethernet_header [].

(** The result of [EthernetHeader::parse] is discarded. *)
Definition frame_parse (f : EthernetFrame) (buffer : Buffer) : result (ParseResult * EthernetFrame) :=
  let p := net_parser buffer in
  let! (res, p) := ethernet_header_parse (frame_header f) p in
  Ok (_error p, mkEthernetFrame (snd res) [_buffer p]).

Definition frame_serialize (f : EthernetFrame) : BufferList :=
  let ret := bufferlist_append [] [buffer_of (ethernet_header_serialize (frame_header f))] in
  bufferlist_append ret (frame_payload f).

(** ** ARPMessage *)

Definition ARP_LENGTH : Z := 28.
Definition TYPE_ETHERNET : Z := 1.
Definition OPCODE_REQUEST : Z := 1.
Definition OPCODE_REPLY : Z := 2.

Record ARPMessage : Type := mkARPMessage {
  hardware_type : Z;
  protocol_type : Z;
  hardware_address_size : Z;
  protocol_address_size : Z;
  opcode : Z;
  sender_ethernet_address : EthernetAddress;
  sender_ip_address : Z;
  target_ethernet_address : EthernetAddress;
  target_ip_address : Z
}.

Definition default_arp : ARPMessage :=
  mkARPMessage TYPE_ETHERNET TYPE_IPv4 6 4 0 (replicate 6 0) 0 (replicate 6 0) 0.

Definition supported (m : ARPMessage) : bool :=
  (hardware_type m =? TYPE_ETHERNET) && (protocol_type m =? TYPE_IPv4) &&
  (hardware_address_size m =? 6) && (protocol_address_size m =? 4) &&
  ((opcode m =? OPCODE_REQUEST) || (opcode m =? OPCODE_REPLY)).

(** The parser of the method: the fields up to the opcode are assigned before the
    message is found unsupported. *)
Definition arp_fields (m : ARPMessage) : parser (ParseResult * ARPMessage) :=
  b ← get_buffer;
  if buffer_size b <? ARP_LENGTH then mret (PacketTooShort, m) else
  hardware_type ← u16_;
  protocol_type ← u16_;
  hardware_address_size ← u8_;
  protocol_address_size ← u8_;
  opcode ← u16_;
  let m := mkARPMessage hardware_type protocol_type hardware_address_size protocol_address_size opcode
             (sender_ethernet_address m) (sender_ip_address m) (target_ethernet_address m)
             (target_ip_address m) in
  if negb (supported m) then mret (Unsupported, m) else
  sender_ethernet_address ← parse_octets 6;
  sender_ip_address ← u32_;
  target_ethernet_address ← parse_octets 6;
  target_ip_address ← u32_;
  e ← get_error;
  mret (e, mkARPMessage hardware_type protocol_type hardware_address_size protocol_address_size opcode
             sender_ethernet_address sender_ip_address target_ethernet_address target_ip_address).

Definition arp_parse (m : ARPMessage) (buffer : Buffer) : result (ParseResult * ARPMessage) :=
  let! (res, _) := arp_fields m (net_parser buffer) in Ok res.

Definition arp_serialize (m : ARPMessage) : result bytes :=
  if negb (supported m) then Throw (RuntimeError
    "ARPMessage::serialize(): unsupported field combination (must be Ethernet/IP, and request or reply)")
  else
  let ret := put_u16 [] (hardware_type m) in
  let ret := put_u16 ret (protocol_type m) in
  let ret := put_u8 ret (hardware_address_size m) in
  let ret := put_u8 ret (protocol_address_size m) in
  let ret := put_u16 ret (opcode m) in
  let ret := put_octets ret (sender_ethernet_address m) in
  let ret := put_u32 ret (sender_ip_address m) in
  let ret := put_octets ret (target_ethernet_address m) in
  let ret := put_u32 ret (target_ip_address m) in
  Ok ret.

(** ** Frames on the wire *)

Definition mac_ok (a : EthernetAddress) : Prop := length a = 6%nat /\ Forall is_u8 a.

Definition frame_valid (f : EthernetFrame) : Prop :=
  mac_ok (dst (frame_header f)) /\ mac_ok (src (frame_header f)) /\ is_u16 (type (frame_header f)) /\
  size (concatenate (frame_payload f)) < 4294967282.

Definition frame_same (f f' : EthernetFrame) : Prop :=
  frame_header f = frame_header f' /\ concatenate (frame_payload f) = concatenate (frame_payload f').

Definition ethernet_bytes (h : EthernetHeader) : bytes :=
  octets (dst h) ++ octets (src h) ++ unparse_bytes 2 (type h).

Lemma ethernet_serialize_eq h : ethernet_header_serialize h = ethernet_bytes h.
Proof.
  unfold ethernet_header_serialize, ethernet_bytes, put_u16, _unparse_int.
  rewrite !put_octets_app. by rewrite <- app_assoc.
Qed.

Lemma size_mac a : mac_ok a -> size (octets a) = 6.
Proof. intros [Hl _]. rewrite size_octets. unfold size. by rewrite Hl. Qed.

Lemma parses_ethernet_header h0 h suf : mac_ok (dst h) -> mac_ok (src h) -> is_u16 (type h) ->
  parses (ethernet_header_parse h0) (ethernet_bytes h ++ suf) (NoError, h) suf.
Proof.
  intros Hd Hs Ht. unfold ethernet_header_parse. apply parses_bind_buffer. intros b Hb.
  unfold buffer_size. rewrite Hb. pose proof (size_nonneg suf). unfold ethernet_bytes, ETHERNET_LENGTH.
  destruct (Z.ltb_spec (size ((octets (dst h) ++ octets (src h) ++ unparse_bytes 2 (type h)) ++ suf)) 14) as [Hlt|_].
  { rewrite !size_app, !size_mac, size_unparse in Hlt by done. lia. }
  rewrite <- !app_assoc. destruct Hd, Hs. do 4 parse_step. destruct h. apply parses_ret.
Qed.

Lemma frame_wire f : frame_valid f ->
  exists f', frame_parse default_frame (buffer_of (concatenate (frame_serialize f))) = Ok (NoError, f') /\
    frame_same f f'.
Proof.
  intros (Hd & Hs & Ht & Hp).
  assert (concatenate (frame_serialize f) = ethernet_bytes (frame_header f) ++ concatenate (frame_payload f)) as Hc.
  { unfold frame_serialize. by rewrite ethernet_serialize_eq. }
  assert (size (ethernet_bytes (frame_header f)) = 14) as Hsz
    by (unfold ethernet_bytes; rewrite !size_app, !size_mac, size_unparse by done; done).
  rewrite Hc. destruct (parses_ethernet_header default_ethernet_header (frame_header f)
    (concatenate (frame_payload f)) Hd Hs Ht _ (rest_net_parser
    (ethernet_bytes (frame_header f) ++ concatenate (frame_payload f)) ltac:(rewrite size_app; lia)))
    as (p & Hpr & _ & Hst & He).
  exists (mkEthernetFrame (frame_header f) [_buffer p]). unfold frame_parse.
  change (frame_header default_frame) with default_ethernet_header. rewrite Hpr. cbn [rbind snd].
  rewrite He. split; [done|]. split; [done|].
  unfold concatenate at 2. simpl. by rewrite app_nil_r, Hst.
Qed.

#[export, refine] Instance frame_wire_format : WireFormat EthernetFrame := {
  wire_encode f := Ok (concatenate (frame_serialize f));
  wire_decode b := frame_parse default_frame (buffer_of b);
  wire_valid := frame_valid;
  wire_same := frame_same
}.
Proof.
  intros f Hf. destruct (frame_wire f Hf) as (f' & Hp & Hs).
  by exists (concatenate (frame_serialize f)), f'.
Defined.

(** ** ARP messages on the wire *)

Definition arp_valid (m : ARPMessage) : Prop :=
  supported m = true /\ mac_ok (sender_ethernet_address m) /\ is_u32 (sender_ip_address m) /\
  mac_ok (target_ethernet_address m) /\ is_u32 (target_ip_address m).

Lemma arp_wire m : arp_valid m -> exists b, arp_serialize m = Ok b /\ size b = ARP_LENGTH /\
  arp_parse default_arp (buffer_of b) = Ok (NoError, m).
Proof.
  intros (Hsup & Hs & Hsi & Ht & Hti). unfold arp_serialize. rewrite Hsup. cbn [negb].
  eexists. split; [done|]. unfold put_u16, put_u8, put_u32, _unparse_int. rewrite !put_octets_app.
  rewrite <- !app_assoc. rewrite app_nil_l. set (b := unparse_bytes 2 _ ++ _).
  assert (size b = 28) as Hsz by (unfold b; rewrite !size_app, !size_mac, !size_unparse by done; done).
  split; [done|]. unfold arp_parse.
  assert (parses (arp_fields default_arp) b (NoError, m) []) as Hp.
  { unfold arp_fields. apply parses_bind_buffer. intros x Hx. unfold buffer_size. rewrite Hx, Hsz. cbn [Z.ltb].
    pose proof Hsup as Hf. unfold supported in Hf. rewrite !andb_true_iff, orb_true_iff, !Z.eqb_eq in Hf.
    destruct Hf as ((((Eh & Ep) & Ehs) & Eps) & Eop).
    assert (is_u16 (opcode m)) as Ho by (unfold OPCODE_REQUEST, OPCODE_REPLY in Eop; unfold is_u16; lia).
    assert (is_u16 (hardware_type m)) as H1 by (rewrite Eh; by split).
    assert (is_u16 (protocol_type m)) as H2 by (rewrite Ep; by split).
    assert (is_u8 (hardware_address_size m)) as H3 by (rewrite Ehs; by split).
    assert (is_u8 (protocol_address_size m)) as H4 by (rewrite Eps; by split).
    change (28 <? ARP_LENGTH) with false. cbv iota. unfold b. do 5 parse_step.
    replace (supported _) with true by (symmetry; exact Hsup). cbn [negb].
    destruct Hs, Ht. do 3 parse_step. rewrite <- (app_nil_r (unparse_bytes 4 (target_ip_address m))).
    do 2 parse_step. destruct m. apply parses_ret. }
  destruct (Hp _ (rest_net_parser b ltac:(lia))) as (p & Hpr & _). by rewrite Hpr.
Qed.

#[export, refine] Instance arp_wire_format : WireFormat ARPMessage := {
  wire_encode := arp_serialize;
  wire_decode b := arp_parse default_arp (buffer_of b);
  wire_valid := arp_valid;
  wire_same := eq
}.
Proof.
  intros m Hm. destruct (arp_wire m Hm) as (b & Hs & Hsz & Hp). by exists b, m.
Defined.

(** ** Properties *)

(** Whatever a frame carries arrives.  For every packet format that meets the
    interface [WireFormat] (Internet datagrams and ARP messages do), a valid packet
    put in an Ethernet frame with any addresses and type, serialized and parsed
    back, gives a frame with the same header and no error, whose payload parses,
    without error, to the same packet. *)
Theorem ethernet_encapsulation {T : Type} `{WireFormat T} (t : T) (d s : EthernetAddress) (ty : Z) :
  wire_valid t -> mac_ok d -> mac_ok s -> is_u16 ty ->
  (forall b, wire_encode t = Ok b -> size b < 4294967282) ->
  exists b f' t', wire_encode t = Ok b /\
    let f := mkEthernetFrame (mkEthernetHeader d s ty) [buffer_of b] in
    frame_parse default_frame (buffer_of (concatenate (frame_serialize f))) = Ok (NoError, f') /\
    frame_header f' = mkEthernetHeader d s ty /\
    wire_decode (concatenate (frame_payload f')) = Ok (NoError, t') /\ wire_same t t'.
Proof.
  intros Ht Hd Hs Hty Hsz. destruct (wire_roundtrip t Ht) as (b & t' & Henc & Hdec & Hsame).
  assert (concatenate [buffer_of b] = b) as Hc by (unfold concatenate; simpl; by rewrite app_nil_r).
  destruct (frame_wire (mkEthernetFrame (mkEthernetHeader d s ty) [buffer_of b])) as (f' & Hp & Hh & Hpay).
  { split_and!; try done. simpl. rewrite Hc. by apply Hsz. }
  exists b, f', t'. split; [done|]. cbv zeta. split; [exact Hp|]. split; [by rewrite <- Hh|].
  simpl in Hpay. by rewrite <- Hpay, Hc.
Qed.

Definition sample_arp : ARPMessage :=
  mkARPMessage 1 2048 6 4 OPCODE_REQUEST [2; 0; 0; 0; 0; 1] 3232235777 (replicate 6 0) 3232235778.

(** ARP messages.  A supported message with well-formed addresses is 28 bytes
    on the wire and is parsed back to the same message; an unsupported one is never
    serialized, and a message too short is reported and leaves the object as it
    was. *)
Theorem arp_roundtrip_and_errors m buffer :
  (arp_valid m -> exists b, arp_serialize m = Ok b /\ size b = ARP_LENGTH /\
     arp_parse default_arp (buffer_of b) = Ok (NoError, m)) /\
  (supported m = false -> exists e, arp_serialize m = Throw e) /\
  (size (str buffer) < ARP_LENGTH -> arp_parse m buffer = Ok (PacketTooShort, m)).
Proof.
  split_and!.
  - apply arp_wire.
  - intros E. unfold arp_serialize. rewrite E. by eexists.
  - intros Hs. unfold arp_parse, arp_fields, mbind, parser_bind, get_buffer. simpl. unfold buffer_size.
    destruct (Z.ltb_spec (size (str buffer)) ARP_LENGTH); [done|lia].
Qed.

Lemma arp_roundtrip_and_errors_witness :
  exists b, arp_serialize sample_arp = Ok b /\ size b = ARP_LENGTH /\
    arp_parse default_arp (buffer_of b) = Ok (NoError, sample_arp).
Proof.
  apply (arp_roundtrip_and_errors sample_arp empty_buffer).
  split_and!; try done; repeat constructor; by vm_compute.
Defined.

(** [EthernetFrame::parse] discards what [EthernetHeader::parse] returns: a frame of
    three bytes, too short for a header, is accepted. *)
Example frame_accepts_short :
  (let! (res, _) := ethernet_header_parse default_ethernet_header (net_parser (buffer_of [x01; x02; x03])) in
   Ok (fst res)) = Ok PacketTooShort /\
  (let! (res, _) := frame_parse default_frame (buffer_of [x01; x02; x03]) in Ok res) = Ok NoError.
Proof. split; reflexivity. Qed.
