(* ===== verification/RandomGenerator.v ===== *)
(** * RandomGenerator: the seeded generator of [util.cc]

    Models [get_random_generator] of [libsponge/util/util.cc] with what it uses of the
    C++ library: [std::seed_seq] and the engine [std::mt19937], as the standard defines
    them ([rand.util.seedseq], [rand.eng.mers]).  The random device is an argument: the
    word each of its calls returns. *)

From S2P Require Import Prelude.

(** ** The Mersenne twister

    The state is the last [state_size] words of the sequence, the oldest first. *)

Definition state_size : nat := 624.
Definition shift_size : nat := 397.

Abbreviation mt19937 := (list Z).

(** [(X(i-n) and upper) or (X(i-n+1) and lower)], with one bit in the upper part. *)
Definition mt_join (x0 x1 : Z) : Z := Z.lor (Z.land x0 2147483648) (Z.land x1 2147483647).

Definition mt_twist (y : Z) : Z := Z.lxor (Z.shiftr y 1) (if Z.odd y then 2567483615 else 0).

(** The next word of the sequence. *)
Definition mt_word (x : mt19937) : Z :=
  Z.lxor (nth shift_size x 0) (mt_twist (mt_join (nth 0 x 0) (nth 1 x 0))).

Definition mt_temper (x : Z) : Z :=
  let z := Z.lxor x (Z.shiftr x 11) in
  let z := Z.lxor z (Z.land (u32 (Z.shiftl z 7)) 2636928640) in
  let z := Z.lxor z (Z.land (u32 (Z.shiftl z 15)) 4022730752) in
  Z.lxor z (Z.shiftr z 18).

(** [operator()]: the result and the new state. *)
Definition mt_next (x : mt19937) : Z * mt19937 :=
  let w := mt_word x in (mt_temper w, tail x ++ [w]).

(** ** [std::seed_seq] *)

Definition seed_mix (x : Z) : Z := Z.lxor x (Z.shiftr x 27).

(** [begin[i mod n]], and its assignment. *)
Definition seed_at (b : list Z) (i : nat) : Z := nth (i mod length b) b 0.
Definition seed_set (b : list Z) (i : nat) (v : Z) : list Z := <[(i mod length b)%nat := v]> b.

(** One turn of the first loop of [generate], over the values [v] of the sequence;
    [k - 1] is taken modulo [n]. *)
Definition seed_add (v : list Z) (p q k : nat) (b : list Z) : list Z :=
  let n := length b in
  let r1 := u32 (1664525 * seed_mix (Z.lxor (Z.lxor (seed_at b k) (seed_at b (k + p))) (seed_at b (k + n - 1)))) in
  let r2 := u32 (r1 + (if (k =? 0)%nat then Z.of_nat (length v)
                       else if (k <=? length v)%nat then Z.of_nat (k mod n) + nth (k - 1) v 0
                       else Z.of_nat (k mod n))) in
  let b := seed_set b (k + p) (u32 (seed_at b (k + p) + r1)) in
  let b := seed_set b (k + q) (u32 (seed_at b (k + q) + r2)) in
  seed_set b k r2.

(** One turn of the second loop. *)
Definition seed_xor (p q k : nat) (b : list Z) : list Z :=
  let n := length b in
  let r3 := u32 (1566083941 * seed_mix (u32 (seed_at b k + seed_at b (k + p) + seed_at b (k + n - 1)))) in
  let r4 := u32 (r3 - Z.of_nat (k mod n)) in
  let b := seed_set b (k + p) (Z.lxor (seed_at b (k + p)) r3) in
  let b := seed_set b (k + q) (Z.lxor (seed_at b (k + q)) r4) in
  seed_set b k r4.

Definition seed_generate (v : list Z) (n : nat) : list Z :=
  let t := if (623 <=? n)%nat then 11%nat else if (68 <=? n)%nat then 7%nat else
           if (39 <=? n)%nat then 5%nat else if (7 <=? n)%nat then 3%nat else ((n - 1) / 2)%nat in
  let p := ((n - t) / 2)%nat in
  let q := (p + t)%nat in
  let m := Nat.max (length v + 1) n in
  let b := fold_left (fun b k => seed_add v p q k b) (seq 0 m) (repeat 2341178251 n) in
  fold_left (fun b k => seed_xor p q k b) (seq m n) b.

(** The engine seeded with a sequence: a state whose significant bits are all zero is
    replaced. *)
Definition mt_degenerate (x : list Z) : bool :=
  (Z.land (nth 0 x 0) 2147483648 =? 0) && forallb (fun w => w =? 0) (tail x).

Definition construct_mt19937 (v : list Z) : mt19937 :=
  let x := seed_generate v state_size in
  if mt_degenerate x then 2147483648 :: tail x else x.

(** ** [get_random_generator] *)

(** [rd i] is what the call number [i] of the random device returns, an [unsigned int]. *)
Definition get_random_generator (rd : nat -> Z) : mt19937 :=
  let seed_data := map (fun i => u32 (rd i)) (seq 0 state_size) in
  construct_mt19937 seed_data.

(** ** Words of 32 bits *)

Lemma u32_testbit z i : Z.testbit (u32 z) i = (i <? 32) && Z.testbit z i.
Proof.
  unfold u32. change 4294967296 with (2 ^ 32). destruct (Z.ltb_spec i 32).
  - destruct (Z.le_gt_cases 0 i); [by rewrite Z.mod_pow2_bits_low|by rewrite !Z.testbit_neg_r by lia].
  - by rewrite Z.mod_pow2_bits_high by lia.
Qed.

Lemma u32_lxor a b : u32 (Z.lxor a b) = Z.lxor (u32 a) (u32 b).
Proof. apply Z.bits_inj'. intros i Hi. rewrite Z.lxor_spec, !u32_testbit, Z.lxor_spec. by destruct (i <? 32). Qed.

Lemma is_u32_lxor a b : is_u32 a -> is_u32 b -> is_u32 (Z.lxor a b).
Proof. intros Ha Hb. rewrite <- (u32_small a Ha), <- (u32_small b Hb), <- u32_lxor. apply u32_range. Qed.

Lemma is_u32_land a b : 0 <= a -> is_u32 b -> is_u32 (Z.land a b).
Proof.
  intros Ha Hb. rewrite <- (u32_small b Hb). assert (Z.land a (u32 b) = u32 (Z.land a b)) as ->; [|apply u32_range].
  apply Z.bits_inj'. intros i Hi. rewrite Z.land_spec, !u32_testbit, Z.land_spec. destruct (i <? 32); [done|by rewrite !andb_false_r].
Qed.

Lemma is_u32_shiftr a n : is_u32 a -> 0 <= n -> is_u32 (Z.shiftr a n).
Proof.
  intros [Ha Hlt] Hn. rewrite Z.shiftr_div_pow2 by done. split; [apply Z.div_pos; lia|].
  apply Z.div_lt_upper_bound; [lia|]. assert (1 <= 2 ^ n) by lia. nia.
Qed.

Lemma is_u32_nth l i : Forall is_u32 l -> is_u32 (nth i l 0).
Proof.
  intros H. destruct (nth_in_or_default i l 0) as [Hin| ->]; [|unfold is_u32; lia].
  rewrite Forall_forall in H. apply H. by apply list_elem_of_In.
Qed.

Lemma mt_temper_range x : is_u32 x -> is_u32 (mt_temper x).
Proof.
  intros Hx. unfold mt_temper. cbv zeta. repeat first [apply is_u32_lxor | apply is_u32_shiftr | done | lia];
    (apply is_u32_land; [apply u32_range|unfold is_u32; lia]).
Qed.

Lemma is_u32_lor a b : is_u32 a -> is_u32 b -> is_u32 (Z.lor a b).
Proof.
  intros Ha Hb. rewrite <- (u32_small a Ha), <- (u32_small b Hb). assert (Z.lor (u32 a) (u32 b) = u32 (Z.lor a b)) as ->; [|apply u32_range].
  apply Z.bits_inj'. intros i Hi. rewrite Z.lor_spec, !u32_testbit, Z.lor_spec. by destruct (i <? 32).
Qed.

Lemma mt_join_range x0 x1 : is_u32 x0 -> is_u32 x1 -> is_u32 (mt_join x0 x1).
Proof. intros [H0 _] [H1 _]. apply is_u32_lor; (apply is_u32_land; [done|unfold is_u32; lia]). Qed.

Lemma mt_word_range x : Forall is_u32 x -> is_u32 (mt_word x).
Proof.
  intros Hx. unfold mt_word, mt_twist. apply is_u32_lxor; [by apply is_u32_nth|].
  apply is_u32_lxor; [apply is_u32_shiftr; [|lia]; apply mt_join_range; by apply is_u32_nth|]. destruct (Z.odd _); unfold is_u32; lia.
Qed.

(** ** Seeding *)

Lemma seed_set_ok b i v : Forall is_u32 b -> is_u32 v -> Forall is_u32 (seed_set b i v) /\ length (seed_set b i v) = length b.
Proof. intros Hb Hv. unfold seed_set. split; [by apply Forall_insert|apply length_insert]. Qed.

Lemma seed_at_ok b i : Forall is_u32 b -> is_u32 (seed_at b i).
Proof. apply is_u32_nth. Qed.

(** Three assignments. *)
Lemma seed_sets_ok b i1 i2 i3 v1 v2 v3 : Forall is_u32 b -> is_u32 v1 -> (forall b, Forall is_u32 b -> is_u32 (v2 b)) -> is_u32 v3 ->
  let b1 := seed_set b i1 v1 in let b2 := seed_set b1 i2 (v2 b1) in
  Forall is_u32 (seed_set b2 i3 v3) /\ length (seed_set b2 i3 v3) = length b.
Proof.
  intros Hb H1 H2 H3. destruct (seed_set_ok b i1 v1 Hb H1) as [Hb1 E1]. destruct (seed_set_ok _ i2 _ Hb1 (H2 _ Hb1)) as [Hb2 E2].
  destruct (seed_set_ok _ i3 v3 Hb2 H3) as [Hb3 E3]. split; [done|]. cbv zeta. congruence.
Qed.

Lemma seed_add_ok v p q k b : Forall is_u32 b -> Forall is_u32 (seed_add v p q k b) /\ length (seed_add v p q k b) = length b.
Proof.
  intros Hb. unfold seed_add. cbv zeta. match goal with |- context [seed_set _ k (u32 ?z)] => set (r2 := u32 z) end.
  apply (seed_sets_ok b _ _ _ _ (fun b => u32 (seed_at b (k + q) + r2)) r2); try done; [apply u32_range|intros; apply u32_range|apply u32_range].
Qed.

Lemma seed_xor_ok p q k b : Forall is_u32 b -> Forall is_u32 (seed_xor p q k b) /\ length (seed_xor p q k b) = length b.
Proof.
  intros Hb. unfold seed_xor. cbv zeta. match goal with |- context [seed_set _ k (u32 ?z)] => set (r4 := u32 z) end.
  apply (seed_sets_ok b _ _ _ _ (fun b => Z.lxor (seed_at b (k + q)) r4) r4); try done; [|intros b' Hb'|apply u32_range];
    (apply is_u32_lxor; [by apply seed_at_ok|apply u32_range]).
Qed.

Lemma fold_words_ok (f : list Z -> nat -> list Z) ks b : (forall b k, Forall is_u32 b -> Forall is_u32 (f b k) /\ length (f b k) = length b) ->
  Forall is_u32 b -> Forall is_u32 (fold_left f ks b) /\ length (fold_left f ks b) = length b.
Proof.
  intros Hf. revert b. induction ks as [|k ks IH]; intros b Hb; [done|]. simpl. destruct (Hf b k Hb) as [Hb1 E].
  destruct (IH _ Hb1) as [? ->]. done.
Qed.

Lemma seed_loops_ok v p q m n :
  let b := fold_left (fun b k => seed_xor p q k b) (seq m n)
             (fold_left (fun b k => seed_add v p q k b) (seq 0 m) (repeat 2341178251 n)) in
  Forall is_u32 b /\ length b = n.
Proof.
  destruct (fold_words_ok (fun b k => seed_add v p q k b) (seq 0 m) (repeat 2341178251 n)) as [Hb E].
  { intros b k. apply seed_add_ok. } { apply Forall_forall. intros x Hx%list_elem_of_In%repeat_spec. subst x. unfold is_u32. lia. }
  destruct (fold_words_ok (fun b k => seed_xor p q k b) (seq m n) _ (fun b k => seed_xor_ok p q k b) Hb) as [Hb' E'].
  split; [done|]. by rewrite E', E, repeat_length.
Qed.

Lemma seed_generate_ok v n : Forall is_u32 (seed_generate v n) /\ length (seed_generate v n) = n.
Proof. apply seed_loops_ok. Qed.

(** ** The generator *)

(** A state of the engine that is not stuck at zero. *)
Record mt_ok (x : mt19937) : Prop := {
  mt_length : length x = state_size;
  mt_words : Forall is_u32 x;
  mt_moves : mt_degenerate x = false
}.

Lemma get_random_generator_ok rd : mt_ok (get_random_generator rd).
Proof.
  unfold get_random_generator, construct_mt19937. set (v := map _ _). clearbody v. destruct (seed_generate_ok v state_size) as [Hw El].
  set (x := seed_generate v state_size) in *. clearbody x. destruct (mt_degenerate x) eqn:E; [|by constructor].
  destruct x as [|w x]; [done|]. apply Forall_cons in Hw as [_ Hw]. constructor; cbn [tail]; [done| |done].
  apply Forall_cons. split; [unfold is_u32; lia|done].
Qed.

Lemma mt_twist_0 y : is_u32 y -> mt_twist y = 0 -> y = 0.
Proof.
  unfold mt_twist. intros [Hy Hlt] E. apply Z.lxor_eq in E. rewrite Z.shiftr_div_pow2 in E by lia. change (2 ^ 1) with 2 in E.
  destruct (Z.odd y) eqn:Eo; [lia|]. pose proof (Zodd_even_bool y) as Ee. rewrite Eo in Ee. symmetry in Ee. apply negb_false_iff, Z.even_spec in Ee as [k ->]. lia.
Qed.

Lemma land_parts_0 x : is_u32 x -> Z.land x 2147483648 = 0 -> Z.land x 2147483647 = 0 -> x = 0.
Proof.
  intros Hx Hu Hl. rewrite <- (u32_small x Hx). unfold u32. change 4294967296 with (2 ^ 32). rewrite <- Z.land_ones by lia.
  change (Z.ones 32) with (Z.lor 2147483648 2147483647). by rewrite Z.land_lor_distr_r, Hu, Hl.
Qed.

Lemma forallb_nth (l : list Z) i : forallb (fun w => w =? 0) l = true -> nth i l 0 = 0.
Proof.
  intros H. rewrite forallb_forall in H. destruct (nth_in_or_default i l 0) as [Hin| ->]; [|done]. by apply Z.eqb_eq, H.
Qed.

(** The transition does not lead to the stuck state. *)
Lemma mt_next_moves x : mt_ok x -> mt_degenerate (tail x ++ [mt_word x]) = false.
Proof.
  intros [El Hw Hd]. apply not_true_iff_false. intros Hn. apply not_true_iff_false in Hd. apply Hd. clear Hd.
  destruct x as [|x0 [|x1 x]]; [done|done|]. unfold mt_degenerate, mt_word in *. cbn [tail app nth] in *.
  apply andb_true_iff in Hn as [Hu%Z.eqb_eq Hz]. rewrite forallb_app in Hz. apply andb_true_iff in Hz as [Hz Hl].
  cbn [forallb] in Hl. rewrite andb_true_r in Hl. apply Z.eqb_eq in Hl.
  change (Z.lxor (nth 395 x 0) (mt_twist (mt_join x0 x1)) = 0) in Hl. rewrite forallb_nth, Z.lxor_0_l in Hl by done.
  apply Forall_cons in Hw as [H0 [H1 _]%Forall_cons]. apply mt_twist_0 in Hl; [|by apply mt_join_range].
  apply Z.lor_eq_0_iff in Hl as [Hl0 Hl1]. rewrite Hl0, (land_parts_0 x1 H1 Hu Hl1). cbn [forallb]. by rewrite Hz.
Qed.

Lemma mt_next_ok x : mt_ok x -> mt_ok (snd (mt_next x)) /\ is_u32 (fst (mt_next x)).
Proof.
  intros Hx. pose proof (mt_next_moves x Hx) as Hm. destruct Hx as [El Hw Hd]. pose proof (mt_word_range x Hw) as Hr.
  split; [|by apply mt_temper_range]. constructor; cbn [mt_next snd]; [| |done].
  - rewrite length_app. destruct x; [done|]. simpl in *. lia.
  - apply Forall_app. split; [|by apply Forall_singleton]. destruct x; [done|]. by apply Forall_cons in Hw as [_ Hw].
Qed.

(** ** Properties *)

(** Whatever the random device returns, the generator is never stuck: at every draw its
    state is one from which the sequence goes on, and the number drawn is of 32 bits. *)
Lemma random_generator_never_stuck rd n :
  let x := Nat.iter n (fun x => snd (mt_next x)) (get_random_generator rd) in
  mt_degenerate x = false /\ is_u32 (fst (mt_next x)).
Proof.
  assert (mt_ok (Nat.iter n (fun x => snd (mt_next x)) (get_random_generator rd))) as H.
  { induction n as [|n IH]; [apply get_random_generator_ok|by apply mt_next_ok]. }
  split; [apply H|by apply mt_next_ok].
Qed.

(** The words of [seed_seq{1, 2, 3}], and the first draws of an engine with the default
    seed, as the GNU library gives them. *)
Example seed_seq_words : seed_generate [1; 2; 3] 8 =
  [3275708407; 3360503653; 2494732693; 2179803546; 3073202457; 3129723206; 1631503729; 3486643711].
Proof. vm_compute. reflexivity. Qed.

Fixpoint mt_default (n : nat) (i w : Z) : mt19937 :=
  match n with
  | O => []
  | S n => w :: mt_default n (i + 1) (u32 (1812433253 * Z.lxor w (Z.shiftr w 30) + (i + 1)))
  end.

Fixpoint mt_draws (n : nat) (x : mt19937) : list Z :=
  match n with
  | O => []
  | S n => let '(z, x) := mt_next x in z :: mt_draws n x
  end.

Example mt19937_draws : mt_draws 4 (mt_default state_size 0 5489) = [3499211612; 581869302; 3890346734; 3586334585].
Proof. vm_compute. reflexivity. Qed.
