(* ===== verification/Adapters.v ===== *)
(** * Adapters: TCP segments in datagrams

    Models [FdAdapterConfig] of [tcp_config.hh], [fd_adapter.hh], [fd_adapter.cc],
    [tcp_over_ip.hh], [tcp_over_ip.cc], the TUN adapter of [tuntap_adapter.hh] and
    [lossy_fd_adapter.hh].  Reading and writing the device is what the
    environment does: a [read] takes the bytes (and the source address) the device
    returned, a [write] gives the bytes handed to it. *)

From Stdlib Require Import Strings.String.
From S2P Require Import Prelude WrappingIntegers Parser Checksum TCPSegment Wire IPv4.

(** ** Addresses

    [Address] wraps a [sockaddr] filled in by the C library.  The adapters use its
    numeric IPv4 address, its port, its comparison, and the construction from a
    dotted quad printed by [inet_ntoa] and a port; file [Address] models the class and
    proves the laws. *)
Class AddressOps (A : Type) : Type := {
  ipv4_numeric : A -> Z;
  port : A -> Z;
  address_neqb : A -> A -> bool;
  from_quad : Z -> Z -> A;
  ipv4_numeric_range a : is_u32 (ipv4_numeric a);
  port_range a : is_u16 (port a);
  address_neqb_spec a b : address_neqb a b = false <-> a = b;
  ipv4_numeric_quad n p : is_u32 n -> ipv4_numeric (from_quad n p) = n;
  port_quad n p : is_u16 p -> port (from_quad n p) = p
}.

(** ** FdAdapterBase *)

Record FdAdapterConfig (A : Type) : Type := mkFdAdapterConfig {
  source : A;
  destination : A;
  loss_rate_dn : Z;
  loss_rate_up : Z
}.
Arguments mkFdAdapterConfig {A}.
Arguments source {A}.
Arguments destination {A}.
Arguments loss_rate_dn {A}.
Arguments loss_rate_up {A}.

Record FdAdapterBase (A : Type) : Type := mkFdAdapterBase {
  _cfg : FdAdapterConfig A;
  _listen : bool
}.
Arguments mkFdAdapterBase {A}.
Arguments _cfg {A}.
Arguments _listen {A}.

Section adapters.
Context {A : Type} `{AddressOps A}.

Definition config (a : FdAdapterBase A) : FdAdapterConfig A := _cfg a.
Definition listening (a : FdAdapterBase A) : bool := _listen a.
Definition set_listening (a : FdAdapterBase A) (l : bool) : FdAdapterBase A := mkFdAdapterBase (_cfg a) l.

Definition with_destination (c : FdAdapterConfig A) (d : A) : FdAdapterConfig A :=
  mkFdAdapterConfig (source c) d (loss_rate_dn c) (loss_rate_up c).
Definition with_source (c : FdAdapterConfig A) (s : A) : FdAdapterConfig A :=
  mkFdAdapterConfig s (destination c) (loss_rate_dn c) (loss_rate_up c).

(** ** TCPOverIPv4Adapter *)

Definition unwrap_tcp_in_ip (a : FdAdapterBase A) (ip_dgram : IPv4Datagram)
    : result (option TCPSegment * FdAdapterBase A) :=
  let h := dgram_header ip_dgram in
  if negb (listening a) && negb (dst h =? ipv4_numeric (source (config a))) then Ok (None, a) else
  if negb (listening a) && negb (src h =? ipv4_numeric (destination (config a))) then Ok (None, a) else
  if negb (proto h =? PROTO_TCP) then Ok (None, a) else
  let! payload := bufferlist_to_buffer (dgram_payload ip_dgram) in
  let! (res, tcp_seg) := segment_parse default_segment payload (pseudo_cksum h) in
  if negb (bool_decide (res = NoError)) then Ok (None, a) else
  if negb (dport (_header tcp_seg) =? port (source (config a))) then Ok (None, a) else
  if listening a && negb (syn (_header tcp_seg) && negb (rst (_header tcp_seg))) then Ok (None, a) else
  let a :=
    if listening a then
      let c := with_source (config a) (from_quad (dst h) (port (source (config a)))) in
      let c := with_destination c (from_quad (src h) (sport (_header tcp_seg))) in
      mkFdAdapterBase c false
    else a in
  if negb (sport (_header tcp_seg) =? port (destination (config a))) then Ok (None, a) else
  Ok (Some tcp_seg, a).

(** The result is the segment with its ports set (it is passed by reference) and
    the datagram. *)
Definition wrap_tcp_in_ip (a : FdAdapterBase A) (seg : TCPSegment) : result (TCPSegment * IPv4Datagram) :=
  let seg := mkTCPSegment (with_ports (_header seg) (port (source (config a)))
                             (port (destination (config a)))) (_payload seg) in
  let h := default_ipv4_header in
  let h := mkIPv4Header (ver h) (hlen h) (tos h)
             (u16 (hlen h * 4 + doff (_header seg) * 4 + buffer_size (_payload seg))) (id h) (df h) (mf h)
             (offset h) (ttl h) (proto h) (IPv4.cksum h) (ipv4_numeric (source (config a)))
             (ipv4_numeric (destination (config a))) in
  let! payload := segment_serialize seg (pseudo_cksum h) in
  Ok (seg, mkIPv4Datagram h payload).

(** ** TCPOverIPv4OverTunFdAdapter *)

Definition tun_read (a : FdAdapterBase A) (device : bytes) : result (option TCPSegment * FdAdapterBase A) :=
  let! (res, ip_dgram) := datagram_parse default_datagram (buffer_of device) in
  if negb (bool_decide (res = NoError)) then Ok (None, a) else unwrap_tcp_in_ip a ip_dgram.

Definition tun_write (a : FdAdapterBase A) (seg : TCPSegment) : result (TCPSegment * bytes) :=
  let! (seg, ip_dgram) := wrap_tcp_in_ip a seg in
  let! l := datagram_serialize ip_dgram in
  Ok (seg, concatenate l).

(** ** TCPOverUDPSocketAdapter *)

Definition udp_read (a : FdAdapterBase A) (source_address : A) (payload : bytes)
    : result (option TCPSegment * FdAdapterBase A) :=
  if negb (listening a) && address_neqb source_address (destination (config a)) then Ok (None, a) else
  let! (res, seg) := segment_parse default_segment (buffer_of payload) 0 in
  if negb (bool_decide (res = NoError)) then Ok (None, a) else
  if listening a then
    if syn (_header seg) && negb (rst (_header seg))
    then Ok (Some seg, mkFdAdapterBase (with_destination (config a) source_address) false)
    else Ok (None, a)
  else Ok (Some seg, a).

(** The datagram sent: its destination and its payload. *)
Definition udp_write (a : FdAdapterBase A) (seg : TCPSegment) : result (TCPSegment * (A * bytes)) :=
  let seg := mkTCPSegment (with_ports (_header seg) (port (source (config a)))
                             (port (destination (config a)))) (_payload seg) in
  let! l := segment_serialize seg 0 in
  Ok (seg, (destination (config a), concatenate l)).
End adapters.

(** ** A segment across the network *)

Section delivery.
Context {A : Type} `{AddressOps A}.

(** The IPv4 header [wrap_tcp_in_ip] makes for a segment. *)
Definition wrapped_header (a : FdAdapterBase A) (seg : TCPSegment) : IPv4Header :=
  mkIPv4Header 4 5 0 (20 + 4 * doff (_header seg) + size (str (_payload seg))) 0 true false 0 128 6 0
    (ipv4_numeric (source (config a))) (ipv4_numeric (destination (config a))).

Definition addressed (a : FdAdapterBase A) (seg : TCPSegment) : TCPSegment :=
  mkTCPSegment (with_ports (_header seg) (port (source (config a))) (port (destination (config a)))) (_payload seg).

Definition fits (seg : TCPSegment) : Prop :=
  header_ok (_header seg) /\ 20 + 4 * doff (_header seg) + size (str (_payload seg)) < 65536.

Lemma wrapped_header_ok a seg : fits seg -> ipv4_ok (wrapped_header a seg).
Proof.
  intros [[_ _ _ _ Hd _ _ _] Hs]. pose proof (size_nonneg (str (_payload seg))).
  constructor; simpl; try done; unfold is_u8, is_u16; try lia; apply ipv4_numeric_range.
Qed.

Lemma addressed_ok a seg : header_ok (_header seg) -> header_ok (_header (addressed a seg)).
Proof. intros []. constructor; try done; apply port_range. Qed.

(** The bytes [tun_write] hands to the device, and what parsing them gives. *)
Lemma tun_write_spec a seg : fits seg ->
  exists wire d' b c, tun_write a seg = Ok (addressed a seg, wire) /\
    size wire = 20 + 4 * doff (_header seg) + size (str (_payload seg)) /\
    datagram_parse default_datagram (buffer_of wire) = Ok (NoError, d') /\
    dgram_header d' = ip_with_cksum (wrapped_header a seg) c /\
    dgram_payload d' = [b] /\ exists seg', segment_parse default_segment b (pseudo_cksum (dgram_header d'))
      = Ok (NoError, seg') /\ (exists c', _header seg' = with_cksum (_header (addressed a seg)) c') /\
      str (_payload seg') = str (_payload seg).
Proof.
  intros Hfit. pose proof Hfit as [Hok Hsz]. pose proof (wrapped_header_ok a seg Hfit) as Hip.
  pose proof (addressed_ok a seg Hok) as Hok'. pose proof (pseudo_cksum_bound _ Hip) as Hck.
  pose proof (ok_doff _ Hok) as Hd. pose proof (size_nonneg (str (_payload seg))) as Hnn.
  destruct (segment_serialize_spec (addressed a seg) (pseudo_cksum (wrapped_header a seg)) Hok')
    as (c1 & Hc1 & Hser & Hv); [lia|simpl; lia|].
  set (h := _header (addressed a seg)) in *. change (_payload (addressed a seg)) with (_payload seg) in *.
  set (pay := [buffer_of (header_front h ++ unparse_bytes 2 c1 ++ header_back h); _payload seg]) in *.
  assert (concatenate pay = header_front h ++ unparse_bytes 2 c1 ++ header_back h ++ str (_payload seg)) as Hcat.
  { unfold pay, concatenate. cbn [map concat]. rewrite app_nil_r.
    change (str (buffer_of ?x)) with x. by rewrite <- !app_assoc. }
  assert (size (concatenate pay) = 4 * doff (_header seg) + size (str (_payload seg))) as Hps.
  { rewrite Hcat, !size_app, size_header_front, size_unparse, size_header_back by (simpl; lia). simpl doff. lia. }
  destruct (datagram_wire (mkIPv4Datagram (wrapped_header a seg) pay) Hip)
    as (l & c & d' & p & Hs & Hls & Hp & _ & Hh & _ & Hpay & b & Hb & Hbok); [cbn [dgram_header dgram_payload wrapped_header len hlen]; lia|].
  cbn [dgram_header dgram_payload] in Hh, Hpay. exists (concatenate l), d', b, c. split_and!; try done.
  - unfold tun_write, wrap_tcp_in_ip. fold (addressed a seg).
    assert (mkIPv4Header (ver default_ipv4_header) (hlen default_ipv4_header) (tos default_ipv4_header)
      (u16 (hlen default_ipv4_header * 4 + doff (_header (addressed a seg)) * 4 +
        buffer_size (_payload (addressed a seg)))) (id default_ipv4_header) (df default_ipv4_header)
      (mf default_ipv4_header) (offset default_ipv4_header) (ttl default_ipv4_header)
      (proto default_ipv4_header) (IPv4.cksum default_ipv4_header) (ipv4_numeric (source (config a)))
      (ipv4_numeric (destination (config a))) = wrapped_header a seg) as ->.
    { unfold wrapped_header. f_equal. change (hlen default_ipv4_header) with 5.
      change (doff (_header (addressed a seg))) with (doff (_header seg)).
      change (buffer_size (_payload (addressed a seg))) with (size (str (_payload seg))).
      rewrite u16_small; [lia|]. unfold is_u16. lia. }
    rewrite Hser. cbn [rbind]. by rewrite Hs.
  - assert (str b = concatenate pay) as Hstr by (rewrite <- Hpay, Hb; unfold concatenate; simpl; by rewrite app_nil_r).
    rewrite Hh. change (pseudo_cksum (ip_with_cksum (wrapped_header a seg) c)) with (pseudo_cksum (wrapped_header a seg)).
    destruct (segment_parse_spec default_segment h (str (_payload seg)) c1
      (pseudo_cksum (wrapped_header a seg)) b) as (seg' & Hsp & Hh' & Hpl); try done.
    + by rewrite Hstr.
    + by rewrite Hstr, Hcat.
    + exists seg'. split_and!; try done. by exists c1.
Qed.

(** Two adapters configured for each other. *)
Record mirrored (a b : FdAdapterBase A) : Prop := {
  mi_src : ipv4_numeric (source (config b)) = ipv4_numeric (destination (config a));
  mi_dst : ipv4_numeric (destination (config b)) = ipv4_numeric (source (config a));
  mi_sport : port (source (config b)) = port (destination (config a));
  mi_dport : port (destination (config b)) = port (source (config a))
}.

Lemma tun_read_mirrored a b seg : fits seg -> listening b = false -> mirrored a b ->
  exists wire seg', tun_write a seg = Ok (addressed a seg, wire) /\ tun_read b wire = Ok (Some seg', b) /\
    (exists c, _header seg' = with_cksum (_header (addressed a seg)) c) /\
    str (_payload seg') = str (_payload seg).
Proof.
  intros Hfit Hl [E1 E2 E3 E4].
  destruct (tun_write_spec a seg Hfit) as (wire & d' & buf & c & Hw & _ & Hp & Hh & Hb & seg' & Hs & [c' Hc'] & Hpay).
  exists wire, seg'. split; [done|]. split; [|split; [by exists c'|done]].
  unfold tun_read. rewrite Hp. cbn [rbind]. rewrite bool_decide_true by done. cbn [negb].
  unfold unwrap_tcp_in_ip. rewrite Hb, Hl. rewrite Hh in *. cbn [dst src proto ip_with_cksum wrapped_header negb andb].
  rewrite E1, E2, !Z.eqb_refl. cbn [negb]. change (6 =? PROTO_TCP) with true. cbn [negb bufferlist_to_buffer rbind].
  rewrite Hs. cbn [rbind]. rewrite bool_decide_true by done. cbn [negb].
  rewrite Hc'. cbn [dport sport with_cksum _header addressed with_ports]. by rewrite E3, E4, !Z.eqb_refl.
Qed.

Lemma tun_read_listening a b seg : fits seg -> listening b = true ->
  port (source (config b)) = port (destination (config a)) ->
  syn (_header seg) = true -> rst (_header seg) = false ->
  exists wire seg' b', tun_write a seg = Ok (addressed a seg, wire) /\ tun_read b wire = Ok (Some seg', b') /\
    listening b' = false /\ mirrored a b' /\
    (exists c, _header seg' = with_cksum (_header (addressed a seg)) c) /\
    str (_payload seg') = str (_payload seg).
Proof.
  intros Hfit Hl Hport Hsyn Hrst.
  destruct (tun_write_spec a seg Hfit) as (wire & d' & buf & c & Hw & _ & Hp & Hh & Hb & seg' & Hs & [c' Hc'] & Hpay).
  pose proof (port_range (source (config a))) as Hps. pose proof (port_range (source (config b))) as Hpb.
  pose proof (ipv4_numeric_range (source (config a))) as Hns.
  pose proof (ipv4_numeric_range (destination (config a))) as Hnd.
  eexists wire, seg', _. split; [done|]. split; [|split; [|split; [|split; [by exists c'|done]]]].
  - unfold tun_read. rewrite Hp. cbn [rbind]. rewrite bool_decide_true by done. cbn [negb].
    unfold unwrap_tcp_in_ip. rewrite Hb, Hl. rewrite Hh in *. cbn [dst src proto ip_with_cksum wrapped_header negb andb].
    change (6 =? PROTO_TCP) with true. cbn [negb bufferlist_to_buffer rbind].
    rewrite Hs. cbn [rbind]. rewrite bool_decide_true by done. cbn [negb].
    rewrite Hc'. cbn [dport sport syn rst with_cksum _header addressed with_ports].
    rewrite Hport, Z.eqb_refl, Hsyn, Hrst. cbn [negb andb config _cfg with_destination with_source destination source].
    rewrite port_quad, Z.eqb_refl by done. reflexivity.
  - done.
  - constructor; cbn [config _cfg with_destination with_source destination source];
      rewrite ?ipv4_numeric_quad, ?port_quad by (done || rewrite <- Hport; done); done.
Qed.

(** What the filter of [unwrap_tcp_in_ip] lets through, and that it changes nothing
    when it lets nothing through. *)
Record filtered (a a' : FdAdapterBase A) (h : IPv4Header) (seg : TCPSegment) : Prop := {
  fl_listening : listening a' = false;
  fl_proto : proto h = PROTO_TCP;
  fl_dst : dst h = ipv4_numeric (source (config a'));
  fl_src : src h = ipv4_numeric (destination (config a'));
  fl_dport : dport (_header seg) = port (source (config a'));
  fl_sport : sport (_header seg) = port (destination (config a'));
  fl_same : listening a = false -> a' = a;
  fl_syn : listening a = true -> syn (_header seg) = true /\ rst (_header seg) = false /\
    dport (_header seg) = port (source (config a)) /\
    config a' = mkFdAdapterConfig (from_quad (dst h) (port (source (config a))))
      (from_quad (src h) (sport (_header seg))) (loss_rate_dn (config a)) (loss_rate_up (config a))
}.

Lemma unwrap_filter a d res a' : unwrap_tcp_in_ip a d = Ok (res, a') ->
  is_u32 (dst (dgram_header d)) -> is_u32 (src (dgram_header d)) ->
  match res with Some seg => filtered a a' (dgram_header d) seg | None => a' = a end.
Proof.
  unfold unwrap_tcp_in_ip. intros Hu Hd Hs. pose proof (port_range (source (config a))) as Hpr.
  destruct (negb (listening a) && negb (dst _ =? _)) eqn:Edst; [by cbn [negb] in Hu; simplify_eq|].
  destruct (negb (listening a) && negb (src _ =? _)) eqn:Esrc; [by cbn [negb] in Hu; simplify_eq|].
  destruct (Z.eqb_spec (proto (dgram_header d)) PROTO_TCP); [|by cbn [negb] in Hu; simplify_eq]. cbn [negb] in Hu.
  apply rbind_ok_inv in Hu as (b & _ & Hu). apply rbind_ok_inv in Hu as ([r t] & Hp & Hu).
  destruct (bool_decide_reflect (r = NoError)) as [->|]; [|by cbn [negb] in Hu; simplify_eq]. cbn [negb] in Hu.
  apply segment_parse_sport in Hp.
  destruct (Z.eqb_spec (dport (_header t)) (port (source (config a)))) as [Edp|]; [|by cbn [negb] in Hu; simplify_eq].
  cbn [negb] in Hu. destruct (listening a) eqn:Hl; cbn [negb andb] in *.
  - destruct (syn (_header t)) eqn:Esyn, (rst (_header t)) eqn:Erst; cbn [negb andb] in Hu; try by cbn [negb] in Hu; simplify_eq.
    cbn [config _cfg with_destination with_source destination source] in Hu.
    rewrite port_quad, Z.eqb_refl in Hu by done. cbn [negb] in Hu. injection Hu as <- <-.
    constructor; cbn [config _cfg with_destination with_source destination source listening _listen]; try done;
      rewrite ?ipv4_numeric_quad, ?port_quad by done; done || congruence.
  - apply negb_false_iff, Z.eqb_eq in Edst, Esrc.
    destruct (Z.eqb_spec (sport (_header t)) (port (destination (config a)))); cbn [negb] in Hu; [|by cbn [negb] in Hu; simplify_eq].
    injection Hu as <- <-. constructor; try done; congruence.
Qed.
End delivery.

(** ** LossyFdAdapter

    The interface of the template parameter [AdapterT]: its state [T], what its
    device gives ([I]) and gets ([O]). *)
Class FdAdapter (T I O : Type) : Type := {
  ad_read : T -> I -> result (option TCPSegment * T);
  ad_write : T -> TCPSegment -> result (TCPSegment * O);
  ad_loss_dn : T -> Z;
  ad_loss_up : T -> Z
}.

#[export] Instance tun_adapter `{AddressOps A} : FdAdapter (FdAdapterBase A) bytes bytes := {
  ad_read := tun_read;
  ad_write := tun_write;
  ad_loss_dn a := loss_rate_dn (config a);
  ad_loss_up a := loss_rate_up (config a)
}.

#[export] Instance udp_adapter `{AddressOps A} : FdAdapter (FdAdapterBase A) (A * bytes) (A * bytes) := {
  ad_read a d := udp_read a (fst d) (snd d);
  ad_write := udp_write;
  ad_loss_dn a := loss_rate_dn (config a);
  ad_loss_up a := loss_rate_up (config a)
}.

(** The random generator is its state and its step. *)
Record LossyFdAdapter (R T : Type) : Type := mkLossy {
  _rand : R;
  _adapter : T
}.
Arguments mkLossy {R T}.
Arguments _rand {R T}.
Arguments _adapter {R T}.

Section lossy.
Context {R T I O : Type} `{FdAdapter T I O} (rng : R -> Z * R).

(** [loss != 0 && uint16_t(_rand()) < loss]: no number is drawn when the rate is 0. *)
Definition _should_drop (r : R) (ad : T) (uplink : bool) : bool * R :=
  let loss := if uplink then ad_loss_up ad else ad_loss_dn ad in
  if loss =? 0 then (false, r)
  else let '(x, r) := rng r in (u16 x <? loss, r).

Definition lossy_read (l : LossyFdAdapter R T) (i : I) : result (option TCPSegment * LossyFdAdapter R T) :=
  let! (ret, ad) := ad_read (_adapter l) i in
  let '(drop, r) := _should_drop (_rand l) ad false in
  Ok (if (drop : bool) then None else ret, mkLossy r ad).

Definition lossy_write (l : LossyFdAdapter R T) (seg : TCPSegment)
    : result (TCPSegment * option O * LossyFdAdapter R T) :=
  let '(drop, r) := _should_drop (_rand l) (_adapter l) true in
  if (drop : bool) then Ok (seg, None, mkLossy r (_adapter l))
  else let! (seg, o) := ad_write (_adapter l) seg in Ok (seg, Some o, mkLossy r (_adapter l)).

Lemma should_drop_0 r ad (up : bool) : (if up then ad_loss_up ad else ad_loss_dn ad) = 0 ->
  _should_drop r ad up = (false, r).
Proof. intros E. unfold _should_drop. by rewrite E. Qed.
End lossy.

(** ** Properties *)

(** C34: A segment crosses the network.  A segment that fits in a datagram, written
    to a TUN device by one adapter and read by the adapter configured for it, is
    returned with its ports set, its checksum filled in, every other field and the
    payload unchanged, and the reader's configuration unchanged. *)
Theorem tun_adapter_delivers `{AddressOps A} (a b : FdAdapterBase A) seg :
  fits seg -> listening b = false -> mirrored a b ->
  exists wire seg', tun_write a seg = Ok (addressed a seg, wire) /\ tun_read b wire = Ok (Some seg', b) /\
    (exists c, _header seg' = with_cksum (_header (addressed a seg)) c) /\
    str (_payload seg') = str (_payload seg).
Proof. apply tun_read_mirrored. Qed.

(** Listening.  A listening adapter that reads a SYN for its port, from
    anywhere, accepts it and is then configured for its sender, not listening any
    more: it is the mirror of the sender's adapter. *)
Theorem tun_adapter_listens `{AddressOps A} (a b : FdAdapterBase A) seg :
  fits seg -> listening b = true -> port (source (config b)) = port (destination (config a)) ->
  syn (_header seg) = true -> rst (_header seg) = false ->
  exists wire seg' b', tun_write a seg = Ok (addressed a seg, wire) /\ tun_read b wire = Ok (Some seg', b') /\
    listening b' = false /\ mirrored a b' /\ str (_payload seg') = str (_payload seg).
Proof.
  intros Hf Hl Hp Hs Hr. destruct (tun_read_listening a b seg Hf Hl Hp Hs Hr)
    as (wire & seg' & b' & ? & ? & ? & ? & _ & ?). by exists wire, seg', b'.
Qed.

(** C35: The filter.  Whatever datagram arrives: when [unwrap_tcp_in_ip] returns
    nothing, on whatever branch, the adapter is unchanged.  When it returns a segment,
    the segment came by TCP between the two addresses and ports of the adapter's
    configuration afterwards, and the adapter no longer listens; an adapter that was
    not listening is unchanged; one that was has received a SYN without RST for its
    port, and takes exactly the addresses and the port of the peer from it. *)
Theorem adapter_filters `{AddressOps A} (a a' : FdAdapterBase A) d res :
  unwrap_tcp_in_ip a d = Ok (res, a') ->
  is_u32 (dst (dgram_header d)) -> is_u32 (src (dgram_header d)) ->
  match res with
  | None => a' = a
  | Some seg =>
      listening a' = false /\ proto (dgram_header d) = PROTO_TCP /\
      dst (dgram_header d) = ipv4_numeric (source (config a')) /\
      src (dgram_header d) = ipv4_numeric (destination (config a')) /\
      dport (_header seg) = port (source (config a')) /\ sport (_header seg) = port (destination (config a')) /\
      (listening a = false -> a' = a) /\
      (listening a = true -> syn (_header seg) = true /\ rst (_header seg) = false /\
         dport (_header seg) = port (source (config a)) /\
         config a' = mkFdAdapterConfig (from_quad (dst (dgram_header d)) (port (source (config a))))
           (from_quad (src (dgram_header d)) (sport (_header seg)))
           (loss_rate_dn (config a)) (loss_rate_up (config a)))
  end.
Proof. intros Hu Hd Hs. pose proof (unwrap_filter a d res a' Hu Hd Hs) as H'. destruct res; [by destruct H'|done]. Qed.

(** Loss is all a lossy adapter adds.  For every adapter and every random
    generator: a read leaves the adapter in the state it has without loss and
    returns its segment or nothing; a write hands the device what the adapter
    writes or nothing; exceptions pass through; and with a loss rate of 0 nothing
    is dropped and no random number is drawn. *)
Theorem lossy_adapter_only_drops {R T I O : Type} `{FdAdapter T I O} (rng : R -> Z * R)
    (l : LossyFdAdapter R T) (i : I) (seg : TCPSegment) :
  match ad_read (_adapter l) i with
  | Throw e => lossy_read rng l i = Throw e
  | Ok (ret, ad) => exists ret' r, lossy_read rng l i = Ok (ret', mkLossy r ad) /\
      (ret' = ret \/ ret' = None) /\ (ad_loss_dn ad = 0 -> ret' = ret /\ r = _rand l)
  end /\
  match ad_write (_adapter l) seg with
  | Throw e => lossy_write rng l seg = Throw e \/ exists r, lossy_write rng l seg = Ok (seg, None, mkLossy r (_adapter l))
  | Ok (seg', o) => exists r, lossy_write rng l seg = Ok (seg', Some o, mkLossy r (_adapter l)) \/
      (ad_loss_up (_adapter l) <> 0 /\ lossy_write rng l seg = Ok (seg, None, mkLossy r (_adapter l)))
  end.
Proof.
  split.
  - unfold lossy_read. destruct (ad_read (_adapter l) i) as [[ret ad]|e]; [|done]. cbn [rbind].
    destruct (_should_drop rng (_rand l) ad false) as [b r] eqn:E. eexists _, r. split; [done|]. split.
    + destruct b; auto.
    + intros Hz. rewrite (should_drop_0 rng _ _ false) in E by done. by simplify_eq.
  - unfold lossy_write. destruct (_should_drop rng (_rand l) (_adapter l) true) as [b r] eqn:E.
    destruct (ad_write (_adapter l) seg) as [[seg' o]|e].
    + exists r. destruct b; [right|by left]. split; [|done]. intros Hz.
      rewrite (should_drop_0 rng _ _ true) in E by done. congruence.
    + destruct b; [right; by exists r|by left].
Qed.

(** ** Witnesses: addresses as pairs *)

#[export, refine] Instance pair_address : AddressOps (Z * Z) := {
  ipv4_numeric a := u32 (fst a);
  port a := u16 (snd a);
  address_neqb a b := negb (bool_decide (a = b));
  from_quad n p := (n, p)
}.
Proof.
  - intros. apply u32_range.
  - intros. apply u16_range.
  - intros. rewrite negb_false_iff. apply bool_decide_eq_true.
  - intros. by apply u32_small.
  - intros. by apply u16_small.
Defined.

Definition adapter_at (s d : Z * Z) (l : bool) : FdAdapterBase (Z * Z) :=
  mkFdAdapterBase (mkFdAdapterConfig s d 0 0) l.

Definition sample_syn : TCPSegment :=
  mkTCPSegment (with_seq default_header (mkWrappingInt32 77) true false) (buffer_of [x61]).

Lemma sample_syn_fits : fits sample_syn.
Proof. split; [|by vm_compute]. constructor; split; by vm_compute. Qed.

Lemma tun_adapter_delivers_witness :
  let a := adapter_at (167772161, 1000) (167772162, 80) false in
  let b := adapter_at (167772162, 80) (167772161, 1000) false in
  exists wire seg', tun_write a sample_syn = Ok (addressed a sample_syn, wire) /\
    tun_read b wire = Ok (Some seg', b) /\
    (exists c, _header seg' = with_cksum (_header (addressed a sample_syn)) c) /\
    str (_payload seg') = str (_payload sample_syn).
Proof.
  apply (tun_adapter_delivers (adapter_at (167772161, 1000) (167772162, 80) false)
    (adapter_at (167772162, 80) (167772161, 1000) false) sample_syn);
    [exact sample_syn_fits|reflexivity|constructor; reflexivity].
Defined.

Lemma tun_adapter_listens_witness :
  let a := adapter_at (167772161, 1000) (167772162, 80) false in
  let b := adapter_at (0, 80) (0, 0) true in
  exists wire seg' b', tun_write a sample_syn = Ok (addressed a sample_syn, wire) /\
    tun_read b wire = Ok (Some seg', b') /\
    listening b' = false /\ mirrored a b' /\ str (_payload seg') = str (_payload sample_syn).
Proof.
  apply (tun_adapter_listens (adapter_at (167772161, 1000) (167772162, 80) false)
    (adapter_at (0, 80) (0, 0) true) sample_syn); [exact sample_syn_fits|reflexivity..].
Defined.

Definition sample_wrapped : IPv4Datagram :=
  match tun_write (adapter_at (167772161, 1000) (167772162, 80) false) sample_syn with
  | Ok (_, wire) => match datagram_parse default_datagram (buffer_of wire) with
                    | Ok (_, d) => d
                    | Throw _ => default_datagram
                    end
  | Throw _ => default_datagram
  end.

Lemma adapter_filters_witness :
  (exists seg b', unwrap_tcp_in_ip (adapter_at (0, 80) (0, 0) true) sample_wrapped = Ok (Some seg, b') /\
    listening b' = false /\ sport (_header seg) = port (destination (config b'))) /\
  exists b', unwrap_tcp_in_ip (adapter_at (0, 81) (0, 0) true) sample_wrapped = Ok (None, b') /\
    b' = adapter_at (0, 81) (0, 0) true.
Proof.
  split.
  - eexists _, _. split; [vm_compute; reflexivity|].
    refine ((fun H => conj (proj1 H) (proj1 (proj2 (proj2 (proj2 (proj2 (proj2 H)))))))
      (adapter_filters (adapter_at (0, 80) (0, 0) true) _ sample_wrapped (Some _) _ _ _));
      [vm_compute; reflexivity|split; by vm_compute|split; by vm_compute].
  - eexists. split; [vm_compute; reflexivity|].
    refine (adapter_filters (adapter_at (0, 81) (0, 0) true) _ sample_wrapped None _ _ _);
      [vm_compute; reflexivity|split; by vm_compute|split; by vm_compute].
Defined.
