(* ===== verification/Address.v ===== *)
(** * Address: socket addresses

    Models [libsponge/util/address.hh] and [address.cc] on the memory layout of
    Linux: a [sockaddr_storage] is 128 bytes, of which a [sockaddr_in] uses 16 (the
    family in host order, little-endian; the port and the address in network
    order).  The resolver ([getaddrinfo], [getnameinfo], [inet_ntoa]) belongs to the
    C library: it is the parameter [Resolver], with the documented behaviour of its
    numeric modes.  On IPv4 addresses the class meets the interface [AddressOps]
    that the adapters rely on. *)

From Stdlib Require Import Strings.String Strings.Ascii.
From Stdlib Require DecimalString DecimalN.
From S2P Require Import Prelude WrappingIntegers Parser TCPSegment Adapters.

(** ** Decimal numbers: [std::to_string] and [std::stoi] *)

Definition to_string (n : Z) : string := DecimalString.NilZero.string_of_uint (N.to_uint (Z.to_N n)).

Definition digit (c : ascii) : option Z :=
  let n := Z.of_N (N_of_ascii c) in if (48 <=? n) && (n <=? 57) then Some (n - 48) else None.

(** The digits at the front of a string, after [acc]. *)
Fixpoint digits (acc : Z) (s : string) : Z :=
  match s with
  | String c s' => match digit c with Some d => digits (10 * acc + d) s' | None => acc end
  | EmptyString => acc
  end.

Definition isspace (c : ascii) : bool :=
  let n := Z.of_N (N_of_ascii c) in (n =? 32) || ((9 <=? n) && (n <=? 13)).

Fixpoint skip_spaces (s : string) : string :=
  match s with
  | String c s' => if isspace c then skip_spaces s' else s
  | EmptyString => s
  end.

Definition stoi (s : string) : result Z :=
  let '(neg, s) := match skip_spaces s with
                   | String "-"%char s' => (true, s')
                   | String "+"%char s' => (false, s')
                   | s => (false, s)
                   end in
  match s with
  | String c _ =>
      match digit c with
      | None => Throw InvalidArgument
      | Some _ =>
          let v := if (neg : bool) then - digits 0 s else digits 0 s in
          if (-2147483648 <=? v) && (v <=? 2147483647) then Ok v else Throw OutOfRange
      end
  | EmptyString => Throw InvalidArgument
  end.

Ltac eval_digit :=
  match goal with
  | |- context [digit ?c] => let v := eval vm_compute in (digit c) in change (digit c) with v; cbv iota beta
  end.

Lemma digits_uint u acc :
  digits (Z.pos acc) (DecimalString.NilEmpty.string_of_uint u) = Z.pos (Pos.of_uint_acc u acc).
Proof.
  revert acc. induction u as [|u IH|u IH|u IH|u IH|u IH|u IH|u IH|u IH|u IH|u IH]; intros acc; [done|..];
    cbn [DecimalString.NilEmpty.string_of_uint digits Pos.of_uint_acc]; rewrite <- IH;
    eval_digit; f_equal; lia.
Qed.

Lemma digits_uint_0 u : digits 0 (DecimalString.NilEmpty.string_of_uint u) = Z.of_N (Pos.of_uint u).
Proof.
  induction u as [|u IH|u IH|u IH|u IH|u IH|u IH|u IH|u IH|u IH|u IH]; [done|exact IH|..];
    cbn [DecimalString.NilEmpty.string_of_uint digits Pos.of_uint]; eval_digit; apply digits_uint.
Qed.

(** A number printed and read back. *)
Lemma to_string_digits n : 0 <= n -> digits 0 (to_string n) = n.
Proof.
  intros Hn. unfold to_string, DecimalString.NilZero.string_of_uint.
  pose proof (digits_uint_0 (N.to_uint (Z.to_N n))) as H.
  change (Z.of_N (Pos.of_uint (N.to_uint (Z.to_N n)))) with (Z.of_N (N.of_uint (N.to_uint (Z.to_N n)))) in H.
  rewrite DecimalN.Unsigned.of_to, Z2N.id in H by lia.
  by destruct (N.to_uint (Z.to_N n)).
Qed.

Lemma to_string_digit n : exists c s, to_string n = String c s /\ is_Some (digit c).
Proof.
  unfold to_string, DecimalString.NilZero.string_of_uint.
  destruct (N.to_uint (Z.to_N n)); cbn [DecimalString.NilEmpty.string_of_uint];
    (eexists _, _; split; [reflexivity|vm_compute; eauto]).
Qed.

Lemma stoi_to_string n : 0 <= n <= 2147483647 -> stoi (to_string n) = Ok n.
Proof.
  intros Hn. destruct (to_string_digit n) as (c & s & E & Hd).
  pose proof (to_string_digits n ltac:(lia)) as Hv. unfold stoi. rewrite E in *.
  assert (isspace c = false /\ c <> "-"%char /\ c <> "+"%char) as (Hs & Hm & Hp).
  { unfold isspace. destruct Hd as [d Hd]. split_and!; [|by intros ->..]. unfold digit in Hd.
    destruct ((48 <=? _) && (_ <=? 57)) eqn:Er; [|done]. apply andb_true_iff in Er as [H1%Z.leb_le H2%Z.leb_le].
    apply orb_false_iff. split; [apply Z.eqb_neq; lia|].
    apply andb_false_iff. right. apply Z.leb_gt. lia. }
  cbn [skip_spaces]. rewrite Hs.
  replace (match String c s with
           | String "-" s' => (true, s') | String "+" s' => (false, s') | s0 => (false, s0) end)
    with (false, String c s).
  2:{ destruct c as [[] [] [] [] [] [] [] []]; done. }
  destruct Hd as [d ->]. rewrite Hv.
  destruct (Z.leb_spec (-2147483648) n); [|lia]. by destruct (Z.leb_spec n 2147483647); [|lia].
Qed.

(** ** Socket addresses in memory *)

Definition AF_INET : Z := 2.
Definition sizeof_storage : Z := 128.
Definition sizeof_sockaddr_in : Z := 16.
Definition AI_NUMERICHOST : Z := 4.
Definition AI_ALL : Z := 16.
Definition AI_NUMERICSERV : Z := 1024.
Definition NI_NUMERICHOST : Z := 1.
Definition NI_NUMERICSERV : Z := 2.

(** The fields of a [sockaddr_in] at the front of a byte string. *)
Definition sin_family (a : bytes) : Z :=
  match a with b0 :: b1 :: _ => Z_of_byte b0 + 256 * Z_of_byte b1 | _ => 0 end.
Definition sin_port (a : bytes) : Z := be_acc 0 (slice a 2 2).
Definition sin_addr (a : bytes) : Z := be_acc 0 (slice a 4 4).

(** The [sockaddr_in] of an address and a port. *)
Definition sockaddr_in (addr port : Z) : bytes :=
  [byte_of_Z AF_INET; x00] ++ unparse_bytes 2 port ++ unparse_bytes 4 addr ++ replicate 8 x00.

(** ** The resolver *)

Class Resolver : Type := {
  (* error code and, if it is 0, the first result *)
  getaddrinfo (node service : string) (ai_flags ai_family : Z) : Z * option bytes;
  (* error code, host and service *)
  getnameinfo (addr : bytes) (flags : Z) : Z * (string * string);
  (* the dotted quad of a number *)
  inet_ntoa (n : Z) : string;
  getaddrinfo_numeric n p : is_u32 n -> is_u16 p ->
    getaddrinfo (inet_ntoa n) (to_string p) (Z.lor AI_NUMERICHOST AI_NUMERICSERV) AF_INET
    = (0, Some (sockaddr_in n p));
  getnameinfo_numeric a : size a = sizeof_sockaddr_in -> sin_family a = AF_INET ->
    getnameinfo a (Z.lor NI_NUMERICHOST NI_NUMERICSERV)
    = (0, (inet_ntoa (sin_addr a), to_string (sin_port a)))
}.

(** ** The class *)

Record Address : Type := mkAddress {
  _size : Z;                 (* socklen_t *)
  _address : bytes           (* sockaddr_storage *)
}.

(** [Address(const sockaddr *, size_t)]: the storage is zero past [size]. *)
Definition address_of_raw (addr : bytes) (size : Z) : result Address :=
  if sizeof_storage <? size then Throw (RuntimeError "invalid sockaddr size")
  else Ok (mkAddress size (ztake size addr ++ replicate (Z.to_nat (sizeof_storage - size)) x00)).

Section address.
Context {RS : Resolver}.

Definition resolve (node service : string) (ai_flags ai_family : Z) : result Address :=
  let '(gai_ret, resolved_address) := getaddrinfo node service ai_flags ai_family in
  if negb (gai_ret =? 0) then
    Throw (SystemError ("getaddrinfo(" ++ node ++ ", " ++ service ++ ")") gai_ret)
  else match resolved_address with
       | None => Throw (RuntimeError "getaddrinfo returned successfully but with no results")
       | Some addr => address_of_raw addr (size addr)
       end.

Definition address_of_name (hostname service : string) : result Address :=
  resolve hostname service AI_ALL AF_INET.

Definition address_of_ip (ip : string) (port : Z) : result Address :=
  resolve ip (to_string port) (Z.lor AI_NUMERICHOST AI_NUMERICSERV) AF_INET.

(** The pair holds the port as a [uint16_t]. *)
Definition ip_port (a : Address) : result (string * Z) :=
  let '(gni_ret, (ip, port)) := getnameinfo (ztake (_size a) (_address a)) (Z.lor NI_NUMERICHOST NI_NUMERICSERV) in
  if negb (gni_ret =? 0) then Throw (SystemError "getnameinfo" gni_ret)
  else let! p := stoi port in Ok (ip, u16 p).

Definition address_ip (a : Address) : result string := let! ip_port := ip_port a in Ok (fst ip_port).
Definition address_port (a : Address) : result Z := let! ip_port := ip_port a in Ok (snd ip_port).

Definition address_to_string (a : Address) : result string :=
  let! ip_and_port := ip_port a in
  Ok (fst ip_and_port ++ ":" ++ to_string (snd ip_and_port))%string.

Definition address_ipv4_numeric (a : Address) : result Z :=
  if negb (sin_family (_address a) =? AF_INET) || negb (_size a =? sizeof_sockaddr_in)
  then Throw (RuntimeError "ipv4_numeric called on non-IPV4 address")
  else Ok (sin_addr (ztake (_size a) (_address a))).

Definition from_ipv4_numeric (ip_address : Z) : result Address :=
  address_of_raw (sockaddr_in ip_address 0) sizeof_sockaddr_in.

Definition address_eqb (a other : Address) : bool :=
  if negb (_size a =? _size other) then false
  else bool_decide (ztake (_size a) (_address a) = ztake (_size a) (_address other)).

(** ** IPv4 addresses *)

(** What every constructor on an IPv4 address establishes. *)
Definition is_ipv4 (a : Address) : bool :=
  (_size a =? sizeof_sockaddr_in) && (size (_address a) =? sizeof_storage) &&
  (sin_family (_address a) =? AF_INET) &&
  bool_decide (zdrop sizeof_sockaddr_in (_address a) = replicate 112 x00).

Definition ipv4 (n p : Z) : Address := mkAddress sizeof_sockaddr_in (sockaddr_in n p ++ replicate 112 x00).

Lemma size_sockaddr_in n p : size (sockaddr_in n p) = sizeof_sockaddr_in.
Proof. done. Qed.

Lemma sockaddr_in_fields n p : is_u32 n -> is_u16 p ->
  sin_family (sockaddr_in n p) = AF_INET /\ sin_addr (sockaddr_in n p) = n /\ sin_port (sockaddr_in n p) = p.
Proof.
  intros Hn Hp. split; [done|]. split.
  - change (sin_addr (sockaddr_in n p)) with (be_acc 0 (unparse_bytes 4 n)).
    rewrite be_acc_unparse. change (256 ^ Z.of_nat 4) with 4294967296. unfold is_u32 in *. rewrite Z.mod_small; lia.
  - change (sin_port (sockaddr_in n p)) with (be_acc 0 (unparse_bytes 2 p)).
    rewrite be_acc_unparse. change (256 ^ Z.of_nat 2) with 65536. unfold is_u16 in *. rewrite Z.mod_small; lia.
Qed.

Lemma ipv4_is_ipv4 n p : is_ipv4 (ipv4 n p) = true.
Proof. done. Qed.

(** The bytes [memcmp] and the resolver look at, and the rest of the storage. *)
Lemma is_ipv4_spec a : is_ipv4 a = true ->
  _size a = sizeof_sockaddr_in /\ size (ztake 16 (_address a)) = 16 /\ sin_family (_address a) = AF_INET /\
  sin_family (ztake 16 (_address a)) = AF_INET /\ _address a = ztake 16 (_address a) ++ replicate 112 x00.
Proof.
  unfold is_ipv4. rewrite !andb_true_iff, !Z.eqb_eq, bool_decide_eq_true.
  intros [[[Hs Hl] Hf] Hz]. split; [done|]. rewrite size_ztake, Hl by lia. split; [done|]. split; [done|]. split.
  - rewrite <- Hf. destruct (_address a) as [|b0 [|b1 l]]; done.
  - by rewrite <- Hz, ztake_zdrop.
Qed.

Lemma be_acc_range l ret m : 0 <= ret < m -> 0 <= be_acc ret l < m * 256 ^ size l.
Proof.
  revert ret m. induction l as [|b l IH]; intros ret m Hr; [change (256 ^ size []) with 1; cbn [be_acc]; lia|].
  cbn [be_acc]. pose proof (Z_of_byte_range b) as Hb. unfold is_u8 in Hb. pose proof (size_nonneg l).
  rewrite size_cons, Z.pow_add_r, Z.mul_assoc by lia. change (256 ^ 1) with 256. apply IH. lia.
Qed.

Lemma be_field_range l i n : 0 <= n -> 0 <= be_acc 0 (slice l i n) < 256 ^ n.
Proof.
  intros Hn. pose proof (be_acc_range (slice l i n) 0 1 ltac:(lia)) as H.
  assert (size (slice l i n) <= n) by (unfold slice; rewrite size_ztake by done; lia).
  pose proof (Z.pow_le_mono_r 256 (size (slice l i n)) n ltac:(lia) ltac:(lia)). lia.
Qed.

Lemma sin_addr_range l : is_u32 (sin_addr l).
Proof. exact (be_field_range l 4 4 ltac:(lia)). Qed.

Lemma sin_port_range l : is_u16 (sin_port l).
Proof. exact (be_field_range l 2 2 ltac:(lia)). Qed.

(** The methods on such an address: none of them throws. *)
Lemma ipv4_methods a : is_ipv4 a = true ->
  address_ipv4_numeric a = Ok (sin_addr (ztake 16 (_address a))) /\
  address_port a = Ok (sin_port (ztake 16 (_address a))) /\
  address_ip a = Ok (inet_ntoa (sin_addr (ztake 16 (_address a)))).
Proof.
  intros (Hs & Hl & Hf & Hf' & _)%is_ipv4_spec. unfold address_ipv4_numeric, address_port, address_ip, ip_port.
  rewrite Hs, Hf. change sizeof_sockaddr_in with 16 in *. split; [done|].
  rewrite getnameinfo_numeric by done. simpl negb. cbv iota.
  pose proof (sin_port_range (ztake 16 (_address a))) as Hp.
  rewrite stoi_to_string by (unfold is_u16 in Hp; lia). simpl. by rewrite u16_small by done.
Qed.

(** What the adapters call: a dotted quad and a port. *)
Lemma address_of_quad n p : is_u32 n -> is_u16 p -> address_of_ip (inet_ntoa n) p = Ok (ipv4 n p).
Proof. intros Hn Hp. unfold address_of_ip, resolve. by rewrite getaddrinfo_numeric. Qed.

Lemma ipv4_eqb a b : is_ipv4 a = true -> is_ipv4 b = true -> address_eqb a b = true <-> a = b.
Proof.
  intros (Hs & _ & _ & _ & Ea)%is_ipv4_spec (Hs' & _ & _ & _ & Eb)%is_ipv4_spec. unfold address_eqb.
  rewrite Hs, Hs', Z.eqb_refl. cbn [negb]. rewrite bool_decide_eq_true. change sizeof_sockaddr_in with 16 in *.
  split; [|by intros ->]. intros E. destruct a as [sa aa], b as [sb ab]. simpl in *. subst sa sb.
  f_equal. rewrite Ea, Eb. by rewrite E.
Qed.

(** ** The interface of the adapters *)

Definition IPv4Address : Type := { a : Address | is_ipv4 a = true }.

Definition quad_address (n p : Z) : IPv4Address := exist _ (ipv4 (u32 n) (u16 p)) (ipv4_is_ipv4 _ _).

#[export, refine] Instance address_ops : AddressOps IPv4Address := {
  ipv4_numeric a := sin_addr (ztake 16 (_address (proj1_sig a)));
  port a := sin_port (ztake 16 (_address (proj1_sig a)));
  address_neqb a b := negb (address_eqb (proj1_sig a) (proj1_sig b));
  from_quad := quad_address
}.
Proof.
  - intros. apply sin_addr_range.
  - intros. apply sin_port_range.
  - intros [a Ha] [b Hb]. simpl. rewrite negb_false_iff, ipv4_eqb by done. split; [|congruence].
    intros ->. f_equal. apply Eqdep_dec.UIP_dec. decide equality.
  - intros n p Hn. destruct (sockaddr_in_fields (u32 n) (u16 p)) as (_ & E & _); [apply u32_range|apply u16_range|].
    transitivity (u32 n); [exact E|by apply u32_small].
  - intros n p Hp. destruct (sockaddr_in_fields (u32 n) (u16 p)) as (_ & _ & E); [apply u32_range|apply u16_range|].
    transitivity (u16 p); [exact E|by apply u16_small].
Defined.
End address.

(** ** Properties *)

(** Addresses.  With any resolver that has the documented numeric modes, the
    address constructed from the dotted quad of [n] and the port [p] is the one the
    adapters' interface gives, its accessors return [n], [p] and the dotted quad
    without throwing, [from_ipv4_numeric] differs from it in the port only, and two
    such addresses are equal exactly when number and port are; the numeric accessor
    throws on an address that is not IPv4. *)
Theorem address_roundtrip `{Resolver} n p n' p' : is_u32 n -> is_u16 p -> is_u32 n' -> is_u16 p' ->
  exists a, address_of_ip (inet_ntoa n) p = Ok a /\ a = proj1_sig (from_quad n p) /\
    address_ipv4_numeric a = Ok n /\ address_port a = Ok p /\ address_ip a = Ok (inet_ntoa n) /\
    from_ipv4_numeric n = Ok (proj1_sig (from_quad n 0)) /\
    (address_eqb a (proj1_sig (from_quad n' p')) = true <-> n = n' /\ p = p') /\
    (forall b, sin_family (_address b) <> AF_INET -> exists e, address_ipv4_numeric b = Throw e).
Proof.
  intros Hn Hp Hn' Hp'. exists (ipv4 n p). simpl from_quad. unfold quad_address. simpl proj1_sig.
  rewrite !(u32_small n), !(u16_small p), (u32_small n'), (u16_small p'), (u16_small 0) by done.
  destruct (ipv4_methods (ipv4 n p) eq_refl) as (E1 & E2 & E3).
  change (ztake 16 (_address (ipv4 n p))) with (sockaddr_in n p) in *.
  destruct (sockaddr_in_fields n p Hn Hp) as (_ & F1 & F2). rewrite F1 in E1, E3. rewrite F2 in E2.
  split; [by apply address_of_quad|]. split_and!; try done.
  - rewrite ipv4_eqb by done. split; [|by intros [-> ->]].
    intros E. apply (f_equal (fun a => ztake 16 (_address a))) in E.
    change (sockaddr_in n p = sockaddr_in n' p') in E.
    destruct (sockaddr_in_fields n' p' Hn' Hp') as (_ & F1' & F2').
    split; [rewrite <- F1, <- F1'|rewrite <- F2, <- F2']; by rewrite E.
  - intros b Hb. unfold address_ipv4_numeric. destruct (Z.eqb_spec (sin_family (_address b)) AF_INET); [done|].
    by eexists.
Qed.

(** A resolver that prints an address as one decimal number. *)
#[refine] Instance decimal_resolver : Resolver := {
  getaddrinfo node service _ _ := (0, Some (sockaddr_in (digits 0 node) (digits 0 service)));
  getnameinfo a _ := (0, (to_string (sin_addr a), to_string (sin_port a)));
  inet_ntoa := to_string
}.
Proof.
  - intros n p Hn Hp. unfold is_u32, is_u16 in *. by rewrite !to_string_digits by lia.
  - done.
Defined.

Lemma address_roundtrip_witness :
  exists a, @address_of_ip decimal_resolver (to_string 167772161) 8080 = Ok a /\
    address_ipv4_numeric a = Ok 167772161 /\ @address_port decimal_resolver a = Ok 8080.
Proof.
  destruct (@address_roundtrip decimal_resolver 167772161 8080 7 9) as (a & H1 & _ & H2 & H3 & _);
    [split; by vm_compute..|]. exists a. split; [exact H1|]. split; [exact H2|exact H3].
Defined.
