(* ===== verification/Printers.v ===== *)
(** * Printers: the textual form of packets

    Models [hexdump] of [libsponge/util/util.cc], the methods [to_string] and [summary]
    of [tcp_header.cc], [ipv4_header.cc], [ethernet_header.cc] and [arp_message.cc], and
    the loop body of [apps/tun.cc], which shows the packets of a TUN device.  An output
    stream is its text, its fill character and its number base; a width holds for the
    next item only and is an argument of it.  A string stream has a put position, which
    is at the beginning of the text the stream is constructed from. *)

From Stdlib Require Import Strings.String Strings.Ascii.
From Stdlib Require HexadecimalString HexadecimalN.
From Stdlib Require Import ZifyNat.
From S2P Require Import Prelude WrappingIntegers Parser TCPSegment IPv4 Ethernet Address.

(** ** Streams *)

Definition hex_string (n : Z) : string := HexadecimalString.NilZero.string_of_uint (N.to_hex_uint (Z.to_N n)).

Record ostream : Type := mkOstream {
  is_hex : bool;
  fill : byte;
  written : bytes
}.

(** [std::cout] at the start of a program. *)
Definition cout : ostream := mkOstream false " "%byte [].

Definition put (data : bytes) (o : ostream) : ostream := mkOstream (is_hex o) (fill o) (written o ++ data).

Definition pad (c : byte) (width : nat) (item : bytes) : bytes := replicate (width - length item) c ++ item.

(** [o << setw(width) << n] *)
Definition put_int (width : nat) (n : Z) (o : ostream) : ostream :=
  put (pad (fill o) width (text (if is_hex o then hex_string n else to_string n))) o.

Record stringstream : Type := mkStringstream {
  contents : bytes;
  put_position : nat
}.

(** [stringstream ss(s)] and [ss.str(s)]: what is put next replaces the text. *)
Definition stringstream_of (s : bytes) : stringstream := mkStringstream s 0.

Definition ss_put (c : byte) (ss : stringstream) : stringstream :=
  mkStringstream (take (put_position ss) (contents ss) ++ [c] ++ drop (S (put_position ss)) (contents ss))
    (S (put_position ss)).

(** ** hexdump *)

(** [isprint] in the C locale. *)
Definition isprint (b : byte) : bool := (32 <=? Z_of_byte b) && (Z_of_byte b <=? 126).

Definition spaces (n : Z) : bytes := replicate (Z.to_nat n) " "%byte.

(** The loop over [data], after [printed] bytes. *)
Fixpoint hexdump_loop (data : bytes) (indent printed : Z) (pchars : stringstream) (o : ostream)
    : Z * stringstream * ostream :=
  match data with
  | [] => (printed, pchars, o)
  | b :: data =>
      let '(pchars, o) :=
        if Z.land printed 15 =? 0 then
          let '(pchars, o) :=
            if negb (printed =? 0) then (stringstream_of (text " "), put (text "    " ++ contents pchars ++ [x0a]) o)
            else (pchars, o) in
          (pchars, put (text ":    ") (put_int 8 printed (put (spaces indent) o)))
        else if Z.land printed 1 =? 0 then (pchars, put (text " ") o)
        else (pchars, o) in
      let o := put_int 2 (Z_of_byte b) o in
      let pchars := ss_put (if isprint b then b else "."%byte) pchars in
      hexdump_loop data indent (printed + 1) pchars o
  end.

(** [printed] is an [int], which is enough for fewer than 2^31 bytes. *)
Definition hexdump (data : bytes) (indent : Z) (o : ostream) : ostream :=
  let flags := is_hex o in
  let '(printed, pchars, o) :=
    hexdump_loop data indent 0 (stringstream_of (text " ")) (mkOstream true "0"%byte (written o)) in
  let print_rem := Z.rem (16 - Z.land printed 15) 16 in
  let o := put (spaces (2 * print_rem + Z.quot print_rem 2 + 4) ++ contents pchars) o in
  let o := put [x0a; x0a] o in
  mkOstream flags (fill o) (written o).

(** ** The layout of a dump *)

Definition shown (b : byte) : byte := if isprint b then b else "."%byte.
Definition hex2 (b : byte) : bytes := pad "0"%byte 2 (text (hex_string (Z_of_byte b))).

(** Byte [i] of a line: a space separates the pairs. *)
Definition hex_cell (i : nat) (b : byte) : bytes :=
  (if negb (i =? 0)%nat && Nat.even i then text " " else []) ++ hex2 b.
Definition hex_column (line : bytes) : bytes := concat (imap hex_cell line).

Definition line_label (indent : Z) (k : nat) : bytes :=
  spaces indent ++ pad "0"%byte 8 (text (hex_string (16 * Z.of_nat k))) ++ text ":    ".

(** Line [k]: its offset, its bytes in hexadecimal in a column of 39 places, its characters. *)
Definition dump_line (indent : Z) (k : nat) (line : bytes) : bytes :=
  line_label indent k ++ hex_column line ++ replicate (39 - length (hex_column line)) " "%byte
  ++ text "    " ++ map shown line ++ [x0a].

Lemma length_hex2 b : length (hex2 b) = 2%nat.
Proof. by destruct b. Qed.

Lemma hex_column_snoc line b : hex_column (line ++ [b]) = hex_column line ++ hex_cell (length line) b.
Proof. unfold hex_column. rewrite imap_app, concat_app. simpl. by rewrite Nat.add_0_r, app_nil_r. Qed.

Lemma length_hex_column line : length (hex_column line) = (2 * length line + (length line - 1) / 2)%nat.
Proof.
  induction line as [|b line IH] using rev_ind; [done|].
  rewrite hex_column_snoc, !length_app, IH. simpl length. unfold hex_cell. rewrite length_app, length_hex2.
  destruct line as [|a line]; [done|]. set (n := length (a :: line)).
  assert (0 < n)%nat by (subst n; simpl; lia). rewrite (proj2 (Nat.eqb_neq n 0)) by lia. cbn [negb andb].
  replace (n + 1 - 1)%nat with n by lia.
  destruct (Nat.even n) eqn:En; simpl length.
  - apply Nat.even_spec in En as [m ->]. lia.
  - assert (Nat.odd n = true) as [m ->]%Nat.odd_spec by (by rewrite <- Nat.negb_even, En). lia.
Qed.

Lemma put_put a b o : put b (put a o) = put (a ++ b) o.
Proof. unfold put. simpl. by rewrite app_assoc. Qed.

Lemma put_int_hex w n o : is_hex o = true -> fill o = "0"%byte ->
  put_int w n o = put (pad "0"%byte w (text (hex_string n))) o.
Proof. intros E F. unfold put_int. by rewrite E, F. Qed.

(** The text collected so far of the line being shown. *)
Definition collected (line : bytes) : stringstream := mkStringstream (map shown line) (length line).

Lemma collected_snoc line b : ss_put (shown b) (collected line) = collected (line ++ [b]).
Proof.
  unfold ss_put, collected. simpl. rewrite take_ge, drop_ge by (rewrite length_map; lia).
  by rewrite map_app, length_app, Nat.add_1_r.
Qed.

Lemma land_15 n : Z.land n 15 = n mod 16.
Proof. change 15 with (Z.ones 4). by rewrite Z.land_ones. Qed.

Lemma land_1 n : Z.land n 1 = n mod 2.
Proof. change 1 with (Z.ones 1). by rewrite Z.land_ones. Qed.

Section dump.
Context (indent : Z).

(** The bytes of a line after the first one. *)
Lemma hexdump_loop_rest line pre k data o : is_hex o = true -> fill o = "0"%byte ->
  pre <> [] -> (length (pre ++ line) <= 16)%nat ->
  hexdump_loop (line ++ data) indent (16 * Z.of_nat k + size pre) (collected pre) (put (hex_column pre) o) =
  hexdump_loop data indent (16 * Z.of_nat k + size (pre ++ line)) (collected (pre ++ line))
    (put (hex_column (pre ++ line)) o).
Proof.
  intros Eh Ef. revert pre. induction line as [|b line IH]; intros pre Hne Hlen; [by rewrite app_nil_r|].
  assert (E : pre ++ b :: line = (pre ++ [b]) ++ line) by (by rewrite <- app_assoc). rewrite E in Hlen |- *. clear E.
  assert (0 < length pre)%nat by (by destruct pre; [|simpl; lia]).
  cbn [app hexdump_loop]. rewrite !length_app in Hlen. simpl in Hlen. rewrite land_15, land_1. change (size pre) with (Z.of_nat (length pre)).
  destruct (Z.eqb_spec ((16 * Z.of_nat k + Z.of_nat (length pre)) mod 16) 0) as [E|_]; [lia|].
  rewrite <- (IH (pre ++ [b])); [|by destruct pre|rewrite !length_app; simpl; lia].
  rewrite <- collected_snoc, hex_column_snoc. unfold hex_cell, shown at 1.
  rewrite (proj2 (Nat.eqb_neq (length pre) 0)) by lia. cbn [negb andb].
  replace (16 * Z.of_nat k + Z.of_nat (length pre) + 1) with (16 * Z.of_nat k + size (pre ++ [b]))
    by (unfold size; rewrite length_app; simpl; lia).
  destruct (Z.eqb_spec ((16 * Z.of_nat k + Z.of_nat (length pre)) mod 2) 0) as [E|E].
  - rewrite (proj2 (Nat.even_spec _)) by (exists (Z.to_nat (Z.of_nat (length pre) / 2)); lia).
    rewrite put_int_hex, !put_put by done. done.
  - destruct (Nat.even (length pre)) eqn:Ev; [apply Nat.even_spec in Ev as [m Ev]; lia|].
    rewrite put_int_hex, !put_put by done. done.
Qed.

(** What stands before line [k]: the characters of the line before it. *)
Definition closing (k : nat) (pchars : stringstream) : bytes :=
  if (k =? 0)%nat then [] else text "    " ++ contents pchars ++ [x0a].

Lemma hexdump_loop_line line k data pchars o : is_hex o = true -> fill o = "0"%byte ->
  line <> [] -> (length line <= 16)%nat -> (k = O -> pchars = stringstream_of (text " ")) ->
  hexdump_loop (line ++ data) indent (16 * Z.of_nat k) pchars o =
  hexdump_loop data indent (16 * Z.of_nat k + size line) (collected line)
    (put (closing k pchars ++ line_label indent k ++ hex_column line) o).
Proof.
  intros Eh Ef Hne Hlen Hk. destruct line as [|b line]; [done|]. cbn [app hexdump_loop].
  rewrite land_15. replace ((16 * Z.of_nat k) mod 16) with 0 by lia. cbn [Z.eqb].
  assert (Hfirst : ss_put (shown b) (stringstream_of (text " ")) = collected [b]) by done.
  assert (Hrest : forall p o', is_hex o' = true -> fill o' = "0"%byte -> p = stringstream_of (text " ") ->
    hexdump_loop (line ++ data) indent (16 * Z.of_nat k + 1) (ss_put (if isprint b then b else "."%byte) p)
      (put_int 2 (Z_of_byte b) (put (text ":    ") (put_int 8 (16 * Z.of_nat k) (put (spaces indent) o')))) =
    hexdump_loop data indent (16 * Z.of_nat k + size (b :: line)) (collected (b :: line))
      (put (hex_column (b :: line)) (put (line_label indent k) o'))).
  { intros p o' Eh' Ef' ->. fold (shown b). change (b :: line) with ([b] ++ line).
    rewrite <- hexdump_loop_rest, Hfirst, !put_int_hex, !put_put by done.
    unfold line_label, hex_column, hex_cell. simpl imap. simpl concat. rewrite app_nil_r.
    change (size [b]) with 1. by rewrite <- !app_assoc. }
  destruct (Z.eqb_spec (16 * Z.of_nat k) 0) as [E|E]; cbn [negb].
  - assert (k = O) by lia. subst k. rewrite Hrest by auto. unfold closing. simpl app. by rewrite put_put.
  - rewrite Hrest by done. unfold closing. destruct (Nat.eqb_spec k 0) as [->|_]; [lia|].
    by rewrite !put_put, <- !app_assoc.
Qed.

(** Full lines and a last one that is not empty, with the characters of the last line pending. *)
Lemma hexdump_loop_lines lines line k pchars o : is_hex o = true -> fill o = "0"%byte ->
  Forall (fun l => length l = 16%nat) lines -> (0 < length line <= 16)%nat ->
  (k = O -> pchars = stringstream_of (text " ")) ->
  hexdump_loop (concat lines ++ line) indent (16 * Z.of_nat k) pchars o =
  (16 * Z.of_nat (k + length lines) + size line, collected line,
   put (closing k pchars ++ concat (imap (fun i => dump_line indent (k + i)) lines)
        ++ line_label indent (k + length lines) ++ hex_column line) o).
Proof.
  intros Eh Ef Hl Hline. revert k pchars o Eh Ef. induction Hl as [|l lines Hl16 Hl IH]; intros k pchars o Eh Ef Hk.
  - simpl. rewrite Nat.add_0_r. rewrite <- (app_nil_r line) at 1.
    rewrite hexdump_loop_line by (done || lia || (by destruct line; simpl in *; [lia|])). done.
  - cbn [concat]. rewrite <- app_assoc.
    rewrite hexdump_loop_line by (done || lia || (by destruct l)).
    replace (16 * Z.of_nat k + size l) with (16 * Z.of_nat (S k)) by (unfold size; lia).
    rewrite IH by done. cbn [length]. replace (S k + length lines)%nat with (k + S (length lines))%nat by lia.
    f_equal. rewrite put_put. f_equal. cbn [imap]. simpl concat. rewrite Nat.add_0_r.
    unfold closing at 2. cbn [Nat.eqb]. unfold dump_line at 2. rewrite (length_hex_column l), Hl16. simpl Nat.sub.
    rewrite (imap_ext (fun i => dump_line indent (S (k + i))) ((fun i => dump_line indent (k + i)) ∘ S) lines)
      by (intros i x _; simpl; by rewrite Nat.add_succ_r).
    by rewrite <- !app_assoc.
Qed.
End dump.

(** ** Headers *)

Local Open Scope string_scope.

Definition nl : string := String "010"%char EmptyString.
Definition boolalpha (b : bool) : string := if b then "true" else "false".

Definition tcp_header_to_string (h : TCPHeader) : string :=
  "TCP source port: " ++ hex_string (sport h) ++ nl ++
  "TCP dest port: " ++ hex_string (dport h) ++ nl ++
  "TCP seqno: " ++ hex_string (raw_value (seqno h)) ++ nl ++
  "TCP ackno: " ++ hex_string (raw_value (ackno h)) ++ nl ++
  "TCP doff: " ++ hex_string (doff h) ++ nl ++
  "Flags: urg: " ++ boolalpha (urg h) ++ " ack: " ++ boolalpha (ack h) ++ " psh: " ++ boolalpha (psh h) ++
  " rst: " ++ boolalpha (rst h) ++ " syn: " ++ boolalpha (syn h) ++ " fin: " ++ boolalpha (fin h) ++ nl ++
  "TCP winsize: " ++ hex_string (win h) ++ nl ++
  "TCP cksum: " ++ hex_string (TCPSegment.cksum h) ++ nl ++
  "TCP uptr: " ++ hex_string (uptr h) ++ nl.

Definition tcp_header_summary (h : TCPHeader) : string :=
  "Header(flags=" ++ (if syn h then "S" else "") ++ (if ack h then "A" else "") ++
  (if rst h then "R" else "") ++ (if fin h then "F" else "") ++
  ",seqno=" ++ to_string (raw_value (seqno h)) ++ ",ack=" ++ to_string (raw_value (ackno h)) ++
  ",win=" ++ to_string (win h) ++ ")".

Definition ipv4_header_to_string (h : IPv4Header) : string :=
  "IP version: " ++ hex_string (ver h) ++ nl ++
  "IP hdr len: " ++ hex_string (hlen h) ++ nl ++
  "IP tos: " ++ hex_string (tos h) ++ nl ++
  "IP dgram len: " ++ hex_string (len h) ++ nl ++
  "IP id: " ++ hex_string (id h) ++ nl ++
  "Flags: df: " ++ boolalpha (df h) ++ " mf: " ++ boolalpha (mf h) ++ nl ++
  "Offset: " ++ hex_string (offset h) ++ nl ++
  "TTL: " ++ hex_string (ttl h) ++ nl ++
  "Protocol: " ++ hex_string (proto h) ++ nl ++
  "Checksum: " ++ hex_string (IPv4.cksum h) ++ nl ++
  "Src addr: " ++ hex_string (IPv4.src h) ++ nl ++
  "Dst addr: " ++ hex_string (IPv4.dst h) ++ nl.

(** [to_string(const EthernetAddress)]: the separator after every octet but the last. *)
Fixpoint ethernet_address_to_string (address : EthernetAddress) : string :=
  match address with
  | [] => ""
  | octet :: rest =>
      string_of_list_byte (pad "0"%byte 2 (text (hex_string octet))) ++
      match rest with [] => "" | _ => ":" ++ ethernet_address_to_string rest end
  end.

Definition ethernet_header_to_string (h : EthernetHeader) : string :=
  "dst=" ++ ethernet_address_to_string (Ethernet.dst h) ++
  ", src=" ++ ethernet_address_to_string (Ethernet.src h) ++
  ", type=" ++
  (if (type h =? TYPE_IPv4)%Z then "IPv4"
   else if (type h =? TYPE_ARP)%Z then "ARP"
   else "[unknown type " ++ hex_string (type h) ++ "!]").

Section printers.
Context {RS : Resolver}.

Definition ipv4_header_summary (h : IPv4Header) : string :=
  "IPv" ++ hex_string (ver h) ++ ", " ++
  "len=" ++ hex_string (len h) ++ ", " ++
  "protocol=" ++ hex_string (proto h) ++ ", " ++
  (if (10 <=? ttl h)%Z then "" else "ttl=" ++ to_string (ttl h) ++ ", ") ++
  "src=" ++ inet_ntoa (IPv4.src h) ++ ", " ++
  "dst=" ++ inet_ntoa (IPv4.dst h).

Definition arp_to_string (m : ARPMessage) : string :=
  let opcode_str := "(unknown type)" in
  let opcode_str := if (opcode m =? OPCODE_REQUEST)%Z then "REQUEST" else opcode_str in
  let opcode_str := if (opcode m =? OPCODE_REPLY)%Z then "REPLY" else opcode_str in
  "opcode=" ++ opcode_str ++ ", sender=" ++ ethernet_address_to_string (sender_ethernet_address m) ++ "/" ++
  inet_ntoa (sender_ip_address m) ++ ", target=" ++ ethernet_address_to_string (target_ethernet_address m) ++ "/" ++
  inet_ntoa (target_ip_address m).
End printers.
Local Close Scope string_scope.

(** ** Properties *)

(** Every non-empty packet is full lines and a last line. *)
Lemma split_lines (data : bytes) : data <> [] -> exists lines line,
  data = concat lines ++ line /\ Forall (fun l => length l = 16%nat) lines /\ (0 < length line <= 16)%nat.
Proof.
  induction data as [data IH] using (induction_ltof1 _ (@length byte)); unfold ltof in IH. intros Hne.
  destruct (decide (length data <= 16)%nat) as [Hs|Hl].
  - exists [], data. split; [done|]. split; [constructor|]. destruct data; [done|]. simpl in *. lia.
  - destruct (IH (drop 16 data)) as (lines & line & E & Hl16 & Hline).
    + rewrite length_drop. lia.
    + intros E. apply (f_equal length) in E. rewrite length_drop in E. simpl in E. lia.
    + exists (take 16 data :: lines), line. split; [|split; [|done]].
      * simpl. by rewrite <- app_assoc, <- E, take_drop.
      * constructor; [|done]. rewrite length_take. lia.
Qed.

(** The hexadecimal dump.  A packet cut into lines of sixteen bytes, the last with
    at least one, is shown one line after the other: the offset of the line in at least
    eight digits, its bytes in pairs in a column of constant width, its characters with
    a dot for those that cannot be printed.  The number base of the stream is restored;
    its fill character is not, it stays 0. *)
Theorem hexdump_layout (lines : list bytes) (line : bytes) (indent : Z) (o : ostream) :
  Forall (fun l => length l = 16%nat) lines -> (0 < length line <= 16)%nat ->
  hexdump (concat lines ++ line) indent o =
  mkOstream (is_hex o) "0"%byte
    (written o ++ concat (imap (dump_line indent) (lines ++ [line])) ++ [x0a]).
Proof.
  intros Hl Hline. unfold hexdump. change 0 with (16 * Z.of_nat 0) at 1.
  rewrite hexdump_loop_lines by done. cbn [fill written put closing Nat.eqb Nat.add app]. f_equal.
  rewrite imap_app, concat_app. simpl concat. rewrite Nat.add_0_r, app_nil_r, land_15.
  set (n := length line) in *. unfold dump_line at 3. rewrite length_hex_column. fold n.
  assert (Hr : Z.rem (16 - (16 * Z.of_nat (length lines) + size line) mod 16) 16 = 16 - Z.of_nat n)
    by (unfold size; fold n; rewrite Z.rem_mod_nonneg by lia; lia).
  rewrite Hr. rewrite Z.quot_div_nonneg by lia. unfold spaces at 1.
  replace (Z.to_nat (2 * (16 - Z.of_nat n) + (16 - Z.of_nat n) / 2 + 4))
    with ((39 - (2 * n + (n - 1) / 2)) + 4)%nat by lia.
  rewrite replicate_add. simpl contents. rewrite <- !app_assoc. done.
Qed.
