(* ===== verification/NetworkInterface.v ===== *)
(** * NetworkInterface: the interface, the router and the Ethernet adapter

    Models [libsponge/network_interface.hh], [network_interface.cc], [router.hh],
    [router.cc] and the class [TCPOverIPv4OverEthernetAdapter] of
    [tcp_helpers/tuntap_adapter.hh] and [tuntap_adapter.cc], as they are in this
    repository: the bodies of the interface's methods and of the routing decision are
    placeholders that do nothing.  The loops around them are real: the router visits
    every datagram of every interface, the adapter writes every pending frame to its
    device.  The debugging output on [cerr] is left out. *)

From S2P Require Import Prelude Parser TCPSegment IPv4 Ethernet Adapters.

Section interface.
Context {A : Type} `{AddressOps A}.

(** ** NetworkInterface *)

Record NetworkInterface : Type := mkNetworkInterface {
  _ethernet_address : EthernetAddress;
  _ip_address : A;
  _frames_out : list EthernetFrame
}.

Definition construct_interface (ethernet_address : EthernetAddress) (ip_address : A) : NetworkInterface :=
  mkNetworkInterface ethernet_address ip_address [].

(** [DUMMY_CODE(dgram, next_hop, next_hop_ip)] *)
Definition send_datagram (i : NetworkInterface) (dgram : IPv4Datagram) (next_hop : A) : NetworkInterface :=
  let next_hop_ip := ipv4_numeric next_hop in i.

(** [DUMMY_CODE(frame); return {};] *)
Definition recv_frame (i : NetworkInterface) (frame : EthernetFrame) : option IPv4Datagram * NetworkInterface :=
  (None, i).

Definition interface_tick (i : NetworkInterface) (ms_since_last_tick : Z) : NetworkInterface := i.

Definition with_frames_out (i : NetworkInterface) (q : list EthernetFrame) : NetworkInterface :=
  mkNetworkInterface (_ethernet_address i) (_ip_address i) q.

(** ** AsyncNetworkInterface and Router *)

Record AsyncNetworkInterface : Type := mkAsyncNetworkInterface {
  _interface_of : NetworkInterface;
  _datagrams_out : list IPv4Datagram
}.

Definition async_recv_frame (i : AsyncNetworkInterface) (frame : EthernetFrame) : AsyncNetworkInterface :=
  let '(optional_dgram, n) := recv_frame (_interface_of i) frame in
  match optional_dgram with
  | Some dgram => mkAsyncNetworkInterface n (_datagrams_out i ++ [dgram])
  | None => mkAsyncNetworkInterface n (_datagrams_out i)
  end.

Record Router : Type := mkRouter {
  _interfaces : list AsyncNetworkInterface
}.

Definition add_interface (r : Router) (i : AsyncNetworkInterface) : Router * Z :=
  let r := mkRouter (_interfaces r ++ [i]) in (r, u64 (size (_interfaces r) - 1)).

(** [vector::at] *)
Definition interface (r : Router) (N : Z) : result AsyncNetworkInterface :=
  match _interfaces r !! Z.to_nat N with Some i => Ok i | None => Throw OutOfRange end.

Definition add_route (r : Router) (route_prefix prefix_length : Z) (next_hop : option A) (interface_num : Z) : Router := r.

Definition route_one_datagram (r : Router) (dgram : IPv4Datagram) : Router := r.

Definition set_datagrams (r : Router) (k : nat) (q : list IPv4Datagram) : Router :=
  mkRouter (alter (fun i => mkAsyncNetworkInterface (_interface_of i) q) k (_interfaces r)).

(** [while (not queue.empty())], for the queue of interface [k]: the datagram is
    routed, then popped from the queue as it is by then. *)
Fixpoint route_queue (fuel : nat) (r : Router) (k : nat) : result Router :=
  match _interfaces r !! k with
  | None => Throw OutOfRange
  | Some i =>
      match _datagrams_out i with
      | [] => Ok r
      | dgram :: _ =>
          match fuel with
          | O => Throw OutOfFuel
          | S fuel =>
              let r := route_one_datagram r dgram in
              match _interfaces r !! k with
              | None => Throw OutOfRange
              | Some i => route_queue fuel (set_datagrams r k (tail (_datagrams_out i))) k
              end
          end
      end
  end.

(** [for (auto &interface : _interfaces)] *)
Fixpoint route_from (n k : nat) (r : Router) : result Router :=
  match n with
  | O => Ok r
  | S n =>
      let fuel := match _interfaces r !! k with Some i => length (_datagrams_out i) | None => O end in
      let! r := route_queue fuel r k in
      route_from n (S k) r
  end.

Definition route (r : Router) : result Router := route_from (length (_interfaces r)) 0 r.

(** ** TCPOverIPv4OverEthernetAdapter

    What is written to the device is part of the result. *)
Record EthernetAdapter : Type := mkEthernetAdapter {
  _base : FdAdapterBase A;
  _interface : NetworkInterface;
  _next_hop : A
}.

Definition construct_ethernet_adapter (eth_address : EthernetAddress) (ip_address next_hop : A)
    : EthernetAdapter * list bytes :=
  let none := from_quad 0 0 in
  (mkEthernetAdapter (mkFdAdapterBase (mkFdAdapterConfig none none 0 0) false)
     (construct_interface eth_address ip_address) next_hop,
   [concatenate (frame_serialize default_frame)]).

Fixpoint pending_loop (q : list EthernetFrame) (tap : list bytes) : list bytes :=
  match q with
  | [] => tap
  | frame :: q => pending_loop q (tap ++ [concatenate (frame_serialize frame)])
  end.

Definition send_pending (a : EthernetAdapter) : EthernetAdapter * list bytes :=
  (mkEthernetAdapter (_base a) (with_frames_out (_interface a) []) (_next_hop a),
   pending_loop (_frames_out (_interface a)) []).

Definition ethernet_read (a : EthernetAdapter) (device : bytes)
    : result (option TCPSegment * EthernetAdapter * list bytes) :=
  let! (res, frame) := frame_parse default_frame (buffer_of device) in
  if negb (bool_decide (res = NoError)) then Ok (None, a, []) else
  let '(ip_dgram, i) := recv_frame (_interface a) frame in
  let '(a, tap) := send_pending (mkEthernetAdapter (_base a) i (_next_hop a)) in
  match ip_dgram with
  | Some d =>
      let! (seg, b) := unwrap_tcp_in_ip (_base a) d in
      Ok (seg, mkEthernetAdapter b (_interface a) (_next_hop a), tap)
  | None => Ok (None, a, tap)
  end.

Definition ethernet_tick (a : EthernetAdapter) (ms_since_last_tick : Z) : EthernetAdapter * list bytes :=
  send_pending (mkEthernetAdapter (_base a) (interface_tick (_interface a) ms_since_last_tick) (_next_hop a)).

Definition ethernet_write (a : EthernetAdapter) (seg : TCPSegment)
    : result (TCPSegment * EthernetAdapter * list bytes) :=
  let! (seg, dgram) := wrap_tcp_in_ip (_base a) seg in
  let i := send_datagram (_interface a) dgram (_next_hop a) in
  let '(a, tap) := send_pending (mkEthernetAdapter (_base a) i (_next_hop a)) in
  Ok (seg, a, tap).

(** ** What the loops do *)

Lemma pending_loop_map q tap : pending_loop q tap = tap ++ map (fun f => concatenate (frame_serialize f)) q.
Proof.
  revert tap. induction q as [|f q IH]; intros tap; simpl; [by rewrite app_nil_r|].
  by rewrite IH, <- app_assoc.
Qed.

(** Every pending frame is written once, in order, and none stays. *)
Lemma send_pending_spec a :
  snd (send_pending a) = map (fun f => concatenate (frame_serialize f)) (_frames_out (_interface a)) /\
  _frames_out (_interface (fst (send_pending a))) = [].
Proof. split; [|done]. simpl. apply pending_loop_map. Qed.

Definition emptied (i : AsyncNetworkInterface) : AsyncNetworkInterface :=
  mkAsyncNetworkInterface (_interface_of i) [].

(** The fuel of the queue's length is enough: the queue of interface [k] is emptied, and
    nothing else changes. *)
Lemma route_queue_spec fuel r k i : _interfaces r !! k = Some i -> (length (_datagrams_out i) <= fuel)%nat ->
  route_queue fuel r k = Ok (mkRouter (alter emptied k (_interfaces r))).
Proof.
  revert r i. induction fuel as [|fuel IH]; intros [l] [n [|d q]] Hk Hq; cbn in Hk, Hq; cbn; rewrite Hk; cbn;
    try lia; try (by rewrite (alter_fixed emptied _ _ _ Hk)).
  rewrite (IH _ (mkAsyncNetworkInterface n q)); [|cbn; by rewrite list_lookup_alter_eq, Hk|cbn; lia].
  cbn. by rewrite list_alter_alter_eq.
Qed.

Lemma route_from_spec n k r : (k + n)%nat = length (_interfaces r) ->
  route_from n k r = Ok (mkRouter (take k (_interfaces r) ++ map emptied (drop k (_interfaces r)))).
Proof.
  revert k r. induction n as [|n IH]; intros k [l] Hn; cbn in Hn; cbn [route_from].
  - cbn. by rewrite drop_ge, take_ge, app_nil_r by lia.
  - destruct (lookup_lt_is_Some_2 l k) as [i Hi]; [lia|]. cbn [_interfaces]. rewrite Hi.
    rewrite (route_queue_spec _ _ _ i) by done. cbn [rbind _interfaces].
    rewrite IH by (cbn; rewrite length_alter; lia). cbn [_interfaces]. do 2 f_equal.
    rewrite (take_S_r _ _ (emptied i)) by (by rewrite list_lookup_alter_eq, Hi).
    by rewrite drop_alter_lt, take_alter_ge, (drop_S l i k), <- app_assoc by (done || lia).
Qed.

(** Routing returns, every inbound queue is empty afterwards, and the interfaces are what
    they were: in particular no frame is queued for sending on any of them. *)
Lemma route_spec r : route r = Ok (mkRouter (map emptied (_interfaces r))).
Proof. unfold route. by rewrite route_from_spec. Qed.

(** An adapter whose interface has nothing queued, as it is when constructed, never queues
    a frame: a [write] puts nothing on the device and a [read] never gives a segment. *)
Lemma ethernet_write_silent a seg seg' a' tap : _frames_out (_interface a) = [] ->
  ethernet_write a seg = Ok (seg', a', tap) -> tap = [] /\ a' = a.
Proof.
  intros Hq. unfold ethernet_write. destruct (wrap_tcp_in_ip (_base a) seg) as [[s d]|]; cbn; [|done].
  intros [= <- <- <-]. destruct a as [b [e ip q] h]. cbn in *. by subst q.
Qed.

Lemma ethernet_read_silent a device res : _frames_out (_interface a) = [] ->
  ethernet_read a device = Ok res -> res = (None, a, []).
Proof.
  intros Hq. unfold ethernet_read. destruct (frame_parse _ _) as [[p f]|]; cbn; [|done].
  destruct a as [b [e ip q] h]. cbn in *. subst q. by case_bool_decide; cbn; intros [= <-].
Qed.
End interface.
