(* ===== verification/Robustness.v ===== *)
(** * Robustness: no bytes from the network make the stack throw

    The parsers read with [NetParser], whose operations test the size before they
    touch the buffer and report a short packet as a value.  So parsing returns for
    every buffer, as do the adapters' [read]s for every packet; and what a
    connection emits (file [SegmentBounds]) is always serialized. *)

From Stdlib Require Import Strings.String.
From S2P Require Import Prelude WrappingIntegers ByteStream Parser Checksum TCPSegment TCPReceiver TCPSender TCPConnection.
From S2P Require Import SegmentBounds Wire IPv4 Ethernet Adapters NetworkInterface.

(** ** Total parsers *)

Definition total {A : Type} (m : parser A) : Prop := forall p, exists a p', m p = Ok (a, p').

Create HintDb total.

Lemma total_ret {A} (a : A) : total (mret a).
Proof. intros p. by exists a, p. Qed.

Lemma total_bind {A B} (m : parser A) (f : A -> parser B) : total m -> (forall a, total (f a)) -> total (m ≫= f).
Proof.
  intros Hm Hf p. destruct (Hm p) as (a & p' & E). destruct (Hf a p') as (b & p'' & E').
  exists b, p''. unfold mbind, parser_bind. by rewrite E.
Qed.

Lemma total_get_buffer : total get_buffer.
Proof. intros p. by eexists _, _. Qed.

Lemma total_get_error : total get_error.
Proof. intros p. by eexists _, _. Qed.

Lemma total_if {A} (b : bool) (m m' : parser A) : total m -> total m' -> total (if b then m else m').
Proof. by destruct b. Qed.

#[export] Hint Resolve total_ret total_bind total_get_buffer total_get_error total_if : total.

Lemma total_error : total Parser.error.
Proof. unfold Parser.error. auto with total. Qed.

(** [Buffer::at] within the buffer. *)
Lemma at_ok b n : 0 <= n < buffer_size b -> exists v, at_ b n = Ok v.
Proof.
  intros Hn. unfold at_. destruct (str b !! Z.to_nat n) as [c|] eqn:E; [eauto|].
  apply lookup_ge_None in E. unfold buffer_size, size in Hn. lia.
Qed.

Lemma parse_bytes_ok b len todo ret : (todo <= len)%nat -> Z.of_nat len <= buffer_size b ->
  exists v, parse_bytes b len todo ret = Ok v.
Proof.
  revert ret. induction todo as [|todo IH]; intros ret Ht Hl; cbn [parse_bytes]; [eauto|].
  destruct (at_ok b (Z.of_nat (len - S todo))) as [v ->]; [lia|]. simpl. apply IH; lia.
Qed.

Lemma remove_ok b n : n <= buffer_size b -> exists b', buffer_remove_prefix b n = Ok b'.
Proof.
  intros Hn. unfold buffer_remove_prefix. destruct (Z.ltb_spec (buffer_size b) n); [lia|].
  destruct (_storage b); [destruct (_ =? _)|]; eauto.
Qed.

(** After [_check_size] there is an error, or the buffer is long enough. *)
Lemma checked_error n p : exists p', (_check_size n ≫= fun _ => Parser.error) p
    = Ok (negb (bool_decide (_error p' = NoError)), p') /\
  (_error p' = NoError -> n <= buffer_size (_buffer p')).
Proof.
  assert (_check_size n p = if buffer_size (_buffer p) <? n then set_error PacketTooShort p else Ok (tt, p)) as E.
  { unfold _check_size, mbind, parser_bind, get_buffer. cbn [rbind]. by destruct (_ <? _). }
  unfold mbind, parser_bind. rewrite E. destruct (Z.ltb_spec (buffer_size (_buffer p)) n).
  - exists (mkNetParser (_buffer p) PacketTooShort). done.
  - exists p. split; [|intros; lia]. by destruct p as [? []].
Qed.

Lemma total_checked {A} n (m1 m2 : parser A) : total m1 ->
  (forall p, n <= buffer_size (_buffer p) -> exists a p', m2 p = Ok (a, p')) ->
  total (_ ← _check_size n; e ← Parser.error; if (e : bool) then m1 else m2).
Proof.
  intros H1 H2 p. destruct (checked_error n p) as (p' & E & Hp).
  assert (forall k : bool -> parser A, (_ ← _check_size n; e ← Parser.error; k e) p
    = ((_check_size n ≫= fun _ => Parser.error) ≫= k) p) as Hassoc.
  { intros k. unfold mbind, parser_bind. by destruct (_check_size n p) as [[]|]. }
  rewrite Hassoc. unfold mbind at 1, parser_bind at 1. rewrite E. cbn [rbind].
  case_bool_decide; cbn [negb]; [apply H2; auto|apply H1].
Qed.

Lemma total_parse_int len : total (_parse_int len).
Proof.
  apply total_checked; [auto with total|]. intros p Hp. unfold mbind, parser_bind, get_buffer. cbn [rbind].
  destruct (parse_bytes_ok (_buffer p) len len 0) as [v ->]; [lia|done|]. cbn [rbind]. unfold on_buffer.
  destruct (remove_ok (_buffer p) (Z.of_nat len) Hp) as [b ->]. cbn [rbind]. by eexists _, _.
Qed.

Lemma total_remove_prefix n : total (remove_prefix n).
Proof.
  apply total_checked; [auto with total|]. intros p Hp. unfold on_buffer.
  destruct (remove_ok (_buffer p) n Hp) as [b ->]. cbn [rbind]. by eexists _, _.
Qed.

Lemma total_u8 : total u8_.
Proof. apply total_parse_int. Qed.
Lemma total_u16 : total u16_.
Proof. apply total_parse_int. Qed.
Lemma total_u32 : total u32_.
Proof. apply total_parse_int. Qed.
#[export] Hint Resolve total_error total_remove_prefix total_u8 total_u16 total_u32 : total.

Lemma total_octets n : total (parse_octets n).
Proof. induction n; simpl; auto with total. Qed.
#[export] Hint Resolve total_octets : total.

Lemma total_tcp_header : total header_parse.
Proof. unfold header_parse. repeat (apply total_bind; [auto with total|intros ?]). auto 20 with total. Qed.

Lemma total_ipv4_header h : total (ipv4_header_parse h).
Proof. unfold ipv4_header_parse. eauto 30 with total. Qed.

Lemma total_ethernet_header h : total (ethernet_header_parse h).
Proof. unfold ethernet_header_parse. eauto 20 with total. Qed.

Lemma total_arp h : total (arp_fields h).
Proof. unfold arp_fields. eauto 20 with total. Qed.

(** ** Parsing returns *)

Lemma segment_parse_total seg b ck : exists r, segment_parse seg b ck = Ok r.
Proof.
  unfold segment_parse. destruct (negb _); [eauto|]. destruct (total_tcp_header (net_parser b)) as (a & p & ->). simpl. eauto.
Qed.

Lemma datagram_parse_total d b : exists res h buf, datagram_parse d b = Ok (res, mkIPv4Datagram h [buf]).
Proof.
  unfold datagram_parse. destruct (total_ipv4_header (dgram_header d) (net_parser b)) as ([r h] & p & ->). cbn [rbind snd].
  destruct (negb _); by eexists _, _, _.
Qed.

Lemma frame_parse_total f b : exists r, frame_parse f b = Ok r.
Proof. unfold frame_parse. destruct (total_ethernet_header (frame_header f) (net_parser b)) as (a & p & ->). simpl. eauto. Qed.

Lemma arp_parse_total m b : exists r, arp_parse m b = Ok r.
Proof. unfold arp_parse. destruct (total_arp m (net_parser b)) as (a & p & ->). simpl. eauto. Qed.

Section adapters.
Context {A : Type} `{AddressOps A}.

Lemma unwrap_total (a : FdAdapterBase A) h b : exists r, unwrap_tcp_in_ip a (mkIPv4Datagram h [b]) = Ok r.
Proof.
  unfold unwrap_tcp_in_ip. destruct (_ && _); [eauto|]. destruct (_ && _); [eauto|]. destruct (negb _); [eauto|].
  cbn [dgram_payload bufferlist_to_buffer rbind]. destruct (segment_parse_total default_segment b (pseudo_cksum h)) as [[res seg] E].
  cbn [dgram_header]. rewrite E. cbn [rbind].
  destruct (negb _); [eauto|]. destruct (negb _); [eauto|]. destruct (_ && _); [eauto|]. destruct (negb _); eauto.
Qed.

Lemma tun_read_total (a : FdAdapterBase A) data : exists r, tun_read a data = Ok r.
Proof.
  unfold tun_read. destruct (datagram_parse_total default_datagram (buffer_of data)) as (res & h & b & ->). cbn [rbind].
  destruct (negb _); [eauto|]. apply unwrap_total.
Qed.

(** ** Serializing returns *)

Lemma neat_fits seg : neat seg -> fits seg.
Proof. intros [Hh Hd Hp]. split; [done|]. unfold MAX_PAYLOAD_SIZE in Hp. lia. Qed.

(** What the adapter writes for a segment of a connection. *)
Lemma wrap_total (a : FdAdapterBase A) seg : neat seg ->
  exists seg' d l, wrap_tcp_in_ip a seg = Ok (seg', d) /\ datagram_serialize d = Ok l /\
    tun_write a seg = Ok (seg', concatenate l) /\ size (concatenate l) <= 1040.
Proof.
  intros Hn. pose proof Hn as [_ Hd Hp]. unfold MAX_PAYLOAD_SIZE in Hp.
  destruct (tun_write_spec a seg (neat_fits seg Hn)) as (wire & d' & b & c & Hw & Hs & _).
  pose proof Hw as Hw'. unfold tun_write in Hw'. destruct (wrap_tcp_in_ip a seg) as [[seg' d]|] eqn:Ew; [|done].
  cbn [rbind] in Hw'. destruct (datagram_serialize d) as [l|] eqn:El; [|done]. cbn [rbind] in Hw'. injection Hw' as -> <-.
  exists (addressed a seg), d, l. split_and!; try done. lia.
Qed.
End adapters.

(** ** Properties *)

(** C31: No bytes from the network make the stack throw.  Whatever the buffer holds, and
    whatever the object parsed into held, parsing a TCP segment, an IPv4 datagram, an
    Ethernet frame and an ARP message returns a result (an error among them), and so do
    the [read]s of the TUN and of the Ethernet adapter for every packet of the device,
    in every state of the adapter. *)
Theorem parsing_never_throws `{AddressOps A} (b : Buffer) (device : bytes) seg d f m ck
    (tun : FdAdapterBase A) (tap : EthernetAdapter) :
  (exists r, segment_parse seg b ck = Ok r) /\ (exists r, datagram_parse d b = Ok r) /\
  (exists r, frame_parse f b = Ok r) /\ (exists r, arp_parse m b = Ok r) /\
  (exists r, tun_read tun device = Ok r) /\ (exists r, ethernet_read tap device = Ok r).
Proof.
  split_and!; [apply segment_parse_total| |apply frame_parse_total|apply arp_parse_total|apply tun_read_total|].
  - destruct (datagram_parse_total d b) as (res & h & buf & ->). eauto.
  - unfold ethernet_read. destruct (frame_parse_total default_frame (buffer_of device)) as [[res fr] ->]. cbn [rbind].
    destruct (negb _); eauto.
Qed.
