(* ===== verification/Benchmark.v ===== *)
(** * Benchmark: two connections in one program

    Models [apps/tcp_benchmark.cc]: two connections exchange their segments directly,
    in order or reversed, until one has received what the other was given; the program
    fails when the strings differ.  The string (of random bytes) and the numbers that
    the random device gave the two connections are arguments; measuring time and
    printing are left out.

    The benchmark never fails: no call of a connection throws, no write is cut short, and
    what has been received when the stream ends is what was sent.  It is an execution of
    the network of file [EndToEnd].  That it ends is shown in file [BenchmarkEnds]. *)

From Stdlib Require Import Strings.String.
From stdpp Require Import relations.
From S2P Require Import Prelude WrappingIntegers ByteStream Parser TCPSegment TCPReceiver TCPSender TCPConnection.
From S2P Require Import Transmission EndToEnd Hosts Address.

(** ** The program *)

Definition len : Z := 100 * 1024 * 1024.

(** [while (not x.segments_out().empty())] *)
Fixpoint take_segments (fuel : nat) (x : TCPConnection) (segments : list TCPSegment)
    : result (TCPConnection * list TCPSegment) :=
  match TCPConnection._segments_out x, fuel with
  | [], _ => Ok (x, segments)
  | seg :: rest, S fuel => take_segments fuel (set_out x rest) (segments ++ [seg])
  | _, O => Throw OutOfFuel
  end.

Fixpoint receive_segments (y : TCPConnection) (segments : list TCPSegment) : result TCPConnection :=
  match segments with
  | [] => Ok y
  | seg :: rest => let! y := segment_received y seg in receive_segments y rest
  end.

(** The vector is empty before and after. *)
Definition move_segments (x y : TCPConnection) (segments : list TCPSegment) (reorder : bool)
    : result (TCPConnection * TCPConnection * list TCPSegment) :=
  let! (x, segments) := take_segments (length (TCPConnection._segments_out x)) x segments in
  let! y := receive_segments y (if reorder then reverse segments else segments) in
  Ok (x, y, []).

(** The variables that the loop captures. *)
Record Bench : Type := mkBench {
  b_x : TCPConnection;
  b_y : TCPConnection;
  bytes_to_send : Buffer;
  x_closed : bool;
  string_received : bytes
}.

(** [while (bytes_to_send.size() and x.remaining_outbound_capacity())] *)
Fixpoint write_input (fuel : nat) (x : TCPConnection) (bytes_to_send : Buffer) : result (TCPConnection * Buffer) :=
  if negb (buffer_size bytes_to_send =? 0) && negb (remaining_outbound_capacity x =? 0) then
    match fuel with
    | O => Throw OutOfFuel
    | S fuel =>
        let want := Z.min (remaining_outbound_capacity x) (buffer_size bytes_to_send) in
        let! (x, written) := TCPConnection.write x (ztake want (str bytes_to_send)) in
        if negb (want =? written)
        then Throw (RuntimeError ("want = " ++ to_string want ++ ", written = " ++ to_string written)) else
        let! bytes_to_send := buffer_remove_prefix bytes_to_send written in
        write_input fuel x bytes_to_send
    end
  else Ok (x, bytes_to_send).

(** [y.inbound_stream().read(n)] *)
Definition read_inbound (y : TCPConnection) (n : Z) : TCPConnection * bytes :=
  let '(o, data) := ByteStream.read (inbound_stream y) n in
  (set_receiver y (with_stream_out (TCPConnection._receiver y) o), data).

(** The closure [loop]. *)
Definition loop (reorder : bool) (s : Bench) : result Bench :=
  let! (x, to_send) := write_input (Z.to_nat (buffer_size (bytes_to_send s))) (b_x s) (bytes_to_send s) in
  let! (x, closed) :=
    (if (buffer_size to_send =? 0) && negb (x_closed s)
     then let! x := end_input_stream x in Ok (x, true)
     else Ok (x, x_closed s)) in
  let! (x, y, segments) := move_segments x (b_y s) [] reorder in
  let! (y, x, _) := move_segments y x segments false in
  let available_output := ByteStream.buffer_size (inbound_stream y) in
  let '(y, received) :=
    if 0 <? available_output
    then let '(y, data) := read_inbound y available_output in (y, string_received s ++ data)
    else (y, string_received s) in
  Ok (mkBench (tick x 1000) (tick y 1000) to_send closed received).

(** [while (condition) loop();] for at most [turns] turns; [false] when the condition
    still holds. *)
Fixpoint loop_while (turns : nat) (condition : Bench -> bool) (reorder : bool) (s : Bench) : result (bool * Bench) :=
  if condition s then
    match turns with
    | O => Ok (false, s)
    | S turns => let! s := loop reorder s in loop_while turns condition reorder s
    end
  else Ok (true, s).

(** [main_loop], watched for [turns] turns of each loop: whether it has ended.  [rx]
    and [ry] are the random numbers of the two connections. *)
Definition main_loop (turns : nat) (reorder : bool) (rx ry : Z) (string_to_send : bytes) : result bool :=
  let config := default_config in
  let x := construct_connection config rx in
  let y := construct_connection config ry in
  let! x := connect x in
  let! y := end_input_stream y in
  let! (ended, s) := loop_while turns (fun s => negb (eof (inbound_stream (b_y s)))) reorder
                       (mkBench x y (buffer_of string_to_send) false []) in
  if negb ended then Ok false else
  if negb (bool_decide (string_received s = string_to_send))
  then Throw (RuntimeError "strings sent vs. received don't match") else
  let! (ended, _) := loop_while turns (fun s => active (b_x s) || active (b_y s)) reorder s in
  Ok ended.

(** [main]: the status the program ends with (0 is success), [None] when it has not ended in the turns it
    is watched for.  Each [main_loop] draws the numbers of its connections and its string. *)
Definition benchmark_main (turns : nat) (first second : Z * Z * bytes) : option Z :=
  let '(rx, ry, string_to_send) := first in
  let '(rx', ry', string_to_send') := second in
  match (let! ended := main_loop turns false rx ry string_to_send in
         if negb ended then Ok false else main_loop turns true rx' ry' string_to_send') with
  | Ok true => Some 0
  | Ok false => None
  | Throw _ => Some 1
  end.

(** ** It never fails *)

Section exchange.
Context (WA WB : bytes) (cfgA cfgB : TCPConfig) (rA rB : Z) (isnA isnB : WrappingInt32).
Context (HWA : size WA < 2147400000) (HWB : size WB < 2147400000).
Context (HA : config_ok cfgA rA isnA) (HB : config_ok cfgB rB isnB).

Abbreviation good := (net_ok WA WB cfgA cfgB isnA isnB).

Lemma good_step a b a' : good (a, b) -> host_step WA (h_wire b) a a' -> good (a', b).
Proof. intros Hg Hs. eapply (net_step_ok WA WB cfgA cfgB rA rB isnA isnB); try done. by constructor. Qed.

Lemma good_calls a b : good (a, b) ->
  (exists c', connect (h_conn a) = Ok c') /\
  (forall data, out_end (h_conn a) = false -> data = slice WA (size (h_written a)) (size data) ->
     exists r, TCPConnection.write (h_conn a) data = Ok r) /\
  (h_written a = WA -> exists c', end_input_stream (h_conn a) = Ok c') /\
  (forall seg, seg ∈ h_wire b -> exists c', segment_received (h_conn a) seg = Ok c').
Proof. by apply (net_ok_calls WA WB cfgA cfgB rA rB). Qed.

Lemma receive_spec segs a b : good (a, b) -> Forall (fun seg => seg ∈ h_wire b) segs ->
  exists c, receive_segments (h_conn a) segs = Ok c /\ good (mkHost c (h_written a) (h_read a) (h_wire a), b) /\
    out_end c = out_end (h_conn a).
Proof.
  revert a. induction segs as [|seg segs IH]; intros a Hg Hs; simpl; [exists (h_conn a); by destruct a|].
  inversion Hs as [|? ? H1 H2]; simplify_eq. destruct (good_calls a b Hg) as (_ & _ & _ & Hr).
  destruct (Hr seg H1) as [c Ec]. rewrite Ec. simpl. pose proof (good_step _ _ _ Hg (hs_receive WA (h_wire b) a seg c H1 Ec)) as Hg'.
  destruct (IH _ Hg' H2) as (c' & E & Hg2 & Ho). exists c'. split_and!; [exact E|exact Hg2|].
  rewrite Ho. simpl. by eapply out_end_segment.
Qed.

Lemma take_spec fuel x segs : (length (TCPConnection._segments_out x) <= fuel)%nat ->
  take_segments fuel x segs = Ok (set_out x [], segs ++ TCPConnection._segments_out x).
Proof.
  revert x segs. induction fuel as [|fuel IH]; intros x segs Hf; simpl;
    destruct (TCPConnection._segments_out x) as [|seg rest] eqn:Eq.
  - rewrite app_nil_r. by destruct x; simpl in *; subst.
  - simpl in Hf. lia.
  - rewrite app_nil_r. by destruct x; simpl in *; subst.
  - rewrite IH by (simpl in *; lia). simpl. by rewrite <- app_assoc.
Qed.

Lemma outbound_capacity a b : good (a, b) -> 0 <= remaining_outbound_capacity (h_conn a).
Proof.
  intros [Ha _]. destruct (co_snd _ _ _ _ _ _ _ _ _ _ _ (ho_conn _ _ _ _ _ _ _ _ _ Ha)) as (sent & k & Hinv).
  apply (wf_cap _ (si_stream _ _ _ _ Hinv)).
Qed.

(** One side writes the input. *)
Lemma write_input_spec fuel a b buf : good (a, b) -> buf_ok buf -> h_written a ++ str buf = WA ->
  (str buf = [] \/ out_end (h_conn a) = false) -> size (str buf) <= Z.of_nat fuel ->
  exists x buf', write_input fuel (h_conn a) buf = Ok (x, buf') /\ buf_ok buf' /\ out_end x = out_end (h_conn a) /\
    exists w, w ++ str buf' = WA /\ good (mkHost x w (h_read a) (h_wire a), b) /\ (str buf = [] -> str buf' = []).
Proof.
  revert a buf. induction fuel as [|fuel IH]; intros a buf Hg Hb Hw Ho Hf; cbn [write_input]; unfold buffer_size;
    pose proof (size_nonneg (str buf)) as Hpos.
  { assert (size (str buf) = 0) as -> by lia. simpl. exists (h_conn a), buf. split_and!; try done.
    exists (h_written a). split_and!; [done|by destruct a|done]. }
  destruct (_ && _) eqn:Ec.
  2:{ exists (h_conn a), buf. split_and!; try done. exists (h_written a). split_and!; [done|by destruct a|done]. }
  apply andb_true_iff in Ec as [Hs%negb_true_iff%Z.eqb_neq Hc%negb_true_iff%Z.eqb_neq].
  destruct Ho as [Ho|Ho]; [rewrite Ho in Hs; done|]. set (want := Z.min _ _).
  pose proof (outbound_capacity a b Hg) as Hcap.
  set (data := ztake want (str buf)).
  assert (size data = want) as Hd by (unfold data; rewrite size_ztake; lia).
  assert (data = slice WA (size (h_written a)) (size data)) as Hsl.
  { rewrite Hd, <- Hw. unfold slice. by rewrite zdrop_app. }
  destruct (good_calls a b Hg) as (_ & Hwr & _). destruct (Hwr data Ho Hsl) as [[x n] Ew]. rewrite Ew. simpl.
  pose proof (write_amount _ _ _ _ Ew) as Hn. rewrite Hd, Z.min_r in Hn by lia. subst n. rewrite Z.eqb_refl. simpl.
  destruct (buffer_remove_prefix_spec buf want Hb) as (buf' & -> & Hb' & Es); [lia|]. simpl.
  pose proof (good_step _ _ _ Hg (hs_write WA (h_wire b) a data x want Ho Hsl Ew)) as Hg'.
  rewrite (ztake_all want data) in Hg' by lia.
  destruct (IH _ buf' Hg' Hb') as (x' & buf2 & E & Hb2 & Ho2 & w & Hw2 & Hg2 & _); simpl.
  - rewrite Es, <- app_assoc. unfold data. by rewrite ztake_zdrop.
  - right. by rewrite (out_end_write _ _ _ _ Ew).
  - rewrite Es, size_zdrop by lia. lia.
  - exists x', buf2. simpl in *. split_and!; [exact E|done|by rewrite Ho2; eapply out_end_write|]. exists w. split_and!; try done.
    intros E0. rewrite E0 in Hs. done.
Qed.
End exchange.

(** A buffer holds no more than the whole stream. *)
Lemma inbound_size WA WB cfgA cfgB isnA isnB : size WB < 2147400000 -> forall a b, net_ok WA WB cfgA cfgB isnA isnB (a, b) ->
  0 <= ByteStream.buffer_size (inbound_stream (h_conn a)) <= size WB.
Proof.
  intros HWB a b [Ha _]. destruct (host_delivers _ _ _ _ _ _ _ _ _ HWB Ha) as [E _]. simpl in E.
  apply (f_equal size) in E. rewrite size_app in E. unfold ByteStream.buffer_size.
  pose proof (size_nonneg (h_read a)). pose proof (size_nonneg (_que (inbound_stream (h_conn a)))).
  set (n := bytes_written _) in E. destruct (Z.le_gt_cases 0 n).
  - rewrite size_ztake in E by done. lia.
  - rewrite ztake_0 in E by lia. rewrite size_nil in E. pose proof (size_nonneg WB). lia.
Qed.

Lemma default_config_ok : tcp_config_ok default_config.
Proof. by constructor. Qed.

(** The segments of one side are moved to the other. *)
Lemma move_spec WA WB cfgA cfgB rA rB isnA isnB a b reorder :
  size WA < 2147400000 -> size WB < 2147400000 -> config_ok cfgA rA isnA -> config_ok cfgB rB isnB ->
  net_ok WA WB cfgA cfgB isnA isnB (a, b) ->
  exists x y wire, move_segments (h_conn a) (h_conn b) [] reorder = Ok (x, y, []) /\
    net_ok WA WB cfgA cfgB isnA isnB (mkHost x (h_written a) (h_read a) wire, mkHost y (h_written b) (h_read b) (h_wire b)) /\
    out_end x = out_end (h_conn a) /\ out_end y = out_end (h_conn b).
Proof.
  intros HWA HWB HA HB Hg. unfold move_segments. rewrite take_spec by done. simpl. set (q := TCPConnection._segments_out (h_conn a)).
  assert (host_step WA (h_wire b) a (mkHost (set_out (h_conn a) []) (h_written a) (h_read a) (h_wire a ++ q))) as Hstep
    by (apply hs_transmit; by rewrite app_nil_r).
  pose proof (good_step WA WB cfgA cfgB rA rB isnA isnB HWA HWB HA HB _ _ _ Hg Hstep) as Hg1.
  apply net_ok_swap in Hg1.
  destruct (receive_spec WB WA cfgB cfgA rB rA isnB isnA HWB HWA HB HA (if reorder then reverse q else q) _ _ Hg1)
    as (c & Ec & Hg2 & Ho).
  { apply Forall_forall. intros seg Hin. apply elem_of_app. right. destruct reorder; [by rewrite elem_of_reverse in Hin|done]. }
  rewrite Ec. simpl. eexists _, c, _. split; [done|]. split_and!; [by apply net_ok_swap|done|exact Ho].
Qed.

Section benchmark.
Context (string_to_send : bytes) (rx ry : Z) (isnx isny : WrappingInt32).
Context (Hsize : size string_to_send < 2147400000).
Context (Hx : config_ok default_config rx isnx) (Hy : config_ok default_config ry isny).

Abbreviation good := (net_ok string_to_send [] default_config default_config isnx isny).

Lemma nothing_to_send : size (@nil byte) < 2147400000.
Proof. done. Qed.

(** The two connections are those of hosts; what is left to send and what has come are
    what they say. *)
Record benching (s : Bench) : Prop := {
  bn_net : exists wa ra qa wb qb, good (mkHost (b_x s) wa ra qa, mkHost (b_y s) wb (string_received s) qb) /\
             wa ++ str (bytes_to_send s) = string_to_send;
  bn_buf : buf_ok (bytes_to_send s);
  bn_open : x_closed s = false -> out_end (b_x s) = false;
  bn_closed : x_closed s = true -> str (bytes_to_send s) = []
}.

Lemma loop_spec reorder s : benching s -> exists s', loop reorder s = Ok s' /\ benching s'.
Proof.
  intros [(wa & ra & qa & wb & qb & Hg & Hw) Hb Ho Hc]. unfold loop. pose proof nothing_to_send as Hn.
  pose proof (size_nonneg (str (bytes_to_send s))) as Hpos.
  destruct (write_input_spec string_to_send [] default_config default_config rx ry isnx isny Hsize Hn Hx Hy
    (Z.to_nat (buffer_size (bytes_to_send s))) _ _ (bytes_to_send s) Hg Hb Hw) as (x1 & buf & E1 & Hb1 & Ho1 & w1 & Hw1 & Hg1 & He1).
  { destruct (x_closed s); auto. }
  { unfold buffer_size. lia. }
  cbn [h_conn h_read h_wire] in *. rewrite E1. cbn [rbind].
  (* the end of the input *)
  set (m := if (buffer_size buf =? 0) && negb (x_closed s) then _ else _).
  assert (exists x2 closed, m = Ok (x2, closed) /\ good (mkHost x2 w1 ra qa, mkHost (b_y s) wb (string_received s) qb) /\
    (closed = false -> out_end x2 = false) /\ (closed = true -> str buf = [])) as (x2 & closed & E2 & Hg2 & Ho2 & Hc2).
  { unfold m. destruct (Z.eqb_spec (buffer_size buf) 0) as [Hz|_], (x_closed s) eqn:Ecl; cbn [andb negb].
    1,3,4: eexists _, _; split_and!; [done|exact Hg1|intros; rewrite Ho1; auto|auto].
    assert (str buf = []) as E0 by by apply size_zero. rewrite E0, app_nil_r in Hw1.
    destruct (good_calls string_to_send [] default_config default_config rx ry isnx isny Hsize Hn Hx Hy _ _ Hg1) as (_ & _ & Hend & _).
    destruct (Hend Hw1) as [c Ec]. cbn [h_conn] in Ec. rewrite Ec. eexists _, _. split_and!; [done| |done|done].
    exact (good_step string_to_send [] default_config default_config rx ry isnx isny Hsize Hn Hx Hy _ _ _ Hg1
      (hs_end string_to_send qb (mkHost x1 w1 ra qa) c Hw1 Ec)). }
  rewrite E2. cbn [rbind].
  (* the segments, one way and the other *)
  destruct (move_spec _ _ _ _ rx ry _ _ _ _ reorder Hsize Hn Hx Hy Hg2) as (x3 & y3 & q3 & E3 & Hg3 & Ho3 & _).
  cbn [h_conn h_read h_wire h_written] in *. rewrite E3. cbn [rbind]. apply net_ok_swap in Hg3.
  destruct (move_spec _ _ _ _ ry rx _ _ _ _ false Hn Hsize Hy Hx Hg3) as (y4 & x4 & q4 & E4 & Hg4 & _ & Ho4).
  cbn [h_conn h_read h_wire h_written] in *. rewrite E4. cbn [rbind].
  (* what has come is read, and time passes *)
  set (avail := ByteStream.buffer_size _). set (yr := if 0 <? avail then _ else _).
  assert (good (mkHost x4 w1 ra q3, mkHost (fst yr) wb (snd yr) q4)) as Hg5.
  { apply net_ok_swap. unfold yr. destruct (0 <? avail) eqn:Ea; [|exact Hg4]. apply Z.ltb_lt in Ea.
    refine (good_step [] string_to_send default_config default_config ry rx isny isnx Hn Hsize Hy Hx _ _ _ Hg4
      (hs_read [] q3 (mkHost y4 wb (string_received s) q4) avail _)).
    pose proof (inbound_size [] string_to_send default_config default_config isny isnx Hsize _ _ Hg4) as Hin. cbn [h_conn] in Hin.
    fold avail in Hin. unfold is_u64. lia. }
  destruct yr as [y5 received]. eexists. split; [done|]. cbn [fst snd] in Hg5.
  constructor; cbn [b_x b_y bytes_to_send x_closed string_received]; [|done| |done].
  - exists w1, ra, q3, wb, q4. split; [|done].
    pose proof (good_step string_to_send [] default_config default_config rx ry isnx isny Hsize Hn Hx Hy _ _ _ Hg5
      (hs_tick string_to_send q4 _ 1000 ltac:(by unfold is_u64))) as Hg6. apply net_ok_swap in Hg6. apply net_ok_swap.
    exact (good_step [] string_to_send default_config default_config ry rx isny isnx Hn Hsize Hy Hx _ _ _ Hg6
      (hs_tick [] q3 _ 1000 ltac:(by unfold is_u64))).
  - intros Hcl. rewrite out_end_tick, Ho4, Ho3. auto.
Qed.

Lemma loop_while_spec turns condition reorder s : benching s ->
  exists ended s', loop_while turns condition reorder s = Ok (ended, s') /\ benching s' /\ (ended = true -> condition s' = false).
Proof.
  revert s. induction turns as [|turns IH]; intros s Hs; cbn [loop_while]; destruct (condition s) eqn:Ec.
  - by exists false, s.
  - by exists true, s.
  - destruct (loop_spec reorder s Hs) as (s1 & -> & Hs1). by apply IH.
  - by exists true, s.
Qed.

Lemma bench_start : exists x y, connect (construct_connection default_config rx) = Ok x /\
  end_input_stream (construct_connection default_config ry) = Ok y /\
  benching (mkBench x y (buffer_of string_to_send) false []).
Proof.
  pose proof nothing_to_send as Hn.
  pose proof (net_reachable_ok string_to_send [] default_config default_config rx ry isnx isny Hsize Hn Hx Hy _ _ (rtc_refl _ _)) as Hg.
  destruct (good_calls string_to_send [] default_config default_config rx ry isnx isny Hsize Hn Hx Hy _ _ Hg) as [[x Ex] _].
  pose proof (good_step string_to_send [] default_config default_config rx ry isnx isny Hsize Hn Hx Hy _ _ _ Hg (hs_connect _ _ _ _ Ex)) as Hg1.
  apply net_ok_swap in Hg1.
  destruct (good_calls [] string_to_send default_config default_config ry rx isny isnx Hn Hsize Hy Hx _ _ Hg1) as (_ & _ & Hend & _).
  destruct (Hend eq_refl) as [y Ey]. exists x, y. split_and!; [exact Ex|exact Ey|].
  pose proof (good_step [] string_to_send default_config default_config ry rx isny isnx Hn Hsize Hy Hx _ _ _ Hg1
    (hs_end [] _ (start default_config ry) y eq_refl Ey)) as Hg2.
  constructor; simpl; [|unfold buf_ok; simpl; pose proof (size_nonneg string_to_send); lia| |done].
  - eexists [], [], [], [], []. split; [by apply net_ok_swap|done].
  - intros _. by rewrite (out_end_connect _ _ Ex).
Qed.
End benchmark.

(** No call of a connection throws, no write is cut short, and what has been received
    when the stream has ended is what was sent. *)
Lemma main_loop_never_fails turns reorder rx ry string_to_send : size string_to_send < 2147400000 ->
  exists ended, main_loop turns reorder rx ry string_to_send = Ok ended.
Proof.
  intros Hsize. destruct (config_isn default_config rx default_config_ok) as [ix Hx].
  destruct (config_isn default_config ry default_config_ok) as [iy Hy]. unfold main_loop.
  destruct (bench_start string_to_send rx ry ix iy Hsize Hx Hy) as (x & y & -> & -> & Hb). cbn [rbind].
  set (c1 := fun s : Bench => _).
  destruct (loop_while_spec string_to_send rx ry ix iy Hsize Hx Hy turns c1 reorder _ Hb) as (ended & s & -> & Hs & He). cbn [rbind].
  destruct ended; [|by exists false]. specialize (He eq_refl). unfold c1 in He. apply negb_false_iff in He. cbn [negb].
  assert (string_received s = string_to_send) as Er.
  { destruct Hs as [(wa & ra & qa & wb & qb & [_ Hg] & _) _ _ _].
    destruct (delivered _ _ _ _ _ _ _ _ _ Hsize Hg) as [_ Hd]. by apply (Hd (b_y s)). }
  rewrite bool_decide_true by done. cbn [negb].
  destruct (loop_while_spec string_to_send rx ry ix iy Hsize Hx Hy turns (fun s => active (b_x s) || active (b_y s)) reorder s Hs)
    as (ended & s' & -> & _). by exists ended.
Qed.

