(* ===== verification/Completion.v ===== *)
(** * Completion: what one connection does while everything arrives

    The two connections of file [Benchmark] exchange their segments without loss.  This
    file is about one of them: what a segment it receives, a write or a tick makes of its
    sender, of the segments it has not had acknowledged and of those it has queued; that
    the acknowledgments it queues only grow; and that it does not give up meanwhile, the
    retransmission counter staying under its limit.  File [Exchange] puts the two
    together. *)

From S2P Require Import Prelude WrappingIntegers ByteStream Parser TCPSegment ReassemblerList Reassembly TCPReceiver.
From S2P Require Import TCPSender Transmission TCPConnection EndToEnd Hosts Benchmark.

(** ** Segments *)

Definition norst (seg : TCPSegment) : Prop := rst (_header seg) = false.

(** Two segments that occupy the same sequence numbers with the same contents. *)
Definition same_text (seg seg' : TCPSegment) : Prop :=
  seqno (_header seg) = seqno (_header seg') /\ syn (_header seg) = syn (_header seg') /\
  fin (_header seg) = fin (_header seg') /\ _payload seg = _payload seg'.

Lemma stamp_same_text r seg : same_text (stamp r seg) seg.
Proof. unfold stamp. by destruct (receiver_ackno r). Qed.

Lemma stamp_norst r seg : norst seg -> norst (stamp r seg).
Proof. unfold stamp. by destruct (receiver_ackno r). Qed.

Lemma stamp_length r seg : length_in_sequence_space (stamp r seg) = length_in_sequence_space seg.
Proof. unfold stamp. by destruct (receiver_ackno r). Qed.

Lemma same_text_length seg seg' : same_text seg seg' -> length_in_sequence_space seg = length_in_sequence_space seg'.
Proof. intros (_ & E1 & E2 & E3). unfold length_in_sequence_space. by rewrite E1, E2, E3. Qed.

Definition on_its_way (seg : TCPSegment) (q : list TCPSegment) : Prop := exists seg', seg' ∈ q /\ same_text seg' seg.

Lemma on_its_way_app seg q q' : on_its_way seg q -> on_its_way seg (q ++ q').
Proof. intros (x & Hx & E). exists x. split; [set_solver|done]. Qed.

Lemma on_its_way_stamped r seg q q' : seg ∈ q' -> on_its_way seg (q ++ map (stamp r) q').
Proof.
  intros Hin. exists (stamp r seg). split; [|apply stamp_same_text]. apply elem_of_app. right. by apply list_elem_of_fmap_2.
Qed.

(** ** The sender *)

Section sender.
Implicit Types (s : TCPSender).

Lemma next_segment_keeps s n : let '(s', seg, _) := next_segment s n in
  _wait_ack s' = _wait_ack s /\ _timer s' = _timer s /\ TCPSender._segments_out s' = TCPSender._segments_out s /\ norst seg.
Proof. unfold next_segment. repeat case_match; simplify_eq; done. Qed.

(** [fill_window] sends no reset and leaves a running timer alone. *)
Lemma fill_loop_calm fuel s n s' : fill_loop fuel s n = Ok s' ->
  (Forall norst (_wait_ack s) -> Forall norst (_wait_ack s')) /\
  _init_timeout (_timer s') = _init_timeout (_timer s) /\
  (started (_timer s) = true -> _timer s' = _timer s).
Proof.
  revert s n. induction fuel as [|fuel IH]; intros s n; cbn [fill_loop]; (destruct (_ && _); [|by intros [= <-]]); [done|].
  pose proof (next_segment_keeps s n) as Hk. destruct (next_segment s n) as [[s1 seg] len]. destruct Hk as (Ew & Et & _ & Hr).
  destruct (0 <? len); [|intros [= <-]; by rewrite Ew, Et].
  set (s2 := send_segment s1 seg len).
  assert ((Forall norst (_wait_ack s) -> Forall norst (_wait_ack s2)) /\ _init_timeout (_timer s2) = _init_timeout (_timer s) /\
    (started (_timer s) = true -> _timer s2 = _timer s)) as (H1 & H2 & H3).
  { unfold s2. cbn. rewrite Ew, Et. split_and!; [intros; apply Forall_app; split; [done|by constructor]|by destruct (started _)|by intros ->]. }
  destruct (_ =? 0); [intros [= <-]; done|]. intros E. apply IH in E as (I1 & I2 & I3). split_and!; [auto|congruence|].
  intros Hs. rewrite I3; [auto|]. by rewrite H3.
Qed.

Lemma fill_window_calm s s' : fill_window s = Ok s' ->
  (Forall norst (_wait_ack s) -> Forall norst (_wait_ack s')) /\
  _init_timeout (_timer s') = _init_timeout (_timer s) /\
  (started (_timer s) = true -> _timer s' = _timer s).
Proof.
  unfold fill_window. destruct (_set_fin s); [by intros [= <-]|]. destruct (_ <=? _); [by intros [= <-]|]. apply fill_loop_calm.
Qed.

Lemma fill_window_ackno s s' : fill_window s = Ok s' -> _ackno s' = _ackno s.
Proof.
  assert (forall fuel s n, fill_loop fuel s n = Ok s' -> _ackno s' = _ackno s) as Hloop.
  { clear s. induction fuel as [|fuel IH]; intros s n; cbn [fill_loop]; (destruct (_ && _); [|by intros [= <-]]); [done|].
    assert (_ackno (fst (fst (next_segment s n))) = _ackno s) as Ea by (unfold next_segment; repeat case_match; done).
    destruct (next_segment s n) as [[s1 seg] len]. cbn [fst] in Ea. destruct (0 <? len); [|by intros [= <-]].
    destruct (_ =? 0); [intros [= <-]; done|]. intros E. apply IH in E. rewrite E. exact Ea. }
  unfold fill_window. destruct (_set_fin s); [by intros [= <-]|]. destruct (_ <=? _); [by intros [= <-]|]. apply Hloop.
Qed.

Lemma layout_lengths isn p l e : layout isn p l e -> Forall (fun seg => 0 < length_in_sequence_space seg) l.
Proof. revert p. induction l as [|seg l IH]; intros p; [constructor|]. intros (_ & _ & _ & _ & ? & ?). constructor; eauto. Qed.

Lemma sinv_lengths s w sent a : sinv s w sent a -> Forall (fun seg => 0 < length_in_sequence_space seg) sent.
Proof. intros H. eapply layout_lengths, (si_layout _ _ _ _ H). Qed.

(** The timer has just been restarted with the initial timeout. *)
Definition fresh (t : Timer) : Prop := _cur_time t = 0 /\ _timeout t = _init_timeout t.

(** What the sender has sent first and not had acknowledged is on its way, or will be
    at the next tick. *)
Definition front_moving s (q : list TCPSegment) : Prop :=
  match _wait_ack s with [] => True | f :: _ => on_its_way f q \/ fresh (_timer s) end.

Definition front_sent s (q : list TCPSegment) : Prop :=
  match _wait_ack s with [] => True | f :: _ => on_its_way f q end.

(** What holds of the sender all along; [known] is that the peer has seen its SYN. *)
Record calm (known : Prop) s : Prop := {
  cm_norst : Forall norst (_wait_ack s);
  cm_init : _init_timeout (_timer s) = 1000;
  cm_early : edge s <= 1 /\ _next_seqno s <= 1 \/ known;
  cm_idle : _wait_ack s = [] -> _consecutive_transmit_num s = 0;
  cm_retx : 0 <= _consecutive_transmit_num s <= 1
}.

(** Nothing more can be sent. *)
Definition filled_up s : Prop :=
  _set_fin s = true \/ edge s <= _next_seqno s \/ (_que (_stream s) = [] /\ _end (_stream s) = false).

(** Only the stream and the outbound queue differ. *)
Lemma calm_ext known s s' : _wait_ack s' = _wait_ack s -> _timer s' = _timer s -> edge s' = edge s ->
  _next_seqno s' = _next_seqno s -> _consecutive_transmit_num s' = _consecutive_transmit_num s -> calm known s -> calm known s'.
Proof. intros Ew Et Ee En Ec []. constructor; by rewrite ?Ew, ?Et, ?Ee, ?En, ?Ec. Qed.

Lemma front_moving_cons s q : front_sent s q -> front_moving s q.
Proof. unfold front_sent, front_moving. destruct (_wait_ack s); auto. Qed.

Lemma calm_fill known s w sent a r q : calm known s -> sinv s w sent a -> size w < 9223372036854775808 ->
  exists s' new, fill_window s = Ok s' /\ sinv s' w (sent ++ new) a /\ fill_post s s' new /\
    calm known s' /\ filled_up s' /\ Forall norst new /\ Forall (fun seg => 0 < length_in_sequence_space seg) new /\
    (front_moving s q -> front_moving s' (q ++ map (stamp r) new)) /\
    (front_sent s q -> front_sent s' (q ++ map (stamp r) new)).
Proof.
  intros [Hr Hi He Hd Hn] Hinv Hw. destruct (fill_window_spec s w sent a Hinv Hw) as (s' & new & Hf & Hinv' & Hpost & Hle & Hfull).
  destruct (fill_window_calm s s' Hf) as (Hr' & Hi' & Ht). pose proof Hpost as [_ Ew En _ Ea Ewin Enum _].
  assert (edge s' = edge s) as Ee by (unfold edge; by rewrite Ea, Ewin).
  assert (started (_timer s) = negb (is_nil (_wait_ack s))) as Hs by apply (tm_active _ _ _ (si_timer _ _ _ _ Hinv)).
  assert (Forall norst new) as Hnew by (specialize (Hr' Hr); rewrite Ew in Hr'; by apply Forall_app in Hr' as [_ Hr']).
  exists s', new. split_and!; try done.
  - constructor; [auto|congruence|rewrite Ee; destruct He; [left; lia|by right]| |by rewrite Enum].
    rewrite Ew, Enum. intros [E _]%app_eq_nil. auto.
  - unfold filled_up. rewrite Ee. done.
  - pose proof (sinv_lengths _ _ _ _ Hinv') as Hl. by apply Forall_app in Hl as [_ Hl].
  - unfold front_moving. rewrite Ew. destruct (_wait_ack s) as [|f l]; simpl.
    + intros _. destruct new as [|f l]; [done|]. left. apply on_its_way_stamped. by left.
    + rewrite Ht by done. intros [?|?]; [left; by apply on_its_way_app|by right].
  - unfold front_sent. rewrite Ew. destruct (_wait_ack s) as [|f l]; simpl.
    + intros _. destruct new as [|f l]; [done|]. apply on_its_way_stamped. by left.
    + apply on_its_way_app.
Qed.

(** An acknowledgment restarts the timer exactly if it removes something. *)
Lemma pop_acked_flag isn c k q f : let '(q', _, b) := pop_acked isn c k q f false in b = false -> q' = q.
Proof.
  assert (forall q f, snd (pop_acked isn c k q f true) = true) as Ht.
  { clear. induction q as [|seg q IH]; intros f; simpl; [done|]. destruct (_ <=? _); [apply IH|done]. }
  destruct q as [|seg q]; simpl; [done|]. destruct (_ <=? _); [|done].
  specialize (Ht q (u64 (f - length_in_sequence_space seg))). destruct (pop_acked isn c k q _ true) as [[q' f'] b]. simpl in Ht. by subst b.
Qed.

Lemma ack_received_timer s a win : let s' := ack_received s a win in
  _init_timeout (_timer s') = _init_timeout (_timer s) /\
  (_wait_ack s' = _wait_ack s /\ _timer s' = _timer s \/ _wait_ack s' = [] \/ fresh (_timer s')).
Proof.
  cbv zeta. unfold ack_received. destruct (_ <? _); [by auto|].
  pose proof (pop_acked_flag (_isn s) (_next_seqno s) (unwrap a (_isn s) (_next_seqno s)) (_wait_ack s) (_flight_bytes s)) as Hp.
  destruct (pop_acked _ _ _ _ _ _) as [[q f] b]. destruct b.
  - destruct q; cbn; (split; [done|right]); [by left|by right].
  - rewrite (Hp eq_refl). cbn. auto.
Qed.

Lemma calm_ack (known : Prop) s w sent a ackno k win : calm known s -> known -> sinv s w sent a -> size w < 9223372036854775808 ->
  acks s ackno k -> is_u16 win ->
  let s' := ack_received s ackno win in
  sinv s' w sent (Z.max a k) /\ ack_post s s' k win /\ calm known s' /\ (forall q, front_moving s q -> front_moving s' q) /\
  (_wait_ack s' = _wait_ack s /\ _consecutive_transmit_num s' = _consecutive_transmit_num s \/
   (forall q, front_moving s' q) /\ _consecutive_transmit_num s' = 0).
Proof.
  intros [Hr Hi He Hd Hn] Hknown Hinv Hw Hk Hwin s'. destruct (ack_received_spec s w sent a ackno k win Hinv Hw Hk Hwin) as [Hinv' Hpost].
  fold s' in Hinv', Hpost. pose proof (ack_received_timer s ackno win) as [Ei Ht]. fold s' in Ei, Ht.
  destruct (ap_popped _ _ _ _ Hpost) as (popped & Ew & _ & H0 & Hsame).
  assert (forall q, front_moving s q -> front_moving s' q) as Hfront.
  { intros q. unfold front_moving. destruct Ht as [[-> ->]|[->|Hfr]]; [done|done|]. destruct (_wait_ack s'); auto. }
  split_and!; [done|done| |done|].
  - constructor; [rewrite Ew in Hr; by apply Forall_app in Hr as [_ Hr]|congruence|by right| |].
    + intros E. destruct popped; [|by apply H0]. destruct (Hsame eq_refl) as [_ ->]. apply Hd. by rewrite Ew, E.
    + destruct popped; [|rewrite H0 by done; lia]. by destruct (Hsame eq_refl) as [_ ->].
  - destruct popped as [|f l]; [left; split; [by rewrite Ew|by apply Hsame]|right; split; [|by apply H0]].
    intros q. unfold front_moving. destruct Ht as [[E _]|[->|Hfr]]; [|done|destruct (_wait_ack s'); auto].
    exfalso. apply (f_equal length) in Ew. rewrite E in Ew. rewrite length_app in Ew. simpl in Ew. lia.
Qed.

Lemma tick_init s ms : _init_timeout (_timer (TCPSender.tick s ms)) = _init_timeout (_timer s).
Proof. unfold TCPSender.tick, timer_tictoc, timer_expire. repeat case_match; simplify_eq; done. Qed.

(** A tick of the initial timeout, when nothing has been sent twice since the last
    acknowledgment. *)
Lemma calm_tick known s w sent a r q : calm known s -> sinv s w sent a -> _consecutive_transmit_num s = 0 ->
  let s' := TCPSender.tick s 1000 in
  exists new, TCPSender._segments_out s' = TCPSender._segments_out s ++ new /\ Forall norst new /\
    Forall (fun seg => seg ∈ _wait_ack s) new /\
    sinv s' w sent a /\ calm known s' /\ _wait_ack s' = _wait_ack s /\
    (front_moving s q -> front_sent s' (q ++ map (stamp r) new)).
Proof.
  intros [Hr Hi He Hd Hn] Hinv H0 s'. destruct (tick_spec s w sent a 1000 Hinv) as [Hinv' Ht]; [done|]. fold s' in Hinv', Ht.
  destruct (tick_keeps s 1000) as (En & _ & _ & _ & Ee). fold s' in En, Ee. pose proof (tick_init s 1000) as Ei. fold s' in Ei.
  destruct (_wait_ack s) as [|f l] eqn:Ewait.
  { exists []. destruct Ht as [Eo _ _ Enum Ew]. rewrite Ewait in Ew. split_and!; try done.
    - constructor; rewrite ?Ew, ?Enum, ?Ee, ?En, ?Ei; auto.
    - intros _. unfold front_sent. by rewrite Ew. }
  cbv zeta in Ht. destruct (Z.ltb_spec (u32 (_cur_time (_timer s) + 1000)) (_timeout (_timer s))) as [Hlt|Hge].
  { exists []. destruct Ht as [Eo _ _ Enum Ew]. rewrite Ewait in Ew. split_and!; try done.
    - constructor; rewrite ?Ew, ?Enum, ?Ee, ?En, ?Ei; auto.
    - unfold front_moving, front_sent. rewrite Ewait, Ew. intros [?|[E1 E2]]; [by apply on_its_way_app|].
      rewrite E1, E2, Hi in Hlt. done. }
  exists [f].
  assert (tick_post s s' [f] 0 (_timeout (_timer s')) (_consecutive_transmit_num s') /\ 0 <= _consecutive_transmit_num s' <= 1) as [[Eo _ _ _ Ew] Hn'].
  { rewrite H0 in Ht. destruct (_ =? 0); destruct Ht as [E1 E2 E3 E4 E5]; (split; [constructor; done|]); rewrite E4; done. }
  rewrite Ewait in Ew. split_and!; try done.
  - constructor; [|constructor]. by apply Forall_inv in Hr.
  - constructor; [by left|constructor].
  - constructor; rewrite ?Ew, ?Ee, ?En, ?Ei; auto. done.
  - intros _. unfold front_sent. rewrite Ew. apply on_its_way_stamped. by left.
Qed.

Lemma filled_up_tick s ms : filled_up s -> filled_up (TCPSender.tick s ms).
Proof. unfold filled_up. destruct (tick_keeps s ms) as (-> & -> & -> & _ & ->). done. Qed.

(** From [s] to [s']: the window was filled with the segments [new], which have been
    taken from the queue. *)
Record refilled (known : Prop) (r : TCPReceiver) s s' (new : list TCPSegment) : Prop := {
  rf_calm : calm known s';
  rf_filled : filled_up s';
  rf_clean : segments_out s' = [];
  rf_wait : _wait_ack s' = _wait_ack s ++ new;
  rf_next : _next_seqno s' = _next_seqno s + span new;
  rf_ackno : _ackno s' = _ackno s;
  rf_num : _consecutive_transmit_num s' = _consecutive_transmit_num s;
  rf_end : _end (_stream s') = _end (_stream s);
  rf_long : Forall (fun seg => 0 < length_in_sequence_space seg) new;
  rf_norst : Forall norst new;
  rf_plain : Forall plain new;
  rf_last : new <> [] -> exists seg, seg ∈ new /\ fin (_header seg) = _set_fin s';
  rf_done : _set_fin s = true -> new = [] /\ _set_fin s' = true;
  rf_moving : forall q, front_moving s q -> front_moving s' (q ++ map (stamp r) new);
  rf_sent : forall q, front_sent s q -> front_sent s' (q ++ map (stamp r) new)
}.

Lemma layout_last isn p l seg e : layout isn p (l ++ [seg]) e -> fin (_header seg) = e.
Proof.
  revert p. induction l as [|g l IH]; intros p; simpl; [intros (_ & _ & E & _); by rewrite andb_true_r in E|].
  intros (_ & _ & _ & _ & _ & Hl). eauto.
Qed.

Lemma refill known r s w sent a : calm known s -> segments_out s = [] -> sinv s w sent a -> size w < 9223372036854775808 ->
  exists s2 new, fill_window s = Ok s2 /\ segments_out s2 = new /\ refilled known r s (with_segments_out s2 []) new.
Proof.
  intros Hc Hclean Hinv Hw. destruct (calm_fill known s w sent a r [] Hc Hinv Hw) as (s2 & new & Hf & Hinv2 & Hpost & Hc2 & Hf2 & Hnr & Hlong & _).
  exists s2, new. split; [done|]. pose proof Hpost as [Eo Ew En _ Ea _ Enum Eend]. unfold segments_out in *. rewrite Hclean in Eo.
  assert (forall q, (front_moving s q -> front_moving s2 (q ++ map (stamp r) new)) /\ (front_sent s q -> front_sent s2 (q ++ map (stamp r) new))) as Hq.
  { intros q. destruct (calm_fill known s w sent a r q Hc Hinv Hw) as (s3 & new3 & Hf3 & _ & Hpost3 & _ & _ & _ & _ & H1 & H2).
    rewrite Hf in Hf3. simplify_eq. destruct Hpost3 as [_ Ew3 _ _ _ _ _ _]. rewrite Ew in Ew3. apply app_inv_head in Ew3. by subst new3. }
  split; [done|]. constructor; try done.
  - by apply (calm_ext known s2).
  - apply Forall_app with (l1 := sent). apply (si_plain _ _ _ _ Hinv2).
  - intros Hne. destruct (exists_last Hne) as (l & seg & ->). exists seg. split; [apply elem_of_app; right; by left|].
    pose proof (si_layout _ _ _ _ Hinv2) as Hl. rewrite app_assoc in Hl. by apply layout_last in Hl.
  - intros E. unfold fill_window in Hf. rewrite E in Hf. simplify_eq. split; [|done].
    apply (f_equal length) in Ew. rewrite length_app in Ew. destruct new; [done|]. simpl in Ew. lia.
  - intros q. apply Hq.
  - intros q. apply Hq.
Qed.
End sender.

(** ** A connection receives a segment *)

Abbreviation out c := (TCPConnection._segments_out c).
Abbreviation unacked c := (_wait_ack (_sender c)).
Abbreviation retries c := (_consecutive_transmit_num (_sender c)).
Abbreviation seqnos c := (_next_seqno (_sender c)).

(** The sequence numbers the receiver has taken in without a gap. *)
Definition taken (r : TCPReceiver) : Z := if _set_isn r then next_abs r else 0.

Section receiving.
Context (Wh Wp : bytes) (isn_h isn_p : WrappingInt32) (capacity : Z).
Context (HWh : size Wh < 2147400000) (HWp : size Wp < 2147400000).
Context (Hip : w32 isn_p) (Hcap : 1 <= capacity < 2147483647).

Abbreviation ok := (conn_ok Wh Wp isn_h isn_p capacity).

(** The sender after it has heeded the acknowledgment of a segment. *)
Definition heeds (s s1 : TCPSender) (seg : TCPSegment) : Prop :=
  if ack (_header seg) then
    exists k, acks s (ackno (_header seg)) k /\ ack_post s s1 k (win (_header seg)) /\ _set_fin s1 = _set_fin s /\
      (forall q, front_moving s q -> front_moving s1 q) /\
      (_wait_ack s1 = _wait_ack s /\ _consecutive_transmit_num s1 = _consecutive_transmit_num s \/
       (forall q, front_moving s1 q) /\ _consecutive_transmit_num s1 = 0)
  else s1 = s.

Definition empty_segment (s : TCPSender) : TCPSegment :=
  mkTCPSegment (with_seq default_header (next_seqno s) false false) empty_buffer.

(** [c'] is [c] after the segment. *)
Record receives (known : Prop) (c c' : TCPConnection) (seg : TCPSegment) : Prop := {
  rv_rcv : TCPReceiver.segment_received (_receiver c) seg = Ok (_receiver c');
  rv_sender :
    _set_isn (_receiver c') = false /\ _sender c' = _sender c /\ out c' = out c \/
    _set_isn (_receiver c') = true /\ exists s1 new replies,
      heeds (_sender c) s1 seg /\ refilled known (_receiver c') s1 (_sender c') new /\
      out c' = out c ++ map (stamp (_receiver c')) replies /\
      (replies = new /\ (length_in_sequence_space seg = 0 \/ new <> []) \/
       new = [] /\ 0 < length_in_sequence_space seg /\ exists s2, replies = [empty_segment s2]);
  rv_wait : _wait_segment_time c' = 0
}.

Lemma close_keeps c : _sender (try_clean_close c) = _sender c /\ _receiver (try_clean_close c) = _receiver c /\
  out (try_clean_close c) = out c /\ _wait_segment_time (try_clean_close c) = _wait_segment_time c.
Proof. destruct (try_clean_close_spec c) as [[b ->] _]. done. Qed.

Lemma linger_keeps c : _sender (update_linger c) = _sender c /\ _receiver (update_linger c) = _receiver c /\
  out (update_linger c) = out c /\ _wait_segment_time (update_linger c) = _wait_segment_time c.
Proof. unfold update_linger. by case_match. Qed.

Lemma heeds_spec known c w wire np fp lp seg : ok c w wire np fp lp -> calm known (_sender c) ->
  wire_ok Wp isn_p isn_h np fp (seqnos c) (_set_fin (_sender c)) lp seg -> (ack (_header seg) = true -> known) ->
  let s1 := if ack (_header seg) then ack_received (_sender c) (ackno (_header seg)) (win (_header seg)) else _sender c in
  heeds (_sender c) s1 seg /\ calm known s1 /\ segments_out s1 = segments_out (_sender c) /\ exists sent a, sinv s1 w sent a.
Proof.
  intros Hok Hc Hw Hk. cbv zeta. unfold heeds. destruct (ack (_header seg)) eqn:Ea; [|split_and!; try done; apply Hok].
  destruct (wo_ack _ _ _ _ _ _ _ _ _ Hw Ea) as (k & Ek & Hkn & _).
  destruct (co_snd _ _ _ _ _ _ _ _ _ _ _ Hok) as (sent & a & Hinv).
  pose proof (conn_size _ _ _ _ _ _ _ _ _ _ _ Hok) as Hsz.
  assert (acks (_sender c) (ackno (_header seg)) k) as Hacks.
  { constructor; [by rewrite (co_isn _ _ _ _ _ _ _ _ _ _ _ Hok)|done|].
    pose proof (sinv_next _ _ _ _ Hinv). pose proof (size_nonneg (_que (_stream (_sender c)))).
    destruct (Z.eq_dec (seqnos c) 0); [lia|]. destruct (_set_fin (_sender c)); lia. }
  pose proof (wo_win _ _ _ _ _ _ _ _ _ Hw) as Hwin.
  destruct (calm_ack known (_sender c) w sent a _ k _ Hc (Hk eq_refl) Hinv ltac:(lia) Hacks Hwin) as (Hinv' & Hpost & Hc' & Hmoving & Hcase).
  set (s1 := ack_received _ _ _) in *. split_and!; [|done|exact (ap_out _ _ _ _ Hpost)|eauto]. exists k. split_and!; try done.
  unfold s1, ack_received. repeat case_match; done.
Qed.

Lemma ackno_set r : receiver_ackno r = None <-> _set_isn r = false.
Proof. unfold receiver_ackno. destruct (_set_isn r); [|done]. by destruct (input_ended _). Qed.

Lemma receives_spec known c w wire np fp lp seg c' : ok c w wire np fp lp -> calm known (_sender c) ->
  segments_out (_sender c) = [] -> norst seg -> (ack (_header seg) = true -> known) ->
  wire_ok Wp isn_p isn_h np fp (seqnos c) (_set_fin (_sender c)) lp seg ->
  segment_received c seg = Ok c' -> receives known c c' seg.
Proof.
  intros Hok Hc Hclean Hnr Hk Hw Hs. destruct (segment_received_inv c seg c' Hs) as [[E _]|(_ & r & Hr & Hcase)]; [by rewrite Hnr in E|].
  destruct Hcase as [[Ea ->]|(a & s & Ea & Hf & ->)].
  { destruct (close_keeps (set_receiver (set_wait_time c 0) r)) as (E1 & E2 & E3 & E4). constructor; rewrite ?E2; [exact Hr| |by rewrite E4].
    left. rewrite E1, E3. apply ackno_set in Ea. done. }
  destruct (heeds_spec known c w wire np fp lp seg Hok Hc Hw Hk) as (Hh & Hc1 & Hcl1 & sent & a1 & Hinv).
  set (s1 := if ack (_header seg) then _ else _) in *. pose proof (conn_size _ _ _ _ _ _ _ _ _ _ _ Hok) as Hsz.
  destruct (refill known r s1 w sent a1 Hc1 ltac:(congruence) Hinv ltac:(lia)) as (s2 & new & Hf2 & Hnew & Hrf).
  rewrite Hf in Hf2. simplify_eq.
  set (c1 := with_reply c seg r s2). destruct (close_keeps (update_linger (send_segments c1))) as (E1 & E2 & E3 & E4).
  destruct (linger_keeps (send_segments c1)) as (L1 & L2 & L3 & L4). rewrite L1 in E1. rewrite L2 in E2. rewrite L3 in E3. rewrite L4 in E4.
  assert (_receiver (send_segments c1) = r /\ _sender (send_segments c1) = with_segments_out s2 [] /\ _wait_segment_time (send_segments c1) = 0 /\
    exists replies, out (send_segments c1) = out c ++ map (stamp r) replies /\
      (replies = segments_out s2 /\ (length_in_sequence_space seg = 0 \/ segments_out s2 <> []) \/
       segments_out s2 = [] /\ 0 < length_in_sequence_space seg /\ exists s2, replies = [empty_segment s2])) as (R1 & R2 & R3 & replies & R4 & R5).
  { unfold c1, with_reply, send_segments. pose proof (length_nonneg seg). destruct (Z.eqb_spec (length_in_sequence_space seg) 0) as [Hz|Hz]; cbn [negb].
    - cbn. split_and!; try done. exists (segments_out s2). rewrite send_loop_map. auto.
    - destruct (segments_out s2) as [|g l] eqn:Eg; cbn; (split_and!; try done).
      + exists [empty_segment s2]. unfold segments_out in *. rewrite send_loop_map, Eg. cbn. split; [done|]. right. split_and!; [done|lia|by eexists].
      + exists (g :: l). unfold segments_out in *. rewrite send_loop_map, Eg. split; [done|]. left. split; [done|]. by right. }
  constructor; rewrite ?E2, ?R1; [exact Hr| |by rewrite E4]. right. split.
  - destruct (_set_isn r) eqn:Es; [done|]. apply ackno_set in Es. congruence.
  - exists s1, (segments_out s2), replies. rewrite E1, R2, E3. done.
Qed.

(** *** What the receiver takes in *)

Lemma taken_bounds r np fp : rcv_ok Wp isn_p capacity r np fp -> peer_ok Wp np fp -> 0 <= taken r <= np.
Proof.
  intros Hr Hp. unfold taken. destruct (_set_isn r) eqn:Es; [|destruct Hp; lia].
  pose proof (rcv_next_abs Wp isn_p capacity Hcap r np fp Hr Hp Es). lia.
Qed.

Lemma taken_pos r np fp : rcv_ok Wp isn_p capacity r np fp -> peer_ok Wp np fp -> 1 <= taken r <-> _set_isn r = true.
Proof.
  intros Hr Hp. unfold taken. destruct (_set_isn r) eqn:Es; [|split; [lia|done]].
  pose proof (rcv_next_abs Wp isn_p capacity Hcap r np fp Hr Hp Es). split; [done|lia].
Qed.

Lemma taken_grows r np fp seg n' f' l r' : rcv_ok Wp isn_p capacity r np fp -> peer_ok Wp np fp ->
  wire_ok Wp isn_p isn_h np fp n' f' l seg -> data_end np fp <= limit (_reassembler r) ->
  TCPReceiver.segment_received r seg = Ok r' ->
  taken r <= taken r' /\ (_set_isn r = true -> _set_isn r' = true) /\
  bytes_read (receiver_stream_out r') = bytes_read (receiver_stream_out r) /\
  bytes_written (receiver_stream_out r) <= bytes_written (receiver_stream_out r') /\
  (input_ended (receiver_stream_out r) = true -> input_ended (receiver_stream_out r') = true).
Proof.
  intros Hr Hp Hw Hl E. destruct (rcv_ok_segment Wp isn_h isn_p capacity HWp Hip Hcap r np fp seg n' f' l Hr Hp Hw Hl)
    as (r2 & E2 & Hr2 & Hrd & Hwr & Hend & Hset). rewrite E in E2. simplify_eq. split_and!; try done.
  pose proof (taken_bounds r2 np fp Hr2 Hp). unfold taken in *. destruct (_set_isn r) eqn:Es; [|lia]. rewrite (Hset eq_refl) in *.
  unfold next_abs. destruct (input_ended (receiver_stream_out r)); [rewrite (Hend eq_refl)|destruct (input_ended _)]; lia.
Qed.

(** A segment that leaves no gap is taken in, with its FIN. *)
Lemma taken_segment r np fp seg i n' f' l r' : rcv_ok Wp isn_p capacity r np fp -> peer_ok Wp np fp ->
  wire_ok Wp isn_p isn_h np fp n' f' l seg -> data_end np fp <= window_end (_reassembler r) ->
  segment_of Wp isn_p seg i -> i + 1 + size (payload_of seg) + (if fin (_header seg) then 1 else 0) <= np ->
  i <= bytes_written (receiver_stream_out r) -> (syn (_header seg) = true \/ _set_isn r = true) ->
  TCPReceiver.segment_received r seg = Ok r' ->
  i + 1 + size (payload_of seg) + (if fin (_header seg) then 1 else 0) <= taken r' /\ _set_isn r' = true.
Proof.
  intros Hr Hp Hw Hl Hseg Hle Hi Hs E. pose proof (ro_inv _ _ _ _ _ _ Hr) as Hinv.
  pose proof (rinv_bounds _ _ _ _ Hinv) as Hb. simpl in Hb.
  pose proof (segment_within Wp isn_p np fp seg i _ Hp Hseg Hle Hl) as Hwin.
  destruct (segment_spec Wp isn_p capacity ltac:(lia) Hcap r seg i Hinv) as (r2 & E2 & Hpost).
  { apply (segment_carries Wp isn_p capacity HWp Hip); [done|done|lia]. }
  rewrite E in E2. simplify_eq.
  assert (_set_isn r2 = true) as Hset by (rewrite (sp_set _ _ _ _ _ _ _ Hpost); destruct Hs as [->| ->]; [by rewrite orb_true_r|done]).
  split; [|done]. unfold taken. rewrite Hset. unfold next_abs, payload_of in *.
  pose proof (sp_past _ _ _ _ _ _ _ Hpost Hset Hi Hwin) as Hpast.
  destruct (fin (_header seg)) eqn:Ef; [|destruct (input_ended _); lia].
  pose proof (so_fin _ _ _ _ Hseg Ef) as Hend. unfold payload_of in Hend.
  rewrite (sp_fin _ _ _ _ _ _ _ Hpost Hset Ef); [lia|lia|done].
Qed.
End receiving.

(** The receiver has taken in the FIN. *)
Lemma taken_ended W isn cap r np fp : rcv_ok W isn cap r np fp -> taken r = size W + 2 ->
  input_ended (receiver_stream_out r) = true.
Proof.
  intros Hr Ht. pose proof (rinv_bounds _ _ _ _ (ro_inv _ _ _ _ _ _ Hr)) as Hb. cbn zeta in Hb. pose proof (size_nonneg W).
  unfold taken, next_abs in Ht. destruct (_set_isn r); [|lia]. destruct (input_ended (receiver_stream_out r)); [done|lia].
Qed.

(** ** The acknowledgments in a queue *)

(** Those of [l] are of numbers from [lo] to [hi], the later ones of no less. *)
Fixpoint acks_from (isn : WrappingInt32) (lo hi : Z) (l : list TCPSegment) : Prop :=
  match l with
  | [] => lo <= hi
  | seg :: l =>
      if ack (_header seg) then exists k, ackno (_header seg) = wrap k isn /\ 1 <= k /\ lo <= k /\ acks_from isn k hi l
      else acks_from isn lo hi l
  end.

Lemma wrap_unique k k' isn : 0 <= k < 4294967296 -> 0 <= k' < 4294967296 -> wrap k isn = wrap k' isn -> k = k'.
Proof. intros Hk Hk' E%wrap_inj. rewrite !u32_small in E by (unfold is_u32; lia). done. Qed.

Section acks.
Context (isn : WrappingInt32).
Implicit Types (l : list TCPSegment).

Lemma acks_from_le lo hi l : acks_from isn lo hi l -> lo <= hi.
Proof.
  revert lo. induction l as [|seg l IH]; intros lo; simpl; [done|]. destruct (ack _); [|apply IH].
  intros (k & _ & _ & ? & Hl). specialize (IH k Hl). lia.
Qed.

Lemma acks_from_low lo lo' hi l : lo' <= lo -> acks_from isn lo hi l -> acks_from isn lo' hi l.
Proof.
  intros Hlo. revert lo lo' Hlo. induction l as [|seg l IH]; intros lo lo' Hlo; simpl; [lia|]. destruct (ack _); [|by apply IH].
  intros (k & ? & ? & ? & Hl). exists k. split_and!; [done|done|lia|done].
Qed.

Lemma acks_from_grow lo hi hi' l : hi <= hi' -> acks_from isn lo hi l -> acks_from isn lo hi' l.
Proof.
  intros Hh. revert lo. induction l as [|seg l IH]; intros lo; simpl; [lia|]. destruct (ack _); [|apply IH].
  intros (k & ? & ? & ? & Hl). exists k. auto.
Qed.

Lemma acks_from_elem lo hi l seg : acks_from isn lo hi l -> seg ∈ l -> ack (_header seg) = true ->
  exists k, ackno (_header seg) = wrap k isn /\ 1 <= k /\ lo <= k <= hi.
Proof.
  revert lo. induction l as [|g l IH]; intros lo; [by intros _ ?%not_elem_of_nil|]. simpl.
  intros Hl Hin Ha. apply elem_of_cons in Hin as [->|Hin].
  - rewrite Ha in Hl. destruct Hl as (k & ? & ? & ? & Hl). exists k. split_and!; try done. by apply acks_from_le in Hl.
  - destruct (ack (_header g)); [|by apply IH]. destruct Hl as (k & _ & _ & ? & Hl).
    destruct (IH k Hl Hin Ha) as (k' & ? & ? & ? & ?). exists k'. split_and!; [done|done|lia|done].
Qed.

Lemma acks_from_app lo hi hi' l l' : acks_from isn lo hi l -> hi <= hi' ->
  Forall (fun seg => ack (_header seg) = true -> ackno (_header seg) = wrap hi' isn /\ 1 <= hi') l' ->
  acks_from isn lo hi' (l ++ l').
Proof.
  intros Hl Hh Hl'. assert (acks_from isn hi' hi' l') as Htail.
  { clear Hl Hh. induction Hl' as [|seg l' Hs _ IH]; simpl; [lia|]. destruct (ack (_header seg)); [|done].
    destruct (Hs eq_refl). exists hi'. split_and!; [done|done|lia|done]. }
  revert lo Hl. induction l as [|seg l IH]; intros lo; simpl.
  - intros. eapply acks_from_low; [|done]. lia.
  - destruct (ack _); [|apply IH]. intros (k & ? & ? & ? & Hl). exists k. split_and!; [done|done|done|by apply IH].
Qed.
End acks.

(** What a connection adds to its queue acknowledges all it has taken in. *)
Lemma stamped_acks Wp isn_p capacity np fp r replies : 1 <= capacity < 2147483647 -> rcv_ok Wp isn_p capacity r np fp -> peer_ok Wp np fp ->
  Forall plain replies ->
  Forall (fun seg => ack (_header seg) = true -> ackno (_header seg) = wrap (taken r) isn_p /\ 1 <= taken r) (map (stamp r) replies).
Proof.
  intros Hcap Hr Hp Hpl. apply Forall_fmap. eapply Forall_impl; [exact Hpl|]. intros seg [Ha _]. cbn. unfold stamp.
  destruct (_set_isn r) eqn:Es.
  - rewrite (ackno_next_abs _ _ _ r (ro_inv _ _ _ _ _ _ Hr) Es). cbn. intros _. unfold taken. rewrite Es. split; [done|].
    by apply (rcv_next_abs Wp isn_p capacity Hcap r np fp).
  - assert (receiver_ackno r = None) as -> by by apply ackno_set. congruence.
Qed.

(** ** Both ends *)

(** What one end knows of the other, in a state of the network. *)
Lemma peer_facts WA WB cfgA cfgB isnA isnB a b : size WA < 2147400000 -> net_ok WA WB cfgA cfgB isnA isnB (a, b) ->
  conn_ok WB WA isnB isnA (recv_capacity cfgB) (h_conn b) (h_written b) (h_wire b) (h_seq a) (h_fin a) (h_limit a) /\
  peer_ok WA (h_seq a) (h_fin a) /\
  Forall (wire_ok WA isnA isnB (h_seq a) (h_fin a) (h_seq b) (h_fin b) (h_limit a)) (out (h_conn a) ++ h_wire a) /\
  data_end (h_seq a) (h_fin a) <= h_limit b.
Proof.
  intros HW [Ha Hb]. split_and!; [apply Hb|by eapply host_peer_ok|apply Ha|].
  pose proof (ho_conn _ _ _ _ _ _ _ _ _ Ha) as Hc. apply (co_within _ _ _ _ _ _ _ _ _ _ _ Hc).
Qed.

(** The sequence numbers of an end whose stream is empty: SYN and FIN. *)
Lemma seqnos_empty Wp isn isn' cap c w wire np fp lp : conn_ok [] Wp isn isn' cap c w wire np fp lp -> seqnos c <> 0 ->
  seqnos c = 1 + (if _set_fin (_sender c) then 1 else 0).
Proof.
  intros Hok Hz. destruct (co_snd _ _ _ _ _ _ _ _ _ _ _ Hok) as (sent & a & Hinv). rewrite (sinv_next _ _ _ _ Hinv Hz).
  assert (w = []) as -> by (rewrite (co_pre _ _ _ _ _ _ _ _ _ _ _ Hok); unfold ztake; by rewrite take_nil).
  pose proof (si_data _ _ _ _ Hinv) as E. symmetry in E. apply app_eq_nil in E as [_ ->]. change (size []) with 0. lia.
Qed.

(** What holds of either end all along: the acknowledgments it has queued are of the
    peer's stream, from [lo] on. *)
Record steady (isn_p : WrappingInt32) (known : Prop) (lo : Z) (c : TCPConnection) : Prop := {
  sd_clean : segments_out (_sender c) = [];
  sd_norst : Forall norst (out c);
  sd_calm : calm known (_sender c);
  sd_filled : filled_up (_sender c);
  sd_acks : acks_from isn_p lo (taken (_receiver c)) (out c)
}.

Section steady.
Context (Wh Wp : bytes) (isn_h isn_p : WrappingInt32) (capacity : Z).
Context (HWh : size Wh < 2147400000) (HWp : size Wp < 2147400000).
Context (Hip : w32 isn_p) (Hcap : 1 <= capacity < 2147483647).
Context (known : Prop) (lo : Z).

Abbreviation ok := (conn_ok Wh Wp isn_h isn_p capacity).

(** Segments added to the queue. *)
Lemma steady_queue c c' w wire np fp lp replies : steady isn_p known lo c -> ok c' w wire np fp lp -> peer_ok Wp np fp ->
  segments_out (_sender c') = [] -> calm known (_sender c') -> filled_up (_sender c') ->
  taken (_receiver c) <= taken (_receiver c') -> out c' = out c ++ map (stamp (_receiver c')) replies ->
  Forall norst replies -> Forall plain replies -> steady isn_p known lo c'.
Proof.
  intros [_ Hn _ _ Ha] Hok Hp Hclean Hc Hf Ht Eo Hr Hpl. constructor; try done; rewrite Eo.
  - apply Forall_app. split; [done|]. apply Forall_fmap. eapply Forall_impl; [exact Hr|]. intros seg. apply stamp_norst.
  - eapply acks_from_app; [exact Ha|done|]. eapply stamped_acks; [done|apply Hok|done|done].
Qed.

Lemma replies_plain r s1 s' new replies seg : refilled known r s1 s' new ->
  replies = new /\ (length_in_sequence_space seg = 0 \/ new <> []) \/
  new = [] /\ 0 < length_in_sequence_space seg /\ (exists s2, replies = [empty_segment s2]) ->
  Forall norst replies /\ Forall plain replies /\ (0 < length_in_sequence_space seg -> replies <> []).
Proof.
  intros Hrf [[-> Hor]|(_ & _ & s2 & ->)].
  - split_and!; [apply Hrf|apply Hrf|]. intros Hl. destruct Hor; [lia|done].
  - split_and!; [by repeat constructor..|done].
Qed.

Lemma steady_receives c w wire np fp lp seg : ok c w wire np fp lp -> peer_ok Wp np fp -> steady isn_p known lo c ->
  norst seg -> (ack (_header seg) = true -> known) ->
  wire_ok Wp isn_p isn_h np fp (seqnos c) (_set_fin (_sender c)) lp seg -> data_end np fp <= limit (_reassembler (_receiver c)) ->
  exists c', segment_received c seg = Ok c' /\ op_post Wh Wp isn_h isn_p capacity c c' w wire np fp lp /\
    receives known c c' seg /\ steady isn_p known lo c'.
Proof.
  intros Hok Hp Hsd Hnr Hk Hw Hl.
  destruct (op_segment Wh Wp isn_h isn_p capacity HWh HWp Hip Hcap c w wire np fp lp seg Hok Hp Hw Hl) as (c' & Hs & Hop).
  pose proof (op_ok _ _ _ _ _ _ _ _ _ _ _ _ Hop) as Hok'. exists c'. split_and!; [done|done|..];
    pose proof (receives_spec Wh Wp isn_h isn_p capacity HWh known c w wire np fp lp seg c' Hok (sd_calm _ _ _ _ Hsd) (sd_clean _ _ _ _ Hsd) Hnr Hk Hw Hs)
      as Hrv; [exact Hrv|].
  destruct (taken_grows Wp isn_h isn_p capacity HWp Hip Hcap _ np fp seg _ _ _ _ (co_rcv _ _ _ _ _ _ _ _ _ _ _ Hok) Hp Hw Hl (rv_rcv _ _ _ _ Hrv))
    as (Ht & _).
  destruct (rv_sender _ _ _ _ Hrv) as [(_ & Es & Eo)|(_ & s1 & new & replies & Hh & Hrf & Eo & Hrep)].
  - apply (steady_queue c c' w wire np fp lp []); rewrite ?Es; try done; [apply Hsd..|by rewrite app_nil_r].
  - destruct (replies_plain _ _ _ _ _ _ Hrf Hrep) as (? & ? & _).
    apply (steady_queue c c' w wire np fp lp replies); try done; apply Hrf.
Qed.
End steady.

(** ** The end that only acknowledges

    Its stream is empty, so it sends a SYN and a FIN.  [kx] is what the writer has taken
    in of them. *)

(** An acknowledgment of [k] is among the segments. *)
Definition coming (isn : WrappingInt32) (k : Z) (l : list TCPSegment) : Prop :=
  exists seg, seg ∈ l /\ ack (_header seg) = true /\ ackno (_header seg) = wrap k isn.

Lemma coming_app isn k l l' : coming isn k l -> coming isn k (l ++ l').
Proof. intros (seg & Hin & ?). exists seg. split; [|done]. apply elem_of_app. by left. Qed.

Lemma span_pos l : Forall (fun seg => 0 < length_in_sequence_space seg) l -> l <> [] -> 0 < span l.
Proof. intros H. destruct H as [|seg l Hs Hl]; [done|]. intros _. simpl. pose proof (span_nonneg l). lia. Qed.

Lemma heeds_keeps seg s s1 : heeds s s1 seg -> _next_seqno s1 = _next_seqno s /\ _stream s1 = _stream s /\ _set_fin s1 = _set_fin s /\
  (exists popped, _wait_ack s = popped ++ _wait_ack s1).
Proof.
  unfold heeds. destruct (ack _); [|intros ->; split_and!; try done; by exists []].
  intros (k & _ & Hp & Ef & _). destruct Hp as [_ _ En _ Est _ (popped & Ew & _) _]. split_and!; try done. by exists popped.
Qed.

Section waiting.
Context (isny : WrappingInt32) (kx : Z) (Hkx : 0 <= kx < 4294967296).

Definition awaits (rest : list TCPSegment) (y : TCPConnection) : Prop :=
  coming isny kx rest /\ _set_isn (_receiver y) = true.

Definition old_front (y : TCPConnection) : Prop :=
  match unacked y with [] => True | f :: _ => seqnos y - span (unacked y) + length_in_sequence_space f <= kx end.

(** Either the acknowledgment is among the segments still to be received, or it has
    done what it does: the counter is 0, what has been sent before is no longer waiting,
    and the FIN has been sent. *)
Definition waiting (rest : list TCPSegment) (y : TCPConnection) : Prop :=
  (retries y = 0 \/ awaits rest y /\ old_front y) /\
  (awaits rest y \/ unacked y = [] \/ kx < seqnos y) /\
  (awaits rest y \/ _set_fin (_sender y) = true \/ kx = 0 /\ unacked y <> []).

Context (known : Prop) (y y' : TCPConnection) (seg : TCPSegment).
Context (Hisn : TCPSender._isn (_sender y) = isny) (Hcalm : calm known (_sender y)) (Hrv : receives known y y' seg).
Context (Hset : _set_isn (_receiver y) = true -> _set_isn (_receiver y') = true).
Context (Hack : ack (_header seg) = true -> 1 <= kx).
Context (Hend : _end (_stream (_sender y)) = true) (Hpos : 0 <= kx <= seqnos y) (Hsmall : seqnos y < 4294967296).
Context (Hseq : seqnos y' <> 0 -> seqnos y' = 1 + (if _set_fin (_sender y') then 1 else 0)).

Lemma waiting_acked rest : ack (_header seg) = true -> ackno (_header seg) = wrap kx isny -> _set_isn (_receiver y') = true ->
  retries y = 0 \/ old_front y -> retries y' = 0 /\ waiting rest y'.
Proof.
  intros Ha Ek Hs Hr. destruct (rv_sender _ _ _ _ Hrv) as [(E & _)|(_ & s1 & new & replies & Hh & Hrf & _)]; [congruence|].
  destruct (heeds_keeps seg _ _ Hh) as (En & Est & Ef & _).
  unfold heeds in Hh. rewrite Ha in Hh. destruct Hh as (k & [Ek' Hk _] & Hpost & _ & _ & Hcase). rewrite Ek, Hisn in Ek'.
  apply wrap_unique in Ek'; [|lia..]. subst k. pose proof (ap_rest _ _ _ _ Hpost) as Hrest.
  destruct Hrf as [_ Hfill _ Ew' En' Ea' Enum' Eend' Hlong _ _ _ Hdone _ _]. pose proof (span_nonneg new).
  assert (retries y' = 0) as H0.
  { rewrite Enum'. destruct Hcase as [[Ew Enum]|[_ H0]]; [|done]. rewrite Enum. destruct Hr as [?|Hold]; [done|]. unfold old_front in Hold.
    destruct (unacked y) as [|f l] eqn:Eu; [by apply (cm_idle _ _ Hcalm)|]. rewrite Ew in Hrest. cbn [first_unacked] in Hrest. lia. }
  split; [done|]. split_and!; [by left| |].
  - right. rewrite Ew', En', En. destruct (decide (new = [])) as [->|Hne].
    + rewrite app_nil_r. cbn [span]. destruct (_wait_ack s1) as [|f l]; [by left|right]. cbn [first_unacked] in Hrest.
      cbn [span] in Hrest. pose proof (span_nonneg l). lia.
    + right. pose proof (span_pos new Hlong Hne). lia.
  - right. left. specialize (Hack Ha). destruct Hfill as [?|[He|[_ He]]]; [done| |congruence].
    unfold edge in He. rewrite Ea', (ap_ackno _ _ _ _ Hpost) in He. destruct (_set_fin (_sender y')); [done|]. lia.
Qed.

Lemma waiting_step rest : waiting (seg :: rest) y -> waiting rest y'.
Proof.
  intros (H1 & H2 & H3).
  destruct (rv_sender _ _ _ _ Hrv) as [(E & Es & _)|(Hs & s1 & new & replies & Hh & Hrf & _)].
  { assert (forall P, awaits (seg :: rest) y \/ P -> P) as Hno.
    { intros P [[_ Hy]|?]; [|done]. rewrite (Hset Hy) in E. done. }
    assert (retries y = 0) as H0 by (destruct H1 as [?|[[_ Hy] _]]; [done|]; by rewrite (Hset Hy) in E).
    unfold waiting. rewrite Es. split_and!; [by left|right; by apply Hno|right; by apply Hno]. }
  assert (awaits (seg :: rest) y -> (ack (_header seg) = true /\ ackno (_header seg) = wrap kx isny) \/ awaits rest y') as Hnext.
  { intros [(g & Hin & Hg) _]. apply elem_of_cons in Hin as [->|Hin]; [by left|right]. split; [by exists g|done]. }
  destruct (decide (ack (_header seg) = true /\ raw_value (ackno (_header seg)) = raw_value (wrap kx isny))) as [[Ha Ek]|Hno].
  { apply (waiting_acked rest); [done| |done|]; [|destruct H1 as [?|[_ ?]]; auto].
    destruct (ackno (_header seg)), (wrap kx isny). simpl in Ek. by subst. }
  assert (awaits (seg :: rest) y -> awaits rest y') as Haw.
  { intros Hw. destruct (Hnext Hw) as [[? E]|?]; [|done]. exfalso. apply Hno. by rewrite E. }
  destruct (heeds_keeps seg _ _ Hh) as (En & Est & Ef & popped & Ew).
  assert (_wait_ack s1 = unacked y /\ _consecutive_transmit_num s1 = retries y \/ _consecutive_transmit_num s1 = 0) as Hcase.
  { unfold heeds in Hh. destruct (ack _); [|subst s1; by left]. destruct Hh as (? & _ & _ & _ & _ & [?|[_ ?]]); auto. }
  destruct Hrf as [_ Hfill _ Ew' En' Ea' Enum' Eend' Hlong _ _ _ Hdone _ _]. pose proof (span_nonneg new).
  split_and!.
  - rewrite Enum'. destruct Hcase as [[E ->]|?]; [|by left]. destruct H1 as [?|[Hw Hold]]; [by left|].
    destruct (unacked y) as [|f l] eqn:Eu; [left; by apply (cm_idle _ _ Hcalm)|]. right. split; [by apply Haw|].
    unfold old_front in *. rewrite Eu in Hold. rewrite Ew', E, En', En. cbn [app]. rewrite app_comm_cons, span_app. lia.
  - destruct H2 as [?|[E|?]]; [left; by apply Haw| |right; right; lia]. right.
    assert (_wait_ack s1 = []) as E1 by (rewrite E in Ew; symmetry in Ew; by apply app_eq_nil in Ew as [_ ?]). rewrite Ew', E1.
    destruct (decide (new = [])) as [->|Hne]; [by left|right]. pose proof (span_pos new Hlong Hne). lia.
  - destruct H3 as [?|[E|[E Hne]]]; [left; by apply Haw|right; left; rewrite <- Ef in E; by apply Hdone|right; right]. split; [done|].
    unfold heeds in Hh. destruct (ack (_header seg)); [specialize (Hack eq_refl); lia|]. subst s1. rewrite Ew'. by intros [? _]%app_eq_nil.
Qed.
End waiting.

(** ** The reader receives *)

(** An acknowledgment of [e] or more is among the segments. *)
Definition heard (isn : WrappingInt32) (e : Z) (l : list TCPSegment) : Prop :=
  exists seg k, seg ∈ l /\ ack (_header seg) = true /\ ackno (_header seg) = wrap k isn /\ e <= k /\ 0 <= k < 4294967296.

Lemma heard_app isn e l l' : heard isn e l -> heard isn e (l ++ l').
Proof. intros (seg & k & Hin & ?). exists seg, k. split; [|done]. apply elem_of_app. by left. Qed.

(** Where the first unacknowledged segment ends. *)
Definition front_end (c : TCPConnection) (f : TCPSegment) : Z := seqnos c - span (unacked c) + length_in_sequence_space f.

(** The place of the first unacknowledged segment, in a copy of it on the network. *)
Lemma front_place W Wp isn isn' cap c w wire np fp lp n' f' l f rest seg : size W < 2147400000 ->
  conn_ok W Wp isn isn' cap c w wire np fp lp -> unacked c = f :: rest -> same_text seg f ->
  wire_ok W isn isn' (seqnos c) (_set_fin (_sender c)) n' f' l seg ->
  exists i, segment_of W isn seg i /\ i + 1 + size (payload_of seg) + (if fin (_header seg) then 1 else 0) = front_end c f /\
    front_end c f <= seqnos c /\ 0 < length_in_sequence_space seg /\
    (syn (_header seg) = true \/ i + 1 = seqnos c - span (unacked c)).
Proof.
  intros HW Hok Hu Hst Hw. destruct (co_snd _ _ _ _ _ _ _ _ _ _ _ Hok) as (sent & a & Hinv).
  destruct (si_wait _ _ _ _ Hinv) as [acked Es]. pose proof (si_layout _ _ _ _ Hinv) as Hl.
  pose proof (si_next _ _ _ _ Hinv) as En. rewrite Es, span_app in En. rewrite Es in Hl. apply layout_app in Hl. rewrite Hu in Hl, En.
  destruct Hl as (Eseq & Esyn & _ & _ & Hlen & _). pose proof (same_text_length _ _ Hst) as Elen. pose proof Hst as (E1 & E2 & E3 & E4).
  unfold front_end. rewrite Hu. cbn [span] in *. pose proof (span_nonneg acked). pose proof (span_nonneg rest).
  pose proof (conn_size _ _ _ _ _ _ _ _ _ _ _ Hok) as Hsz. pose proof (sinv_next _ _ _ _ Hinv ltac:(lia)) as Hnext.
  pose proof (size_nonneg (_que (_stream (_sender c)))).
  assert (seqnos c < 4294967296) as Hsmall by (destruct (_set_fin _); lia).
  destruct (wo_kind _ _ _ _ _ _ _ _ _ Hw) as [(Hp & Hs0 & Hf0 & _)|(i & Hseg & Hle)].
  { unfold length_in_sequence_space in Elen at 1. unfold payload_of in Hp. rewrite Hp, Hs0, Hf0 in Elen. change (size []) with 0 in Elen. lia. }
  exists i. pose proof (so_data _ _ _ _ Hseg) as (Hi & _). pose proof (so_seqno _ _ _ _ Hseg) as Eq. pose proof (size_nonneg (payload_of seg)).
  assert (length_in_sequence_space seg = size (payload_of seg) + (if syn (_header seg) then 1 else 0) + (if fin (_header seg) then 1 else 0)) as Elen'
    by done.
  destruct (syn (_header seg)) eqn:Esy.
  - pose proof (so_syn _ _ _ _ Hseg Esy). rewrite <- E2 in Esyn. symmetry in Esyn. apply Z.eqb_eq in Esyn. split_and!; [done|lia|lia|lia|by left].
  - rewrite E1, Eseq, (co_isn _ _ _ _ _ _ _ _ _ _ _ Hok) in Eq. apply wrap_unique in Eq; [|lia|destruct (fin _); lia]. split_and!; [done|lia|lia|lia|right; lia].
Qed.

(** ** What never changes *)

Definition fixed (c : TCPConnection) : TCPConfig * Z := (_cfg c, _maximumcapacity (stream_in (_sender c))).

Lemma fill_window_max s s' : fill_window s = Ok s' -> _maximumcapacity (_stream s') = _maximumcapacity (_stream s).
Proof.
  assert (forall fuel s n, fill_loop fuel s n = Ok s' -> _maximumcapacity (_stream s') = _maximumcapacity (_stream s)) as Hloop.
  { clear s. induction fuel as [|fuel IH]; intros s n; cbn [fill_loop]; (destruct (_ && _); [|by intros [= <-]]); [done|].
    assert (_maximumcapacity (_stream (fst (fst (next_segment s n)))) = _maximumcapacity (_stream s)) as Ea.
    { unfold next_segment, ByteStream.read. by destruct (_next_seqno s =? 0), (_ && _). }
    destruct (next_segment s n) as [[s1 seg] len]. cbn [fst] in Ea. destruct (0 <? len); [|by intros [= <-]].
    destruct (_ =? 0); [intros [= <-]; done|]. intros E. apply IH in E. rewrite E. exact Ea. }
  unfold fill_window. destruct (_set_fin s); [by intros [= <-]|]. destruct (_ <=? _); [by intros [= <-]|]. apply Hloop.
Qed.

Lemma fixed_close c : fixed (try_clean_close c) = fixed c.
Proof. by destruct (try_clean_close_spec c) as [[b ->] _]. Qed.

Lemma fixed_segment c seg c' : segment_received c seg = Ok c' -> fixed c' = fixed c.
Proof.
  intros [[_ ->]|(_ & r & _ & [[_ ->]|(a & s & _ & Hf & ->)])]%segment_received_inv; [done|by rewrite fixed_close|].
  rewrite fixed_close. apply fill_window_max in Hf.
  assert (fixed (update_linger (send_segments (with_reply c seg r s))) = (_cfg c, _maximumcapacity (_stream s))) as ->.
  { unfold update_linger. destruct (_ && _); unfold fixed, send_segments, with_reply;
      (destruct (negb _); [destruct (segments_out s)|]); done. }
  rewrite Hf. unfold fixed. destruct (ack _); [by rewrite ack_received_stream|done].
Qed.

Lemma fixed_segments c segs c' : receive_segments c segs = Ok c' -> fixed c' = fixed c.
Proof.
  revert c. induction segs as [|seg segs IH]; intros c; cbn [receive_segments]; [by intros [= ->]|].
  intros H. apply rbind_ok_inv in H as (c1 & H1 & H2). apply IH in H2. apply fixed_segment in H1. congruence.
Qed.

Lemma fixed_move x y b x' y' : move_segments x y [] b = Ok (x', y', []) -> fixed x' = fixed x /\ fixed y' = fixed y.
Proof.
  unfold move_segments. rewrite take_spec by done. cbn [rbind]. intros H. apply rbind_ok_inv in H as (d & Hd & [= <- <-]).
  apply fixed_segments in Hd. done.
Qed.

Lemma fixed_write c data c' n : TCPConnection.write c data = Ok (c', n) -> fixed c' = fixed c.
Proof.
  unfold TCPConnection.write. destruct (ByteStream.write _ _) as [st k] eqn:Ew. intros H. apply rbind_ok_inv in H as (s & Hf & [= <- _]).
  rewrite fixed_close. apply fill_window_max in Hf. unfold fixed. simpl in *. rewrite Hf. unfold ByteStream.write in Ew. by injection Ew as <- _.
Qed.

Lemma fixed_input fuel c buf c' buf' : write_input fuel c buf = Ok (c', buf') -> fixed c' = fixed c.
Proof.
  revert c buf. induction fuel as [|fuel IH]; intros c buf; cbn [write_input]; (destruct (_ && _); [|by intros [= <- _]]); [done|].
  intros H. apply rbind_ok_inv in H as ([c1 n] & H1 & H). destruct (negb _); [done|]. apply rbind_ok_inv in H as (b1 & _ & H).
  apply IH in H. apply fixed_write in H1. congruence.
Qed.

Lemma fixed_end c c' : end_input_stream c = Ok c' -> fixed c' = fixed c.
Proof. unfold end_input_stream. intros H. apply rbind_ok_inv in H as (s & Hf & [= <-]). apply fill_window_max in Hf. unfold fixed. simpl in *. by rewrite Hf. Qed.

Lemma fixed_connect c c' : connect c = Ok c' -> fixed c' = fixed c.
Proof. unfold connect. intros H. apply rbind_ok_inv in H as (s & Hf & [= <-]). apply fill_window_max in Hf. unfold fixed. simpl in *. by rewrite Hf. Qed.

Lemma fixed_tick c ms : fixed (tick c ms) = fixed c.
Proof.
  unfold tick. destruct (_ <? _).
  - unfold fixed. simpl. by rewrite tick_stream.
  - rewrite fixed_close. unfold fixed, send_segments. simpl. by rewrite tick_stream.
Qed.

(** ** A tick *)

Lemma sender_tick_ackno s ms : _ackno (TCPSender.tick s ms) = _ackno s.
Proof. unfold TCPSender.tick, timer_tictoc, timer_expire. repeat case_match; simplify_eq; done. Qed.

Record ticks (c c' : TCPConnection) (new : list TCPSegment) : Prop := {
  tc_receiver : _receiver c' = _receiver c;
  tc_out : out c' = out c ++ map (stamp (_receiver c)) new;
  tc_new : Forall (fun seg => seg ∈ unacked c) new;
  tc_wait : unacked c' = unacked c;
  tc_next : seqnos c' = seqnos c;
  tc_fin : _set_fin (_sender c') = _set_fin (_sender c);
  tc_ackno : _ackno (_sender c') = _ackno (_sender c);
  tc_stream : _stream (_sender c') = _stream (_sender c);
  tc_front : front_moving (_sender c) (out c) -> front_sent (_sender c') (out c')
}.

Lemma steady_tick Wh Wp isn_h isn_p cap known lo c w wire np fp lp : 1 <= cap < 2147483647 -> conn_ok Wh Wp isn_h isn_p cap c w wire np fp lp ->
  peer_ok Wp np fp -> steady isn_p known lo c -> retries c = 0 ->
  exists new, ticks c (tick c 1000) new /\ (conn_ok Wh Wp isn_h isn_p cap (tick c 1000) w wire np fp lp -> steady isn_p known lo (tick c 1000)).
Proof.
  intros Hcap Hok Hp Hsd H0. destruct (co_snd _ _ _ _ _ _ _ _ _ _ _ Hok) as (sent & a & Hinv).
  destruct (calm_tick known (_sender c) w sent a (_receiver c) (out c) (sd_calm _ _ _ _ Hsd) Hinv H0) as (new & Eo & Hnr & Hin & Hinv' & Hc & Ew & Hfront).
  destruct (tick_keeps (_sender c) 1000) as (En & Ef & Est & _ & _). pose proof (sender_tick_ackno (_sender c) 1000) as Ea.
  pose proof (sd_clean _ _ _ _ Hsd) as Hcl. unfold segments_out in Hcl. rewrite Hcl in Eo. cbn [app] in Eo.
  assert (Forall plain new) as Hpl.
  { pose proof (si_plain _ _ _ _ Hinv) as Hpl. destruct (si_wait _ _ _ _ Hinv) as [acked Es]. rewrite Es in Hpl. apply Forall_app in Hpl as [_ Hpl].
    rewrite Forall_forall in Hpl. eapply Forall_impl; [exact Hin|]. auto. }
  exists new. set (s' := TCPSender.tick (_sender c) 1000) in *.
  assert (exists c1, tick c 1000 = try_clean_close c1 /\ _receiver c1 = _receiver c /\ _sender c1 = with_segments_out s' [] /\
    out c1 = out c ++ map (stamp (_receiver c)) new) as (c1 & -> & E1 & E2 & E3).
  { unfold tick. cbn [_sender set_sender]. fold s'. pose proof (cm_retx _ _ Hc). unfold consecutive_retransmissions, MAX_RETX_ATTEMPTS.
    destruct (Z.ltb_spec 8 (_consecutive_transmit_num s')); [lia|]. eexists. split; [done|]. split_and!; try done.
    unfold send_segments. cbn. unfold segments_out. rewrite send_loop_map. fold s'. by rewrite Eo. }
  destruct (close_keeps c1) as (K1 & K2 & K3 & _). rewrite E2 in K1. rewrite E1 in K2. rewrite E3 in K3.
  split.
  - constructor; rewrite ?K1, ?K2, ?K3; try done.
  - intros Hok'. eapply (steady_queue Wh Wp isn_h isn_p cap Hcap known lo c _ w wire np fp lp new); rewrite ?K1, ?K2; try done.
    + by apply (calm_ext known s').
    + apply (filled_up_tick (_sender c) 1000), Hsd.
Qed.
