(* ===== verification/Exchange.v ===== *)
(** * Exchange: a turn of the benchmark makes progress

    The writer and the reader of file [Benchmark] in a turn of its loop.  The argument is
    about the oldest segment that the writer has not had acknowledged: it is always on
    its way at the beginning of a turn (sent in the last one, or sent again by its tick),
    the reader takes it whenever it arrives, in order or not, and its acknowledgment
    comes back in the same turn, so that the acknowledgment number grows. *)

From S2P Require Import Prelude WrappingIntegers ByteStream Parser TCPSegment ReassemblerList Reassembly TCPReceiver.
From S2P Require Import TCPSender Transmission TCPConnection EndToEnd Hosts Benchmark Completion.

Section exchange.
Context (W : bytes) (rx ry : Z) (isnx isny : WrappingInt32).
Context (Hsize : size W < 2147400000).
Context (Hx : config_ok default_config rx isnx) (Hy : config_ok default_config ry isny).

Abbreviation good := (net_ok W [] default_config default_config isnx isny).
Abbreviation capacity := (recv_capacity default_config).
Abbreviation knows c := (_set_isn (_receiver c) = true).
Implicit Types (x y : TCPConnection).

(** The last segment of the reader that the writer has not taken in is in the queue. *)
Definition last_queued x y (q : list TCPSegment) : Prop :=
  exists seg, seg ∈ q /\ 0 < length_in_sequence_space seg /\ 1 + (if fin (_header seg) then 1 else 0) = seqnos y.

(** The segment that the writer has waited for longest is among those to come, or its
    acknowledgment is in the reader's queue. *)
Definition front_answered x y (rest : list TCPSegment) : Prop :=
  match unacked x with [] => True | f :: _ => on_its_way f rest \/ heard isnx (front_end x f) (out y) end.

(** The writer has had the reader's SYN, or that is what comes next. *)
Definition greeted x (rest : list TCPSegment) : Prop :=
  knows x \/ exists seg tl, rest = seg :: tl /\ syn (_header seg) = true.

Lemma greeted_app x q q' : greeted x q -> greeted x (q ++ q').
Proof. intros [?|(seg & tl & -> & ?)]; [by left|right]. by exists seg, (tl ++ q'). Qed.

(** While the segments of the writer [hx] are delivered to the reader [y]. *)
Record reading (hx : host) (hy : host) (rest : list TCPSegment) : Prop := {
  rd_good : good (hx, hy);
  rd_rest : Forall (fun seg => seg ∈ h_wire hx /\ norst seg /\ (ack (_header seg) = true -> knows (h_conn hx))) rest;
  rd_steady : steady isnx (knows (h_conn hx)) (_ackno (_sender (h_conn hx))) (h_conn hy);
  rd_low : seqnos (h_conn hx) - span (unacked (h_conn hx)) <= _ackno (_sender (h_conn hx));
  rd_room : data_end (h_seq hx) (h_fin hx) <= window_end (_reassembler (_receiver (h_conn hy)));
  rd_front : front_answered (h_conn hx) (h_conn hy) rest;
  rd_end : out_end (h_conn hy) = true;
  rd_last : taken (_receiver (h_conn hx)) = h_seq hy \/ last_queued (h_conn hx) (h_conn hy) (out (h_conn hy));
  rd_hello : greeted (h_conn hx) (out (h_conn hy));
  rd_waiting : waiting isny (taken (_receiver (h_conn hx))) rest (h_conn hy)
}.

Lemma nothing : size (@nil byte) < 2147400000.
Proof. done. Qed.

Lemma window_read r r' np fp : rcv_ok W isnx capacity r np fp -> rcv_ok W isnx capacity r' np fp ->
  bytes_read (receiver_stream_out r') = bytes_read (receiver_stream_out r) ->
  window_end (_reassembler r') = window_end (_reassembler r).
Proof.
  intros Hr Hr' E. pose proof (rinv_bounds _ _ _ _ (ro_inv _ _ _ _ _ _ Hr)) as (_ & _ & _ & H1 & _).
  pose proof (rinv_bounds _ _ _ _ (ro_inv _ _ _ _ _ _ Hr')) as (_ & _ & _ & H2 & _). lia.
Qed.

(** The segment the writer waits for is taken in and acknowledged. *)
Lemma front_received hx hy seg f l c' : good (hx, hy) -> steady isnx (knows (h_conn hx)) (_ackno (_sender (h_conn hx))) (h_conn hy) ->
  seqnos (h_conn hx) - span (unacked (h_conn hx)) <= _ackno (_sender (h_conn hx)) ->
  data_end (h_seq hx) (h_fin hx) <= window_end (_reassembler (_receiver (h_conn hy))) ->
  seg ∈ h_wire hx -> unacked (h_conn hx) = f :: l -> same_text seg f ->
  receives (knows (h_conn hx)) (h_conn hy) c' seg ->
  rcv_ok W isnx capacity (_receiver c') (h_seq hx) (h_fin hx) ->
  heard isnx (front_end (h_conn hx) f) (out c').
Proof.
  intros Hg Hsd Hlow Hroom Hin Hu Hst Hrv Hrok.
  destruct (peer_facts W [] default_config default_config isnx isny hx hy Hsize Hg) as (Hok & Hp & Hwire & _).
  assert (wire_ok W isnx isny (h_seq hx) (h_fin hx) (h_seq hy) (h_fin hy) (h_limit hx) seg) as Hw.
  { rewrite Forall_forall in Hwire. apply Hwire. apply elem_of_app. by right. }
  pose proof (ho_conn _ _ _ _ _ _ _ _ _ (proj1 Hg)) as Hokx.
  destruct (front_place W [] isnx isny capacity (h_conn hx) _ _ _ _ _ _ _ _ f l seg Hsize Hokx Hu Hst Hw) as (i & Hseg & He & Hle & Hlen & Hplace).
  set (r := _receiver (h_conn hy)) in *. pose proof (co_rcv _ _ _ _ _ _ _ _ _ _ _ Hok) as Hr. fold r in Hr.
  pose proof (acks_from_le _ _ _ _ (sd_acks _ _ _ _ Hsd)) as Hack. fold r in Hack.
  pose proof (so_data _ _ _ _ Hseg) as (Hi & Hmax & _). pose proof (size_nonneg (payload_of seg)).
  assert (i <= bytes_written (receiver_stream_out r) /\ (syn (_header seg) = true \/ _set_isn r = true)) as [Hiw Hsyn].
  { destruct (syn (_header seg)) eqn:Esy.
    - rewrite (so_syn _ _ _ _ Hseg Esy). pose proof (rinv_bounds _ _ _ _ (ro_inv _ _ _ _ _ _ Hr)) as Hb. simpl in Hb. split; [lia|by left].
    - destruct Hplace as [?|Hp0]; [done|]. assert (1 <= taken r) as Ht by lia. pose proof Ht as Ht'.
      apply (taken_pos W isnx capacity ltac:(done) r _ _ Hr Hp) in Ht'. split; [|by right]. unfold taken in *. rewrite Ht' in *. unfold next_abs in *.
      destruct (input_ended (receiver_stream_out r)) eqn:Een; [|lia]. assert (bytes_written (receiver_stream_out r) = size W) as E2; [|lia].
      pose proof (ri_inv _ _ _ _ (ro_inv _ _ _ _ _ _ Hr)) as [[Hout _ _ _ _ _] _]. by apply (dl_end _ _ Hout). }
  destruct (taken_segment W isny isnx capacity Hsize ltac:(apply Hx) ltac:(done) r _ _ seg i _ _ _ _ Hr Hp Hw Hroom Hseg ltac:(lia) Hiw Hsyn (rv_rcv _ _ _ _ Hrv))
    as [Htk Hset'].
  destruct (rv_sender _ _ _ _ Hrv) as [(E & _)|(_ & s1 & new & replies & Hh & Hrf & Eo & Hrep)]; [congruence|].
  destruct (replies_plain _ _ _ _ _ _ _ Hrf Hrep) as (_ & Hpl & Hne). specialize (Hne Hlen).
  pose proof (stamped_acks W isnx capacity _ _ (_receiver c') replies ltac:(done) Hrok Hp Hpl) as Hsa.
  destruct replies as [|g rs]; [done|]. apply Forall_inv in Hsa.
  exists (stamp (_receiver c') g), (taken (_receiver c')). rewrite Eo.
  assert (ack (_header (stamp (_receiver c') g)) = true) as Ha.
  { unfold stamp. destruct (receiver_ackno (_receiver c')) eqn:Ea; [done|]. apply ackno_set in Ea. congruence. }
  pose proof (taken_bounds W isnx capacity ltac:(done) _ _ _ Hrok Hp) as Htb. destruct Hp as [Hpn _].
  split_and!; [|done|by apply Hsa|lia|lia|lia]. apply elem_of_app. right. by left.
Qed.

Lemma taken_writer hx hy : good (hx, hy) -> 0 <= taken (_receiver (h_conn hx)) <= h_seq hy /\ h_seq hy <= 2.
Proof.
  intros Hg. apply net_ok_swap in Hg.
  destruct (peer_facts [] W default_config default_config isny isnx hy hx nothing Hg) as (Hok & Hp & _).
  pose proof (taken_bounds [] isny capacity ltac:(done) _ _ _ (co_rcv _ _ _ _ _ _ _ _ _ _ _ Hok) Hp). split; [done|].
  destruct Hp as [Hp _]. change (size []) with 0 in Hp. lia.
Qed.

(** The reader's new segments are in its queue. *)
Lemma last_queued_step x y y' seg known k : 0 <= seqnos y -> receives known y y' seg -> (seqnos y' <> 0 -> seqnos y' = 1 + (if _set_fin (_sender y') then 1 else 0)) ->
  k = seqnos y \/ last_queued x y (out y) -> k = seqnos y' \/ last_queued x y' (out y').
Proof.
  intros Hpos Hrv Hseq Hlast. destruct (rv_sender _ _ _ _ Hrv) as [(_ & Es & Eo)|(_ & s1 & new & replies & Hh & Hrf & Eo & Hrep)].
  { unfold last_queued. by rewrite Es, Eo. }
  destruct (heeds_keeps seg _ _ Hh) as (En & _). pose proof (rf_next _ _ _ _ _ Hrf) as En'.
  destruct (decide (new = [])) as [->|Hne].
  { cbn [span] in En'. rewrite En, Z.add_0_r in En'. unfold last_queued. rewrite En'. destruct Hlast as [?|(g & Hin & ?)]; [by left|right].
    exists g. rewrite Eo. split; [|done]. apply elem_of_app. by left. }
  right. destruct (rf_last _ _ _ _ _ Hrf Hne) as (g & Hin & Ef). destruct Hrep as [[-> _]|[? _]]; [|done].
  exists (stamp (_receiver y') g). rewrite stamp_length. destruct (stamp_same_text (_receiver y') g) as (_ & _ & -> & _).
  pose proof (rf_long _ _ _ _ _ Hrf) as Hlong. pose proof (span_pos new Hlong Hne). rewrite Forall_forall in Hlong.
  split_and!; [|by apply Hlong|].
  - rewrite Eo. apply elem_of_app. right. by apply list_elem_of_fmap_2.
  - rewrite Ef. symmetry. apply Hseq. rewrite En', En. lia.
Qed.

Lemma reading_step hx hy seg rest : reading hx hy (seg :: rest) ->
  exists c', segment_received (h_conn hy) seg = Ok c' /\ reading hx (mkHost c' (h_written hy) (h_read hy) (h_wire hy)) rest.
Proof.
  intros [Hg Hrest Hsd Hlow Hroom Hfront Hend Hlast Hhello Hwait].
  apply Forall_cons in Hrest as [(Hin & Hnr & Hk) Hrest].
  destruct (peer_facts W [] default_config default_config isnx isny hx hy Hsize Hg) as (Hok & Hp & Hwire & Hlim).
  assert (wire_ok W isnx isny (h_seq hx) (h_fin hx) (h_seq hy) (h_fin hy) (h_limit hx) seg) as Hw.
  { rewrite Forall_forall in Hwire. apply Hwire. apply elem_of_app. by right. }
  destruct (steady_receives [] W isny isnx capacity nothing Hsize ltac:(apply Hx) ltac:(done) _ _ _ _ _ _ _ _ seg Hok Hp Hsd Hnr Hk Hw Hlim)
    as (c' & Es & Hop & Hrv & Hsd').
  pose proof (op_ok _ _ _ _ _ _ _ _ _ _ _ _ Hop) as Hok'. exists c'. split; [done|]. set (hy' := mkHost c' _ _ _).
  assert (good (hx, hy')) as Hg'.
  { apply net_ok_swap in Hg. apply net_ok_swap. apply (good_step [] W default_config default_config ry rx isny isnx nothing Hsize Hy Hx _ _ _ Hg).
    by apply (hs_receive [] (h_wire hx) hy seg c'). }
  assert (seqnos c' <> 0 -> seqnos c' = 1 + (if _set_fin (_sender c') then 1 else 0)) as Hseq by (by apply (seqnos_empty _ _ _ _ _ _ _ _ _ _ Hok')).
  pose proof (taken_writer hx hy Hg) as Hkx.
  destruct (taken_grows W isny isnx capacity Hsize ltac:(apply Hx) ltac:(done) _ _ _ seg _ _ _ _ (co_rcv _ _ _ _ _ _ _ _ _ _ _ Hok) Hp Hw Hlim (rv_rcv _ _ _ _ Hrv))
    as (_ & Hset & Hrd & _).
  constructor; try done; unfold hy'; cbn [h_conn].
  - rewrite (window_read _ _ _ _ (co_rcv _ _ _ _ _ _ _ _ _ _ _ Hok) (co_rcv _ _ _ _ _ _ _ _ _ _ _ Hok')); [done|apply Hop].
  - unfold front_answered in *. destruct (unacked (h_conn hx)) as [|f l] eqn:Eu; [done|]. destruct Hfront as [(g & Hg1 & Hst)|Hh].
    + apply elem_of_cons in Hg1 as [->|Hg1]; [|left; by exists g]. right.
      eapply (front_received hx hy seg f l c'); try done; [by rewrite Eu|apply Hok'].
    + right. destruct (rv_sender _ _ _ _ Hrv) as [(_ & _ & ->)|(_ & s1 & new & replies & _ & _ & -> & _)]; [done|by apply heard_app].
  - rewrite <- Hend. by eapply out_end_segment.
  - apply (last_queued_step (h_conn hx) (h_conn hy) c' seg (knows (h_conn hx))); try done. lia.
  - destruct (rv_sender _ _ _ _ Hrv) as [(_ & _ & ->)|(_ & s1 & new & replies & _ & _ & -> & _)]; [done|by apply greeted_app].
  - eapply (waiting_step isny (taken (_receiver (h_conn hx))) ltac:(lia) _ (h_conn hy) c' seg); try done; [apply Hok|apply Hsd| |lia|lia].
    intros Ha. pose proof Hg as Hgs. apply net_ok_swap in Hgs.
    destruct (peer_facts [] W default_config default_config isny isnx hy hx nothing Hgs) as (Hokx & Hpy & _).
    apply (taken_pos [] isny capacity ltac:(done) _ _ _ (co_rcv _ _ _ _ _ _ _ _ _ _ _ Hokx) Hpy). auto.
Qed.

Lemma reading_run segs hx hy : reading hx hy segs ->
  exists c', receive_segments (h_conn hy) segs = Ok c' /\ reading hx (mkHost c' (h_written hy) (h_read hy) (h_wire hy)) [].
Proof.
  revert hy. induction segs as [|seg segs IH]; intros hy Hr; [exists (h_conn hy); by destruct hy|].
  destruct (reading_step hx hy seg segs Hr) as (c & E & Hr'). cbn [receive_segments]. rewrite E. cbn [rbind].
  by destruct (IH _ Hr') as (c' & E' & Hr2); exists c'.
Qed.

(** ** The writer receives *)

Definition front_old x (e : Z) : Prop := match unacked x with [] => True | f :: _ => front_end x f <= e end.

(** While the segments of the reader are delivered to the writer, in order; an
    acknowledgment of [e] is to come or has come. *)
Record writing (e : Z) (hy : host) (hx : host) (rest : list TCPSegment) : Prop := {
  wr_good : good (hx, hy);
  wr_rest : Forall (fun seg => seg ∈ h_wire hy /\ norst seg) rest;
  wr_steady : steady isny (knows (h_conn hy)) 0 (h_conn hx);
  wr_acks : acks_from isnx (_ackno (_sender (h_conn hx))) (taken (_receiver (h_conn hy))) rest;
  wr_low : seqnos (h_conn hx) - span (unacked (h_conn hx)) <= _ackno (_sender (h_conn hx));
  wr_front : retries (h_conn hx) = 0 /\ front_moving (_sender (h_conn hx)) (out (h_conn hx)) \/
             heard isnx e rest /\ front_old (h_conn hx) e;
  wr_heard : heard isnx e rest \/ e <= _ackno (_sender (h_conn hx));
  wr_hello : greeted (h_conn hx) rest;
  wr_taken : taken (_receiver (h_conn hx)) = h_seq hy /\ (unacked (h_conn hy) = [] \/ coming isny (h_seq hy) (out (h_conn hx))) \/
             last_queued (h_conn hx) (h_conn hy) rest
}.

Lemma syn_knows r seg r' : TCPReceiver.segment_received r seg = Ok r' -> syn (_header seg) = true -> _set_isn r' = true.
Proof.
  intros E Hs. unfold TCPReceiver.segment_received in E. rewrite Hs in E. cbn [_set_isn] in E. destruct (_ || _); [by simplify_eq|].
  apply rbind_ok_inv in E as (re & _ & E). by simplify_eq.
Qed.

Lemma front_moving_app s q q' : front_moving s q -> front_moving s (q ++ q').
Proof. unfold front_moving. destruct (_wait_ack s); [done|]. intros [?|?]; [left; by apply on_its_way_app|by right]. Qed.

(** The writer's sender, after a segment. *)
Section writer_step.
Context (known : Prop) (e hi : Z) (x x' : TCPConnection) (seg : TCPSegment) (rest : list TCPSegment).
Context (Hcalm : calm known (_sender x)) (Hisn : TCPSender._isn (_sender x) = isnx).
Context (Hsmall : seqnos x < 4294967296) (Hhi : hi <= seqnos x) (Hlo : 0 <= _ackno (_sender x)).
Context (Hrv : receives known x x' seg) (Hk' : _set_isn (_receiver x') = true).
Context (Hacks : acks_from isnx (_ackno (_sender x)) hi (seg :: rest)).
Context (Hlow : seqnos x - span (unacked x) <= _ackno (_sender x)).
Context (Hfront : retries x = 0 /\ front_moving (_sender x) (out x) \/ heard isnx e (seg :: rest) /\ front_old x e).
Context (Hheard : heard isnx e (seg :: rest) \/ e <= _ackno (_sender x)).


Lemma writer_heeds s1 : heeds (_sender x) s1 seg ->
  acks_from isnx (_ackno s1) hi rest /\ _ackno (_sender x) <= _ackno s1 /\ seqnos x - span (_wait_ack s1) <= _ackno s1 /\
  (_wait_ack s1 = unacked x /\ _consecutive_transmit_num s1 = retries x /\ (forall q, front_moving (_sender x) q -> front_moving s1 q) \/
   (forall q, front_moving s1 q) /\ _consecutive_transmit_num s1 = 0) /\
  (heard isnx e (seg :: rest) -> heard isnx e rest \/
     e <= _ackno s1 /\ first_unacked (_wait_ack s1) (seqnos x) (_ackno s1)).
Proof.
  pose proof Hacks as Ha. cbn [acks_from] in Ha. unfold heeds. destruct (ack (_header seg)) eqn:Ea.
  - intros (k & [Ek Hkr _] & Hpost & _ & Hmov & Hcase). rewrite Hisn in Ek. destruct Ha as (k' & Ek' & Hk1 & Hle & Ha).
    pose proof (acks_from_le _ _ _ _ Ha) as Hkh. assert (k' = k) as -> by (rewrite Ek' in Ek; apply wrap_unique in Ek; lia).
    destruct (ap_popped _ _ _ _ Hpost) as (popped & Ew & Hpop & _). rewrite (ap_ackno _ _ _ _ Hpost).
    split_and!; [done|done| | |].
    + destruct popped; [|by apply Hpop]. rewrite Ew in Hlow. simpl in Hlow. lia.
    + destruct Hcase as [[? ?]|?]; [by left|by right].
    + intros (g & k2 & Hin & Hg & Eg & He & Hk2). apply elem_of_cons in Hin as [->|Hin]; [|left; by exists g, k2]. right.
      split; [|apply Hpost]. rewrite Ek' in Eg. apply wrap_unique in Eg; lia.
  - intros ->. split_and!; try done; [by left|]. intros (g & k2 & Hin & Hg & ?). apply elem_of_cons in Hin as [->|Hin]; [congruence|].
    left. by exists g, k2.
Qed.

Lemma writer_step : acks_from isnx (_ackno (_sender x')) hi rest /\ seqnos x' - span (unacked x') <= _ackno (_sender x') /\
  (retries x' = 0 /\ front_moving (_sender x') (out x') \/ heard isnx e rest /\ front_old x' e) /\
  (heard isnx e rest \/ e <= _ackno (_sender x')).
Proof.
  destruct (rv_sender _ _ _ _ Hrv) as [(E & _)|(_ & s1 & new & replies & Hh & Hrf & Eo & Hrep)]; [congruence|].
  destruct (writer_heeds s1 Hh) as (Ha & Hle & Hlow1 & Hcase & Hhd). destruct (heeds_keeps seg _ _ Hh) as (En & _).
  pose proof Hrf as [_ _ _ Ew' En' Ea' Enum' _ _ _ _ _ _ Hmov _]. rewrite Ea'.
  assert (_consecutive_transmit_num s1 = 0 /\ front_moving s1 (out x) -> retries x' = 0 /\ front_moving (_sender x') (out x')) as Hleft.
  { intros [E0 Hm]. rewrite Enum'. split; [done|]. rewrite Eo. destruct Hrep as [[-> _]|(-> & _)]; [by apply Hmov|].
    apply front_moving_app. specialize (Hmov _ Hm). simpl in Hmov. by rewrite app_nil_r in Hmov. }
  split_and!; [done| | |].
  - rewrite Ew', En', En, span_app. lia.
  - destruct Hfront as [[E0 Hm]|[Hhr Hold]].
    { left. apply Hleft. destruct Hcase as [(_ & -> & Hm1)|[Hm1 ->]]; auto. }
    destruct Hcase as [(E1 & E2 & Hm1)|[Hm1 E2]]; [|left; apply Hleft; auto].
    destruct (unacked x) as [|f l] eqn:Eu.
    { left. apply Hleft. rewrite E2. split; [by apply (cm_idle _ _ Hcalm)|]. unfold front_moving. by rewrite E1. }
    unfold front_old, front_end in *. rewrite Eu in Hold. destruct (Hhd Hhr) as [Hhr'|[He Hun]].
    + right. split; [done|]. rewrite Ew', E1, En', En. cbn [app]. rewrite app_comm_cons, span_app. lia.
    + exfalso. rewrite E1 in Hun. cbn [first_unacked] in Hun. lia.
  - destruct Hheard as [Hhr|?]; [|right; lia]. destruct (Hhd Hhr) as [?|[? _]]; auto.
Qed.
End writer_step.

(** The reader's last segment is taken in and acknowledged. *)
Lemma last_received hx hy seg c' : good (hx, hy) -> seg ∈ h_wire hy -> 0 < length_in_sequence_space seg ->
  1 + (if fin (_header seg) then 1 else 0) = h_seq hy -> (syn (_header seg) = true \/ knows (h_conn hx)) ->
  receives (knows (h_conn hy)) (h_conn hx) c' seg ->
  rcv_ok [] isny capacity (_receiver c') (h_seq hy) (h_fin hy) ->
  taken (_receiver c') = h_seq hy /\ coming isny (h_seq hy) (out c').
Proof.
  intros Hg Hin Hlen He Hk Hrv Hrok. apply net_ok_swap in Hg.
  destruct (peer_facts [] W default_config default_config isny isnx hy hx nothing Hg) as (Hok & Hp & Hwire & _).
  assert (wire_ok [] isny isnx (h_seq hy) (h_fin hy) (h_seq hx) (h_fin hx) (h_limit hy) seg) as Hw.
  { rewrite Forall_forall in Hwire. apply Hwire. apply elem_of_app. by right. }
  pose proof (co_rcv _ _ _ _ _ _ _ _ _ _ _ Hok) as Hr. pose proof (rinv_bounds _ _ _ _ (ro_inv _ _ _ _ _ _ Hr)) as Hb. simpl in Hb.
  destruct (wo_kind _ _ _ _ _ _ _ _ _ Hw) as [(Hpl & Hs0 & Hf0 & _)|(i & Hseg & Hle)].
  { unfold length_in_sequence_space in Hlen. unfold payload_of in Hpl. rewrite Hpl, Hs0, Hf0 in Hlen. done. }
  pose proof (so_data _ _ _ _ Hseg) as (Hi & Hmax & _). pose proof (size_nonneg (payload_of seg)). change (size []) with 0 in Hmax.
  assert (data_end (h_seq hy) (h_fin hy) <= window_end (_reassembler (_receiver (h_conn hx)))) as Hroom.
  { assert (h_seq hy <> 0) as Hne by (destruct (fin _); lia). apply net_ok_swap in Hg.
    destruct (peer_facts W [] default_config default_config isnx isny hx hy Hsize Hg) as (Hoky & _).
    unfold data_end. rewrite (seqnos_empty _ _ _ _ _ _ _ _ _ _ Hoky Hne). destruct (_set_fin _); lia. }
  destruct (taken_segment [] isnx isny capacity nothing ltac:(apply Hy) ltac:(done) _ _ _ seg i _ _ _ _ Hr Hp Hw Hroom Hseg Hle ltac:(lia) Hk (rv_rcv _ _ _ _ Hrv))
    as [Htk Hset'].
  pose proof (taken_bounds [] isny capacity ltac:(done) _ _ _ Hrok Hp) as Htb. assert (taken (_receiver c') = h_seq hy) as Et by lia. split; [done|].
  destruct (rv_sender _ _ _ _ Hrv) as [(E & _)|(_ & s1 & new & replies & Hh & Hrf & Eo & Hrep)]; [congruence|].
  destruct (replies_plain _ _ _ _ _ _ _ Hrf Hrep) as (_ & Hpl & Hne). specialize (Hne Hlen).
  pose proof (stamped_acks [] isny capacity _ _ (_receiver c') replies ltac:(done) Hrok Hp Hpl) as Hsa.
  destruct replies as [|g rs]; [done|]. apply Forall_inv in Hsa. exists (stamp (_receiver c') g). rewrite Eo.
  assert (ack (_header (stamp (_receiver c') g)) = true) as Ha.
  { unfold stamp. destruct (receiver_ackno (_receiver c')) eqn:Ea; [done|]. apply ackno_set in Ea. congruence. }
  split_and!; [|done|rewrite <- Et; by apply Hsa]. apply elem_of_app. right. by left.
Qed.

Lemma writing_step e hx hy seg rest : writing e hy hx (seg :: rest) ->
  exists c', segment_received (h_conn hx) seg = Ok c' /\ writing e hy (mkHost c' (h_written hx) (h_read hx) (h_wire hx)) rest.
Proof.
  intros [Hg Hrest Hsd Hacks Hlow Hfront Hheard Hhello Htaken]. apply Forall_cons in Hrest as [(Hin & Hnr) Hrest].
  pose proof (peer_facts W [] default_config default_config isnx isny hx hy Hsize Hg) as (Hoky & Hpx & _).
  pose proof Hg as Hgs. apply net_ok_swap in Hgs.
  destruct (peer_facts [] W default_config default_config isny isnx hy hx nothing Hgs) as (Hok & Hp & Hwire & Hlim).
  assert (wire_ok [] isny isnx (h_seq hy) (h_fin hy) (h_seq hx) (h_fin hx) (h_limit hy) seg) as Hw.
  { rewrite Forall_forall in Hwire. apply Hwire. apply elem_of_app. by right. }
  pose proof (co_rcv _ _ _ _ _ _ _ _ _ _ _ Hoky) as Hry.
  assert (ack (_header seg) = true -> knows (h_conn hy)) as Hk.
  { intros Ha. destruct (acks_from_elem _ _ _ _ seg Hacks ltac:(by left) Ha) as (k & _ & ? & ?).
    apply (taken_pos W isnx capacity ltac:(done) _ _ _ Hry Hpx). lia. }
  destruct (steady_receives W [] isnx isny capacity Hsize nothing ltac:(apply Hy) ltac:(done) _ _ _ _ _ _ _ _ seg Hok Hp Hsd Hnr Hk Hw Hlim)
    as (c' & Es & Hop & Hrv & Hsd').
  pose proof (op_ok _ _ _ _ _ _ _ _ _ _ _ _ Hop) as Hok'. exists c'. split; [done|]. set (hx' := mkHost c' _ _ _).
  assert (good (hx', hy)) as Hg'.
  { apply (good_step W [] default_config default_config rx ry isnx isny Hsize nothing Hx Hy _ _ _ Hg).
    by apply (hs_receive W (h_wire hy) hx seg c'). }
  destruct (taken_grows [] isnx isny capacity nothing ltac:(apply Hy) ltac:(done) _ _ _ seg _ _ _ _ (co_rcv _ _ _ _ _ _ _ _ _ _ _ Hok) Hp Hw Hlim (rv_rcv _ _ _ _ Hrv))
    as (Htg & Hset & _).
  assert (syn (_header seg) = true \/ knows (h_conn hx)) as Hsk.
  { destruct Hhello as [?|(g & tl & [= <- <-] & ?)]; [by right|by left]. }
  assert (knows c') as Hk' by (destruct Hsk as [?|?]; [eapply syn_knows; [apply (rv_rcv _ _ _ _ Hrv)|done]|auto]).
  destruct (co_snd _ _ _ _ _ _ _ _ _ _ _ Hok) as (sent & a & Hinv). pose proof (si_ackno _ _ _ _ Hinv) as Hlo.
  pose proof (taken_bounds W isnx capacity ltac:(done) _ _ _ Hry Hpx) as Htb. pose proof Hpx as [Hpn _].
  destruct (writer_step (knows (h_conn hy)) e (taken (_receiver (h_conn hy))) (h_conn hx) c' seg rest) as (W1 & W2 & W3 & W4);
    try done; try lia; [apply Hsd|apply Hok|].
  constructor; try done; unfold hx'; cbn [h_conn].
  - by left.
  - destruct Htaken as [[Et Hu]|(g & Hgin & Hlen & He)].
    + left. pose proof (taken_bounds [] isny capacity ltac:(done) _ _ _ (co_rcv _ _ _ _ _ _ _ _ _ _ _ Hok') Hp). split; [lia|].
      destruct Hu as [?|Hcm]; [by left|right].
      destruct (rv_sender _ _ _ _ Hrv) as [(_ & _ & ->)|(_ & s1 & new & replies & _ & _ & -> & _)]; [done|by apply coming_app].
    + apply elem_of_cons in Hgin as [->|Hgin]; [|right; by exists g]. left.
      destruct (last_received hx hy seg c' Hg Hin Hlen He Hsk Hrv ltac:(apply Hok')) as [? ?]. auto.
Qed.

Lemma writing_run e segs hx hy : writing e hy hx segs ->
  exists c', receive_segments (h_conn hx) segs = Ok c' /\ writing e hy (mkHost c' (h_written hx) (h_read hx) (h_wire hx)) [].
Proof.
  revert hx. induction segs as [|seg segs IH]; intros hx Hr; [exists (h_conn hx); by destruct hx|].
  destruct (writing_step e hx hy seg segs Hr) as (c & E & Hr'). cbn [receive_segments]. rewrite E. cbn [rbind].
  by destruct (IH _ Hr') as (c' & E' & Hr2); exists c'.
Qed.

(** ** Between the deliveries *)

(** At the beginning of a turn. *)
Record lively (hx hy : host) : Prop := {
  lv_good : good (hx, hy);
  lv_x : steady isny (knows (h_conn hy)) 0 (h_conn hx);
  lv_y : steady isnx (knows (h_conn hx)) (_ackno (_sender (h_conn hx))) (h_conn hy);
  lv_started : 1 <= h_seq hx /\ 1 <= h_seq hy;
  lv_low : h_seq hx - span (unacked (h_conn hx)) <= _ackno (_sender (h_conn hx));
  lv_front : front_sent (_sender (h_conn hx)) (out (h_conn hx));
  lv_end : out_end (h_conn hy) = true;
  lv_last : taken (_receiver (h_conn hx)) = h_seq hy \/ last_queued (h_conn hx) (h_conn hy) (out (h_conn hy));
  lv_hello : greeted (h_conn hx) (out (h_conn hy));
  lv_wait : unacked (h_conn hy) = [] /\ h_fin hy = true \/
            coming isny (h_seq hy) (out (h_conn hx)) /\ knows (h_conn hy) /\ taken (_receiver (h_conn hx)) = h_seq hy \/
            taken (_receiver (h_conn hx)) = 0 /\ retries (h_conn hy) = 0 /\ unacked (h_conn hy) <> [];
  lv_empty : ByteStream.buffer_size (inbound_stream (h_conn hy)) = 0
}.

(** The writer has filled its window, with more in its stream than before. *)
Lemma lively_refill hx hy c' w' st new : lively hx hy -> good (mkHost c' w' (h_read hx) (h_wire hx), hy) ->
  refilled (knows (h_conn hy)) (_receiver (h_conn hx)) (with_stream (_sender (h_conn hx)) st) (_sender c') new ->
  _receiver c' = _receiver (h_conn hx) -> out c' = out (h_conn hx) ++ map (stamp (_receiver (h_conn hx))) new ->
  lively (mkHost c' w' (h_read hx) (h_wire hx)) hy.
Proof.
  intros [Hg Hsx Hsy Hst Hlow Hfront Hend Hlast Hhello Hwait Hemp] Hg' Hrf Er Eo.
  pose proof Hrf as [Hc Hf Hcl Ew En Ea _ _ _ Hnr Hpl _ _ _ Hsent]. cbn [_wait_ack _next_seqno _ackno with_stream] in *.
  pose proof (span_nonneg new).
  pose proof Hg' as Hgs. apply net_ok_swap in Hgs.
  destruct (peer_facts [] W default_config default_config isny isnx hy _ nothing Hgs) as (Hok & Hp & _). cbn [h_conn] in *.
  constructor; try done; cbn [h_conn]; rewrite ?Er; try done.
  - eapply (steady_queue W [] isnx isny capacity ltac:(done) (knows (h_conn hy)) 0 (h_conn hx) c' _ _ _ _ _ new); try done; rewrite Er; done.
  - by rewrite Ea.
  - lia.
  - rewrite Ew, En, Ea, span_app. lia.
  - rewrite Eo. apply Hsent. exact Hfront.
  - unfold greeted in *. by rewrite Er.
  - destruct Hwait as [?|[(Hcm & ? & ?)|?]]; [by left|right; left|by right; right]. rewrite Eo. split; [by apply coming_app|done].
Qed.

(** Filling the window after the stream has changed. *)
Lemma refill_after hx hy st w' sent a s : lively hx hy -> sinv (with_stream (_sender (h_conn hx)) st) w' sent a -> size w' <= size W ->
  fill_window (with_stream (_sender (h_conn hx)) st) = Ok s ->
  refilled (knows (h_conn hy)) (_receiver (h_conn hx)) (with_stream (_sender (h_conn hx)) st) (with_segments_out s []) (segments_out s).
Proof.
  intros Hl Hinv Hw Hf. pose proof (lv_x _ _ Hl) as Hsd.
  destruct (refill (knows (h_conn hy)) (_receiver (h_conn hx)) (with_stream (_sender (h_conn hx)) st) w' sent a) as (s2 & new & Hf2 & E & Hrf);
    [by apply (calm_ext _ (_sender (h_conn hx))), Hsd|apply Hsd|done|lia|]. rewrite Hf in Hf2. simplify_eq. done.
Qed.

Lemma lively_write hx hy data c' n : lively hx hy -> out_end (h_conn hx) = false -> data = slice W (size (h_written hx)) (size data) ->
  TCPConnection.write (h_conn hx) data = Ok (c', n) ->
  lively (mkHost c' (h_written hx ++ ztake n data) (h_read hx) (h_wire hx)) hy.
Proof.
  intros Hl He Hd Hw. pose proof (lv_good _ _ Hl) as Hg.
  pose proof (good_step W [] default_config default_config rx ry isnx isny Hsize nothing Hx Hy _ _ _ Hg (hs_write W (h_wire hy) hx data c' n He Hd Hw)) as Hg'.
  pose proof Hg as Hgs. apply net_ok_swap in Hgs. pose proof Hg' as Hgs'. apply net_ok_swap in Hgs'.
  destruct (peer_facts [] W default_config default_config isny isnx hy hx nothing Hgs) as (Hok & _).
  destruct (peer_facts [] W default_config default_config isny isnx hy _ nothing Hgs') as (Hok' & _).
  pose proof (conn_size _ _ _ _ _ _ _ _ _ _ _ Hok') as Hsz. cbn [h_written] in Hsz.
  destruct (co_snd _ _ _ _ _ _ _ _ _ _ _ Hok) as (sent & a & Hinv). pose proof (sinv_write _ _ _ _ data Hinv He) as Hinv2.
  unfold TCPConnection.write, stream_in in *. destruct (ByteStream.write (_stream (_sender (h_conn hx))) data) as [st n2].
  apply rbind_ok_inv in Hw as (s & Hf & Hw). injection Hw as <- <-. cbn [_sender set_sender] in Hf. cbn [fst snd] in Hinv2.
  pose proof (refill_after hx hy st _ sent a s Hl Hinv2 Hsz Hf) as Hrf.
  match goal with |- lively (mkHost (try_clean_close ?c) _ _ _) _ => destruct (close_keeps c) as (E1 & E2 & E3 & _) end.
  eapply (lively_refill hx hy _ _ st (segments_out s)); [done|done|by rewrite E1|by rewrite E2|].
  rewrite E3. unfold send_segments. cbn. by rewrite send_loop_map.
Qed.

Lemma lively_end hx hy c' : lively hx hy -> h_written hx = W -> end_input_stream (h_conn hx) = Ok c' ->
  lively (mkHost c' (h_written hx) (h_read hx) (h_wire hx)) hy /\ out_end c' = true.
Proof.
  intros Hl Hw He. pose proof (lv_good _ _ Hl) as Hg.
  pose proof (good_step W [] default_config default_config rx ry isnx isny Hsize nothing Hx Hy _ _ _ Hg (hs_end W (h_wire hy) hx c' Hw He)) as Hg'.
  pose proof Hg as Hgs. apply net_ok_swap in Hgs.
  destruct (peer_facts [] W default_config default_config isny isnx hy hx nothing Hgs) as (Hok & _).
  pose proof (conn_size _ _ _ _ _ _ _ _ _ _ _ Hok) as Hsz.
  destruct (co_snd _ _ _ _ _ _ _ _ _ _ _ Hok) as (sent & a & Hinv). pose proof (sinv_end _ _ _ _ Hinv) as Hinv2.
  unfold end_input_stream in He. apply rbind_ok_inv in He as (s & Hf & He). injection He as <-. cbn [_sender set_sender] in Hf.
  pose proof (refill_after hx hy _ _ sent a s Hl Hinv2 Hsz Hf) as Hrf. split.
  - eapply (lively_refill hx hy _ _ _ (segments_out s)); [done|done|exact Hrf|done|]. unfold send_segments. cbn. by rewrite send_loop_map.
  - apply fill_window_end in Hf. exact Hf.
Qed.

Lemma write_ackno c data c' n : TCPConnection.write c data = Ok (c', n) -> _ackno (_sender c') = _ackno (_sender c).
Proof.
  unfold TCPConnection.write. destruct (ByteStream.write _ _) as [st m]. intros H. apply rbind_ok_inv in H as (s & Hf & H). injection H as <- _.
  match goal with |- context [try_clean_close ?c] => destruct (close_keeps c) as (-> & _) end. by apply fill_window_ackno in Hf.
Qed.

Lemma end_ackno c c' : end_input_stream c = Ok c' -> _ackno (_sender c') = _ackno (_sender c).
Proof. unfold end_input_stream. intros H. apply rbind_ok_inv in H as (s & Hf & [= <-]). by apply fill_window_ackno in Hf. Qed.

(** The writer writes its input. *)
Lemma lively_input fuel hx hy buf : lively hx hy -> buf_ok buf -> h_written hx ++ str buf = W ->
  (str buf = [] \/ out_end (h_conn hx) = false) -> size (str buf) <= Z.of_nat fuel ->
  exists x buf' w, write_input fuel (h_conn hx) buf = Ok (x, buf') /\ buf_ok buf' /\ out_end x = out_end (h_conn hx) /\
    w ++ str buf' = W /\ lively (mkHost x w (h_read hx) (h_wire hx)) hy /\ (str buf = [] -> str buf' = [] /\ x = h_conn hx) /\
    _ackno (_sender x) = _ackno (_sender (h_conn hx)) /\
    (str buf' = [] \/ remaining_outbound_capacity x = 0).
Proof.
  revert hx buf. induction fuel as [|fuel IH]; intros hx buf Hl Hb Hw Ho Hf; cbn [write_input]; unfold Parser.buffer_size;
    pose proof (size_nonneg (str buf)) as Hpos.
  { assert (size (str buf) = 0) as E by lia. rewrite E. simpl. exists (h_conn hx), buf, (h_written hx). split_and!; try done;
      [by destruct hx|left; by apply size_zero]. }
  destruct (_ && _) eqn:Ec.
  2:{ exists (h_conn hx), buf, (h_written hx). split_and!; try done; [by destruct hx|].
      apply andb_false_iff in Ec as [E%negb_false_iff%Z.eqb_eq|E%negb_false_iff%Z.eqb_eq]; [left; by apply size_zero|by right]. }
  apply andb_true_iff in Ec as [Hs%negb_true_iff%Z.eqb_neq Hc%negb_true_iff%Z.eqb_neq].
  destruct Ho as [Ho|Ho]; [rewrite Ho in Hs; done|]. set (want := Z.min _ _).
  pose proof (outbound_capacity W [] default_config default_config isnx isny _ _ (lv_good _ _ Hl)) as Hcap.
  set (data := ztake want (str buf)).
  assert (size data = want) as Hd by (unfold data; rewrite size_ztake; lia).
  assert (data = slice W (size (h_written hx)) (size data)) as Hsl.
  { rewrite Hd, <- Hw. unfold slice. by rewrite zdrop_app. }
  destruct (good_calls W [] default_config default_config rx ry isnx isny Hsize nothing Hx Hy hx hy (lv_good _ _ Hl)) as (_ & Hwr & _).
  destruct (Hwr data Ho Hsl) as [[x n] Ew]. rewrite Ew. simpl.
  pose proof (write_amount _ _ _ _ Ew) as Hn. rewrite Hd, Z.min_r in Hn by lia. subst n. rewrite Z.eqb_refl. simpl.
  destruct (buffer_remove_prefix_spec buf want Hb) as (buf' & -> & Hb' & Es); [lia|]. simpl.
  pose proof (lively_write hx hy data x want Hl Ho Hsl Ew) as Hl'. rewrite (ztake_all want data) in Hl' by lia.
  destruct (IH _ buf' Hl' Hb') as (x' & buf2 & w & E & Hb2 & Ho2 & Hw2 & Hl2 & _ & Ea & Hex); cbn [h_written h_conn h_read h_wire] in *.
  - rewrite Es, <- app_assoc. unfold data. by rewrite ztake_zdrop.
  - right. by rewrite (out_end_write _ _ _ _ Ew).
  - rewrite Es, size_zdrop by lia. lia.
  - exists x', buf2, w. split_and!; try done; [by rewrite Ho2; eapply out_end_write| |by rewrite Ea; eapply write_ackno].
    intros E0. rewrite E0 in Hs. done.
Qed.

(** ** The exchange of a turn *)

Lemma calm_known (known known' : Prop) s : (known -> known') -> calm known s -> calm known' s.
Proof. intros Hk [A1 A2 A3 A4 A5]. constructor; try done. destruct A3; [by left|right; auto]. Qed.

Lemma coming_nil isn k : ~ coming isn k [].
Proof. intros (seg & Hin & _). by apply not_elem_of_nil in Hin. Qed.

Lemma moved_good hx hy q : good (hx, hy) -> q = out (h_conn hx) ->
  good (mkHost (set_out (h_conn hx) []) (h_written hx) (h_read hx) (h_wire hx ++ q), hy).
Proof.
  intros Hg ->. apply (good_step W [] default_config default_config rx ry isnx isny Hsize nothing Hx Hy _ _ _ Hg).
  apply hs_transmit. by rewrite app_nil_r.
Qed.

Lemma moved_good_reader hx hy q : good (hx, hy) -> q = out (h_conn hy) ->
  good (hx, mkHost (set_out (h_conn hy) []) (h_written hy) (h_read hy) (h_wire hy ++ q)).
Proof.
  intros Hg ->. apply net_ok_swap in Hg. apply net_ok_swap.
  apply (good_step [] W default_config default_config ry rx isny isnx nothing Hsize Hy Hx _ _ _ Hg).
  apply hs_transmit. by rewrite app_nil_r.
Qed.

(** The first delivery. *)
Lemma start_reading (reorder : bool) hx hy : lively hx hy ->
  let q := out (h_conn hx) in
  reading (mkHost (set_out (h_conn hx) []) (h_written hx) (h_read hx) (h_wire hx ++ q)) hy (if reorder then reverse q else q).
Proof.
  intros [Hg Hsx Hsy Hst Hlow Hfront Hend Hlast Hhello Hwait Hemp] q. set (segs := if reorder then _ else _).
  assert (forall seg, seg ∈ segs <-> seg ∈ q) as Hsegs by (intros seg; unfold segs; destruct reorder; [apply elem_of_reverse|done]).
  pose proof (peer_facts W [] default_config default_config isnx isny hx hy Hsize Hg) as (Hoky & Hpx & _ & Hlim).
  pose proof Hg as Hgs. apply net_ok_swap in Hgs.
  destruct (peer_facts [] W default_config default_config isny isnx hy hx nothing Hgs) as (Hokx & Hpy & _).
  constructor; cbn [h_conn h_wire _sender _receiver set_out]; try done.
  - by apply moved_good.
  - apply Forall_forall. intros seg Hin%Hsegs. split_and!; [apply elem_of_app; by right| |].
    + pose proof (sd_norst _ _ _ _ Hsx) as Hn. rewrite Forall_forall in Hn. by apply Hn.
    + intros Ha. destruct (acks_from_elem _ _ _ _ seg (sd_acks _ _ _ _ Hsx) Hin Ha) as (k & _ & ? & ?).
      apply (taken_pos [] isny capacity ltac:(done) _ _ _ (co_rcv _ _ _ _ _ _ _ _ _ _ _ Hokx) Hpy). lia.
  - pose proof (rinv_bounds _ _ _ _ (ro_inv _ _ _ _ _ _ (co_rcv _ _ _ _ _ _ _ _ _ _ _ Hoky))) as Hb. simpl in Hb.
    unfold inbound_stream in Hemp. change DEFAULT_CAPACITY with 64000 in Hb. lia.
  - unfold front_answered. cbn [_sender set_out]. unfold front_sent in Hfront. destruct (unacked (h_conn hx)) as [|f l]; [done|]. left.
    destruct Hfront as (g & Hin & ?). exists g. split; [by apply Hsegs|done].
  - destruct Hwait as [[Eu Ef]|[(Hcm & Hk & Et)|(Et & H0 & Hne)]].
    + split_and!; [left; by apply (cm_idle _ _ (sd_calm _ _ _ _ Hsy))|auto|auto].
    + rewrite Et. assert (awaits isny (h_seq hy) segs (h_conn hy)) as Haw.
      { split; [|done]. destruct Hcm as (g & Hin & ?). exists g. split; [by apply Hsegs|done]. }
      split_and!; [right|by left|by left]. split; [done|]. unfold old_front. destruct (unacked (h_conn hy)) as [|f l]; [done|].
      cbn [span]. pose proof (span_nonneg l). lia.
    + rewrite Et. split_and!; [by left|right; right; lia|auto].
Qed.

(** Where the acknowledgment number of the writer gets to. *)
Definition target x : Z := match unacked x with [] => _ackno (_sender x) | f :: _ => front_end x f end.

Lemma target_grows hx hy : lively hx hy -> 1 <= target (h_conn hx) /\
  (unacked (h_conn hx) <> [] -> _ackno (_sender (h_conn hx)) < target (h_conn hx)).
Proof.
  intros Hl. pose proof (lv_good _ _ Hl) as Hgs. apply net_ok_swap in Hgs.
  destruct (peer_facts [] W default_config default_config isny isnx hy hx nothing Hgs) as (Hokx & _).
  destruct (co_snd _ _ _ _ _ _ _ _ _ _ _ Hokx) as (sent & a & Hinv). pose proof (si_first _ _ _ _ Hinv) as Hf.
  pose proof (si_ackno _ _ _ _ Hinv). pose proof (lv_low _ _ Hl). pose proof (lv_started _ _ Hl).
  unfold target, front_end. destruct (unacked (h_conn hx)) as [|f l].
  - cbn [span] in *. split; [lia|done].
  - cbn [first_unacked] in Hf. split; [lia|]. intros _. lia.
Qed.

(** After both deliveries. *)
Record exchanged (hx : host) (hx' hy' : host) : Prop := {
  ex_good : good (hx', hy');
  ex_x : steady isny (knows (h_conn hy')) 0 (h_conn hx');
  ex_y : steady isnx (knows (h_conn hx')) (_ackno (_sender (h_conn hx'))) (h_conn hy');
  ex_started : 1 <= h_seq hx' /\ 1 <= h_seq hy';
  ex_low : h_seq hx' - span (unacked (h_conn hx')) <= _ackno (_sender (h_conn hx'));
  ex_front : retries (h_conn hx') = 0 /\ front_moving (_sender (h_conn hx')) (out (h_conn hx'));
  ex_reader : retries (h_conn hy') = 0 /\ out (h_conn hy') = [] /\ out_end (h_conn hy') = true /\ knows (h_conn hy') /\ knows (h_conn hx');
  ex_taken : taken (_receiver (h_conn hx')) = h_seq hy';
  ex_wait : unacked (h_conn hy') = [] /\ h_fin hy' = true \/ coming isny (h_seq hy') (out (h_conn hx'));
  ex_target : target (h_conn hx) <= _ackno (_sender (h_conn hx'));
  ex_fin : taken (_receiver (h_conn hx)) <> 0 -> h_fin hy' = true;
  ex_unacked : unacked (h_conn hy') = [] \/ taken (_receiver (h_conn hx)) < h_seq hy'
}.

Lemma reading_end hx hy : reading hx hy [] -> heard isnx (target (h_conn hx)) (out (h_conn hy)) \/ unacked (h_conn hx) = [].
Proof.
  intros Hr. pose proof (rd_front _ _ _ Hr) as Hf. unfold front_answered, target in *. destruct (unacked (h_conn hx)) as [|f l]; [by right|left].
  destruct Hf as [(g & Hin & _)|?]; [by apply not_elem_of_nil in Hin|done].
Qed.

(** The reader has seen the writer's SYN. *)
Lemma reading_knows hx hy : reading hx hy [] -> 1 <= h_seq hx -> knows (h_conn hy).
Proof.
  intros Hr Hst. pose proof (peer_facts W [] default_config default_config isnx isny hx hy Hsize (rd_good _ _ _ Hr)) as (Hoky & Hpx & _).
  apply (taken_pos W isnx capacity ltac:(done) _ _ _ (co_rcv _ _ _ _ _ _ _ _ _ _ _ Hoky) Hpx). pose proof (sd_acks _ _ _ _ (rd_steady _ _ _ Hr)) as Ha.
  destruct (reading_end hx hy Hr) as [(seg & k & Hin & Hack & _)|Eu].
  - destruct (acks_from_elem _ _ _ _ seg Ha Hin Hack) as (k' & _ & ? & ?). lia.
  - pose proof (acks_from_le _ _ _ _ Ha). pose proof (rd_low _ _ _ Hr) as Hlow. rewrite Eu in Hlow. cbn [span] in Hlow. lia.
Qed.

(** The second delivery. *)
Lemma start_writing hx hy : reading hx hy [] -> steady isny (knows (h_conn hy)) 0 (h_conn hx) -> out (h_conn hx) = [] -> 1 <= h_seq hx ->
  let q := out (h_conn hy) in
  writing (target (h_conn hx)) (mkHost (set_out (h_conn hy) []) (h_written hy) (h_read hy) (h_wire hy ++ q)) hx q.
Proof.
  intros Hr Hsx Eout Hst q. pose proof Hr as [Hg _ Hsd Hlow Hroom Hfront Hend Hlast Hhello Hwait].
  constructor; cbn [h_conn h_wire _sender _receiver set_out]; try done.
  - by apply moved_good_reader.
  - apply Forall_forall. intros seg Hin. split; [apply elem_of_app; by right|].
    pose proof (sd_norst _ _ _ _ Hsd) as Hn. rewrite Forall_forall in Hn. by apply Hn.
  - apply Hsd.
  - destruct (reading_end hx hy Hr) as [Hh|Eu].
    + right. split; [done|]. unfold front_old, target. by destruct (unacked (h_conn hx)).
    + left. split; [by apply (cm_idle _ _ (sd_calm _ _ _ _ Hsx))|]. unfold front_moving. by rewrite Eu.
  - destruct (reading_end hx hy Hr) as [Hh|Eu]; [by left|right]. unfold target. rewrite Eu. lia.
  - destruct Hlast as [Et|?]; [left|by right]. split; [done|]. destruct Hwait as (_ & [[Hcm _]|[?|?]] & _); [by apply coming_nil in Hcm|by left|lia].
Qed.

Lemma exchange_spec (reorder : bool) hx hy : lively hx hy ->
  exists x1 y1 x2 y2 qx qy, move_segments (h_conn hx) (h_conn hy) [] reorder = Ok (x1, y1, []) /\
    move_segments y1 x1 [] false = Ok (y2, x2, []) /\
    exchanged hx (mkHost x2 (h_written hx) (h_read hx) qx) (mkHost y2 (h_written hy) (h_read hy) qy).
Proof.
  intros Hl. pose proof (start_reading reorder hx hy Hl) as Hr0. cbn zeta in Hr0. set (hx1 := mkHost (set_out (h_conn hx) []) _ _ _) in *.
  destruct (reading_run _ hx1 hy Hr0) as (y1 & E1 & Hr). set (hy1 := mkHost y1 _ _ _) in *.
  destruct (lv_started _ _ Hl) as [Hst Hsty]. pose proof (reading_knows hx1 hy1 Hr Hst) as Hky.
  assert (steady isny (knows (h_conn hy1)) 0 (h_conn hx1)) as Hsx.
  { destruct (lv_x _ _ Hl) as [A1 A2 A3 A4 A5]. constructor; [done|constructor| |done|by apply acks_from_le in A5]. by apply (calm_known (knows (h_conn hy))). }
  pose proof (start_writing hx1 hy1 Hr Hsx eq_refl Hst) as Hw0. cbn zeta in Hw0. set (hy2 := mkHost (set_out (h_conn hy1) []) _ _ _) in *.
  destruct (writing_run _ _ hx1 hy2 Hw0) as (x2 & E2 & Hw). set (hx2 := mkHost x2 _ _ _) in *.
  exists (set_out (h_conn hx) []), y1, x2, (set_out y1 []), (h_wire hx1), (h_wire hy2).
  assert (forall c c' (b : bool) d, receive_segments c' (if b then reverse (out c) else out c) = Ok d -> move_segments c c' [] b = Ok (set_out c [], d, [])) as Hmove.
  { intros c c' b d E. unfold move_segments. rewrite take_spec by done. cbn [app rbind]. by rewrite E. }
  split_and!; [by apply Hmove|by apply Hmove|].
  destruct Hw as [Hg2 _ Hsx2 Hac Hlow2 Hfr2 Hhd2 Hhl2 Htk2].
  assert (forall e, heard isnx e [] -> False) as Hno by (intros e (g & k & Hin & _); by apply not_elem_of_nil in Hin).
  assert (knows x2) as Hkx by (destruct Hhl2 as [?|(g & tl & [=] & _)]; done).
  destruct Htk2 as [[Et Hu]|(g & Hin & _)]; [|by apply not_elem_of_nil in Hin].
  destruct (rd_waiting _ _ _ Hr) as (Hw1 & Hw2 & Hw3).
  assert (forall P, awaits isny (taken (_receiver (h_conn hx1))) [] (h_conn hy1) \/ P -> P) as Haw.
  { intros P [[Hcm _]|?]; [by apply coming_nil in Hcm|done]. }
  constructor; try done; cbn [h_conn].
  - destruct (rd_steady _ _ _ Hr) as [B1 B2 B3 B4 B5]. constructor; [done|constructor|by apply (calm_known (knows (h_conn hx1)))|done|].
    by apply acks_from_le in Hac.
  - pose proof Hg2 as Hgs. apply net_ok_swap in Hgs.
    pose proof (peer_facts W [] default_config default_config isnx isny hx2 hy2 Hsize Hg2) as (Hoky2 & Hpx2 & _).
    destruct (peer_facts [] W default_config default_config isny isnx hy2 hx2 nothing Hgs) as (Hokx2 & Hpy2 & _).
    pose proof (taken_bounds W isnx capacity ltac:(done) _ _ _ (co_rcv _ _ _ _ _ _ _ _ _ _ _ Hoky2) Hpx2) as Htb.
    pose proof (proj2 (taken_pos W isnx capacity ltac:(done) _ _ _ (co_rcv _ _ _ _ _ _ _ _ _ _ _ Hoky2) Hpx2) Hky) as Hposy.
    pose proof (proj2 (taken_pos [] isny capacity ltac:(done) _ _ _ (co_rcv _ _ _ _ _ _ _ _ _ _ _ Hokx2) Hpy2) Hkx) as Hposx.
    rewrite Et in Hposx. change (h_conn hx2) with x2 in *. split; [lia|exact Hposx].
  - destruct Hfr2 as [?|[Hh _]]; [done|by apply Hno in Hh].
  - split_and!; try done; [destruct Hw1 as [?|[[Hcm _] _]]; [done|by apply coming_nil in Hcm]|apply (rd_end _ _ _ Hr)].
  - destruct (decide (unacked y1 = [])) as [Eu|Hne].
    + left. split; [done|]. apply Haw in Hw3 as [?|[_ ?]]; done.
    + right. destruct Hu as [?|?]; done.
  - destruct Hhd2 as [Hh|?]; [by apply Hno in Hh|done].
  - intros Hz. apply Haw in Hw3 as [?|[? _]]; done.
  - by apply Haw in Hw2.
Qed.

(** ** The end of a turn *)

Lemma read_taken r n : let r' := with_stream_out r (fst (ByteStream.read (receiver_stream_out r) n)) in
  taken r' = taken r /\ _set_isn r' = _set_isn r.
Proof. done. Qed.

(** The reader's application has read. *)
Lemma exchanged_read hx hx' hy' n : exchanged hx hx' hy' -> is_u64 n ->
  exchanged hx hx' (mkHost (fst (read_inbound (h_conn hy') n)) (h_written hy') (h_read hy' ++ snd (read_inbound (h_conn hy') n)) (h_wire hy')).
Proof.
  intros [Hg Hsx Hsy Hst Hlow Hfront Hre Htk Hw Ht Hfi Hun] Hn.
  assert (good (hx', mkHost (fst (read_inbound (h_conn hy') n)) (h_written hy') (h_read hy' ++ snd (read_inbound (h_conn hy') n)) (h_wire hy'))) as Hg'.
  { apply net_ok_swap in Hg. apply net_ok_swap.
    exact (good_step [] W default_config default_config ry rx isny isnx nothing Hsize Hy Hx _ _ _ Hg (hs_read [] (h_wire hx') hy' n Hn)). }
  destruct Hsy as [B1 B2 B3 B4 B5]. constructor; try done.
Qed.

Lemma lively_ticks hx hx' hy' : exchanged hx hx' hy' -> ByteStream.buffer_size (inbound_stream (h_conn hy')) = 0 ->
  lively (mkHost (tick (h_conn hx') 1000) (h_written hx') (h_read hx') (h_wire hx'))
         (mkHost (tick (h_conn hy') 1000) (h_written hy') (h_read hy') (h_wire hy')) /\
  (exists new, ticks (h_conn hx') (tick (h_conn hx') 1000) new) /\ (exists new, ticks (h_conn hy') (tick (h_conn hy') 1000) new).
Proof.
  intros [Hg Hsx Hsy Hst Hlow [H0 Hfront] (H0y & Eoy & Hend & Hky & Hkx) Htk Hw Ht _ _] Hemp.
  set (hx2 := mkHost (tick (h_conn hx') 1000) _ _ _). set (hy2 := mkHost (tick (h_conn hy') 1000) _ _ _).
  assert (good (hx2, hy')) as Hg1.
  { exact (good_step W [] default_config default_config rx ry isnx isny Hsize nothing Hx Hy _ _ _ Hg (hs_tick W (h_wire hy') hx' 1000 ltac:(done))). }
  assert (good (hx2, hy2)) as Hg2.
  { apply net_ok_swap in Hg1. apply net_ok_swap.
    exact (good_step [] W default_config default_config ry rx isny isnx nothing Hsize Hy Hx _ _ _ Hg1 (hs_tick [] (h_wire hx2) hy' 1000 ltac:(done))). }
  pose proof Hg as Hgs. apply net_ok_swap in Hgs. pose proof Hg1 as Hgs1. apply net_ok_swap in Hgs1.
  pose proof (peer_facts [] W default_config default_config isny isnx hy' hx' nothing Hgs) as (Hokx & Hpy & _).
  pose proof (peer_facts [] W default_config default_config isny isnx hy' hx2 nothing Hgs1) as (Hokx1 & _).
  pose proof (peer_facts W [] default_config default_config isnx isny hx2 hy' Hsize Hg1) as (Hoky & Hpx & _).
  pose proof (peer_facts W [] default_config default_config isnx isny hx2 hy2 Hsize Hg2) as (Hoky2 & _).
  destruct (steady_tick W [] isnx isny capacity (knows (h_conn hy')) 0 (h_conn hx') _ _ _ _ _ ltac:(done) Hokx Hpy Hsx H0) as (nx & Tx & Sx).
  destruct (steady_tick [] W isny isnx capacity (knows (h_conn hx')) (_ackno (_sender (h_conn hx'))) (h_conn hy') _ _ _ _ _ ltac:(done) Hoky Hpx Hsy H0y)
    as (ny & Ty & Sy). specialize (Sx Hokx1). specialize (Sy Hoky2).
  split; [|split; eauto]. destruct Tx as [X1 X2 X3 X4 X5 X6 X7 X8 X9], Ty as [Y1 Y2 Y3 Y4 Y5 Y6 Y7 Y8 Y9].
  constructor; unfold hx2, hy2; cbn [h_conn]; rewrite ?X1, ?X4, ?X5, ?X7, ?Y1, ?Y4, ?Y5, ?Y6; try done.
  - auto.
  - unfold out_end, stream_in in *. by rewrite Y8.
  - by left.
  - left. by rewrite X1.
  - destruct Hw as [?|Hcm]; [by left|right; left]. split_and!; try done. rewrite X2. by apply coming_app.
  - unfold inbound_stream in *. by rewrite Y1.
Qed.
End exchange.
