(* ===== verification/BenchmarkEnds.v ===== *)
(** * BenchmarkEnds: every turn of the benchmark makes progress

    The turns of [main_loop], from file [Exchange]: the writer's
    acknowledgment number grows with every turn until it covers the FIN; then the reader
    closes its stream, the queues run empty, and after ten quiet timeouts both
    connections are inactive. *)

From S2P Require Import Prelude WrappingIntegers ByteStream StreamReassembler Parser TCPSegment ReassemblerList Reassembly TCPReceiver.
From S2P Require Import TCPSender Transmission TCPConnection EndToEnd Hosts Benchmark Completion Exchange.

(** ** Receiving after the FIN has been sent *)

Definition without_length (seg : TCPSegment) : Prop := length_in_sequence_space seg = 0.

Lemma fin_receives c seg c' : _set_fin (_sender c) = true -> segments_out (_sender c) = [] -> segment_received c seg = Ok c' ->
  _set_fin (_sender c') = true /\ segments_out (_sender c') = [] /\
  exists new, out c' = out c ++ new /\ Forall without_length new /\ (without_length seg -> new = []).
Proof.
  intros Hf Hcl Hs. destruct (segment_received_inv c seg c' Hs) as [[_ ->]|(_ & r & _ & [[_ ->]|(a & s & _ & Hfill & ->)])].
  - split_and!; try done. exists []. by rewrite app_nil_r.
  - destruct (close_keeps (set_receiver (set_wait_time c 0) r)) as (-> & _ & -> & _). split_and!; try done. exists []. by rewrite app_nil_r.
  - match goal with |- context [try_clean_close ?c1] => destruct (close_keeps c1) as (-> & _ & -> & _) end.
    destruct (linger_keeps (send_segments (with_reply c seg r s))) as (-> & _ & -> & _).
    set (s1 := if ack (_header seg) then _ else _) in Hfill.
    assert (_set_fin s1 = true /\ segments_out s1 = []) as [Hf1 Hc1].
    { unfold s1, ack_received, segments_out in *. repeat case_match; done. }
    unfold fill_window in Hfill. rewrite Hf1 in Hfill. simplify_eq. unfold with_reply, send_segments.
    destruct (Z.eqb_spec (length_in_sequence_space seg) 0) as [Hz|Hz]; cbn [negb].
    + cbn. rewrite send_loop_map, Hc1. split_and!; try done. by exists [].
    + rewrite Hc1. cbn. unfold segments_out in Hc1. rewrite send_loop_map, Hc1. cbn. split_and!; try done.
      eexists. split; [done|]. split; [|done]. constructor; [|constructor]. unfold without_length. by rewrite stamp_length.
Qed.

Lemma fin_receives_all c segs c' : _set_fin (_sender c) = true -> segments_out (_sender c) = [] -> receive_segments c segs = Ok c' ->
  exists new, out c' = out c ++ new /\ Forall without_length new /\ (Forall without_length segs -> new = []).
Proof.
  revert c. induction segs as [|seg segs IH]; intros c Hf Hc; cbn [receive_segments].
  { intros [= <-]. exists []. by rewrite app_nil_r. }
  intros H. apply rbind_ok_inv in H as (c1 & H1 & H2). destruct (fin_receives c seg c1 Hf Hc H1) as (Hf1 & Hc1 & n1 & E1 & L1 & Z1).
  destruct (IH c1 Hf1 Hc1 H2) as (n2 & E2 & L2 & Z2). exists (n1 ++ n2). rewrite E2, E1, app_assoc. split; [done|]. split; [by apply Forall_app|].
  intros [Hs Hss]%Forall_cons. by rewrite (Z1 Hs), (Z2 Hss).
Qed.

Lemma move_inv x y b x' y' : move_segments x y [] b = Ok (x', y', []) ->
  x' = set_out x [] /\ receive_segments y (if b then reverse (out x) else out x) = Ok y'.
Proof.
  unfold move_segments. rewrite take_spec by done. cbn [rbind app]. intros H. apply rbind_ok_inv in H as (d & Hd & [= <- <-]). done.
Qed.

Lemma set_out_nil c : out c = [] -> set_out c [] = c.
Proof. intros E. destruct c; simpl in *. by subst. Qed.

(** Both deliveries, once the writer has sent its FIN. *)
Lemma moves_fin x y b x1 y1 y2 x2 : _set_fin (_sender x) = true -> segments_out (_sender x) = [] -> segments_out (_sender y) = [] ->
  move_segments x y [] b = Ok (x1, y1, []) -> move_segments y1 x1 [] false = Ok (y2, x2, []) ->
  Forall without_length (out x2) /\
  (Forall without_length (out x) -> _set_fin (_sender y) = true -> out y = [] -> out x2 = []) /\
  (out x = [] -> out y = [] -> x2 = x /\ y2 = y).
Proof.
  intros Hf Hcx Hcy H1 H2. apply move_inv in H1 as [-> H1]. apply move_inv in H2 as [-> H2].
  destruct (fin_receives_all (set_out x []) _ _ Hf Hcx H2) as (new & E & Hl & _). split_and!; [by rewrite E| |].
  - intros Hb Hfy Ey. destruct (fin_receives_all _ _ _ Hfy Hcy H1) as (ny & E1 & _ & Hn). rewrite Ey, Hn in E1 by (destruct b; [by apply Forall_reverse|done]).
    rewrite E1 in H2. injection H2 as <-. done.
  - intros Ex Ey. rewrite Ex in H1. replace (if b then _ else _) with (@nil TCPSegment) in H1 by (by destruct b). injection H1 as <-.
    rewrite Ey in H2. injection H2 as <-. by rewrite !set_out_nil.
Qed.

Lemma ticks_idle c c' new : ticks c c' new -> unacked c' = [] -> out c' = out c.
Proof.
  intros [_ Eo Hn Hw _ _ _ _ _] Hu. rewrite Hw in Hu. rewrite Hu in Hn. destruct new as [|seg new]; [by rewrite Eo, app_nil_r|].
  apply Forall_cons in Hn as [Hn _]. by apply not_elem_of_nil in Hn.
Qed.

Lemma out_end_segments c segs c' : receive_segments c segs = Ok c' -> out_end c' = out_end c.
Proof.
  revert c. induction segs as [|seg segs IH]; intros c; cbn [receive_segments]; [by intros [= <-]|].
  intros H. apply rbind_ok_inv in H as (c1 & H1 & H2). rewrite (IH _ H2). by eapply out_end_segment.
Qed.

Lemma out_end_move x y b x' y' : move_segments x y [] b = Ok (x', y', []) -> out_end x' = out_end x /\ out_end y' = out_end y.
Proof. intros H. apply move_inv in H as [-> H]. split; [done|]. by eapply out_end_segments. Qed.

(** The inbound side does not take part in writing. *)
Lemma receiver_input fuel c buf c' buf' : write_input fuel c buf = Ok (c', buf') -> _receiver c' = _receiver c.
Proof.
  revert c buf. induction fuel as [|fuel IH]; intros c buf; cbn [write_input]; (destruct (_ && _); [|by intros [= <- _]]); [done|].
  intros H. apply rbind_ok_inv in H as ([c1 n] & H1 & H). destruct (negb _); [done|]. apply rbind_ok_inv in H as (b1 & _ & H).
  apply IH in H. rewrite H. unfold TCPConnection.write in H1. destruct (ByteStream.write _ _) as [st k].
  apply rbind_ok_inv in H1 as (s & _ & [= <- _]). match goal with |- context [try_clean_close ?c] => by destruct (close_keeps c) as (_ & -> & _) end.
Qed.

Lemma receiver_end c c' : end_input_stream c = Ok c' -> _receiver c' = _receiver c.
Proof. unfold end_input_stream. intros H. by apply rbind_ok_inv in H as (s & _ & [= <-]). Qed.

Lemma inbound_is c : inbound_stream c = receiver_stream_out (_receiver c).
Proof. done. Qed.

(** What [try_clean_close] asks for, but for the time. *)
Record settled (c : TCPConnection) : Prop := {
  st_out : ByteStream.eof (stream_in (_sender c)) = true;
  st_in : input_ended (inbound_stream c) = true;
  st_flight : bytes_in_flight c = 0;
  st_next : next_seqno_absolute (_sender c) = u64 (bytes_written (stream_in (_sender c)) + 2);
  st_cfg : _cfg c = default_config
}.

Lemma settled_conn Wh Wp isn_h isn_p cap c w wire np fp lp : size Wh < 2147400000 -> conn_ok Wh Wp isn_h isn_p cap c w wire np fp lp ->
  _set_fin (_sender c) = true -> unacked c = [] -> taken (_receiver c) = size Wp + 2 -> _cfg c = default_config -> settled c.
Proof.
  intros Hsz Hok Hf Hu Ht Hc. destruct (co_snd _ _ _ _ _ _ _ _ _ _ _ Hok) as (sent & a & Hinv). pose proof (conn_size _ _ _ _ _ _ _ _ _ _ _ Hok).
  destruct (si_fin _ _ _ _ Hinv Hf) as (He & Hq & Hpos). pose proof (sinv_next _ _ _ _ Hinv ltac:(lia)) as Hn. rewrite Hf, Hq, size_nil in Hn.
  pose proof (si_data _ _ _ _ Hinv) as Ed. rewrite Hq, app_nil_r in Ed. pose proof (si_read _ _ _ _ Hinv) as Er. rewrite <- Ed in Er. pose proof (size_nonneg w).
  pose proof (wf_count _ (si_stream _ _ _ _ Hinv)) as Hw. rewrite Hq, size_nil, Z.add_0_r, Er, u64_small in Hw by (unfold is_u64; lia).
  constructor; [|by rewrite inbound_is; eapply taken_ended; [apply Hok|]| | |done].
  - unfold eof, stream_in. rewrite He, Hw, Er. cbn [andb]. by apply Z.eqb_eq.
  - unfold bytes_in_flight, TCPSender.bytes_in_flight. by rewrite (si_flight _ _ _ _ Hinv), Hu.
  - unfold next_seqno_absolute, bytes_written, stream_in. rewrite Hw, u64_small by (unfold is_u64; lia). lia.
Qed.

(** A tick of a settled connection. *)
Lemma tick_settled c : retries (tick c 1000) <= 8 -> settled (tick c 1000) ->
  (active c = false -> active (tick c 1000) = false) /\
  (active (tick c 1000) = false \/
   _wait_segment_time (tick c 1000) = u64 (_wait_segment_time c + 1000) /\ _wait_segment_time (tick c 1000) < 10000).
Proof.
  unfold tick. cbn [set_sender _sender]. set (s' := TCPSender.tick (_sender c) 1000). unfold consecutive_retransmissions, MAX_RETX_ATTEMPTS.
  destruct (Z.ltb_spec 8 (_consecutive_transmit_num s')) as [Hlt|_]; [cbn; lia|]. intros _.
  set (c1 := send_segments _). rewrite try_clean_close_eq. destruct (closable c1) eqn:Ec; [by split; [|left]|]. intros Hst.
  split; [done|right]. split; [done|]. unfold closable in Ec. rewrite (st_out _ Hst), (st_in _ Hst), (st_flight _ Hst), (st_next _ Hst), (st_cfg _ Hst) in Ec.
  rewrite !Z.eqb_refl in Ec. cbn [andb] in Ec. apply orb_false_iff in Ec as [Ec _]. apply Z.leb_gt in Ec. exact Ec.
Qed.

(** ** The beginning *)

(** A connection that has sent its SYN and nothing else. *)
Record opened (c : TCPConnection) (seg : TCPSegment) : Prop := {
  op_out : out c = [seg];
  op_unacked : unacked c = [seg];
  op_seg : syn (_header seg) = true /\ fin (_header seg) = false /\ ack (_header seg) = false /\ rst (_header seg) = false /\ length_in_sequence_space seg = 1;
  op_sender : seqnos c = 1 /\ _ackno (_sender c) = 0 /\ edge (_sender c) = 1 /\ retries c = 0 /\ segments_out (_sender c) = [] /\
              _init_timeout (_timer (_sender c)) = 1000;
  op_receiver : _set_isn (_receiver c) = false /\ ByteStream.buffer_size (inbound_stream c) = 0;
  op_fixed : fixed c = (default_config, DEFAULT_CAPACITY)
}.

(** The first segment, of a stream that is open or has ended. *)
Definition first_segment (isn : WrappingInt32) : TCPSegment := mkTCPSegment (with_seq default_header (wrap 0 isn) true false) (buffer_of []).

Definition first_stream (ended : bool) : ByteStream := mkByteStream [] DEFAULT_CAPACITY DEFAULT_CAPACITY 0 0 false ended.

Definition first_sender (r : Z) (ended : bool) : TCPSender :=
  mkTCPSender (mkWrappingInt32 (u32 r)) [] 1000 (first_stream ended) 0 1 0 0 false [] (construct_timer 1000) 0.

Lemma fill_first r ended : let seg := first_segment (mkWrappingInt32 (u32 r)) in
  fill_window (first_sender r ended) =
  Ok (mkTCPSender (mkWrappingInt32 (u32 r)) [seg] 1000 (first_stream ended) 1 1 0 1 false [seg] (timer_start (construct_timer 1000)) 0).
Proof. cbn zeta. unfold first_sender. generalize (mkWrappingInt32 (u32 r)). intros isn. by destruct ended; cbv -[wrap]. Qed.

Lemma opened_connect r c : connect (construct_connection default_config r) = Ok c -> exists seg, opened c seg.
Proof.
  intros H. unfold connect in H. pose proof (fill_first r false) as E.
  change (_sender (construct_connection _ _)) with (first_sender r false) in H. rewrite E in H. cbn [rbind] in H.
  injection H as <-. exists (first_segment (mkWrappingInt32 (u32 r))). by constructor.
Qed.

Lemma opened_end r c : end_input_stream (construct_connection default_config r) = Ok c -> out_end c = true /\ exists seg, opened c seg.
Proof.
  intros H. unfold end_input_stream in H. pose proof (fill_first r true) as E.
  change (_sender (set_sender _ _)) with (first_sender r true) in H.
  rewrite E in H. cbn [rbind] in H. injection H as <-. split; [done|]. exists (first_segment (mkWrappingInt32 (u32 r))). by constructor.
Qed.

Lemma steady_opened c seg isn known : opened c seg -> steady isn known 0 c.
Proof.
  intros [Eo Ew (_ & _ & Hack & Hrst & _) (En & _ & Ee & Er & Ecl & Ei) [Hset _] _]. constructor; [done| | | |].
  - rewrite Eo. by repeat constructor.
  - constructor; rewrite ?Ew, ?Er, ?Ei, ?En, ?Ee; try done; [by repeat constructor|]. left. lia.
  - right. left. lia.
  - rewrite Eo. unfold taken. rewrite Hset. cbn. by rewrite Hack.
Qed.

Section turns.
Context (W : bytes) (rx ry : Z) (isnx isny : WrappingInt32).
Context (Hsize : size W < 2147400000).
Context (Hx : config_ok default_config rx isnx) (Hy : config_ok default_config ry isny).

Abbreviation lively := (lively W isnx isny).
Abbreviation exchanged := (exchanged W isnx isny).
Implicit Types (s : Bench).

Abbreviation acked s := (_ackno (_sender (b_x s))).

(** The state of the program at the beginning of a turn. *)
Record running (s : Bench) (hx hy : host) : Prop := {
  rn_lively : lively hx hy;
  rn_x : h_conn hx = b_x s;
  rn_y : h_conn hy = b_y s;
  rn_read : h_read hy = string_received s;
  rn_input : h_written hx ++ str (bytes_to_send s) = W;
  rn_buf : buf_ok (bytes_to_send s);
  rn_open : x_closed s = false -> out_end (b_x s) = false;
  rn_closed : x_closed s = true -> str (bytes_to_send s) = [] /\ out_end (b_x s) = true;
  rn_fixed : fixed (b_x s) = (default_config, DEFAULT_CAPACITY) /\ fixed (b_y s) = (default_config, DEFAULT_CAPACITY)
}.

(** The numbers of a state. *)
Lemma lively_numbers hx hy : lively hx hy ->
  0 <= _ackno (_sender (h_conn hx)) <= taken (_receiver (h_conn hy)) /\ taken (_receiver (h_conn hy)) <= h_seq hx <= size W + 2.
Proof.
  intros Hl. pose proof (lv_good _ _ _ _ _ Hl) as Hg. pose proof (acks_from_le _ _ _ _ (sd_acks _ _ _ _ (lv_y _ _ _ _ _ Hl))).
  pose proof (peer_facts W [] default_config default_config isnx isny hx hy Hsize Hg) as (Hoky & Hpx & _).
  pose proof (taken_bounds W isnx (recv_capacity default_config) ltac:(done) _ _ _ (co_rcv _ _ _ _ _ _ _ _ _ _ _ Hoky) Hpx). destruct Hpx as [Hpn _].
  apply net_ok_swap in Hg. destruct (peer_facts [] W default_config default_config isny isnx hy hx ltac:(done) Hg) as (Hokx & _).
  destruct (co_snd _ _ _ _ _ _ _ _ _ _ _ Hokx) as (sent & a & Hinv). pose proof (si_ackno _ _ _ _ Hinv). lia.
Qed.

(** Once the FIN has been acknowledged. *)
Lemma lively_done hx hy : lively hx hy -> size W + 2 <= _ackno (_sender (h_conn hx)) ->
  h_fin hx = true /\ unacked (h_conn hx) = [] /\ out_end (h_conn hx) = true /\ h_seq hx = size W + 2 /\
  taken (_receiver (h_conn hy)) = size W + 2.
Proof.
  intros Hl Ha. pose proof (lively_numbers hx hy Hl) as Hn. pose proof (lv_good _ _ _ _ _ Hl) as Hg. apply net_ok_swap in Hg.
  destruct (peer_facts [] W default_config default_config isny isnx hy hx ltac:(done) Hg) as (Hokx & _).
  destruct (co_snd _ _ _ _ _ _ _ _ _ _ _ Hokx) as (sent & a & Hinv). pose proof (conn_size _ _ _ _ _ _ _ _ _ _ _ Hokx).
  pose proof (size_nonneg W). pose proof (size_nonneg (_que (_stream (_sender (h_conn hx))))).
  pose proof (sinv_next _ _ _ _ Hinv ltac:(lia)) as Hnext. assert (h_fin hx = true) as Hf by (destruct (h_fin hx); [done|lia]).
  split_and!; [done| |apply (si_fin _ _ _ _ Hinv Hf)|lia|lia].
  pose proof (si_first _ _ _ _ Hinv) as Hfst. pose proof (si_ackno _ _ _ _ Hinv). destruct (unacked (h_conn hx)) as [|f l]; [done|].
  cbn [first_unacked span] in Hfst. pose proof (span_nonneg l). lia.
Qed.

(** With nothing to wait for, the writer has sent its FIN. *)
Lemma nothing_waited hx hy : lively hx hy -> unacked (h_conn hx) = [] ->
  out_end (h_conn hx) = true \/ remaining_outbound_capacity (h_conn hx) = 0 -> snd (fixed (h_conn hx)) = DEFAULT_CAPACITY ->
  size W + 2 <= _ackno (_sender (h_conn hx)).
Proof.
  intros Hl Hu He Hcap. pose proof (lv_low _ _ _ _ _ Hl) as Hlow. rewrite Hu in Hlow. cbn [span] in Hlow.
  pose proof (lv_good _ _ _ _ _ Hl) as Hg. pose proof (peer_facts W [] default_config default_config isnx isny hx hy Hsize Hg) as (_ & Hpx & _).
  destruct Hpx as [_ Hfin]. assert (h_fin hx = true) as Hf; [|specialize (Hfin Hf); lia].
  destruct (sd_filled _ _ _ _ (lv_x _ _ _ _ _ Hl)) as [?|[Hed|[Hq Hend]]]; [done|unfold edge in Hed; lia|]. exfalso.
  destruct He as [E|E]; [unfold out_end, stream_in in E; congruence|]. apply net_ok_swap in Hg.
  destruct (peer_facts [] W default_config default_config isny isnx hy hx ltac:(done) Hg) as (Hokx & _).
  destruct (co_snd _ _ _ _ _ _ _ _ _ _ _ Hokx) as (sent & a & Hinv). pose proof (wf_room _ (si_stream _ _ _ _ Hinv)) as Hroom.
  unfold remaining_outbound_capacity, remaining_capacity, fixed, stream_in in *. cbn [snd] in Hcap. rewrite Hq, E, Hcap in Hroom. done.
Qed.


(** The reader's application reads what there is. *)
Lemma exchanged_inbound hx hx' hy' : exchanged hx hx' hy' ->
  let avail := ByteStream.buffer_size (inbound_stream (h_conn hy')) in
  let '(y, received) := if 0 <? avail then (let '(y, data) := read_inbound (h_conn hy') avail in (y, h_read hy' ++ data)) else (h_conn hy', h_read hy') in
  exchanged hx hx' (mkHost y (h_written hy') received (h_wire hy')) /\ ByteStream.buffer_size (inbound_stream y) = 0 /\
  fixed y = fixed (h_conn hy') /\ _sender y = _sender (h_conn hy') /\ out y = out (h_conn hy') /\ _wait_segment_time y = _wait_segment_time (h_conn hy').
Proof.
  intros Hex avail. pose proof (size_nonneg (_que (inbound_stream (h_conn hy')))) as Hpos.
  destruct (Z.ltb_spec 0 avail) as [Hav|Hav].
  2:{ split_and!; try done; [by destruct hy'|]. unfold avail, ByteStream.buffer_size in *. lia. }
  pose proof (ex_good _ _ _ _ _ _ Hex) as Hg. apply net_ok_swap in Hg.
  pose proof (inbound_size [] W default_config default_config isny isnx Hsize _ _ Hg) as Hin. fold avail in Hin.
  pose proof (exchanged_read W rx ry isnx isny Hsize Hx Hy hx hx' hy' avail Hex ltac:(unfold is_u64; lia)) as Hex'.
  destruct (read_inbound (h_conn hy') avail) as [y data] eqn:Er. cbn [fst snd] in Hex'. unfold read_inbound in Er.
  destruct (ByteStream.read (inbound_stream (h_conn hy')) avail) as [o d] eqn:Eo. injection Er as <- <-. split_and!; try done.
  unfold ByteStream.read in Eo. injection Eo as <- <-.
  unfold inbound_stream, receiver_stream_out, stream_out, ByteStream.buffer_size. cbn. rewrite pop_front_n_drop. unfold avail, ByteStream.buffer_size.
  unfold inbound_stream, receiver_stream_out, stream_out. rewrite Z.min_id. unfold size. rewrite Nat2Z.id, drop_all. done.
Qed.

(** What a turn achieves. *)
Record advances s s' : Prop := {
  av_acked : acked s <= acked s';
  av_progress : acked s < acked s' \/ size W + 2 <= acked s';
  av_synced : taken (_receiver (b_x s')) = seqnos (b_y s') /\ 1 <= seqnos (b_y s');
  av_fin : taken (_receiver (b_x s)) <> 0 -> _set_fin (_sender (b_y s')) = true;
  av_unacked : unacked (b_y s') = [] \/ taken (_receiver (b_x s)) < seqnos (b_y s');
  av_reader : unacked (b_y s') = [] -> out (b_y s') = [];
  av_bare : size W + 2 <= acked s -> Forall without_length (out (b_x s'));
  av_still : size W + 2 <= acked s -> Forall without_length (out (b_x s)) -> _set_fin (_sender (b_y s)) = true -> out (b_y s) = [] ->
    out (b_x s') = [];
  av_quiet : size W + 2 <= acked s -> out (b_x s) = [] -> out (b_y s) = [] ->
    b_x s' = tick (b_x s) 1000 /\ b_y s' = tick (b_y s) 1000
}.

(** The first part of a turn: the writer writes, and ends its stream. *)
Lemma turn_input s hx hy : running s hx hy -> exists x1 x buf closed w,
  write_input (Z.to_nat (Parser.buffer_size (bytes_to_send s))) (b_x s) (bytes_to_send s) = Ok (x1, buf) /\
  (if (Parser.buffer_size buf =? 0) && negb (x_closed s) then let! x := end_input_stream x1 in Ok (x, true) else Ok (x1, x_closed s)) = Ok (x, closed) /\
  running (mkBench x (b_y s) buf closed (string_received s)) (mkHost x w (h_read hx) (h_wire hx)) hy /\
  _ackno (_sender x) = acked s /\ _receiver x = _receiver (b_x s) /\ (x_closed s = true -> x = b_x s) /\
  (out_end x = true \/ remaining_outbound_capacity x = 0).
Proof.
  intros [Hl Ex Ey Er Hin Hb Ho Hc Hfx]. pose proof (size_nonneg (str (bytes_to_send s))) as Hpos.
  destruct (lively_input W rx ry isnx isny Hsize Hx Hy (Z.to_nat (Parser.buffer_size (bytes_to_send s))) hx hy (bytes_to_send s) Hl Hb Hin)
    as (x1 & buf & w & E1 & Hb1 & Ho1 & Hw1 & Hl1 & Hnil & Ha1 & Hex1).
  { rewrite Ex. destruct (x_closed s); [left; by apply Hc|right; auto]. }
  { unfold Parser.buffer_size. lia. }
  rewrite Ex in *. pose proof (receiver_input _ _ _ _ _ E1) as Er1. pose proof (fixed_input _ _ _ _ _ E1) as Ef1.
  destruct (x_closed s) eqn:Ecl.
  - destruct (Hc eq_refl) as [E0 Eend]. destruct (Hnil E0) as [E0' ->]. exists (b_x s), (b_x s), buf, true, w. rewrite andb_false_r. split_and!; try done; by left.
  - destruct (Z.eqb_spec (Parser.buffer_size buf) 0) as [Hz|Hz]; cbn [andb negb].
    + assert (str buf = []) as E0 by by apply size_zero. rewrite E0, app_nil_r in Hw1. subst w.
      destruct (good_calls W [] default_config default_config rx ry isnx isny Hsize ltac:(done) Hx Hy _ _ (lv_good _ _ _ _ _ Hl1)) as (_ & _ & Hend & _).
      destruct (Hend eq_refl) as [x2 Ex2]. cbn [h_conn] in Ex2.
      destruct (lively_end W rx ry isnx isny Hsize Hx Hy _ _ x2 Hl1 eq_refl Ex2) as [Hl2 Hoe]. cbn [h_written h_read h_wire] in Hl2.
      exists x1, x2, buf, true, W. rewrite Hz, Ex2. cbn [Z.eqb andb negb rbind]. split_and!; try done.
      * constructor; try done; cbn; [by rewrite E0, app_nil_r|]. by rewrite (fixed_end _ _ Ex2), Ef1.
      * by rewrite (end_ackno _ _ Ex2).
      * by rewrite (receiver_end _ _ Ex2).
      * by left.
    + exists x1, x1, buf, false, w. rewrite (proj2 (Z.eqb_neq _ _) Hz). cbn [andb negb]. split_and!; try done.
      * constructor; try done; cbn; [intros _; rewrite Ho1; auto|by rewrite Ef1].
      * destruct Hex1 as [E0|?]; [|by right]. exfalso. apply Hz. unfold Parser.buffer_size. by rewrite E0.
Qed.
Lemma turn reorder s hx hy : running s hx hy -> exists s' hx' hy', loop reorder s = Ok s' /\ running s' hx' hy' /\ advances s s'.
Proof.
  intros Hrun. destruct (turn_input s hx hy Hrun) as (x1 & x & buf & closed & w & E1 & E2 & Hrun1 & Ha & Hrx & Hid & Hin).
  unfold loop. rewrite E1. cbn [rbind]. rewrite E2. cbn [rbind].
  set (s1 := mkBench x (b_y s) buf closed (string_received s)) in *. set (hx1 := mkHost x w (h_read hx) (h_wire hx)) in *.
  pose proof Hrun1 as [Hl _ Ey Er Hw Hb Ho Hc [Hfx Hfy]]. cbn [b_x b_y bytes_to_send x_closed string_received s1] in *.
  destruct (exchange_spec W rx ry isnx isny Hsize Hx Hy reorder hx1 hy Hl) as (x3 & y3 & x4 & y4 & qx & qy & E3 & E4 & Hex).
  rewrite Ey in E3. change (h_conn hx1) with x in E3. rewrite E3. cbn [rbind]. rewrite E4. cbn [rbind].
  pose proof (exchanged_inbound _ _ _ Hex) as Hread. cbn [h_conn h_written h_read h_wire] in Hread. rewrite <- Er.
  set (yr := if 0 <? _ then _ else _) in *. destruct yr as [y5 received] eqn:Eyr.
  destruct Hread as (Hex5 & Hemp & Hf5 & Hs5 & Ho5 & _).
  destruct (lively_ticks W rx ry isnx isny Hsize Hx Hy hx1 _ _ Hex5 Hemp) as (Hl' & [nx Tx] & [ny Ty]). cbn [h_conn h_written h_read h_wire] in Hl', Tx, Ty.
  destruct (fixed_move _ _ _ _ _ E3) as [Fx3 Fy3]. destruct (fixed_move _ _ _ _ _ E4) as [Fy4 Fx4].
  destruct (out_end_move _ _ _ _ _ E3) as [Ox3 _]. destruct (out_end_move _ _ _ _ _ E4) as [_ Ox4].
  eexists _, _, _. split; [done|]. split.
  - constructor; [exact Hl'|done..| | |]; cbn [b_x b_y x_closed bytes_to_send]; rewrite ?out_end_tick, ?Ox4, ?Ox3, ?fixed_tick; auto.
    by rewrite Fx4, Fx3, Hf5, Fy4, Fy3.
  - pose proof (target_grows W isnx isny hx1 hy Hl) as [_ Hgrow]. pose proof (ex_target _ _ _ _ _ _ Hex5) as Htar.
    change (h_conn hx1) with x in Hgrow, Htar. cbn [h_conn] in Htar. rewrite Ha in Hgrow.
    assert (acked s <= target x) as Hle.
    { unfold target in *. destruct (unacked x); [lia|]. specialize (Hgrow ltac:(done)). lia. }
    rewrite <- (tc_ackno _ _ _ Tx) in Htar.
    assert (size W + 2 <= acked s -> x = b_x s /\ _set_fin (_sender x) = true /\ out (tick x4 1000) = out x4) as Hdone.
    { intros Hd. destruct Hrun as [Hl0 Ex0 _ _ _ _ Ho0 _ _]. destruct (lively_done hx hy Hl0) as (_ & _ & Hoe & _); [by rewrite Ex0|].
      destruct (lively_done hx1 hy Hl) as (Hf & _); [by rewrite <- Ha in Hd|]. destruct (lively_done _ _ Hl') as (_ & Hu & _); [cbn [h_conn]; lia|].
      rewrite Ex0 in Hoe. destruct (x_closed s); [|by rewrite Ho0 in Hoe]. split_and!; [auto|done|by apply (ticks_idle _ _ nx)]. }
    pose proof (sd_clean _ _ _ _ (lv_y _ _ _ _ _ Hl)) as Hcl. rewrite Ey in Hcl.
    pose proof (fun Hf => moves_fin _ _ _ _ _ _ _ Hf (sd_clean _ _ _ _ (lv_x _ _ _ _ _ Hl)) Hcl E3 E4) as Hmoves.
    constructor; cbn [b_x b_y]; rewrite ?(tc_receiver _ _ _ Tx), ?(tc_next _ _ _ Ty), ?(tc_fin _ _ _ Ty), ?(tc_wait _ _ _ Ty), <- ?Hrx.
    + lia.
    + destruct (decide (unacked x = [])) as [Eu|Hne]; [right|left; specialize (Hgrow Hne); lia].
      enough (size W + 2 <= acked s) by lia. rewrite <- Ha. apply (nothing_waited hx1 hy Hl Eu Hin). unfold hx1. cbn [h_conn]. by rewrite Hfx.
    + split; [apply (ex_taken _ _ _ _ _ _ Hex5)|apply (ex_started _ _ _ _ _ _ Hex5)].
    + apply (ex_fin _ _ _ _ _ _ Hex5).
    + apply (ex_unacked _ _ _ _ _ _ Hex5).
    + intros Hu. rewrite (ticks_idle _ _ _ Ty) by (by rewrite (tc_wait _ _ _ Ty)). apply (ex_reader _ _ _ _ _ _ Hex5).
    + intros Hd. destruct (Hdone Hd) as (-> & Hf & ->). apply (Hmoves Hf).
    + intros Hd. destruct (Hdone Hd) as (-> & Hf & ->). apply (Hmoves Hf).
    + intros Hd Ox Oy. destruct (Hdone Hd) as (-> & Hf & _). destruct (Hmoves Hf) as (_ & _ & Hq). destruct (Hq Ox Oy) as [-> ->].
      pose proof (lv_empty _ _ _ _ _ Hl) as He. rewrite Ey in He. unfold yr in Eyr. rewrite He in Eyr. injection Eyr as <- _. done.
Qed.

(** ** The end of the stream *)

(** The reader has taken in the whole stream. *)
Lemma received_all s hx hy : running s hx hy -> size W + 2 <= acked s -> eof (inbound_stream (b_y s)) = true.
Proof.
  intros [Hl Ex Ey _ _ _ _ _ _] Ha. destruct (lively_done hx hy Hl) as (_ & _ & _ & _ & Ht); [by rewrite Ex|].
  pose proof (lv_good _ _ _ _ _ Hl) as Hg. pose proof (peer_facts W [] default_config default_config isnx isny hx hy Hsize Hg) as (Hoky & _).
  rewrite <- Ey. pose proof (taken_ended _ _ _ _ _ _ (co_rcv _ _ _ _ _ _ _ _ _ _ _ Hoky) Ht) as He. unfold eof. unfold input_ended in He. rewrite inbound_is.
  rewrite He. cbn [andb]. pose proof (lv_empty _ _ _ _ _ Hl) as Hz. unfold ByteStream.buffer_size in Hz. rewrite inbound_is in Hz.
  pose proof (ri_inv _ _ _ _ (ro_inv _ _ _ _ _ _ (co_rcv _ _ _ _ _ _ _ _ _ _ _ Hoky))) as [[[_ _ Hcnt _ _ _] _ _ _ _ _] _].
  apply Z.eqb_eq. unfold receiver_stream_out, stream_out in *. lia.
Qed.

(** What has been read when the stream is at its end. *)
Lemma received_eof s hx hy : running s hx hy -> eof (inbound_stream (b_y s)) = true -> string_received s = W.
Proof.
  intros [Hl _ Ey Er _ _ _ _ _] He. destruct (lv_good _ _ _ _ _ Hl) as [_ Hgy].
  destruct (delivered _ _ _ _ _ _ _ _ _ Hsize Hgy) as [_ Hd]. cbn [snd] in Hd. rewrite <- Er. apply (Hd (h_conn hy)); [done|by rewrite Ey].
Qed.

(** A loop ends when a measure of its states runs out. *)
Lemma loop_while_ends (P : nat -> Bench -> Prop) condition reorder :
  (forall s, P O s -> condition s = false) -> (forall n s, P (S n) s -> exists s', loop reorder s = Ok s' /\ P n s') ->
  forall n turns s, P n s -> (n <= turns)%nat -> exists m s', loop_while turns condition reorder s = Ok (true, s') /\ P m s' /\ condition s' = false.
Proof.
  intros H0 Hstep n. induction n as [|n IH]; intros turns s HP Hle.
  - exists O, s. pose proof (H0 s HP) as E. destruct turns; cbn [loop_while]; by rewrite E.
  - destruct turns as [|turns]; [lia|]. cbn [loop_while]. destruct (condition s) eqn:Ec; [|by exists (S n), s].
    destruct (Hstep n s HP) as (s1 & -> & HP1). cbn [rbind]. apply IH; [done|lia].
Qed.

(** The first loop: at most [n] turns before the FIN is acknowledged. *)
Definition receiving_for (n : nat) s : Prop := exists hx hy, running s hx hy /\ size W + 2 <= acked s + Z.of_nat n.

Lemma receiving_turn reorder n s : receiving_for (S n) s -> exists s', loop reorder s = Ok s' /\ receiving_for n s'.
Proof.
  intros (hx & hy & Hrun & Hn). destruct (turn reorder s hx hy Hrun) as (s' & hx' & hy' & E & Hrun' & Hav). exists s'. split; [done|].
  exists hx', hy'. split; [done|]. destruct (av_progress _ _ Hav); lia.
Qed.

(** ** The end of the connections *)

(** Both ends of a state in which everything has been said and acknowledged. *)
Lemma settled_ends s hx hy : running s hx hy -> size W + 2 <= acked s -> _set_fin (_sender (b_y s)) = true -> unacked (b_y s) = [] ->
  taken (_receiver (b_x s)) = seqnos (b_y s) -> settled (b_x s) /\ settled (b_y s).
Proof.
  intros [Hl Ex Ey _ _ _ _ _ [Hfx Hfy]] Ha Hf Hu Ht. destruct (lively_done hx hy Hl) as (Hfin & Hux & _ & Hsx & Hty); [by rewrite Ex|].
  pose proof (lv_good _ _ _ _ _ Hl) as Hg. pose proof (peer_facts W [] default_config default_config isnx isny hx hy Hsize Hg) as (Hoky & _).
  apply net_ok_swap in Hg. destruct (peer_facts [] W default_config default_config isny isnx hy hx ltac:(done) Hg) as (Hokx & [_ Hpy] & _).
  rewrite <- Ey in Hf, Hu, Ht. rewrite <- Ex in Ht. rewrite (Hpy Hf) in Ht. injection Hfx as Hcx _. injection Hfy as Hcy _.
  rewrite <- Ex, <- Ey in *. pose proof (size_nonneg W). split.
  - by apply (settled_conn W [] isnx isny (recv_capacity default_config) _ _ _ _ _ _ Hsize Hokx).
  - by apply (settled_conn [] W isny isnx (recv_capacity default_config) _ _ _ _ _ _ ltac:(done) Hoky).
Qed.

Lemma reader_seqnos s hx hy : running s hx hy -> seqnos (b_y s) <= 2 /\ (_set_fin (_sender (b_y s)) = true -> seqnos (b_y s) = 2).
Proof.
  intros [Hl Ex Ey _ _ _ _ _ _]. pose proof (lv_good _ _ _ _ _ Hl) as Hg. apply net_ok_swap in Hg.
  destruct (peer_facts [] W default_config default_config isny isnx hy hx ltac:(done) Hg) as (_ & [Hn Hf] & _). rewrite Ey in *. split; [apply Hn|exact Hf].
Qed.

(** The second loop, with at most [n] turns to go: the writer only acknowledges, the
    reader has sent its FIN, it has been acknowledged, the writer is silent, and time
    passes. *)
Definition time_left (n : nat) (c : TCPConnection) : Prop :=
  active c = false \/ (10 - Z.of_nat n) * 1000 <= _wait_segment_time c < 10000.

Record closing (n : nat) s : Prop := {
  cl_done : size W + 2 <= acked s;
  cl_bare : (n <= 14)%nat -> Forall without_length (out (b_x s)) /\ taken (_receiver (b_x s)) = seqnos (b_y s) /\ 1 <= seqnos (b_y s);
  cl_fin : (n <= 13)%nat -> _set_fin (_sender (b_y s)) = true;
  cl_reader : (n <= 12)%nat -> unacked (b_y s) = [] /\ out (b_y s) = [];
  cl_writer : (n <= 11)%nat -> out (b_x s) = [];
  cl_time : (n <= 10)%nat -> time_left n (b_x s) /\ time_left n (b_y s)
}.

Lemma time_passes n c : retries (tick c 1000) <= 8 -> settled (tick c 1000) -> (n <= 10)%nat -> ((S n <= 10)%nat -> time_left (S n) c) ->
  time_left n (tick c 1000).
Proof.
  intros Hr Hs Hn Hleft. destruct (tick_settled c Hr Hs) as [Hina [?|[Et Hlt]]]; [by left|]. pose proof (u64_range (_wait_segment_time c + 1000)) as Hu.
  destruct (decide (S n <= 10)%nat) as [Hle|Hgt]; [|right; unfold is_u64 in Hu; lia].
  destruct (Hleft Hle) as [?|Hw]; [left; auto|right]. rewrite u64_small in Et by (unfold is_u64; lia). lia.
Qed.

Lemma closing_turn reorder n s hx hy : running s hx hy -> closing (S n) s ->
  exists s' hx' hy', loop reorder s = Ok s' /\ running s' hx' hy' /\ closing n s'.
Proof.
  intros Hrun [Hd Hbare Hfin Hread Hwrite Htime]. destruct (turn reorder s hx hy Hrun) as (s' & hx' & hy' & E & Hrun' & Hav).
  exists s', hx', hy'. split_and!; [done|done|]. assert (size W + 2 <= acked s') as Hd' by (pose proof (av_acked _ _ Hav); lia).
  destruct (av_synced _ _ Hav) as [Hsy Hpos]. destruct (reader_seqnos _ _ _ Hrun) as [_ H2]. destruct (reader_seqnos _ _ _ Hrun') as [H2' _].
  assert ((n <= 13)%nat -> _set_fin (_sender (b_y s')) = true) as Hfin'.
  { intros Hn. destruct (Hbare ltac:(lia)) as (_ & Ht & Hp). apply (av_fin _ _ Hav). lia. }
  assert ((n <= 12)%nat -> unacked (b_y s') = [] /\ out (b_y s') = []) as Hread'.
  { intros Hn. enough (unacked (b_y s') = []) as Hu by (split; [done|by apply (av_reader _ _ Hav)]). destruct (Hbare ltac:(lia)) as (_ & Ht & _).
    specialize (Hfin ltac:(lia)). destruct (av_unacked _ _ Hav); [done|lia]. }
  constructor; [done| |done|done| |].
  - intros _. split; [by apply (av_bare _ _ Hav)|done].
  - intros Hn. apply (av_still _ _ Hav); [done|apply Hbare; lia|apply Hfin; lia|apply Hread; lia].
  - intros Hn. destruct (Hread' ltac:(lia)) as [Hu _]. destruct (settled_ends s' hx' hy' Hrun' Hd' (Hfin' ltac:(lia)) Hu Hsy) as [Sx Sy].
    destruct Hrun' as [Hl' Ex' Ey' _ _ _ _ _ _]. pose proof (cm_retx _ _ (sd_calm _ _ _ _ (lv_x _ _ _ _ _ Hl'))) as Rx.
    pose proof (cm_retx _ _ (sd_calm _ _ _ _ (lv_y _ _ _ _ _ Hl'))) as Ry. rewrite Ex' in Rx. rewrite Ey' in Ry.
    destruct (av_quiet _ _ Hav Hd (Hwrite ltac:(lia)) (proj2 (Hread ltac:(lia)))) as [Eqx Eqy]. rewrite Eqx in *. rewrite Eqy in *.
    split; (apply time_passes; [lia|done|done|]); intros Hs; apply Htime; lia.
Qed.

(** The second loop, which may begin before the last acknowledgment has come. *)
Definition closing_for (n : nat) s : Prop :=
  exists hx hy, running s hx hy /\ (closing n s \/ size W + 17 <= acked s + Z.of_nat n).

Lemma acked_bound s hx hy : running s hx hy -> 0 <= acked s <= size W + 2.
Proof. intros Hr. pose proof (lively_numbers _ _ (rn_lively _ _ _ Hr)) as Hn. rewrite (rn_x _ _ _ Hr) in Hn. lia. Qed.

Lemma closing_for_turn reorder n s : closing_for (S n) s -> exists s', loop reorder s = Ok s' /\ closing_for n s'.
Proof.
  intros (hx & hy & Hrun & Hc). pose proof (acked_bound s hx hy Hrun) as Hb. assert (closing (S n) s \/ acked s < size W + 2 /\ size W + 17 <= acked s + Z.of_nat (S n)) as [Hcl|[Hlt Hle]].
  { destruct Hc as [?|Hle]; [by left|]. destruct (Z.lt_ge_cases (acked s) (size W + 2)); [by right|left]. constructor; [done|lia..]. }
  - destruct (closing_turn reorder n s hx hy Hrun Hcl) as (s' & hx' & hy' & E & Hrun' & Hcl'). exists s'. split; [done|]. exists hx', hy'. auto.
  - destruct (turn reorder s hx hy Hrun) as (s' & hx' & hy' & E & Hrun' & Hav). exists s'. split; [done|]. exists hx', hy'. split; [done|].
    destruct (av_progress _ _ Hav); [right; lia|left]. constructor; [done|lia..].
Qed.

Lemma closed_at_last s : closing_for 0 s -> active (b_x s) || active (b_y s) = false.
Proof.
  intros (hx & hy & Hrun & Hc). pose proof (acked_bound s hx hy Hrun). destruct Hc as [Hcl|?]; [|lia]. pose proof (size_nonneg W).
  destruct (cl_time _ _ Hcl ltac:(lia)) as [Tx Ty]. unfold time_left in *. apply orb_false_iff. destruct Tx, Ty; split; try done; lia.
Qed.

Lemma running_start x y : connect (construct_connection default_config rx) = Ok x -> end_input_stream (construct_connection default_config ry) = Ok y ->
  exists hx hy, running (mkBench x y (buffer_of W) false []) hx hy.
Proof.
  intros Ex Ey. destruct (bench_start W rx ry isnx isny Hsize Hx Hy) as (x' & y' & Ex' & Ey' & Hb).
  rewrite Ex in Ex'. rewrite Ey in Ey'. injection Ex' as <-. injection Ey' as <-. destruct Hb as [(wa & ra & qa & wb & qb & Hg & Hw) Hbuf Hopen _].
  destruct (opened_connect _ _ Ex) as [sx Ox]. destruct (opened_end _ _ Ey) as [Hend [sy Oy]].
  exists (mkHost x wa ra qa), (mkHost y wb [] qb). constructor; cbn [b_x b_y h_conn]; try done; [|by rewrite (op_fixed _ _ Ox), (op_fixed _ _ Oy)].
  pose proof (steady_opened x sx isny (_set_isn (_receiver y) = true) Ox) as Sx. pose proof (steady_opened y sy isnx (_set_isn (_receiver x) = true) Oy) as Sy.
  destruct Ox as [Eox Eux (_ & _ & _ & _ & Hlx) (Enx & Eax & _) [Esx _] _], Oy as [Eoy Euy (Hsyn & Hfin & _ & _ & Hly) (Eny & _ & _ & Ery & _) [_ Hemp] _].
  constructor; cbn [h_conn]; rewrite ?Eax, ?Enx, ?Eny, ?Eux, ?Euy, ?Eox, ?Eoy; try done.
  - cbn [span]. lia.
  - unfold front_sent. rewrite Eux. exists sx. split; [by left|done].
  - right. exists sy. rewrite Hfin, Hly, Eny. split_and!; [by left|done|done].
  - right. by exists sy, [].
  - right. right. unfold taken. by rewrite Esx.
Qed.
End turns.

(** [main_loop] returns. *)
Lemma main_loop_ends turns reorder rx ry string_to_send : size string_to_send < 2147400000 ->
  size string_to_send + 17 <= Z.of_nat turns -> main_loop turns reorder rx ry string_to_send = Ok true.
Proof.
  intros Hsize Hturns. set (W := string_to_send) in *.
  destruct (config_isn default_config rx default_config_ok) as [ix Hx]. destruct (config_isn default_config ry default_config_ok) as [iy Hy].
  pose proof (size_nonneg W) as Hpos. destruct (bench_start W rx ry ix iy Hsize Hx Hy) as (x & y & Ex & Ey & _).
  unfold main_loop. rewrite Ex, Ey. cbn [rbind].
  destruct (running_start W rx ry ix iy Hsize Hx Hy x y Ex Ey) as (hx & hy & Hrun). pose proof (acked_bound W ix iy Hsize _ _ _ Hrun) as Hb.
  destruct (loop_while_ends (receiving_for W ix iy) (fun s => negb (eof (inbound_stream (b_y s)))) reorder) with (n := Z.to_nat (size W + 2)) (turns := turns)
    (s := mkBench x y (buffer_of W) false []) as (m & s & -> & (hx1 & hy1 & Hrun1 & _) & Hc1).
  { intros s (hx0 & hy0 & Hr & Hd). apply negb_false_iff. eapply received_all; [done..|lia]. }
  { by apply (receiving_turn W rx ry). }
  { exists hx, hy. split; [done|lia]. }
  { lia. }
  cbn [rbind negb]. rewrite (received_eof W ix iy Hsize s hx1 hy1 Hrun1) by (by apply negb_false_iff). rewrite bool_decide_true by done. cbn [negb].
  pose proof (acked_bound W ix iy Hsize _ _ _ Hrun1) as Hb1.
  destruct (loop_while_ends (closing_for W ix iy) (fun s => active (b_x s) || active (b_y s)) reorder) with (n := Z.to_nat (size W + 17)) (turns := turns) (s := s)
    as (m2 & s2 & -> & _ & _); [by apply closed_at_last|by apply (closing_for_turn W rx ry)|exists hx1, hy1; split; [done|right; lia]|lia|done].
Qed.

(** C9: The benchmark always ends, and well.  For every string of less than two
    gigabytes, every pair of initial sequence numbers, and with segments delivered in
    order or each batch reversed: no call of a connection throws, no write is cut short
    and no loop inside a turn runs on; and within [size string_to_send + 17] turns of
    each loop the whole string has been received, what was received is what was sent,
    and both connections have become inactive, so that [main_loop] returns. *)
Theorem benchmark_completes turns reorder rx ry string_to_send : size string_to_send < 2147400000 ->
  (exists ended, main_loop turns reorder rx ry string_to_send = Ok ended) /\
  (size string_to_send + 17 <= Z.of_nat turns -> main_loop turns reorder rx ry string_to_send = Ok true).
Proof.
  intros Hsize. split; [by apply main_loop_never_fails|]. intros Hturns. by apply main_loop_ends.
Qed.

Lemma benchmark_completes_witness : main_loop 20 true 7 4294967290 (replicate 3 x61) = Ok true /\ main_loop 3 true 7 4294967290 (replicate 3 x61) = Ok false.
Proof.
  split; [|by vm_compute]. apply (benchmark_completes 20 true 7 4294967290 (replicate 3 x61)); [by vm_compute|]. by vm_compute.
Defined.

(** [main] ends with success: the strings are of [len] bytes. *)
Lemma benchmark_exits turns rx ry rx' ry' s s' : size s = len -> size s' = len -> len + 17 <= Z.of_nat turns ->
  benchmark_main turns (rx, ry, s) (rx', ry', s') = Some 0.
Proof.
  intros Es Es' Ht. unfold benchmark_main. unfold len in *.
  rewrite main_loop_ends by lia. cbn [rbind negb]. by rewrite main_loop_ends by lia.
Qed.
