(* ===== verification/Recovery.v ===== *)
(** * Recovery: no state of an exchange is a dead end

    From every state that two connections can reach over a network that loses,
    repeats, delays and reorders segments, the exchange can still be completed: the
    applications go on writing and reading, and the network delivers segments it has
    been given.  Part one is an invariant of a host: every sequence number it has used
    is in a segment it has queued or sent ([covers]).  Part two is the progress made by
    delivering such a segment and its answer.  Part three is the state in which the
    sender is stuck unless the network repeats an acknowledgment, and that it is not
    reached while acknowledgments arrive in order. *)

From stdpp Require Import relations.
From S2P Require Import Prelude WrappingIntegers ByteStream StreamReassembler ReassemblerList Reassembly.
From S2P Require Import Parser TCPSegment TCPReceiver TCPSender Transmission TCPConnection EndToEnd Hosts Benchmark Completion.

(** ** Every sequence number is in a segment *)

(** The segment occupies the absolute sequence number [p]. *)
Definition holds (isn : WrappingInt32) (p : Z) (seg : TCPSegment) : Prop :=
  norst seg /\ exists q, seqno (_header seg) = wrap q isn /\ 0 <= q <= p /\ p < q + length_in_sequence_space seg.

(** All that has been queued or sent. *)
Definition pool (c : TCPConnection) (wire : list TCPSegment) : list TCPSegment :=
  segments_out (_sender c) ++ out c ++ wire.

Record covers (isn : WrappingInt32) (c : TCPConnection) (wire : list TCPSegment) : Prop := {
  cv_queue : Forall norst (segments_out (_sender c));
  cv_wait : Forall norst (unacked c);
  cv_all : forall p, 0 <= p < seqnos c -> exists seg, seg ∈ pool c wire /\ holds isn p seg
}.

Lemma holds_stamp isn p r seg : holds isn p seg -> holds isn p (stamp r seg).
Proof.
  intros [Hn (q & E & Hq)]. split; [by apply stamp_norst|]. exists q. rewrite stamp_length.
  by destruct (stamp_same_text r seg) as (-> & _).
Qed.

(** Segments that follow one another leave no gap. *)
Lemma layout_holds isn p l e x : layout isn p l e -> Forall norst l -> 0 <= p -> p <= x < p + span l ->
  exists seg, seg ∈ l /\ holds isn x seg.
Proof.
  revert p. induction l as [|seg l IH]; intros p; cbn [layout span]; [lia|].
  intros (Eq & _ & _ & _ & Hlen & Hl) [Hn Hns]%Forall_cons Hp Hx.
  destruct (Z.lt_ge_cases x (p + length_in_sequence_space seg)).
  - exists seg. split; [left|]. split; [done|]. exists p. split; [done|lia].
  - destruct (IH _ Hl Hns ltac:(lia) ltac:(lia)) as (g & ? & ?). exists g. split; [by right|done].
Qed.

Section covering.
Context (isn : WrappingInt32).
Abbreviation covered := (covers isn).

(** A change that keeps the sequence numbers and loses no segment. *)
Lemma covers_keep c c' wire wire' : covered c wire -> seqnos c' = seqnos c ->
  Forall norst (segments_out (_sender c')) -> Forall norst (unacked c') ->
  (forall seg p, seg ∈ pool c wire -> holds isn p seg -> exists seg', seg' ∈ pool c' wire' /\ holds isn p seg') ->
  covered c' wire'.
Proof.
  intros [_ _ Ha] En Hq Hw Hp. constructor; [done|done|]. intros p Hpn. rewrite En in Hpn.
  destruct (Ha p Hpn) as (seg & Hin & Hh). eauto.
Qed.

Lemma covers_ext c c' wire : segments_out (_sender c') = segments_out (_sender c) -> unacked c' = unacked c ->
  seqnos c' = seqnos c -> out c' = out c -> covered c wire -> covered c' wire.
Proof.
  intros Eq Ew En Eo Hc. apply (covers_keep c c' wire wire Hc En).
  - rewrite Eq. apply Hc.
  - rewrite Ew. apply Hc.
  - intros seg p Hin Hh. exists seg. unfold pool in *. by rewrite Eq, Eo.
Qed.

Lemma covers_send c wire : covered c wire -> covered (send_segments c) wire.
Proof.
  intros Hc. apply (covers_keep c _ wire wire Hc); [done|by constructor|apply Hc|].
  intros seg p [Hin|[Hin|Hin]%elem_of_app]%elem_of_app Hh; unfold pool, send_segments; cbn; rewrite send_loop_map.
  - exists (stamp (_receiver c) seg). split; [|by apply holds_stamp].
    apply elem_of_app. left. apply elem_of_app. right. by apply list_elem_of_fmap_2.
  - exists seg. split; [|done]. rewrite !elem_of_app in *; tauto.
  - exists seg. split; [|done]. rewrite !elem_of_app in *; tauto.
Qed.

Lemma covers_close c wire : covered c wire -> covered (try_clean_close c) wire.
Proof. destruct (close_keeps c) as (Es & _ & Eo & _). by apply covers_ext; rewrite ?Es, ?Eo. Qed.

Lemma covers_linger c wire : covered c wire -> covered (update_linger c) wire.
Proof. destruct (linger_keeps c) as (Es & _ & Eo & _). by apply covers_ext; rewrite ?Es, ?Eo. Qed.

(** Segments added to the queues. *)
Lemma covers_queue c wire s q : covered c wire -> segments_out s = segments_out (_sender c) ++ q ->
  _wait_ack s = unacked c -> _next_seqno s = seqnos c -> Forall norst q -> covered (set_sender c s) wire.
Proof.
  intros Hc Eq Ew En Hn. apply (covers_keep c _ wire wire Hc); cbn; [done| | |].
  - rewrite Eq. apply Forall_app. split; [apply Hc|done].
  - rewrite Ew. apply Hc.
  - intros seg p Hin Hh. exists seg. split; [|done]. unfold pool in *. cbn. rewrite Eq. rewrite !elem_of_app in *; tauto.
Qed.

Lemma covers_fill c wire w sent a s : covered c wire -> sinv (_sender c) w sent a -> size w < 9223372036854775808 ->
  TCPSender._isn (_sender c) = isn -> fill_window (_sender c) = Ok s -> covered (set_sender c s) wire.
Proof.
  intros [Hq Hw Ha] Hinv Hsz Ei Hf.
  destruct (fill_window_spec _ w sent a Hinv Hsz) as (s' & new & Hf' & Hinv' & Hpost & _). rewrite Hf in Hf'. injection Hf' as <-.
  destruct (fill_window_calm _ _ Hf) as (Hnr & _). specialize (Hnr Hw). pose proof Hpost as [Eo Ew En Ei' _ _ _ _].
  assert (Forall norst new) as Hnew by (rewrite Ew in Hnr; by apply Forall_app in Hnr as [_ Hnr]).
  constructor; cbn.
  - unfold segments_out in *. rewrite Eo. by apply Forall_app.
  - done.
  - intros p Hp. unfold pool, segments_out in *. cbn. rewrite Eo. destruct (Z.lt_ge_cases p (seqnos c)).
    + destruct (Ha p ltac:(lia)) as (seg & Hin & Hh). exists seg. split; [|done]. rewrite !elem_of_app in *; tauto.
    + pose proof (sinv_bounds _ _ _ _ Hinv Hsz). pose proof (si_layout _ _ _ _ Hinv') as Hl. apply layout_app in Hl. rewrite <- (si_next _ _ _ _ Hinv), Ei', Ei in Hl.
      destruct (layout_holds _ _ _ _ p Hl Hnew) as (seg & Hin & Hh); [lia|lia|]. exists seg. split; [|done]. rewrite !elem_of_app in *; tauto.
Qed.

(** [fill_window], then [send_segments]: the end of every call. *)
Lemma covers_fill_send c wire w sent a s : covered c wire -> sinv (_sender c) w sent a -> size w < 9223372036854775808 ->
  TCPSender._isn (_sender c) = isn -> fill_window (_sender c) = Ok s -> covered (send_segments (set_sender c s)) wire.
Proof. intros. eapply covers_send, covers_fill; eauto. Qed.

(** *** The steps of a host *)

Lemma covers_ack c wire a win : covered c wire -> covered (set_sender c (ack_received (_sender c) a win)) wire.
Proof.
  intros Hc. pose proof (cv_wait _ _ _ Hc) as Hw. destruct (pop_acked_suffix (TCPSender._isn (_sender c)) (seqnos c)
    (unwrap a (TCPSender._isn (_sender c)) (seqnos c)) (unacked c) (_flight_bytes (_sender c)) false) as [l El].
  unfold ack_received. destruct (_ <? _); [by apply (covers_ext c)|].
  destruct (pop_acked _ _ _ _ _ _) as [[q f] b]. cbn in El. rewrite El in Hw. apply Forall_app in Hw as [_ Hw].
  assert (forall t n, covered (set_sender c (mkTCPSender (TCPSender._isn (_sender c)) (TCPSender._segments_out (_sender c))
    (_initial_retransmission_timeout (_sender c)) (_stream (_sender c)) (seqnos c) win
    (unwrap a (TCPSender._isn (_sender c)) (seqnos c)) f (_set_fin (_sender c)) q t n)) wire) as Hall.
  { intros t n. apply (covers_keep c _ wire wire Hc); [done|apply Hc|done|]. intros seg p Hin Hh. by exists seg. }
  destruct b; apply Hall.
Qed.

Lemma covers_reply c wire seg r s : covered (set_sender c s) wire -> covered (with_reply c seg r s) wire.
Proof.
  intros Hc. assert (covered (set_sender (set_receiver (set_wait_time c 0) r) s) wire) as Hc' by (by apply (covers_ext (set_sender c s))).
  unfold with_reply. destruct (negb _); [|done]. destruct (segments_out s) eqn:E; [|done].
  apply (covers_queue _ wire (send_empty_segment s) [empty_segment s] Hc'); try done. by repeat constructor.
Qed.

Lemma tick_queue s ms : Forall norst (_wait_ack s) -> exists q, segments_out (TCPSender.tick s ms) = segments_out s ++ q /\
  _wait_ack (TCPSender.tick s ms) = _wait_ack s /\ Forall norst q.
Proof.
  intros Hw. unfold TCPSender.tick, segments_out. destruct (timer_tictoc _ _ _ _) as [t n]. destruct (isexpired t); cbn.
  - destruct (_wait_ack s) as [|f l]; cbn; [exists []; by rewrite app_nil_r|]. exists [f]. split_and!; try done.
    apply Forall_inv in Hw. by repeat constructor.
  - exists []. by rewrite app_nil_r.
Qed.

Lemma covers_tick c wire ms : covered c wire -> covered (tick c ms) wire.
Proof.
  intros Hc. destruct (tick_queue (_sender c) ms (cv_wait _ _ _ Hc)) as (q & Eq & Ew & Hn). destruct (tick_keeps (_sender c) ms) as (En & _).
  pose proof (covers_queue c wire (TCPSender.tick (_sender c) ms) q Hc Eq Ew En Hn) as Hc1. unfold tick. destruct (_ <? _).
  - apply (covers_keep _ _ _ wire Hc1); [done|apply Hc1|apply Hc1|]. intros seg p Hin Hh. exists seg. split; [|done].
    unfold pool in *. cbn in *. rewrite !elem_of_app in *; tauto.
  - apply covers_close, covers_send. by apply (covers_ext (set_sender c (TCPSender.tick (_sender c) ms))).
Qed.
End covering.

Section segments.
Context (Wh Wp : bytes) (isn isn' : WrappingInt32) (cap : Z) (HWh : size Wh < 2147400000).

Lemma covers_with_reply c w wire np fp lp seg r s : conn_ok Wh Wp isn isn' cap c w wire np fp lp ->
  wire_ok Wp isn' isn np fp (seqnos c) (_set_fin (_sender c)) lp seg ->
  fill_window (if ack (_header seg) then ack_received (_sender c) (ackno (_header seg)) (win (_header seg)) else _sender c) = Ok s ->
  covers isn c wire -> covers isn (with_reply c seg r s) wire.
Proof.
  intros Hok Hw Hf Hc. apply covers_reply. pose proof (conn_size _ _ _ _ _ _ _ _ _ _ _ Hok).
  destruct (conn_ok_ack Wh Wp isn isn' cap HWh c w wire np fp lp seg Hok Hw) as (Hok2 & _). cbv zeta in Hok2.
  destruct (co_snd _ _ _ _ _ _ _ _ _ _ _ Hok2) as (sent & x & Hinv). set (s0 := if ack (_header seg) then _ else _) in *.
  apply (covers_ext _ (set_sender (set_sender c s0) s)); try done.
  apply (covers_fill _ _ _ w sent x); try done; [|lia|apply Hok2]. unfold s0.
  destruct (ack (_header seg)); [by apply covers_ack|by apply (covers_ext _ c)].
Qed.

Lemma covers_segment c w wire np fp lp seg c' : conn_ok Wh Wp isn isn' cap c w wire np fp lp ->
  wire_ok Wp isn' isn np fp (seqnos c) (_set_fin (_sender c)) lp seg -> segment_received c seg = Ok c' ->
  covers isn c wire -> covers isn c' wire.
Proof.
  intros Hok Hw [[_ ->]|(_ & r & _ & [[_ ->]|(a & s & _ & Hf & ->)])]%segment_received_inv Hc.
  - by apply (covers_ext _ c).
  - apply covers_close. by apply (covers_ext _ c).
  - eapply covers_close, covers_linger, covers_send, covers_with_reply; eauto.
Qed.

(** A segment with sequence numbers is answered. *)
Lemma segment_answered c w wire np fp lp seg c' : conn_ok Wh Wp isn isn' cap c w wire np fp lp ->
  wire_ok Wp isn' isn np fp (seqnos c) (_set_fin (_sender c)) lp seg -> segment_received c seg = Ok c' ->
  covers isn c wire -> norst seg -> 0 < length_in_sequence_space seg -> _set_isn (_receiver c') = true ->
  exists g, g ∈ out c' /\ norst g /\ stamped (_receiver c') g.
Proof.
  intros Hok Hw [[E _]|(_ & r & _ & [[En ->]|(a & s & _ & Hf & ->)])]%segment_received_inv Hc Hn Hlen Hset; [congruence|exfalso|].
  - destruct (close_keeps (set_receiver (set_wait_time c 0) r)) as (_ & Er & _). rewrite Er in Hset. apply ackno_set in En. cbn in Hset. congruence.
  - destruct (segment_received_out c seg r s) as (-> & _ & ->). pose proof (with_reply_queue c seg r s Hlen) as Hne.
    pose proof (cv_queue _ _ _ (covers_with_reply c w wire np fp lp seg r s Hok Hw Hf Hc)) as Hq.
    destruct (segments_out (_sender (with_reply c seg r s))) as [|x q]; [done|]. apply Forall_inv in Hq.
    exists (stamp r x). split_and!; [|by apply stamp_norst|apply stamp_stamped]. apply elem_of_app. right. left.
Qed.
End segments.

Lemma covers_step Wh Wp ih ip cap peer h h' np fp lp : size Wh < 2147400000 -> host_step Wh peer h h' ->
  host_ok Wh Wp ih ip cap h np fp lp -> Forall (wire_ok Wp ip ih np fp (h_seq h) (h_fin h) lp) peer ->
  covers ih (h_conn h) (h_wire h) -> covers ih (h_conn h') (h_wire h').
Proof.
  intros HW Hstep [Hok _] Hpeer Hc. destruct (co_snd _ _ _ _ _ _ _ _ _ _ _ Hok) as (sent & a & Hinv).
  pose proof (conn_size _ _ _ _ _ _ _ _ _ _ _ Hok) as Hsz. pose proof (co_isn _ _ _ _ _ _ _ _ _ _ _ Hok) as Ei.
  destruct Hstep as [h data c' n He Hd Hw|h c' Hw He|h c' Hs|h ms Hms|h len Hl|h q1 q2 E|h seg c' Hin Hs]; simpl.
  - unfold write in Hw. destruct (ByteStream.write _ data) as [st m] eqn:Ew. apply rbind_ok_inv in Hw as (s & Hf & [= <- <-]).
    apply covers_close. pose proof (sinv_write _ _ _ _ data Hinv He) as Hinv'. unfold stream_in in Ew. rewrite Ew in Hinv'. cbn in Hinv'.
    eapply covers_fill_send; [|exact Hinv'| |done|exact Hf]; [by apply (covers_ext _ (h_conn h))|].
    rewrite size_app. pose proof (size_nonneg (ztake m data)). pose proof (size_nonneg (h_written h)). pose proof (size_nonneg data).
    assert (size (ztake m data) <= size data) as Hm.
    { destruct (Z.le_gt_cases 0 m); [rewrite size_ztake by done; lia|rewrite ztake_0 by lia; rewrite size_nil; lia]. }
    apply (f_equal size) in Hd. unfold slice in Hd. rewrite size_ztake, size_zdrop in Hd by done. lia.
  - unfold end_input_stream in He. apply rbind_ok_inv in He as (s & Hf & [= <-]).
    eapply covers_fill_send; [|exact (sinv_end _ _ _ _ Hinv)|lia|done|exact Hf]. by apply (covers_ext _ (h_conn h)).
  - unfold connect in Hs. apply rbind_ok_inv in Hs as (s & Hf & [= <-]). eapply covers_fill_send; [done|exact Hinv|lia|done|exact Hf].
  - by apply covers_tick.
  - by apply (covers_ext _ (h_conn h)).
  - apply (covers_keep _ (h_conn h) _ (h_wire h)); [done..|apply Hc|apply Hc|]. intros seg p Hin Hh. exists seg. split; [|done].
    unfold pool in *. cbn. rewrite E in Hin. rewrite !elem_of_app in *; tauto.
  - eapply (covers_segment Wh Wp); [done|done|by eapply Forall_forall|done|done].
Qed.

(** ** Progress *)

Lemma fixed_step Wh peer h h' : host_step Wh peer h h' -> fixed (h_conn h') = fixed (h_conn h).
Proof.
  intros Hstep. destruct Hstep; simpl; [by eapply fixed_write|by eapply fixed_end|by eapply fixed_connect|apply fixed_tick|done|done|by eapply fixed_segment].
Qed.

(** The first segment is sent as soon as the window is filled. *)
Lemma fill_window_syn s w sent a s' : sinv s w sent a -> size w < 9223372036854775808 -> fill_window s = Ok s' -> 1 <= _next_seqno s'.
Proof.
  intros Hinv Hw Hf. destruct (fill_window_spec s w sent a Hinv Hw) as (s2 & new & Hf2 & Hinv' & Hpost & _). rewrite Hf in Hf2. injection Hf2 as <-.
  pose proof (sinv_bounds _ _ _ _ Hinv Hw) as Hb. pose proof (fo_next _ _ _ Hpost) as En. pose proof (span_nonneg new).
  destruct (Z.eq_dec (_next_seqno s) 0) as [Ez|]; [|lia]. destruct new as [|seg new].
  2:{ pose proof (sinv_lengths _ _ _ _ Hinv') as Hl. apply Forall_app in Hl as [_ Hl%Forall_inv]. cbn [span] in *. pose proof (span_nonneg new). lia. }
  exfalso. pose proof (si_ackno _ _ _ _ Hinv). pose proof (si_win _ _ _ _ Hinv) as Hwin. pose proof (si_a _ _ _ _ Hinv). unfold is_u16 in Hwin.
  unfold fill_window in Hf. destruct (_set_fin s) eqn:Ef; [destruct (si_fin _ _ _ _ Hinv Ef); lia|].
  assert (right_edge s = Z.max 1 (_window_sz s)) as Er by (unfold right_edge; destruct (Z.eqb_spec (_window_sz s) 0); simpl; ints).
  rewrite Er, Ez in Hf. destruct (Z.leb_spec (Z.max 1 (_window_sz s)) 0); [lia|]. unfold next_seqno_absolute in Hf. rewrite Ez in Hf.
  rewrite u64_small in Hf by (unfold is_u64; lia). rewrite Z.sub_0_r in Hf. set (n := Z.max 1 (_window_sz s)) in *.
  destruct (Z.to_nat n) as [|fuel] eqn:En'; [lia|]. cbn [fill_loop] in Hf. rewrite Ef in Hf. destruct (Z.ltb_spec 0 n); [|lia]. cbn [andb negb] in Hf.
  destruct (fill_step s w sent a n Hinv Hw Ef ltac:(lia) ltac:(lia)) as (s1 & seg & len & Hns & Hlen & _ & Hpos).
  destruct (next_segment_eq s w sent a n Hinv Hw ltac:(lia)) as (Hns' & _ & Hd & _). rewrite Hns, Ez in Hns'. cbv zeta in Hns'. rewrite Hns in Hf.
  assert (0 < len) as Hl.
  { injection Hns' as _ _ ->. pose proof (size_nonneg (ztake (Z.min (n - 1) MAX_PAYLOAD_SIZE) (_que (_stream s)))). destruct (_ && _ && _); lia. }
  destruct (Hpos Hl) as (El & Hi1 & Hp1). destruct (Z.ltb_spec 0 len); [|lia].
  assert (_next_seqno s' = 0) as Ez' by (cbn in En; lia). pose proof (fo_next _ _ _ Hp1) as En1. cbn [span] in En1.
  destruct (_ =? 0); [injection Hf as <-; lia|]. rewrite u64_small in Hf by (unfold is_u64; lia).
  destruct (fill_loop_spec fuel _ w _ a (n - len) Hi1 Hw ltac:(lia) ltac:(lia) ltac:(lia)) as (s3 & new & Hf3 & _ & Hp3 & _).
  rewrite Hf in Hf3. injection Hf3 as <-. pose proof (fo_next _ _ _ Hp3). pose proof (span_nonneg new). lia.
Qed.

(** What the receiver has taken in does not change but by a segment. *)
Lemma taken_error r : taken (with_stream_out r (ByteStream.set_error (receiver_stream_out r))) = taken r.
Proof. done. Qed.

Lemma taken_tick c ms : taken (_receiver (tick c ms)) = taken (_receiver c).
Proof.
  unfold tick. destruct (_ <? _); [done|]. by destruct (close_keeps (send_segments (set_wait_time
    (set_sender c (TCPSender.tick (_sender c) ms)) (u64 (_wait_segment_time (set_sender c (TCPSender.tick (_sender c) ms)) + ms))))) as (_ & -> & _).
Qed.

Lemma receiver_write c data c' n : write c data = Ok (c', n) -> _receiver c' = _receiver c.
Proof.
  unfold write. destruct (ByteStream.write _ data) as [st m]. intros (s & _ & [= <- <-])%rbind_ok_inv.
  by destruct (close_keeps (send_segments (set_sender (set_sender c (with_stream (_sender c) st)) s))) as (_ & -> & _).
Qed.

Lemma receiver_segment c seg c' : segment_received c seg = Ok c' ->
  rst (_header seg) = true /\ taken (_receiver c') = taken (_receiver c) \/
  norst seg /\ TCPReceiver.segment_received (_receiver c) seg = Ok (_receiver c').
Proof.
  intros [[? ->]|(? & r & Hr & [[_ ->]|(a & s & _ & _ & ->)])]%segment_received_inv; [by left|right|right]; (split; [done|]).
  - by destruct (close_keeps (set_receiver (set_wait_time c 0) r)) as (_ & -> & _).
  - by destruct (segment_received_out c seg r s) as (-> & _).
Qed.

Lemma taken_step Wh Wp ih ip cap peer h h' np fp lp : size Wp < 2147400000 -> w32 ip -> 1 <= cap < 2147483647 -> host_step Wh peer h h' ->
  host_ok Wh Wp ih ip cap h np fp lp -> peer_ok Wp np fp -> Forall (wire_ok Wp ip ih np fp (h_seq h) (h_fin h) lp) peer ->
  data_end np fp <= h_limit h -> taken (_receiver (h_conn h)) <= taken (_receiver (h_conn h')).
Proof.
  intros HW Hip Hcap Hstep [Hok _] Hp Hpeer Hl. rewrite Forall_forall in Hpeer.
  destruct Hstep as [h data c' n He Hd Hw|h c' Hw He|h c' Hs|h ms Hms|h len Hlen|h q1 q2 E|h seg c' Hin Hs]; simpl; try apply Z.le_refl.
  - by rewrite (receiver_write _ _ _ _ Hw).
  - unfold end_input_stream in He. by apply rbind_ok_inv in He as (s & _ & [= <-]).
  - unfold connect in Hs. by apply rbind_ok_inv in Hs as (s & _ & [= <-]).
  - by rewrite taken_tick.
  - destruct (receiver_segment _ _ _ Hs) as [[_ ->]|[_ Hr]]; [done|].
    by destruct (taken_grows Wp ih ip cap HW Hip Hcap _ np fp seg _ _ _ _ (co_rcv _ _ _ _ _ _ _ _ _ _ _ Hok) Hp (Hpeer seg Hin) Hl Hr) as (Ht & _).
Qed.

(** From one state to a later one. *)
Record later (x y : host * host) : Prop := {
  lt_seq_a : h_seq (fst x) <= h_seq (fst y);
  lt_seq_b : h_seq (snd x) <= h_seq (snd y);
  lt_taken_a : taken (_receiver (h_conn (fst x))) <= taken (_receiver (h_conn (fst y)));
  lt_taken_b : taken (_receiver (h_conn (snd x))) <= taken (_receiver (h_conn (snd y)))
}.

#[global] Instance later_preorder : PreOrder later.
Proof.
  split.
  - intros x. constructor; apply Z.le_refl.
  - intros x y z [] []. constructor; etransitivity; eauto.
Qed.

Section recovery.
Context (WA WB : bytes) (cfgA cfgB : TCPConfig) (rA rB : Z) (isnA isnB : WrappingInt32).
Context (HWA : size WA < 2147400000) (HWB : size WB < 2147400000).
Context (HA : config_ok cfgA rA isnA) (HB : config_ok cfgB rB isnB).

Abbreviation good := (net_ok WA WB cfgA cfgB isnA isnB).
Abbreviation steps := (rtc (net_step WA WB)).
Abbreviation room h := (_maximumcapacity (stream_in (_sender (h_conn h)))).
Abbreviation got h := (taken (_receiver (h_conn h))).
Implicit Types (a b : host).

Record live (x : host * host) : Prop := {
  lv_ok : good x;
  lv_a : covers isnA (h_conn (fst x)) (h_wire (fst x));
  lv_b : covers isnB (h_conn (snd x)) (h_wire (snd x));
  lv_room_a : 1 <= room (fst x);
  lv_room_b : 1 <= room (snd x)
}.

Lemma fixed_room Wh peer h h' : host_step Wh peer h h' -> room h' = room h.
Proof. intros H%fixed_step. by injection H. Qed.

Lemma live_step x y : net_step WA WB x y -> live x -> live y /\ later x y.
Proof.
  intros Hstep [Hok Ha Hb Hra Hrb]. pose proof (net_step_ok WA WB cfgA cfgB rA rB isnA isnB HWA HWB HA HB x y Hstep Hok) as Hok'.
  destruct Hstep as [a b a' Hs|a b b' Hs]; pose proof Hok as [Hoa Hob]; cbn [fst snd] in *;
    destruct (peer_facts WA WB cfgA cfgB isnA isnB a b HWA Hok) as (_ & Hpa & [_ Hwa]%Forall_app & Hla);
    destruct (peer_facts WB WA cfgB cfgA isnB isnA b a HWB (net_ok_swap _ _ _ _ _ _ _ _ Hok)) as (_ & Hpb & [_ Hwb]%Forall_app & Hlb).
  - destruct (host_step_ok WA WB isnA isnB _ _ _ _ _ _ _ HWA HWB (cfg_w32 _ _ _ HB) (cfg_recv _ _ _ HA) Hs Hoa Hpb Hwb Hlb) as (_ & Hn & _).
    split; [|constructor; cbn; try apply Z.le_refl; [done|]; by eapply (taken_step WA WB isnA isnB); [| |apply HA|..]; eauto; apply HB].
    constructor; cbn; [done|by eapply (covers_step WA WB)|done|by rewrite (fixed_room _ _ _ _ Hs)|done].
  - destruct (host_step_ok WB WA isnB isnA _ _ _ _ _ _ _ HWB HWA (cfg_w32 _ _ _ HA) (cfg_recv _ _ _ HB) Hs Hob Hpa Hwa Hla) as (_ & Hn & _).
    split; [|constructor; cbn; try apply Z.le_refl; [done|]; by eapply (taken_step WB WA isnB isnA); [| |apply HB|..]; eauto; apply HA].
    constructor; cbn; [done|done|by eapply (covers_step WB WA)|done|by rewrite (fixed_room _ _ _ _ Hs)].
Qed.

Lemma live_steps x y : steps x y -> live x -> live y /\ later x y.
Proof.
  induction 1 as [x|x y z Hs _ IH]; intros Hl; [by split|]. destruct (live_step x y Hs Hl) as [Hy Hxy].
  destruct (IH Hy) as [Hz Hyz]. split; [done|]. by transitivity y.
Qed.

Lemma live_start : 1 <= send_capacity cfgA -> 1 <= send_capacity cfgB -> live (start cfgA rA, start cfgB rB).
Proof.
  intros Ha Hb. constructor; try done.
  - apply (net_reachable_ok WA WB cfgA cfgB rA rB isnA isnB); try done. apply rtc_refl.
  - constructor; cbn; [constructor|constructor|lia].
  - constructor; cbn; [constructor|constructor|lia].
Qed.

(** *** Moves *)

(** The host opens the connection, if it has not, and sends what it has queued. *)
Lemma flush a b : live (a, b) -> exists a', steps (a, b) (a', b) /\ _receiver (h_conn a') = _receiver (h_conn a) /\ 1 <= h_seq a' /\
  forall p, 0 <= p < h_seq a' -> exists seg, seg ∈ h_wire a' /\ holds isnA p seg.
Proof.
  intros Hl. pose proof (lv_ok _ Hl) as Hok.
  destruct (net_ok_calls WA WB cfgA cfgB rA rB isnA isnB HWA HWB HA HB a b Hok) as ((c & Hc) & _).
  set (a1 := mkHost c (h_written a) (h_read a) (h_wire a)). set (a2 := mkHost (set_out c []) (h_written a) (h_read a) (h_wire a ++ out c)).
  assert (steps (a, b) (a2, b)) as Hs.
  { apply (rtc_l _ _ (a1, b)); [by apply net_a, hs_connect|]. apply rtc_once, net_a. apply (hs_transmit _ _ a1 (out c) []). by rewrite app_nil_r. }
  exists a2. destruct (live_steps _ _ Hs Hl) as [Hl2 _]. split; [done|]. clear a1. unfold connect in Hc. apply rbind_ok_inv in Hc as (s & Hf & [= <-]).
  split; [done|]. pose proof (ho_conn _ _ _ _ _ _ _ _ _ (proj1 Hok)) as Hoa. destruct (co_snd _ _ _ _ _ _ _ _ _ _ _ Hoa) as (sent & x & Hinv).
  pose proof (conn_size _ _ _ _ _ _ _ _ _ _ _ Hoa). split; [by apply (fill_window_syn _ _ _ _ s Hinv ltac:(lia))|].
  intros p Hp. by destruct (cv_all _ _ _ (lv_a _ Hl2) p Hp) as (seg & Hin & Hh); exists seg.
Qed.

(** A segment of [a] reaches [b]. *)
Lemma deliver a b seg : live (a, b) -> seg ∈ h_wire a -> exists c', segment_received (h_conn b) seg = Ok c' /\
  net_step WA WB (a, b) (a, mkHost c' (h_written b) (h_read b) (h_wire b)).
Proof.
  intros Hl Hin. destruct (net_ok_calls WB WA cfgB cfgA rB rA isnB isnA HWB HWA HB HA b a (net_ok_swap _ _ _ _ _ _ _ _ (lv_ok _ Hl))) as (_ & _ & _ & Hr).
  destruct (Hr seg Hin) as (c' & Hc). exists c'. split; [done|]. by eapply net_b, hs_receive.
Qed.

(** The receiver of [b] takes everything that [a] has sent, as soon as it has room. *)
Definition roomy a b : Prop := data_end (h_seq a) (h_fin a) <= window_end (_reassembler (_receiver (h_conn b))).

(** The place of a segment that holds the next number [b] waits for. *)
Lemma next_place a b seg : live (a, b) -> seg ∈ h_wire a -> holds isnA (got b) seg -> got b < h_seq a -> exists i,
  segment_of WA isnA seg i /\ i + 1 + size (payload_of seg) + (if fin (_header seg) then 1 else 0) <= h_seq a /\
  got b < i + 1 + size (payload_of seg) + (if fin (_header seg) then 1 else 0) /\
  i <= bytes_written (receiver_stream_out (_receiver (h_conn b))) /\ (syn (_header seg) = true \/ _set_isn (_receiver (h_conn b)) = true).
Proof.
  intros Hl Hin (Hn & q & Eq & Hq & Hlen) Hlt. destruct (peer_facts WA WB cfgA cfgB isnA isnB a b HWA (lv_ok _ Hl)) as (Hob & Hp & Hwire & _).
  rewrite Forall_forall in Hwire. pose proof (Hwire seg ltac:(apply elem_of_app; by right)) as Hw. pose proof Hp as [Hpn _].
  pose proof (co_rcv _ _ _ _ _ _ _ _ _ _ _ Hob) as Hr. pose proof (rinv_bounds _ _ _ _ (ro_inv _ _ _ _ _ _ Hr)) as Hb. cbn zeta in Hb.
  destruct (wo_kind _ _ _ _ _ _ _ _ _ Hw) as [(Hp0 & Hs0 & Hf0 & _)|(i & Hseg & Hle)].
  { unfold length_in_sequence_space in Hlen. unfold payload_of in Hp0. rewrite Hp0, Hs0, Hf0 in Hlen. change (size []) with 0 in Hlen. lia. }
  exists i. pose proof (so_data _ _ _ _ Hseg) as (Hi & _). pose proof (so_seqno _ _ _ _ Hseg) as Es. pose proof (size_nonneg (payload_of seg)).
  assert (length_in_sequence_space seg = size (payload_of seg) + (if syn (_header seg) then 1 else 0) + (if fin (_header seg) then 1 else 0)) as El by done.
  rewrite Eq in Es. apply wrap_unique in Es; [|lia|destruct (syn _), (fin _); lia].
  destruct (syn (_header seg)) eqn:Esy.
  - pose proof (so_syn _ _ _ _ Hseg Esy). split_and!; [done|done|lia|lia|by left].
  - assert (_set_isn (_receiver (h_conn b)) = true) as Hset.
    { apply (taken_pos WA isnA _ (cfg_recv _ _ _ HB) _ _ _ Hr Hp). lia. }
    split_and!; [done|done|lia| |by right]. unfold taken, next_abs in *. rewrite Hset in *.
    destruct (input_ended _) eqn:Ee; [|lia]. pose proof (ri_inv _ _ _ _ (ro_inv _ _ _ _ _ _ Hr)) as [[Hout _ _ _ _ _] _].
    pose proof (dl_end _ _ Hout Ee). unfold receiver_stream_out, stream_out, bytes_written in *. lia.
Qed.

(** Such a segment is taken in. *)
Lemma advance a b seg : live (a, b) -> seg ∈ h_wire a -> holds isnA (got b) seg -> got b < h_seq a -> roomy a b ->
  exists b', net_step WA WB (a, b) (a, b') /\ got b < got b' /\ roomy a b'.
Proof.
  intros Hl Hin Hh Hlt Hroom. destruct (next_place a b seg Hl Hin Hh Hlt) as (i & Hseg & Hle & Hgt & Hi & Hs).
  destruct (deliver a b seg Hl Hin) as (c' & Hc & Hstep). exists (mkHost c' (h_written b) (h_read b) (h_wire b)). split; [done|].
  destruct (live_step _ _ Hstep Hl) as [Hl' _].
  destruct (peer_facts WA WB cfgA cfgB isnA isnB a b HWA (lv_ok _ Hl)) as (Hob & Hp & Hwire & Hlim).
  destruct (peer_facts WA WB cfgA cfgB isnA isnB _ _ HWA (lv_ok _ Hl')) as (Hob' & _).
  rewrite Forall_forall in Hwire. pose proof (Hwire seg ltac:(apply elem_of_app; by right)) as Hw.
  pose proof (co_rcv _ _ _ _ _ _ _ _ _ _ _ Hob) as Hr. pose proof (co_rcv _ _ _ _ _ _ _ _ _ _ _ Hob') as Hr'. cbn [h_conn] in *.
  destruct (receiver_segment _ _ _ Hc) as [[Er _]|[_ Hrc]]; [destruct Hh as [Hn _]; congruence|].
  destruct (taken_segment WA isnB isnA _ HWA (cfg_w32 _ _ _ HA) (cfg_recv _ _ _ HB) _ _ _ seg i _ _ _ _ Hr Hp Hw Hroom Hseg Hle Hi Hs Hrc) as [Ht _].
  split; [lia|]. unfold roomy in *. cbn [h_conn].
  destruct (taken_grows WA isnB isnA _ HWA (cfg_w32 _ _ _ HA) (cfg_recv _ _ _ HB) _ _ _ seg _ _ _ _ Hr Hp Hw Hlim Hrc) as (_ & _ & Erd & _).
  pose proof (rinv_bounds _ _ _ _ (ro_inv _ _ _ _ _ _ Hr)) as Hb. pose proof (rinv_bounds _ _ _ _ (ro_inv _ _ _ _ _ _ Hr')) as Hb'. cbn zeta in Hb, Hb'. lia.
Qed.

(** The application of [b] reads all that waits. *)
Lemma read_all a b : live (a, b) -> exists b', net_step WA WB (a, b) (a, b') /\ got b' = got b /\ roomy a b' /\
  (got b = size WA + 2 -> h_read b' = WA /\ eof (inbound_stream (h_conn b')) = true).
Proof.
  intros Hl. pose proof (inbound_size WB WA cfgB cfgA isnB isnA HWA b a (net_ok_swap _ _ _ _ _ _ _ _ (lv_ok _ Hl))) as Hsz.
  set (n := ByteStream.buffer_size (inbound_stream (h_conn b))) in *.
  eexists. assert (net_step WA WB (a, b) (a, _)) as Hs by (apply net_b, (hs_read _ _ b n); unfold is_u64; lia).
  split; [exact Hs|]. destruct (live_step _ _ Hs Hl) as [Hl' _].
  set (b' := mkHost (set_receiver _ _) _ _ _) in *.
  split; [done|].
  destruct (peer_facts WA WB cfgA cfgB isnA isnB _ _ HWA (lv_ok _ Hl')) as (Hob & _ & _ & Hlim).
  pose proof (co_rcv _ _ _ _ _ _ _ _ _ _ _ Hob) as Hr. pose proof (rinv_bounds _ _ _ _ (ro_inv _ _ _ _ _ _ Hr)) as Hb. cbn zeta in Hb.
  assert (ByteStream.buffer_size (receiver_stream_out (_receiver (h_conn b'))) = 0) as He.
  { unfold ByteStream.buffer_size. change (receiver_stream_out (_receiver (h_conn b'))) with (pop_output (inbound_stream (h_conn b)) n).
    rewrite pop_output_que, size_zdrop by (unfold n, ByteStream.buffer_size in *; lia). unfold n, ByteStream.buffer_size. lia. }
  pose proof (cfg_recv _ _ _ HB). split; [unfold roomy; lia|]. intros Ht.
  assert (input_ended (inbound_stream (h_conn b')) = true) as Hend by (eapply taken_ended; [exact Hr|exact Ht]).
  assert (eof (inbound_stream (h_conn b')) = true) as Heof.
  { unfold eof, inbound_stream, input_ended, bytes_read, bytes_written in *. rewrite Hend, andb_true_l. apply Z.eqb_eq. lia. }
  split; [|done]. by apply (proj2 (delivered _ _ _ _ _ _ _ _ _ HWA (proj2 (lv_ok _ Hl'))) _ eq_refl).
Qed.

(** Everything [a] has sent is taken in by [b]. *)
Lemma drain n a b : live (a, b) -> roomy a b -> (forall p, 0 <= p < h_seq a -> exists seg, seg ∈ h_wire a /\ holds isnA p seg) ->
  h_seq a - got b <= Z.of_nat n -> exists b', steps (a, b) (a, b') /\ got b' = h_seq a.
Proof.
  revert b. induction n as [|n IH]; intros b Hl Hroom Hall Hn;
    destruct (peer_facts WA WB cfgA cfgB isnA isnB a b HWA (lv_ok _ Hl)) as (Hob & Hp & _);
    pose proof (taken_bounds WA isnA _ (cfg_recv _ _ _ HB) _ _ _ (co_rcv _ _ _ _ _ _ _ _ _ _ _ Hob) Hp).
  - exists b. split; [apply rtc_refl|lia].
  - destruct (Z.eq_dec (got b) (h_seq a)) as [E|]; [exists b; by split; [apply rtc_refl|]|].
    destruct (Hall (got b) ltac:(lia)) as (seg & Hin & Hh).
    destruct (advance a b seg Hl Hin Hh ltac:(lia) Hroom) as (b1 & Hs & Hgt & Hroom1).
    destruct (IH b1 (proj1 (live_step _ _ Hs Hl)) Hroom1 Hall ltac:(lia)) as (b' & Hs' & E).
    exists b'. split; [by eapply rtc_l|done].
Qed.

Lemma catch_up a b : live (a, b) -> exists a' b', steps (a, b) (a', b') /\ 1 <= h_seq a' /\ got b' = h_seq a' /\ got a' = got a /\
  forall p, 0 <= p < h_seq a' -> exists seg, seg ∈ h_wire a' /\ holds isnA p seg.
Proof.
  intros Hl. destruct (flush a b Hl) as (a' & Hs & Er & H1 & Hall). destruct (live_steps _ _ Hs Hl) as [Hl1 _].
  destruct (read_all a' b Hl1) as (b1 & Hs1 & _ & Hroom & _). destruct (live_step _ _ Hs1 Hl1) as [Hl2 _].
  destruct (drain (Z.to_nat (h_seq a' - got b1)) a' b1 Hl2 Hroom Hall ltac:(lia)) as (b' & Hs2 & E).
  exists a', b'. split_and!; try done; [|by rewrite Er]. transitivity (a', b); [done|]. by eapply rtc_l.
Qed.

(** [b] answers a segment with an acknowledgment of all it has taken in. *)
Lemma answer a b seg : live (a, b) -> seg ∈ h_wire a -> holds isnA 0 seg -> got b = h_seq a -> 1 <= h_seq a ->
  exists b' g, steps (a, b) (a, b') /\ g ∈ h_wire b' /\ norst g /\ ack (_header g) = true /\ ackno (_header g) = wrap (h_seq a) isnA.
Proof.
  intros Hl Hin [Hn (q & _ & Hq & Hlen)] Eg H1. destruct (deliver a b seg Hl Hin) as (c & Hc & Hs).
  destruct (live_step _ _ Hs Hl) as [Hl1 Hlt]. pose proof (lt_taken_b _ _ Hlt) as Hgot. cbn [snd h_conn] in Hgot.
  destruct (peer_facts WA WB cfgA cfgB isnA isnB _ _ HWA (lv_ok _ Hl1)) as (Hob & Hp & _). cbn [h_conn] in Hob.
  pose proof (co_rcv _ _ _ _ _ _ _ _ _ _ _ Hob) as Hr. pose proof (taken_bounds WA isnA _ (cfg_recv _ _ _ HB) _ _ _ Hr Hp).
  assert (_set_isn (_receiver c) = true) as Hset by (apply (taken_pos WA isnA _ (cfg_recv _ _ _ HB) _ _ _ Hr Hp); lia).
  assert (receiver_ackno (_receiver c) = Some (wrap (h_seq a) isnA)) as Ea.
  { rewrite (ackno_next_abs _ _ _ _ (ro_inv _ _ _ _ _ _ Hr) Hset). unfold taken in *. rewrite Hset in *. do 2 f_equal. lia. }
  exists (mkHost (set_out c []) (h_written b) (h_read b) (h_wire b ++ out c)).
  assert (exists x, x ∈ out c /\ norst x /\ stamped (_receiver c) x) as (g & Hg & Hgn & Hst).
  { destruct (peer_facts WA WB cfgA cfgB isnA isnB a b HWA (lv_ok _ Hl)) as (Hob0 & _ & [_ Hwire]%Forall_app & _). rewrite Forall_forall in Hwire.
    eapply (segment_answered WB WA isnB isnA); [exact HWB|exact Hob0|by apply Hwire|exact Hc|apply Hl|done|lia|done]. }
  exists g. unfold stamped in Hst. rewrite Ea in Hst. destruct Hst as (? & ? & _). split_and!; try done.
  - eapply rtc_l; [exact Hs|]. apply rtc_once, net_b. apply (hs_transmit _ _ (mkHost c _ _ _) (out c) []). by rewrite app_nil_r.
  - apply elem_of_app. by right.
Qed.

(** The sender has sent all it was given, and may send more. *)
Definition idle a : Prop := _que (stream_in (_sender (h_conn a))) = [] /\ out_end (h_conn a) = false /\ h_seq a < edge (_sender (h_conn a)).

(** An acknowledgment of everything opens the window. *)
Lemma heed a b g : live (a, b) -> 1 <= got a -> g ∈ h_wire b -> norst g -> ack (_header g) = true ->
  ackno (_header g) = wrap (h_seq a) isnA ->
  exists a', net_step WA WB (a, b) (a', b) /\ (h_fin a' = true \/ h_seq a < h_seq a' \/ idle a').
Proof.
  intros Hl Hk Hin Hn Hack Eack. pose proof (lv_ok _ Hl) as Hok. pose proof (net_ok_swap _ _ _ _ _ _ _ _ Hok) as Hok'.
  destruct (peer_facts WB WA cfgB cfgA isnB isnA b a HWB Hok') as (Hoa & Hp & [_ Hwire]%Forall_app & Hlim). rewrite Forall_forall in Hwire.
  destruct (net_ok_calls WA WB cfgA cfgB rA rB isnA isnB HWA HWB HA HB a b Hok) as (_ & _ & _ & Hrecv). destruct (Hrecv g Hin) as (c & Hc).
  exists (mkHost c (h_written a) (h_read a) (h_wire a)). split; [by eapply net_a, hs_receive|].
  destruct (co_snd _ _ _ _ _ _ _ _ _ _ _ Hoa) as (sent & x & Hinv). pose proof (conn_size _ _ _ _ _ _ _ _ _ _ _ Hoa) as Hsz.
  destruct (peer_facts WA WB cfgA cfgB isnA isnB a b HWA Hok) as (_ & [Hpa _] & _).
  destruct (ack_received_spec _ _ _ _ (ackno (_header g)) (h_seq a) (win (_header g)) Hinv ltac:(lia)) as [Hinv1 Hpost].
  { constructor; [by rewrite (co_isn _ _ _ _ _ _ _ _ _ _ _ Hoa)|lia|lia]. } { apply (wo_win _ _ _ _ _ _ _ _ _ (Hwire g Hin)). }
  destruct (segment_received_inv _ _ _ Hc) as [[Er _]|(_ & r & Hr & [[En _]|(y & s & _ & Hf & ->)])]; [congruence|exfalso|].
  - pose proof (co_rcv _ _ _ _ _ _ _ _ _ _ _ Hoa) as Hra. apply ackno_set in En. apply (taken_pos WB isnB _ (cfg_recv _ _ _ HA) _ _ _ Hra Hp) in Hk.
    destruct (taken_grows WB isnA isnB _ HWB (cfg_w32 _ _ _ HB) (cfg_recv _ _ _ HA) _ _ _ g _ _ _ _ Hra Hp (Hwire g Hin) Hlim Hr) as (_ & Hset & _).
    specialize (Hset Hk). congruence.
  - rewrite Hack in Hf. destruct (segment_received_out (h_conn a) g r s) as (_ & Es & _).
    destruct (fill_window_spec _ _ _ _ Hinv1 ltac:(lia)) as (s2 & new & Hf2 & Hinv2 & Hfp & _ & Hfull). rewrite Hf in Hf2. injection Hf2 as <-.
    assert (forall P : TCPSender -> Prop, P (with_segments_out s []) -> P (_sender (try_clean_close (update_linger (send_segments (with_reply (h_conn a) g r s)))))) as Hs.
    { intros P HP. rewrite Es. by unfold with_reply; destruct (negb _); [destruct (segments_out s)|]. }
    cbn [h_conn]. unfold idle, out_end. cbn [h_conn]. apply (Hs (fun s => _set_fin s = true \/ _ < _next_seqno s \/
      _que (stream_in s) = [] /\ _end (stream_in s) = false /\ _next_seqno s < edge s)). cbn.
    pose proof (fo_next _ _ _ Hfp) as En. rewrite (ap_next _ _ _ _ Hpost) in En. pose proof (span_nonneg new).
    assert (edge s = h_seq a + Z.max 1 (win (_header g))) as Ee.
    { unfold edge. by rewrite (fo_ackno _ _ _ Hfp), (fo_win _ _ _ Hfp), (ap_ackno _ _ _ _ Hpost), (ap_win _ _ _ _ Hpost). }
    unfold edge in Hfull. rewrite (ap_ackno _ _ _ _ Hpost), (ap_win _ _ _ _ Hpost) in Hfull.
    destruct Hfull as [?|[?|[? ?]]]; [by left|right; left; lia|]. right. change (edge (with_segments_out s [])) with (edge s). rewrite Ee.
    unfold stream_in. cbn. destruct (Z.eq_dec (_next_seqno s) (h_seq a)); [right; split_and!; try done; lia|left; lia].
Qed.

(** The window filled with new data: the sequence numbers grow. *)
Lemma fill_grows s w sent x s' (w0 : bytes) : sinv s w sent x -> size w < 9223372036854775808 -> fill_window s = Ok s' ->
  1 <= _next_seqno s < edge s -> _next_seqno s = 1 + size w0 -> size w0 < size w \/ size w0 = size w /\ _end (_stream s) = true ->
  _next_seqno s < _next_seqno s'.
Proof.
  intros Hinv Hw Hf Hn En Hmore. destruct (fill_window_spec _ _ _ _ Hinv Hw) as (s2 & new & Hf2 & Hinv2 & Hfp & _ & Hfull).
  rewrite Hf in Hf2. injection Hf2 as <-. pose proof (fo_next _ _ _ Hfp) as En'. pose proof (span_nonneg new). pose proof (fo_end _ _ _ Hfp) as Ee.
  pose proof (sinv_next _ _ _ _ Hinv2 ltac:(lia)) as Hnext. destruct Hfull as [Hfin|[?|[Hq Hend]]]; [|lia|].
  - destruct (si_fin _ _ _ _ Hinv2 Hfin) as (_ & Hq & _). rewrite Hfin, Hq, size_nil in Hnext. lia.
  - rewrite Hq, size_nil in Hnext. destruct Hmore as [?|[_ Hy]]; [|congruence]. destruct (_set_fin s'); lia.
Qed.

(** The application gives an idle sender the next byte, or the end of the stream. *)
Lemma push a b : live (a, b) -> 1 <= h_seq a -> idle a -> exists a', net_step WA WB (a, b) (a', b) /\ h_seq a < h_seq a'.
Proof.
  intros Hl H1 (Hq & Hend & Hedge). pose proof (lv_ok _ Hl) as Hok. unfold out_end in Hend.
  destruct (net_ok_calls WA WB cfgA cfgB rA rB isnA isnB HWA HWB HA HB a b Hok) as (_ & Hwr & Hen & _).
  pose proof (ho_conn _ _ _ _ _ _ _ _ _ (proj1 Hok)) as Hoa. cbn [fst] in Hoa. destruct (co_snd _ _ _ _ _ _ _ _ _ _ _ Hoa) as (sent & x & Hinv).
  pose proof (conn_size _ _ _ _ _ _ _ _ _ _ _ Hoa) as Hsz. pose proof (co_pre _ _ _ _ _ _ _ _ _ _ _ Hoa) as Hpre.
  pose proof (sinv_next _ _ _ _ Hinv ltac:(lia)) as Hnext. unfold stream_in in *. rewrite Hq, size_nil in Hnext. pose proof (size_nonneg (h_written a)).
  assert (h_fin a = false) as Hf by (destruct (h_fin a) eqn:E; [destruct (si_fin _ _ _ _ Hinv E); congruence|done]). rewrite Hf in Hnext.
  destruct (Z.eq_dec (size (h_written a)) (size WA)) as [E|Hne].
  - assert (h_written a = WA) as Ew by (rewrite Hpre, E; by apply ztake_all). destruct (Hen Ew) as (c & Hc).
    exists (mkHost c (h_written a) (h_read a) (h_wire a)). split; [by apply net_a, hs_end|]. cbn [h_conn].
    unfold end_input_stream in Hc. apply rbind_ok_inv in Hc as (s & Hfill & [= <-]). cbn.
    apply (fill_grows _ _ _ _ s (h_written a) (sinv_end _ _ _ _ Hinv)); cbn; [lia|done|done|lia|by right].
  - set (data := slice WA (size (h_written a)) 1). assert (size data = 1) as Ed by (apply size_slice; lia).
    destruct (Hwr data Hend) as ([c n] & Hc); [by rewrite Ed|].
    exists (mkHost c (h_written a ++ ztake n data) (h_read a) (h_wire a)). split; [apply net_a, hs_write; [done|by rewrite Ed|done]|]. cbn [h_conn].
    unfold write in Hc. destruct (ByteStream.write _ data) as [st m] eqn:Est. apply rbind_ok_inv in Hc as (s & Hfill & [= <- <-]).
    assert (m = 1) as ->.
    { injection Est as _ <-. pose proof (si_stream _ _ _ _ Hinv) as [_ Hroom _ _ _ _]. rewrite Hq, size_nil in Hroom.
      pose proof (lv_room_a _ Hl) as Hcap. cbn in Hcap. unfold stream_in in *. lia. }
    match goal with |- context [try_clean_close ?c] => destruct (close_keeps c) as (-> & _) end. cbn.
    pose proof (sinv_write _ _ _ _ data Hinv Hend) as Hinv'. unfold stream_in in Est. rewrite Est in Hinv'. cbn in Hinv'.
    assert (size (h_written a ++ ztake 1 data) = size (h_written a) + 1) as Es by (rewrite size_app, size_ztake by lia; lia).
    apply (fill_grows _ _ _ _ s (h_written a) Hinv'); cbn; [lia|done|done|lia|lia].
Qed.

(** One round: what has been sent is taken in and acknowledged, and more is sent. *)
Lemma round a b : live (a, b) -> 1 <= got a -> exists a' b', steps (a, b) (a', b') /\ (h_fin a' = true \/ h_seq a < h_seq a').
Proof.
  intros Hl Hk. destruct (catch_up a b Hl) as (a1 & b1 & Hs1 & H1 & Eg & Ek & Hall). destruct (live_steps _ _ Hs1 Hl) as [Hl1 Hlt1].
  pose proof (lt_seq_a _ _ Hlt1) as Hle1. cbn in Hle1. destruct (Hall 0 ltac:(lia)) as (seg & Hin & Hh).
  destruct (answer a1 b1 seg Hl1 Hin Hh Eg H1) as (b2 & g & Hs2 & Hg & Hn & Hack & Eack). destruct (live_steps _ _ Hs2 Hl1) as [Hl2 _].
  destruct (heed a1 b2 g Hl2 ltac:(lia) Hg Hn Hack Eack) as (a2 & Hs3 & Hcase). destruct (live_step _ _ Hs3 Hl2) as [Hl3 Hlt3].
  pose proof (lt_seq_a _ _ Hlt3) as Hle3. cbn in Hle3.
  assert (steps (a, b) (a2, b2)) as Hs by (transitivity (a1, b1); [done|]; transitivity (a1, b2); [done|by apply rtc_once]).
  destruct Hcase as [Hf|[Hgt|Hidle]].
  - exists a2, b2. auto.
  - exists a2, b2. split; [done|right; lia].
  - destruct (push a2 b2 Hl3 ltac:(lia) Hidle) as (a3 & Hs4 & Hgt). exists a3, b2. split; [by eapply rtc_r|right; lia].
Qed.

(** The whole stream of [a] has been sent. *)
Lemma send_all n a b : live (a, b) -> 1 <= got a -> size WA + 2 - h_seq a <= Z.of_nat n ->
  exists a' b', steps (a, b) (a', b') /\ h_seq a' = size WA + 2.
Proof.
  revert a b. induction n as [|n IH]; intros a b Hl Hk Hn; destruct (peer_facts WA WB cfgA cfgB isnA isnB a b HWA (lv_ok _ Hl)) as (_ & [Hp Hpf] & _).
  - exists a, b. split; [apply rtc_refl|lia].
  - destruct (round a b Hl Hk) as (a1 & b1 & Hs1 & Hcase). destruct (live_steps _ _ Hs1 Hl) as [Hl1 Hlt1]. pose proof (lt_taken_a _ _ Hlt1) as Hk1. cbn in Hk1.
    destruct (peer_facts WA WB cfgA cfgB isnA isnB a1 b1 HWA (lv_ok _ Hl1)) as (_ & [_ Hpf1] & _).
    destruct Hcase as [Hf|Hgt]; [exists a1, b1; auto|].
    destruct (IH a1 b1 Hl1 ltac:(lia) ltac:(lia)) as (a' & b' & Hs & E). exists a', b'. split; [by transitivity (a1, b1)|done].
Qed.

(** The whole stream of [a] has been taken in by [b], once [a] has had the SYN of [b]. *)
Lemma deliver_all a b : live (a, b) -> 1 <= got a -> exists a' b', steps (a, b) (a', b') /\ got b' = size WA + 2.
Proof.
  intros Hl Hk. destruct (send_all (Z.to_nat (size WA + 2 - h_seq a)) a b Hl Hk ltac:(lia)) as (a1 & b1 & Hs1 & E1).
  destruct (live_steps _ _ Hs1 Hl) as [Hl1 _]. destruct (catch_up a1 b1 Hl1) as (a' & b' & Hs2 & _ & Eg & _ & _).
  destruct (live_steps _ _ Hs2 Hl1) as [Hl2 Hlt2]. pose proof (lt_seq_a _ _ Hlt2) as Hle. cbn in Hle.
  destruct (peer_facts WA WB cfgA cfgB isnA isnB a' b' HWA (lv_ok _ Hl2)) as (_ & [Hp _] & _).
  exists a', b'. split; [by transitivity (a1, b1)|lia].
Qed.
End recovery.

Lemma net_step_swap WA WB a b a' b' : net_step WA WB (a, b) (a', b') -> net_step WB WA (b, a) (b', a').
Proof. intros H. inversion H; subst; by constructor. Qed.

Lemma net_steps_swap WA WB a b a' b' : rtc (net_step WA WB) (a, b) (a', b') -> rtc (net_step WB WA) (b, a) (b', a').
Proof.
  intros H. change (rtc (net_step WB WA) (snd (a, b), fst (a, b)) (snd (a', b'), fst (a', b'))).
  induction H as [x|[a1 b1] [a2 b2] z Hs _ IH]; [apply rtc_refl|]. eapply rtc_l; [by apply net_step_swap|exact IH].
Qed.

Lemma live_swap WA WB cfgA cfgB isnA isnB a b : live WA WB cfgA cfgB isnA isnB (a, b) -> live WB WA cfgB cfgA isnB isnA (b, a).
Proof. intros []. constructor; try done. by apply net_ok_swap. Qed.

(** ** A sender that waits for ever *)

(** Nothing is unacknowledged, the timer is off, and the window seems full. *)
Record stuck (c : TCPConnection) : Prop := {
  sk_wait : unacked c = [];
  sk_queue : segments_out (_sender c) = [];
  sk_out : out c = [];
  sk_timer : TCPSender.active (_timer (_sender c)) = false /\ expired (_timer (_sender c)) = false;
  sk_num : retries c <= MAX_RETX_ATTEMPTS;
  sk_full : _set_fin (_sender c) = true \/ right_edge (_sender c) <= seqnos c
}.

(** Whatever is written, nothing is sent. *)
Lemma stuck_fill c st c1 : stuck c -> (let! s := fill_window (with_stream (_sender c) st) in Ok (send_segments (set_sender c s))) = Ok c1 -> stuck c1.
Proof.
  intros Hs. assert (fill_window (with_stream (_sender c) st) = Ok (with_stream (_sender c) st)) as ->.
  { unfold fill_window. cbn [_set_fin with_stream]. destruct (_set_fin (_sender c)) eqn:Ef; [done|].
    destruct (sk_full _ Hs) as [?|Hle]; [congruence|]. change (right_edge (with_stream (_sender c) st)) with (right_edge (_sender c)).
    cbn [_next_seqno with_stream]. destruct (Z.leb_spec (right_edge (_sender c)) (seqnos c)); [done|lia]. }
  cbn [rbind]. intros [= <-]. destruct Hs as [Hw Hq Ho Ht Hn Hf]. unfold segments_out in *.
  constructor; cbn; try done. by rewrite Hq.
Qed.

Lemma stuck_close c : stuck c -> stuck (try_clean_close c).
Proof. destruct (try_clean_close_spec c) as [[b ->] _]. intros []. by constructor. Qed.

Lemma stuck_step W h h' : host_step W [] h h' -> stuck (h_conn h) -> stuck (h_conn h') /\ h_wire h' = h_wire h.
Proof.
  intros Hstep Hs. destruct Hstep as [h data c' n He Hd Hw|h c' Hw He|h c' Hc|h ms Hms|h len Hl|h q1 q2 E|h seg c' Hin _]; cbn.
  - split; [|done]. unfold write in Hw. destruct (ByteStream.write _ data) as [st m]. apply rbind_ok_inv in Hw as (s & Hf & [= <- <-]).
    apply stuck_close, (stuck_fill (h_conn h) st); [done|]. cbn in Hf. by rewrite Hf.
  - split; [|done]. unfold end_input_stream in He. apply rbind_ok_inv in He as (s & Hf & [= <-]).
    apply (stuck_fill (h_conn h) (end_input (stream_in (_sender (h_conn h))))); [done|]. cbn in Hf. by rewrite Hf.
  - split; [|done]. apply (stuck_fill (h_conn h) (stream_in (_sender (h_conn h)))); [done|]. unfold connect in Hc. by destruct (_sender (h_conn h)).
  - split; [|done]. destruct Hs as [Hw Hq Ho [Ht He] Hn Hf]. unfold tick, TCPSender.tick, timer_tictoc, isexpired, consecutive_retransmissions, segments_out in *.
    rewrite Ht, He. cbn. destruct (Z.ltb_spec MAX_RETX_ATTEMPTS (retries (h_conn h))); [lia|].
    apply stuck_close. constructor; cbn; try done. by rewrite Hq.
  - split; [|done]. destruct Hs. by constructor.
  - pose proof (sk_out _ Hs) as Ho. rewrite Ho in E. symmetry in E. apply app_eq_nil in E as [-> ->]. rewrite app_nil_r. split; [|done].
    destruct Hs. by constructor.
  - by apply not_elem_of_nil in Hin.
Qed.

Lemma stuck_steps W h h' : rtc (host_step W []) h h' -> stuck (h_conn h) -> h_wire h' = h_wire h /\ out (h_conn h') = [].
Proof.
  intros Hr. induction Hr as [h|h h1 h' Hs _ IH]; intros Hk; [split; [done|apply Hk]|].
  destruct (stuck_step W h h1 Hs Hk) as [Hk1 E]. destruct (IH Hk1) as [-> ?]. done.
Qed.

(** *** When acknowledgments arrive in order

    A step of a sender whose acknowledgment number does not go back. *)
Definition ordered_step (x y : TCPSender * bytes) : Prop := snd_step x y /\ _ackno (fst x) <= _ackno (fst y).

Definition ordered_reachable (capacity retx : Z) (isn : WrappingInt32) (s : TCPSender) (w : bytes) : Prop :=
  rtc ordered_step (construct_sender capacity retx (Some isn) 0, []) (s, w).

(** Everything acknowledged means that the last acknowledgment was of everything. *)
Definition at_edge (s : TCPSender) : Prop := _wait_ack s = [] -> _ackno s = _next_seqno s.

Lemma at_edge_step x y : ordered_step x y -> size (snd x) < 9223372036854775808 -> (exists sent a, sinv (fst x) (snd x) sent a) ->
  at_edge (fst x) -> at_edge (fst y).
Proof.
  intros [Hs Hle] Hw (sent & a & Hinv) He. unfold at_edge in *. destruct Hs as [| |s w s' Hf|s w ackno k win Hk Hwin|s w ms Hms| |]; simpl in *; try exact He.
  - destruct (fill_window_spec s w sent a Hinv Hw) as (s2 & new & Hf2 & _ & Hp & _). rewrite Hf in Hf2. injection Hf2 as <-.
    rewrite (fo_wait _ _ _ Hp), (fo_ackno _ _ _ Hp), (fo_next _ _ _ Hp). intros [E ->]%app_eq_nil. simpl. rewrite (He E). lia.
  - destruct (ack_received_spec s w sent a ackno k win Hinv Hw Hk Hwin) as [_ Hp]. intros E.
    rewrite (ap_ackno _ _ _ _ Hp), (ap_next _ _ _ _ Hp) in *. pose proof (ak_sent _ _ _ Hk).
    destruct (ap_popped _ _ _ _ Hp) as (popped & Ew & Hpop & _). rewrite E, app_nil_r in *.
    destruct popped as [|seg popped]; [specialize (He Ew); lia|]. specialize (Hpop ltac:(done)). simpl in Hpop. lia.
  - destruct (tick_keeps s ms) as (En & _). rewrite En, sender_tick_ackno. unfold TCPSender.tick. by repeat case_match.
Qed.

(** While acknowledgments arrive in order, a sender that has filled its window has
    something on its way, with the timer running, unless it has sent all it was given. *)
Lemma ordered_acks_keep_moving capacity retx isn s w s' : is_u64 capacity -> is_u16 retx -> size w < 9223372036854775808 ->
  ordered_reachable capacity retx isn s w -> fill_window s = Ok s' ->
  started (_timer s') = true \/ _set_fin s' = true \/ (_que (_stream s') = [] /\ _end (_stream s') = false).
Proof.
  intros Hc Hr Hw Hreach Hf.
  assert (forall z, rtc ordered_step (construct_sender capacity retx (Some isn) 0, []) z -> size (snd z) < 9223372036854775808 ->
    at_edge (fst z) /\ exists sent a, sinv (fst z) (snd z) sent a) as Hall.
  { intros z Hz. pattern z. refine (rtc_ind_r _ _ _ _ _ Hz); clear z Hz; simpl.
    - intros _. split; [done|]. exists [], 0. by apply sinv_construct.
    - intros y z _ Hs IH Hz. pose proof (snd_step_grows y z (proj1 Hs)). destruct IH as [He Hinv]; [lia|].
      split; [apply (at_edge_step y z); [done|lia|done|done]|]. apply (snd_step_inv y z (proj1 Hs)); [lia|done]. }
  destruct (Hall (s, w) Hreach Hw) as [He (sent & a & Hinv)]. simpl in *.
  assert (at_edge s') as He' by (apply (at_edge_step (s, w) (s', w)); eauto; split; [by apply snd_fill|]; simpl; by rewrite (fill_window_ackno s s' Hf)).
  destruct (fill_window_spec s w sent a Hinv Hw) as (s2 & new & Hf2 & Hinv2 & Hp & _ & Hfull). rewrite Hf in Hf2. injection Hf2 as <-.
  pose proof (tm_active _ _ _ (si_timer _ _ _ _ Hinv2)) as Ht. unfold started. rewrite Ht.
  destruct (_wait_ack s') as [|seg q] eqn:Ew; [right|by left]. destruct Hfull as [?|[Hle|?]]; [by left| |by right].
  unfold edge in Hle. rewrite <- (fo_ackno _ _ _ Hp), (He' Ew) in Hle. lia.
Qed.

(** *** A run *)

Inductive move : Type :=
| MConnect | MTransmit | MReceive (n : nat) | MWrite (data : bytes) | MEnd | MRead (len : Z).

Definition act (W : bytes) (peer : list TCPSegment) (h : host) (m : move) : option host :=
  let keep c := Some (mkHost c (h_written h) (h_read h) (h_wire h)) in
  match m with
  | MConnect => match connect (h_conn h) with Ok c => keep c | Throw _ => None end
  | MTransmit => Some (mkHost (set_out (h_conn h) []) (h_written h) (h_read h) (h_wire h ++ out (h_conn h)))
  | MReceive n =>
      match peer !! n with
      | Some seg => match segment_received (h_conn h) seg with Ok c => keep c | Throw _ => None end
      | None => None
      end
  | MWrite data =>
      if negb (out_end (h_conn h)) && bool_decide (data = slice W (size (h_written h)) (size data)) then
        match write (h_conn h) data with
        | Ok (c, n) => Some (mkHost c (h_written h ++ ztake n data) (h_read h) (h_wire h))
        | Throw _ => None
        end
      else None
  | MEnd => if bool_decide (h_written h = W) then match end_input_stream (h_conn h) with Ok c => keep c | Throw _ => None end else None
  | MRead len =>
      if (0 <=? len) && (len <? 18446744073709551616) then
        let '(st, data) := ByteStream.read (inbound_stream (h_conn h)) len in
        Some (mkHost (set_receiver (h_conn h) (with_stream_out (_receiver (h_conn h)) st)) (h_written h) (h_read h ++ data) (h_wire h))
      else None
  end.

Lemma act_step W peer h m h' : act W peer h m = Some h' -> host_step W peer h h'.
Proof.
  destruct m; cbn [act].
  - destruct (connect _) as [c|] eqn:E; [|done]. intros [= <-]. by apply hs_connect.
  - intros [= <-]. apply hs_transmit. by rewrite app_nil_r.
  - destruct (peer !! n) as [seg|] eqn:En; [|done]. destruct (segment_received _ _) as [c|] eqn:E; [|done]. intros [= <-].
    by eapply hs_receive; [eapply list_elem_of_lookup_2|].
  - destruct (negb _ && _) eqn:Eb; [|done]. apply andb_true_iff in Eb as [Ee%negb_true_iff Ed%bool_decide_eq_true].
    destruct (write _ _) as [[c n]|] eqn:E; [|done]. intros [= <-]. by apply hs_write.
  - destruct (bool_decide _) eqn:Eb; [|done]. apply bool_decide_eq_true in Eb. destruct (end_input_stream _) as [c|] eqn:E; [|done].
    intros [= <-]. by apply hs_end.
  - destruct (_ && _) eqn:Eb; [|done]. apply andb_true_iff in Eb as [?%Z.leb_le ?%Z.ltb_lt]. intros [= <-]. by apply hs_read.
Qed.

(** The moves of A ([true]) and of B. *)
Fixpoint run (WA WB : bytes) (moves : list (bool * move)) (a b : host) : option (host * host) :=
  match moves with
  | [] => Some (a, b)
  | (true, m) :: moves => match act WA (h_wire b) a m with Some a' => run WA WB moves a' b | None => None end
  | (false, m) :: moves => match act WB (h_wire a) b m with Some b' => run WA WB moves a b' | None => None end
  end.

Lemma moves_reach WA WB moves a b x : run WA WB moves a b = Some x -> rtc (net_step WA WB) (a, b) x.
Proof.
  revert a b. induction moves as [|[[] m] moves IH]; intros a b; cbn [run]; [by intros [= <-]| |].
  - destruct (act WA _ a m) as [a'|] eqn:E; [|done]. intros H%IH. eapply rtc_l; [|exact H]. by eapply net_a, act_step.
  - destruct (act WB _ b m) as [b'|] eqn:E; [|done]. intros H%IH. eapply rtc_l; [|exact H]. by eapply net_b, act_step.
Qed.

Definition small_config (isn capacity : Z) : TCPConfig := mkTCPConfig 1000 capacity 64000 (Some (mkWrappingInt32 isn)).

Lemma small_config_ok isn capacity : is_u32 isn -> 1 <= capacity < 2147483647 -> config_ok (small_config isn capacity) 0 (mkWrappingInt32 isn).
Proof. intros. constructor; try done; simpl; unfold is_u64, is_u16; lia. Qed.

(** A run in which two acknowledgments change places: B has room for two bytes; A has
    sent a byte, then another; the acknowledgment of both arrives, then that of the
    first.  Every segment is delivered exactly once. *)
Definition swapped_acks : list (bool * move) :=
  [(true, MConnect); (true, MTransmit); (false, MReceive 0); (false, MTransmit); (true, MReceive 0); (true, MTransmit);
   (false, MEnd); (false, MReceive 1); (false, MTransmit); (true, MReceive 1); (true, MTransmit); (false, MReceive 2);
   (true, MWrite [x61]); (true, MTransmit); (true, MWrite [x62]); (true, MTransmit);
   (false, MReceive 3); (false, MReceive 4); (false, MTransmit); (true, MReceive 3); (true, MReceive 2);
   (true, MWrite [x63]); (false, MRead 2)].

Lemma stale_run : exists a b, net_reachable [x61; x62; x63] [] (small_config 5 64000) (small_config 9 2) 0 0 a b /\
  stuck (h_conn a) /\ stuck (h_conn b) /\ h_written a = [x61; x62; x63] /\ h_read b = [x61; x62].
Proof.
  eexists _, _. split; [apply (moves_reach _ _ swapped_acks); vm_compute; reflexivity|].
  split_and!; [constructor; vm_compute; (done || by right)|constructor; vm_compute; (done || by left)|done|done].
Qed.

(** The two stuck hosts stay so until a segment is delivered to one of them. *)
Lemma stale_ack_stalls : exists a b, net_reachable [x61; x62; x63] [] (small_config 5 64000) (small_config 9 2) 0 0 a b /\
  h_written a = [x61; x62; x63] /\ h_read b = [x61; x62] /\
  (forall a', rtc (host_step [x61; x62; x63] []) a a' -> h_wire a' = h_wire a /\ out (h_conn a') = []) /\
  (forall b', rtc (host_step [] []) b b' -> h_wire b' = h_wire b /\ out (h_conn b') = []).
Proof.
  destruct stale_run as (a & b & Hr & Ha & Hb & Hw & Hrd). exists a, b. split_and!; try done.
  - intros a' H. by apply (stuck_steps _ _ _ H).
  - intros b' H. by apply (stuck_steps _ _ _ H).
Qed.

(** ** Properties *)

(** C3: No state of an exchange is a dead end.  From every state that two
    connections can reach, whatever has been lost, repeated, delayed or reordered on
    the way, there is a continuation after which each application has read the whole
    stream of the other, and its end: the applications go on writing and reading, and
    the network delivers segments it has been given, be it again. *)
Theorem exchange_can_complete WA WB cfgA cfgB rA rB isnA isnB a b :
  size WA < 2147400000 -> size WB < 2147400000 -> config_ok cfgA rA isnA -> config_ok cfgB rB isnB ->
  1 <= send_capacity cfgA -> 1 <= send_capacity cfgB -> net_reachable WA WB cfgA cfgB rA rB a b ->
  exists a' b', rtc (net_step WA WB) (a, b) (a', b') /\
    h_read b' = WA /\ eof (inbound_stream (h_conn b')) = true /\
    h_read a' = WB /\ eof (inbound_stream (h_conn a')) = true.
Proof.
  intros HWA HWB HA HB Hca Hcb Hreach.
  pose proof (live_steps WA WB cfgA cfgB rA rB isnA isnB HWA HWB HA HB) as Hlive.
  destruct (Hlive _ _ Hreach (live_start WA WB cfgA cfgB rA rB isnA isnB HWA HWB HA HB Hca Hcb)) as [Hl _].
  destruct (catch_up WB WA cfgB cfgA rB rA isnB isnA HWB HWA HB HA b a (live_swap _ _ _ _ _ _ _ _ Hl)) as (b1 & a1 & Hs1%net_steps_swap & H1 & Eg1 & _).
  destruct (Hlive _ _ Hs1 Hl) as [Hl1 _].
  destruct (deliver_all WA WB cfgA cfgB rA rB isnA isnB HWA HWB HA HB a1 b1 Hl1 ltac:(lia)) as (a2 & b2 & Hs2 & Eg2). destruct (Hlive _ _ Hs2 Hl1) as [Hl2 _].
  pose proof (size_nonneg WA).
  destruct (deliver_all WB WA cfgB cfgA rB rA isnB isnA HWB HWA HB HA b2 a2 (live_swap _ _ _ _ _ _ _ _ Hl2) ltac:(lia)) as (b3 & a3 & Hs3%net_steps_swap & Eg3).
  destruct (Hlive _ _ Hs3 Hl2) as [Hl3 Hlt3]. pose proof (lt_taken_b _ _ Hlt3) as Hle3. cbn in Hle3.
  destruct (peer_facts WA WB cfgA cfgB isnA isnB a3 b3 HWA (lv_ok _ _ _ _ _ _ _ Hl3)) as (Hob & Hp & _).
  pose proof (taken_bounds WA isnA _ (cfg_recv _ _ _ HB) _ _ _ (co_rcv _ _ _ _ _ _ _ _ _ _ _ Hob) Hp) as Ht. destruct Hp as [Hp _].
  destruct (read_all WA WB cfgA cfgB rA rB isnA isnB HWA HWB HA HB a3 b3 Hl3) as (b4 & Hs4 & _ & _ & Hb4). destruct Hb4 as [Eb Heb]; [lia|].
  destruct (Hlive _ _ (rtc_once _ _ Hs4) Hl3) as [Hl4 _].
  destruct (read_all WB WA cfgB cfgA rB rA isnB isnA HWB HWA HB HA b4 a3 (live_swap _ _ _ _ _ _ _ _ Hl4)) as (a4 & Hs5%net_step_swap & _ & _ & Ha4).
  destruct (Ha4 Eg3) as [Ea Hea]. exists a4, b4. split_and!; try done.
  transitivity (a1, b1); [done|]. transitivity (a2, b2); [done|]. transitivity (a3, b3); [done|]. eapply rtc_l; [exact Hs4|]. by apply rtc_once.
Qed.

Lemma exchange_can_complete_witness : exists a b a' b', net_reachable [x61; x62; x63] [] (small_config 5 64000) (small_config 9 2) 0 0 a b /\
  h_read b = [x61; x62] /\ rtc (net_step [x61; x62; x63] []) (a, b) (a', b') /\ h_read b' = [x61; x62; x63].
Proof.
  destruct stale_run as (a & b & Hr & _ & _ & _ & Hrd).
  destruct (exchange_can_complete [x61; x62; x63] [] (small_config 5 64000) (small_config 9 2) 0 0 (mkWrappingInt32 5) (mkWrappingInt32 9) a b)
    as (a' & b' & Hs & Hb & _); [by vm_compute|by vm_compute|apply small_config_ok; unfold is_u32; lia|apply small_config_ok; unfold is_u32; lia
    |by vm_compute|by vm_compute|exact Hr|]. by exists a, b, a', b'.
Defined.
