(* ===== verification/CommandLine.v ===== *)
(** * CommandLine: the options of the TCP programs

    Models [check_argc] and [get_config] of [apps/tcp_ipv4.cc], [apps/tcp_udp.cc] and
    [apps/tcp_ip_ethernet.cc].  The arguments are a list of strings; [argv[i]] outside
    of it is [OutOfBounds].  Leaving the program by [exit] is a result of its own, with
    the status and the message the usage text is shown with (the text is left out).
    The constructor of addresses and the conversion of a loss rate (through [float])
    are parameters. *)

From Stdlib Require Import Strings.String Strings.Ascii.
From S2P Require Import Prelude TCPSegment Adapters Address.

(** ** Programs that may exit *)

Inductive program (A : Type) : Type :=
| Returns (a : A)
| Exits (status : Z) (message : option string)
| Fails (e : exn).
Arguments Returns {A}.
Arguments Exits {A}.
Arguments Fails {A}.

Definition pbind {A B : Type} (m : program A) (k : A -> program B) : program B :=
  match m with
  | Returns a => k a
  | Exits status message => Exits status message
  | Fails e => Fails e
  end.

Notation "'let?' x ':=' m 'in' k" := (pbind m (fun x => k))
  (at level 10, x pattern, m at level 100, k at level 200)
  : sponge_scope.

Definition of_result {A : Type} (r : result A) : program A :=
  match r with
  | Ok a => Returns a
  | Throw e => Fails e
  end.

(** ** The C library *)

(** [strncmp(s, t, n) == 0] *)
Fixpoint strneq (n : nat) (s t : string) : bool :=
  match n with
  | O => true
  | S n =>
      match s, t with
      | EmptyString, EmptyString => true
      | String a s, String b t => Ascii.eqb a b && strneq n s t
      | _, _ => false
      end
  end.

(** The value of a digit in the bases up to 36. *)
Definition digit_value (c : ascii) : option Z :=
  let n := Z.of_N (N_of_ascii c) in
  if (48 <=? n) && (n <=? 57) then Some (n - 48)
  else if (97 <=? n) && (n <=? 122) then Some (n - 87)
  else if (65 <=? n) && (n <=? 90) then Some (n - 55)
  else None.

Definition digit_in (base : Z) (c : ascii) : option Z :=
  match digit_value c with
  | Some d => if d <? base then Some d else None
  | None => None
  end.

Fixpoint digits_in (base acc : Z) (s : string) : Z :=
  match s with
  | String c s' => match digit_in base c with Some d => digits_in base (base * acc + d) s' | None => acc end
  | EmptyString => acc
  end.

Definition LONG_MAX : Z := 9223372036854775807.
Definition LONG_MIN : Z := -9223372036854775808.

(** [strtol(s, nullptr, 0)]: the prefix 0x or 0 gives the base; the value saturates. *)
Definition strtol (s : string) : Z :=
  let '(neg, s) := match skip_spaces s with
                   | String "-"%char s' => (true, s')
                   | String "+"%char s' => (false, s')
                   | s => (false, s)
                   end in
  let v := match s with
           | String "0"%char (String x (String c s')) =>
               if (Ascii.eqb x "x" || Ascii.eqb x "X") && (match digit_in 16 c with Some _ => true | None => false end)
               then digits_in 16 0 (String c s') else digits_in 8 0 s
           | String "0"%char _ => digits_in 8 0 s
           | _ => digits_in 10 0 s
           end in
  Z.max LONG_MIN (Z.min LONG_MAX (if (neg : bool) then - v else v)).

(** ** Arguments *)

Definition argc (argv : list string) : Z := Z.of_nat (length argv).

Definition arg (argv : list string) (i : Z) : program string :=
  match argv !! Z.to_nat i with
  | Some s => if i <? 0 then Fails OutOfBounds else Returns s
  | None => Fails OutOfBounds
  end.

Definition check_argc (argv : list string) (curr : Z) (err : string) : program unit :=
  if argc argv <=? curr + 3 then Exits 1 (Some err) else Returns tt.

(** The local variables that the options set. *)
Record Options : Type := mkOptions {
  c_fsm : TCPConfig;
  opt_loss_up : Z;
  opt_loss_dn : Z;
  opt_listen : bool;
  source_address : string;
  source_port : string;
  next_hop_address : string;
  device : option string
}.

Definition set_listen (o : Options) : Options :=
  mkOptions (c_fsm o) (opt_loss_up o) (opt_loss_dn o) true (source_address o) (source_port o) (next_hop_address o) (device o).
Definition set_source_address (s : string) (o : Options) : Options :=
  mkOptions (c_fsm o) (opt_loss_up o) (opt_loss_dn o) (opt_listen o) s (source_port o) (next_hop_address o) (device o).
Definition set_source_port (s : string) (o : Options) : Options :=
  mkOptions (c_fsm o) (opt_loss_up o) (opt_loss_dn o) (opt_listen o) (source_address o) s (next_hop_address o) (device o).
Definition set_next_hop (s : string) (o : Options) : Options :=
  mkOptions (c_fsm o) (opt_loss_up o) (opt_loss_dn o) (opt_listen o) (source_address o) (source_port o) s (device o).
Definition set_device (s : string) (o : Options) : Options :=
  mkOptions (c_fsm o) (opt_loss_up o) (opt_loss_dn o) (opt_listen o) (source_address o) (source_port o) (next_hop_address o) (Some s).
Definition set_fsm (c : TCPConfig) (o : Options) : Options :=
  mkOptions c (opt_loss_up o) (opt_loss_dn o) (opt_listen o) (source_address o) (source_port o) (next_hop_address o) (device o).

(** [c_fsm.recv_capacity = strtol(...)] and [c_fsm.rt_timeout = strtol(...)], converted
    to [size_t] and [uint16_t]. *)
Definition set_recv_capacity (s : string) (o : Options) : Options :=
  let c := c_fsm o in set_fsm (mkTCPConfig (rt_timeout c) (u64 (strtol s)) (send_capacity c) (fixed_isn c)) o.
Definition set_rt_timeout (s : string) (o : Options) : Options :=
  let c := c_fsm o in set_fsm (mkTCPConfig (u16 (strtol s)) (recv_capacity c) (send_capacity c) (fixed_isn c)) o.

Section get_config.
(** [Address(hostname, service)], and the conversion of an argument to a loss rate. *)
Context {A : Type} `{AddressOps A} (address_of : string -> string -> result A) (loss_rate : string -> Z).

Definition set_loss_up (s : string) (o : Options) : Options :=
  mkOptions (c_fsm o) (loss_rate s) (opt_loss_dn o) (opt_listen o) (source_address o) (source_port o) (next_hop_address o) (device o).
Definition set_loss_dn (s : string) (o : Options) : Options :=
  mkOptions (c_fsm o) (opt_loss_up o) (loss_rate s) (opt_listen o) (source_address o) (source_port o) (next_hop_address o) (device o).

(** An option with one argument. *)
Definition with_value (argv : list string) (curr : Z) (err : string) (f : string -> Options -> Options) (o : Options)
    : program (Options * Z) :=
  let? _ := check_argc argv curr err in
  let? v := arg argv (curr + 1) in
  Returns (f v o, curr + 2).

(** The last two branches: help, and what is not an option. *)
Definition other_option (s : string) : program (Options * Z) :=
  if strneq 3 "-h" s then Exits 0 None
  else Exits 1 (Some ("ERROR: unrecognized option " ++ s)%string).

(** A turn of the loop of each program. *)
Definition ipv4_option (argv : list string) (curr : Z) (o : Options) : program (Options * Z) :=
  let? s := arg argv curr in
  if strneq 3 "-l" s then Returns (set_listen o, curr + 1)
  else if strneq 3 "-a" s then with_value argv curr "ERROR: -a requires one argument." set_source_address o
  else if strneq 3 "-s" s then with_value argv curr "ERROR: -s requires one argument." set_source_port o
  else if strneq 3 "-w" s then with_value argv curr "ERROR: -w requires one argument." set_recv_capacity o
  else if strneq 3 "-t" s then with_value argv curr "ERROR: -t requires one argument." set_rt_timeout o
  else if strneq 3 "-d" s then with_value argv curr "ERROR: -t requires one argument." set_device o
  else if strneq 3 "-Lu" s then with_value argv curr "ERROR: -Lu requires one argument." set_loss_up o
  else if strneq 3 "-Ld" s then with_value argv curr "ERROR: -Lu requires one argument." set_loss_dn o
  else other_option s.

Definition udp_option (argv : list string) (curr : Z) (o : Options) : program (Options * Z) :=
  let? s := arg argv curr in
  if strneq 3 "-l" s then Returns (set_listen o, curr + 1)
  else if strneq 3 "-w" s then with_value argv curr "ERROR: -w requires one argument." set_recv_capacity o
  else if strneq 3 "-t" s then with_value argv curr "ERROR: -t requires one argument." set_rt_timeout o
  else if strneq 3 "-Lu" s then with_value argv curr "ERROR: -Lu requires one argument." set_loss_up o
  else if strneq 3 "-Ld" s then with_value argv curr "ERROR: -Lu requires one argument." set_loss_dn o
  else other_option s.

Definition ethernet_option (argv : list string) (curr : Z) (o : Options) : program (Options * Z) :=
  let? s := arg argv curr in
  if strneq 3 "-a" s then with_value argv curr "ERROR: -a requires one argument." set_source_address o
  else if strneq 3 "-s" s then with_value argv curr "ERROR: -s requires one argument." set_source_port o
  else if strneq 3 "-n" s then with_value argv curr "ERROR: -n requires one argument." set_next_hop o
  else if strneq 3 "-w" s then with_value argv curr "ERROR: -w requires one argument." set_recv_capacity o
  else if strneq 3 "-t" s then with_value argv curr "ERROR: -t requires one argument." set_rt_timeout o
  else if strneq 3 "-d" s then with_value argv curr "ERROR: -t requires one argument." set_device o
  else other_option s.

(** [while (argc - curr > 2)] *)
Fixpoint parse_options (option : list string -> Z -> Options -> program (Options * Z)) (fuel : nat)
    (argv : list string) (curr : Z) (o : Options) : program (Options * Z) :=
  if 2 <? argc argv - curr then
    match fuel with
    | O => Fails OutOfFuel
    | S fuel =>
        let? (o, curr) := option argv curr o in
        parse_options option fuel argv curr o
    end
  else Returns (o, curr).

Definition no_options (source_address source_port next_hop_address : string) (device : option string) : Options :=
  mkOptions default_config 0 0 false source_address source_port next_hop_address device.

(** [FdAdapterConfig c_filt{}], with the loss rates of the options. *)
Definition filter_config (source destination : A) (o : Options) : FdAdapterConfig A :=
  mkFdAdapterConfig source destination (opt_loss_dn o) (opt_loss_up o).

(** *** [tcp_ipv4] *)

Definition TUN_DFLT : string := "tun144".
Definition IPV4_LOCAL_ADDRESS_DFLT : string := "169.254.144.9".

(** The positional arguments, read where they are used. *)
Definition ipv4_positional (o : Options) (host service : program string) : program (TCPConfig * FdAdapterConfig A * bool * option string) :=
  if opt_listen o then
    let? service := service in
    let? source := of_result (address_of "0" service) in
    if port source =? 0 then Exits 1 (Some "ERROR: listen port cannot be zero in server mode."%string)
    else Returns (c_fsm o, filter_config source (from_quad 0 0) o, true, device o)
  else
    let? host := host in
    let? service := service in
    let? destination := of_result (address_of host service) in
    let? source := of_result (address_of (source_address o) (source_port o)) in
    Returns (c_fsm o, filter_config source destination o, false, device o).

(** [random] is what the random device returned. *)
Definition ipv4_get_config (random : Z) (argv : list string) : program (TCPConfig * FdAdapterConfig A * bool * option string) :=
  let? (o, curr) := parse_options ipv4_option (length argv) argv 1
                      (no_options IPV4_LOCAL_ADDRESS_DFLT (to_string (u16 random)) "" None) in
  ipv4_positional o (arg argv curr) (arg argv (curr + 1)).

(** *** [tcp_udp] *)

Definition udp_positional (o : Options) (host service : program string) : program (TCPConfig * FdAdapterConfig A * bool) :=
  if opt_listen o then
    let? service := service in
    let? source := of_result (address_of "0" service) in
    Returns (c_fsm o, filter_config source (from_quad 0 0) o, true)
  else
    let? host := host in
    let? service := service in
    let? destination := of_result (address_of host service) in
    Returns (c_fsm o, filter_config (from_quad 0 0) destination o, false).

Definition udp_get_config (argv : list string) : program (TCPConfig * FdAdapterConfig A * bool) :=
  let? (o, curr) := parse_options udp_option (length argv) argv 1 (no_options "" "" "" None) in
  udp_positional o (arg argv (argc argv - 2)) (arg argv (argc argv - 1)).

(** *** [tcp_ip_ethernet] *)

Definition TAP_DFLT : string := "tap10".
Definition ETHERNET_LOCAL_ADDRESS_DFLT : string := "169.254.10.9".
Definition GATEWAY_DFLT : string := "169.254.10.1".

Definition ethernet_positional (o : Options) (host service : program string) : program (TCPConfig * FdAdapterConfig A * A * option string) :=
  let? host := host in
  let? service := service in
  let? destination := of_result (address_of host service) in
  let? source := of_result (address_of (source_address o) (source_port o)) in
  let? next_hop := of_result (address_of (next_hop_address o) "0") in
  Returns (c_fsm o, filter_config source destination o, next_hop, device o).

Definition ethernet_get_config (random : Z) (argv : list string) : program (TCPConfig * FdAdapterConfig A * A * option string) :=
  let? (o, curr) := parse_options ethernet_option (length argv) argv 1
                      (no_options ETHERNET_LOCAL_ADDRESS_DFLT (to_string (u16 random)) GATEWAY_DFLT (Some TAP_DFLT)) in
  ethernet_positional o (arg argv curr) (arg argv (curr + 1)).
End get_config.

(** ** The arguments read are there *)

Lemma arg_ok argv i : 0 <= i < argc argv -> exists s, arg argv i = Returns s /\ argv !! Z.to_nat i = Some s.
Proof.
  intros Hi. unfold arg, argc in *. destruct (argv !! Z.to_nat i) as [s|] eqn:E.
  - exists s. destruct (Z.ltb_spec i 0); [lia|done].
  - apply lookup_ge_None in E. lia.
Qed.

(** A turn of a loop exits, or goes on with an option fewer and the two positional
    arguments still to come. *)
Definition advances (option : list string -> Z -> Options -> program (Options * Z)) : Prop :=
  forall argv curr o, 0 <= curr -> 2 < argc argv - curr ->
    match option argv curr o with
    | Returns (_, curr') => curr < curr' /\ 2 <= argc argv - curr'
    | Exits _ _ => True
    | Fails _ => False
    end.

Lemma with_value_advances argv curr err f o : 0 <= curr -> 2 < argc argv - curr ->
  match with_value argv curr err f o with
  | Returns (_, curr') => curr < curr' /\ 2 <= argc argv - curr'
  | Exits _ _ => True
  | Fails _ => False
  end.
Proof.
  intros H0 Hc. unfold with_value, check_argc. destruct (Z.leb_spec (argc argv) (curr + 3)); [done|]. cbn [pbind].
  destruct (arg_ok argv (curr + 1)) as (s & -> & _); [lia|]. simpl. lia.
Qed.

Lemma other_advances s : match other_option s with Returns _ | Fails _ => False | Exits _ _ => True end.
Proof. unfold other_option. by destruct (strneq 3 "-h" s). Qed.

Ltac advance :=
  intros argv curr o H0 Hc;
  destruct (arg_ok argv curr) as (s & -> & _); [lia|]; cbn [pbind];
  repeat match goal with |- context [strneq 3 ?x s] => destruct (strneq 3 x s); [first [by apply with_value_advances | simpl; lia]|] end;
  pose proof (other_advances s); by destruct (other_option s).

Lemma ipv4_advances loss_rate : advances (ipv4_option loss_rate).
Proof. unfold advances, ipv4_option. advance. Qed.

Lemma udp_advances loss_rate : advances (udp_option loss_rate).
Proof. unfold advances, udp_option. advance. Qed.

Lemma ethernet_advances : advances ethernet_option.
Proof. unfold advances, ethernet_option. advance. Qed.

Lemma parse_options_ends option fuel argv curr o : advances option -> 0 <= curr -> 2 <= argc argv - curr <= Z.of_nat fuel ->
  match parse_options option fuel argv curr o with
  | Returns (_, curr') => curr' = argc argv - 2
  | Exits _ _ => True
  | Fails _ => False
  end.
Proof.
  intros Ha. revert curr o. induction fuel as [|fuel IH]; intros curr o H0 Hc; cbn [parse_options];
    (destruct (Z.ltb_spec 2 (argc argv - curr)); [|lia]); [lia|].
  specialize (Ha argv curr o H0 ltac:(lia)). destruct (option argv curr o) as [[o' curr']| |]; cbn [pbind]; [|done|done].
  apply IH; lia.
Qed.

(** ** What a command line means

    The reference: a command line is a list of options, and of those of one kind the
    last one counts. *)
Inductive opt : Type :=
| OListen
| OSourceAddress (s : string)
| OSourcePort (s : string)
| ONextHop (s : string)
| OWindow (s : string)
| OTimeout (s : string)
| ODevice (s : string)
| OLossUp (s : string)
| OLossDown (s : string).

#[export] Instance opt_eq_dec : EqDecision opt.
Proof. intros x y. unfold Decision. decide equality; apply String.string_dec. Defined.

Definition render (x : opt) : list string :=
  match x with
  | OListen => ["-l"]
  | OSourceAddress s => ["-a"; s]
  | OSourcePort s => ["-s"; s]
  | ONextHop s => ["-n"; s]
  | OWindow s => ["-w"; s]
  | OTimeout s => ["-t"; s]
  | ODevice s => ["-d"; s]
  | OLossUp s => ["-Lu"; s]
  | OLossDown s => ["-Ld"; s]
  end%string.

Definition command_line (opts : list opt) (host service : string) : list string :=
  concat (map render opts) ++ [host; service].

Definition for_ipv4 (x : opt) : bool := match x with ONextHop _ => false | _ => true end.
Definition for_udp (x : opt) : bool :=
  match x with OListen | OWindow _ | OTimeout _ | OLossUp _ | OLossDown _ => true | _ => false end.
Definition for_ethernet (x : opt) : bool :=
  match x with OListen | OLossUp _ | OLossDown _ => false | _ => true end.

(** The values given with the options of one kind, and the last of them. *)
Definition of_source_address (x : opt) : option string := match x with OSourceAddress s => Some s | _ => None end.
Definition of_source_port (x : opt) : option string := match x with OSourcePort s => Some s | _ => None end.
Definition of_next_hop (x : opt) : option string := match x with ONextHop s => Some s | _ => None end.
Definition of_window (x : opt) : option string := match x with OWindow s => Some s | _ => None end.
Definition of_timeout (x : opt) : option string := match x with OTimeout s => Some s | _ => None end.
Definition of_device (x : opt) : option string := match x with ODevice s => Some s | _ => None end.
Definition of_loss_up (x : opt) : option string := match x with OLossUp s => Some s | _ => None end.
Definition of_loss_down (x : opt) : option string := match x with OLossDown s => Some s | _ => None end.

Definition chosen (f : opt -> option string) (opts : list opt) : option string := last (omap f opts).

Lemma chosen_snoc f opts x : chosen f (opts ++ [x]) = match f x with Some v => Some v | None => chosen f opts end.
Proof.
  unfold chosen. rewrite omap_app. simpl. destruct (f x); [by rewrite last_snoc|by rewrite app_nil_r].
Qed.

Section meaning.
Context {A : Type} `{AddressOps A} (address_of : string -> string -> result A) (loss_rate : string -> Z).

(** What the options say of the two configurations.  Nothing is said of the window
    when no option gives it (see [usage_differs]). *)
Record denotes (opts : list opt) (c : TCPConfig) (f : FdAdapterConfig A) : Prop := {
  dn_timeout : rt_timeout c = default 1000 ((fun v => u16 (strtol v)) <$> chosen of_timeout opts);
  dn_window v : chosen of_window opts = Some v -> recv_capacity c = u64 (strtol v);
  dn_send : send_capacity c = 64000;
  dn_isn : fixed_isn c = None;
  dn_up : loss_rate_up f = default 0 (loss_rate <$> chosen of_loss_up opts);
  dn_dn : loss_rate_dn f = default 0 (loss_rate <$> chosen of_loss_down opts)
}.

Definition effect (x : opt) : Options -> Options :=
  match x with
  | OListen => set_listen
  | OSourceAddress s => set_source_address s
  | OSourcePort s => set_source_port s
  | ONextHop s => set_next_hop s
  | OWindow s => set_recv_capacity s
  | OTimeout s => set_rt_timeout s
  | ODevice s => set_device s
  | OLossUp s => set_loss_up loss_rate s
  | OLossDown s => set_loss_dn loss_rate s
  end.

Definition effects (opts : list opt) (o : Options) : Options := fold_left (fun o x => effect x o) opts o.

Lemma arg_at pre s rest i : i = Z.of_nat (length pre) -> arg (pre ++ s :: rest) i = Returns s.
Proof.
  intros ->. unfold arg. rewrite Nat2Z.id, lookup_app_r, Nat.sub_diag by done. simpl. by destruct (Z.ltb_spec (Z.of_nat (length pre)) 0); [lia|].
Qed.

Lemma with_value_at pre flag v rest err f o : (2 <= length rest)%nat ->
  with_value (pre ++ flag :: v :: rest) (Z.of_nat (length pre)) err f o = Returns (f v o, Z.of_nat (length pre) + 2).
Proof.
  intros Hr. unfold with_value, check_argc, argc. rewrite length_app. simpl.
  destruct (Z.leb_spec (Z.of_nat (length pre + S (S (length rest)))) (Z.of_nat (length pre) + 3)); [lia|]. cbn [pbind].
  change (flag :: v :: rest) with ([flag] ++ v :: rest). rewrite app_assoc, arg_at; [done|]. rewrite length_app. simpl. lia.
Qed.

(** A program reads the options it has. *)
Definition reads_options (option : list string -> Z -> Options -> program (Options * Z)) (accepts : opt -> bool) : Prop :=
  forall x pre rest o, accepts x = true -> (2 <= length rest)%nat ->
    option (pre ++ render x ++ rest) (Z.of_nat (length pre)) o = Returns (effect x o, Z.of_nat (length pre + length (render x))).

Ltac read_option :=
  let x := fresh in intros x pre rest o Ha Hr; destruct x; try discriminate Ha; cbn [render app];
  rewrite arg_at by done; cbn -[with_value Z.of_nat]; rewrite ?with_value_at by done;
  f_equal; f_equal; simpl; lia.

Lemma ipv4_reads : reads_options (ipv4_option loss_rate) for_ipv4.
Proof. unfold reads_options, ipv4_option. read_option. Qed.

Lemma udp_reads : reads_options (udp_option loss_rate) for_udp.
Proof. unfold reads_options, udp_option. read_option. Qed.

Lemma ethernet_reads : reads_options ethernet_option for_ethernet.
Proof. unfold reads_options, ethernet_option. read_option. Qed.

Lemma render_length x : (1 <= length (render x))%nat.
Proof. destruct x; simpl; lia. Qed.

Lemma parse_options_reads option accepts fuel pre opts host service o : reads_options option accepts ->
  Forall (fun x => accepts x = true) opts -> (length (concat (map render opts)) <= fuel)%nat ->
  parse_options option fuel (pre ++ command_line opts host service) (Z.of_nat (length pre)) o =
  Returns (effects opts o, Z.of_nat (length pre + length (concat (map render opts)))).
Proof.
  intros Hr. revert fuel pre o. induction opts as [|x opts IH]; intros fuel pre o Ha Hf; unfold command_line; simpl.
  - assert (argc (pre ++ [host; service]) - Z.of_nat (length pre) = 2) as E by (unfold argc; rewrite length_app; simpl; lia).
    destruct fuel; cbn [parse_options]; rewrite E; (apply (f_equal Returns), f_equal2; [done|simpl; lia]).
  - inversion Ha as [|? ? Hx Ho]; simplify_eq. simpl in Hf. rewrite length_app in Hf. pose proof (render_length x).
    destruct fuel as [|fuel]; [lia|]. cbn [parse_options]. rewrite <- app_assoc.
    destruct (Z.ltb_spec 2 (argc (pre ++ render x ++ concat (map render opts) ++ [host; service]) - Z.of_nat (length pre))) as [_|Hc].
    2:{ unfold argc in Hc. rewrite !length_app in Hc. simpl in Hc. lia. }
    rewrite Hr; [|done|rewrite length_app; simpl; lia]. cbn [pbind].
    specialize (IH fuel (pre ++ render x) (effect x o) Ho ltac:(lia)). unfold command_line in IH.
    rewrite <- app_assoc, !length_app in IH. rewrite IH. apply (f_equal Returns), f_equal2; [done|]. rewrite length_app. lia.
Qed.

(** The last two arguments, wherever the options end. *)
Lemma positional_args pre host service : let argv := pre ++ [host; service] in
  arg argv (Z.of_nat (length pre)) = Returns host /\ arg argv (Z.of_nat (length pre) + 1) = Returns service /\
  argc argv = Z.of_nat (length pre) + 2.
Proof.
  simpl. split_and!; [by apply arg_at| |unfold argc; rewrite length_app; simpl; lia].
  change [host; service] with ([host] ++ [service]). rewrite app_assoc, arg_at; [done|]. rewrite length_app. simpl. lia.
Qed.

(** The variables after the options. *)
Record read_as (opts : list opt) (o o' : Options) : Prop := {
  ra_listen : opt_listen o' = opt_listen o || bool_decide (OListen ∈ opts);
  ra_source_address : source_address o' = default (source_address o) (chosen of_source_address opts);
  ra_source_port : source_port o' = default (source_port o) (chosen of_source_port opts);
  ra_next_hop : next_hop_address o' = default (next_hop_address o) (chosen of_next_hop opts);
  ra_device : device o' = match chosen of_device opts with Some d => Some d | None => device o end;
  ra_timeout : rt_timeout (c_fsm o') = default (rt_timeout (c_fsm o)) ((fun v => u16 (strtol v)) <$> chosen of_timeout opts);
  ra_window : recv_capacity (c_fsm o') = default (recv_capacity (c_fsm o)) ((fun v => u64 (strtol v)) <$> chosen of_window opts);
  ra_send : send_capacity (c_fsm o') = send_capacity (c_fsm o);
  ra_isn : fixed_isn (c_fsm o') = fixed_isn (c_fsm o);
  ra_up : opt_loss_up o' = default (opt_loss_up o) (loss_rate <$> chosen of_loss_up opts);
  ra_dn : opt_loss_dn o' = default (opt_loss_dn o) (loss_rate <$> chosen of_loss_down opts)
}.

Lemma effects_read opts o : read_as opts o (effects opts o).
Proof.
  induction opts as [|x opts IH] using rev_ind; [constructor; cbn; by rewrite ?orb_false_r|].
  unfold effects in *. rewrite fold_left_app. cbn [fold_left]. set (o' := fold_left _ opts o) in *. destruct IH.
  assert (bool_decide (OListen ∈ opts ++ [x]) = bool_decide (OListen ∈ opts) || bool_decide (OListen = x)) as Hl.
  { rewrite <- bool_decide_or. apply bool_decide_ext. by rewrite elem_of_app, list_elem_of_singleton. }
  constructor; rewrite ?chosen_snoc, ?Hl; destruct x; cbn; rewrite ?orb_false_r, ?orb_true_r; try done.
Qed.

Lemma denotes_read opts a p n d f : let o := effects opts (no_options a p n d) in
  loss_rate_up f = opt_loss_up o -> loss_rate_dn f = opt_loss_dn o -> denotes opts (c_fsm o) f.
Proof.
  intros o Hu Hd. pose proof (effects_read opts (no_options a p n d)) as R. fold o in R. destruct R.
  constructor; rewrite ?Hu, ?Hd; try done. intros v E. rewrite E in *. done.
Qed.

(** The three programs reduced to their positional arguments. *)
Lemma get_config_options name opts host service random :
  let argv := name :: command_line opts host service in
  (Forall (fun x => for_ipv4 x = true) opts ->
     ipv4_get_config address_of loss_rate random argv =
     ipv4_positional address_of (effects opts (no_options IPV4_LOCAL_ADDRESS_DFLT (to_string (u16 random)) "" None))
       (Returns host) (Returns service)) /\
  (Forall (fun x => for_udp x = true) opts ->
     udp_get_config address_of loss_rate argv =
     udp_positional address_of (effects opts (no_options "" "" "" None)) (Returns host) (Returns service)) /\
  (Forall (fun x => for_ethernet x = true) opts ->
     ethernet_get_config address_of random argv =
     ethernet_positional address_of
       (effects opts (no_options ETHERNET_LOCAL_ADDRESS_DFLT (to_string (u16 random)) GATEWAY_DFLT (Some TAP_DFLT)))
       (Returns host) (Returns service)).
Proof.
  intros argv. destruct (positional_args (name :: concat (map render opts)) host service) as (E1 & E2 & E3).
  change ((name :: concat (map render opts)) ++ [host; service]) with argv in *.
  assert (length (concat (map render opts)) <= length argv)%nat as Hf by (unfold argv, command_line; simpl; rewrite length_app; lia).
  change (Z.of_nat (length (name :: concat (map render opts)))) with (Z.of_nat (length [name] + length (concat (map render opts)))) in *.
  split_and!; intros Ha.
  - unfold ipv4_get_config. change argv with ([name] ++ command_line opts host service) at 2.
    rewrite (parse_options_reads _ _ _ [name] _ _ _ _ ipv4_reads Ha Hf). cbn [pbind]. by rewrite E1, E2.
  - unfold udp_get_config. change argv with ([name] ++ command_line opts host service) at 2.
    rewrite (parse_options_reads _ _ _ [name] _ _ _ _ udp_reads Ha Hf). cbn [pbind].
    rewrite E3, Z.add_simpl_r, E1. replace (_ + 2 - 1) with (Z.of_nat (length [name] + length (concat (map render opts))) + 1) by lia.
    by rewrite E2.
  - unfold ethernet_get_config. change argv with ([name] ++ command_line opts host service) at 2.
    rewrite (parse_options_reads _ _ _ [name] _ _ _ _ ethernet_reads Ha Hf). cbn [pbind]. by rewrite E1, E2.
Qed.

(** C38: The command line means what it says.  For every program name, and every list
    of options of the program in any order, with any values (values that look like
    options among them), followed by a host and a service: [get_config] of [tcp_ipv4],
    [tcp_udp] and [tcp_ip_ethernet] gives the configuration those options denote, the
    last one of each kind: timeout, window and loss rates; as a client, the destination
    is the host and service, and the source the address and port given, or the default
    address and a random port (in [tcp_udp], none); as a server (with -l) on host 0,
    the source is the service on any address, and [tcp_ipv4] exits if its port is 0; the
    device and the next hop are those given, or the defaults of the usage texts. *)
Theorem get_config_reads_options name opts host service random src dst hop :
  let argv := name :: command_line opts host service in
  let from address := address_of (default address (chosen of_source_address opts))
                        (default (to_string (u16 random)) (chosen of_source_port opts)) in
  (Forall (fun x => for_ipv4 x = true) opts ->
     (OListen ∉ opts -> from "169.254.144.9"%string = Ok src -> address_of host service = Ok dst ->
      exists c f, ipv4_get_config address_of loss_rate random argv = Returns (c, f, false, chosen of_device opts) /\
        denotes opts c f /\ source f = src /\ destination f = dst) /\
     (OListen ∈ opts -> host = "0"%string -> address_of host service = Ok src ->
      if decide (port src = 0) then exists msg, ipv4_get_config address_of loss_rate random argv = Exits 1 msg
      else exists c f, ipv4_get_config address_of loss_rate random argv = Returns (c, f, true, chosen of_device opts) /\
        denotes opts c f /\ source f = src)) /\
  (Forall (fun x => for_udp x = true) opts ->
     (OListen ∉ opts -> address_of host service = Ok dst ->
      exists c f, udp_get_config address_of loss_rate argv = Returns (c, f, false) /\
        denotes opts c f /\ destination f = dst) /\
     (OListen ∈ opts -> host = "0"%string -> address_of host service = Ok src ->
      exists c f, udp_get_config address_of loss_rate argv = Returns (c, f, true) /\
        denotes opts c f /\ source f = src)) /\
  (Forall (fun x => for_ethernet x = true) opts -> from "169.254.10.9"%string = Ok src ->
     address_of host service = Ok dst ->
     address_of (default "169.254.10.1" (chosen of_next_hop opts))%string "0" = Ok hop ->
     exists c f, ethernet_get_config address_of random argv =
         Returns (c, f, hop, Some (default "tap10" (chosen of_device opts))%string) /\
       denotes opts c f /\ source f = src /\ destination f = dst).
Proof.
  intros argv from. destruct (get_config_options name opts host service random) as (E4 & Eu & Ee). fold argv in E4, Eu, Ee.
  split_and!; intros Ha; [specialize (E4 Ha); rewrite E4; clear E4|specialize (Eu Ha); rewrite Eu; clear Eu|].
  - set (o0 := no_options _ _ _ _). destruct (effects_read opts o0) as [Hl Hsa Hsp _ Hdev _ _ _ _ _ _].
    assert (device (effects opts o0) = chosen of_device opts) as Hd by (rewrite Hdev; by destruct (chosen of_device opts)).
    unfold ipv4_positional. rewrite Hl, Hsa, Hsp, Hd. cbn [opt_listen no_options o0 orb]. split.
    + intros Hno Hs Ht. rewrite bool_decide_false by done. cbn [pbind]. rewrite Ht. cbn [of_result pbind].
      unfold from in Hs. cbn [source_address source_port no_options o0]. unfold IPV4_LOCAL_ADDRESS_DFLT. rewrite Hs. cbn [of_result pbind].
      eexists _, _. split; [done|]. split; [|done]. by apply denotes_read.
    + intros Hyes -> Hs. rewrite bool_decide_true by done. cbn [pbind]. rewrite Hs. cbn [of_result pbind].
      destruct (decide (port src = 0)) as [->|Hp]; [by eexists|]. apply Z.eqb_neq in Hp. rewrite Hp.
      eexists _, _. split; [done|]. split; [|done]. by apply denotes_read.
  - set (o0 := no_options _ _ _ _). destruct (effects_read opts o0) as [Hl _ _ _ _ _ _ _ _ _ _].
    unfold udp_positional. rewrite Hl. cbn [opt_listen no_options o0 orb]. split.
    + intros Hno Ht. rewrite bool_decide_false by done. cbn [pbind]. rewrite Ht. cbn [of_result pbind].
      eexists _, _. split; [done|]. split; [|done]. by apply denotes_read.
    + intros Hyes -> Hs. rewrite bool_decide_true by done. cbn [pbind]. rewrite Hs. cbn [of_result pbind].
      eexists _, _. split; [done|]. split; [|done]. by apply denotes_read.
  - intros Hs Ht Hh. rewrite (Ee Ha). set (o0 := no_options _ _ _ _).
    destruct (effects_read opts o0) as [_ Hsa Hsp Hnh Hdev _ _ _ _ _ _].
    assert (device (effects opts o0) = Some (default "tap10" (chosen of_device opts))%string) as Hd
      by (rewrite Hdev; by destruct (chosen of_device opts)).
    unfold ethernet_positional. cbn [pbind]. rewrite Ht, Hsa, Hsp, Hnh, Hd. unfold from in Hs.
    cbn [source_address source_port next_hop_address no_options o0 of_result pbind].
    unfold ETHERNET_LOCAL_ADDRESS_DFLT, GATEWAY_DFLT. rewrite Hs. cbn [of_result pbind]. rewrite Hh. cbn [of_result pbind].
    eexists _, _. split; [done|]. split; [|done]. by apply denotes_read.
Qed.

(** Reading the command line stays in the command line.  Whatever the arguments, as
    long as there are the three that the programs' [main] asks for: the loop over the options ends, no
    argument past the last is read, and [get_config] either exits (with the usage text)
    or configures the program with the last two arguments as host and service. *)
Theorem get_config_in_bounds argv random : 3 <= argc argv ->
  exists host service, last argv = Some service /\ argv !! (length argv - 2)%nat = Some host /\
  ((exists status message, ipv4_get_config address_of loss_rate random argv = Exits status message) \/
   (exists o, ipv4_get_config address_of loss_rate random argv = ipv4_positional address_of o (Returns host) (Returns service))) /\
  ((exists status message, udp_get_config address_of loss_rate argv = Exits status message) \/
   (exists o, udp_get_config address_of loss_rate argv = udp_positional address_of o (Returns host) (Returns service))) /\
  ((exists status message, ethernet_get_config address_of random argv = Exits status message) \/
   (exists o, ethernet_get_config address_of random argv = ethernet_positional address_of o (Returns host) (Returns service))).
Proof.
  intros Hargc. destruct (arg_ok argv (argc argv - 2)) as (host & Eh & Lh); [lia|].
  destruct (arg_ok argv (argc argv - 1)) as (service & Es & Ls); [lia|]. exists host, service.
  assert (forall option o, advances option -> match parse_options option (length argv) argv 1 o with
    | Returns (_, curr') => curr' = argc argv - 2 | Exits _ _ => True | Fails _ => False end) as Hends.
  { intros option o Ha. apply (parse_options_ends option (length argv) argv 1 o Ha); unfold argc in *; lia. }
  split_and!.
  - rewrite last_lookup. replace (pred (length argv)) with (Z.to_nat (argc argv - 1)) by (unfold argc; lia). done.
  - by replace (length argv - 2)%nat with (Z.to_nat (argc argv - 2)) by (unfold argc; lia).
  - unfold ipv4_get_config. pose proof (Hends _ (no_options IPV4_LOCAL_ADDRESS_DFLT (to_string (u16 random)) "" None) (ipv4_advances loss_rate)) as He.
    destruct (parse_options _ _ _ _ _) as [[o curr]| |]; [|left; by eexists _, _|done]. subst curr. cbn [pbind].
    right. exists o. rewrite Eh. replace (argc argv - 2 + 1) with (argc argv - 1) by lia. by rewrite Es.
  - unfold udp_get_config. pose proof (Hends _ (no_options "" "" "" None) (udp_advances loss_rate)) as He.
    destruct (parse_options _ _ _ _ _) as [[o curr]| |]; [|left; by eexists _, _|done]. cbn [pbind].
    right. exists o. by rewrite Eh, Es.
  - unfold ethernet_get_config.
    pose proof (Hends _ (no_options ETHERNET_LOCAL_ADDRESS_DFLT (to_string (u16 random)) GATEWAY_DFLT (Some TAP_DFLT)) ethernet_advances) as He.
    destruct (parse_options _ _ _ _ _) as [[o curr]| |]; [|left; by eexists _, _|done]. subst curr. cbn [pbind].
    right. exists o. rewrite Eh. replace (argc argv - 2 + 1) with (argc argv - 1) by lia. by rewrite Es.
Qed.
End meaning.

(** Addresses of numbers, and no loss. *)
Definition sample_address (host service : string) : result IPv4Address := Ok (from_quad (digits 0 host) (digits 0 service)).

Lemma get_config_reads_options_witness :
  exists c f, ipv4_get_config sample_address (fun _ => 0) 5
      ["tcp_ipv4"; "-w"; "1"; "-w"; "0x400"; "-d"; "-l"; "-t"; "010"; "7"; "80"]%string
    = Returns (c, f, false, Some "-l"%string) /\
    rt_timeout c = 8 /\ recv_capacity c = 1024 /\
    source f = from_quad 169 5 /\ destination f = (from_quad 7 80 : IPv4Address).
Proof.
  destruct (get_config_reads_options sample_address (fun _ => 0) "tcp_ipv4"
    [OWindow "1"; OWindow "0x400"; ODevice "-l"; OTimeout "010"]%string "7"%string "80"%string 5
    (from_quad 169 5) (from_quad 7 80) (from_quad 0 0)) as [[Hc _] _]; [by repeat constructor|].
  destruct Hc as (c & f & E & [Ht Hw _ _ _ _] & Hs & Hd); [|reflexivity|reflexivity|].
  - intros Hin. repeat (apply elem_of_cons in Hin as [Hin|Hin]; [discriminate Hin|]). by apply elem_of_nil in Hin.
  - exists c, f. split; [exact E|]. split; [exact Ht|]. split; [exact (Hw _ eq_refl)|]. split; [exact Hs|exact Hd].
Defined.

(** Where the usage texts say otherwise: with -l the host is not the address to bind
    (the address is 0 whatever it is), and without -w the window is the capacity of
    64000 bytes, not MAX_PAYLOAD_SIZE. *)
Example usage_differs :
  ipv4_get_config sample_address (fun _ => 0) 5 ["tcp_ipv4"; "-l"; "7"; "80"]%string =
    Returns (default_config, mkFdAdapterConfig (from_quad 0 80) (from_quad 0 0 : IPv4Address) 0 0, true, None) /\
  udp_get_config sample_address (fun _ => 0) ["tcp_udp"; "-l"; "7"; "80"]%string =
    Returns (default_config, mkFdAdapterConfig (from_quad 0 80) (from_quad 0 0 : IPv4Address) 0 0, true) /\
  recv_capacity default_config = 64000 /\ MAX_PAYLOAD_SIZE = 1000.
Proof. split_and!; reflexivity. Qed.

Lemma get_config_in_bounds_witness :
  udp_get_config sample_address (fun _ => 0) ["tcp_udp"; "-w"; "1"]%string = Returns (default_config,
    mkFdAdapterConfig (from_quad 0 0) (from_quad 0 1 : IPv4Address) 0 0, false) /\
  exists host service, last ["tcp_udp"; "-w"; "1"]%string = Some service /\ ["tcp_udp"; "-w"; "1"]%string !! 1%nat = Some host.
Proof.
  split; [vm_compute; reflexivity|].
  destruct (get_config_in_bounds sample_address (fun _ => 0) ["tcp_udp"; "-w"; "1"]%string 5) as (host & service & H1 & H2 & _); [by vm_compute|].
  by exists host, service.
Defined.

(** An option is recognised by its first three characters: longer ones pass for the loss
    rates. *)
Example loss_option_prefix : ipv4_option (fun _ => 9) ["p"; "-Luck"; "0.5"; "h"; "80"]%string 1 (no_options "" "" "" None) =
  Returns (set_loss_up (fun _ => 9) "0.5" (no_options "" "" "" None), 3).
Proof. reflexivity. Qed.
