(* ===== verification/UdpDump.v ===== *)
(** * UdpDump: finding TCP segments in captured packets

    Models the arguments of [apps/udp_tcpdump.cc] and what it does with each packet that
    the capture library delivers: the link header is skipped according to the type of
    the link, an IPv4 or IPv6 header is followed to a UDP header, and the payload is
    parsed as a TCP segment.  The packet is the bytes captured; reading past them is
    [OutOfBounds].  An address is its bytes; the capture loop and what is printed are in
    file [Capture]. *)

From Stdlib Require Import Strings.String.
From S2P Require Import Prelude WrappingIntegers Parser Checksum TCPSegment Robustness CommandLine.

(** ** Arguments *)

Definition check_arg (argv : list string) (curr : Z) (errmsg : string) : program unit :=
  if argc argv <=? curr + 1 then Exits 1 (Some errmsg) else Returns tt.

(** The device and the index of the first word of the filter expression. *)
Fixpoint parse_arguments (fuel : nat) (argv : list string) (curr : Z) (dev : option string) : program (option string * Z) :=
  if curr <? argc argv then
    match fuel with
    | O => Fails OutOfFuel
    | S fuel =>
        let? s := arg argv curr in
        if strneq 3 "-i" s then
          let? _ := check_arg argv curr "ERROR: -i requires an argument" in
          let? d := arg argv (curr + 1) in
          parse_arguments fuel argv (curr + 2) (Some d)
        else if strneq 3 "-h" s || strneq 7 "--help" s then Exits 0 None
        else Returns (dev, curr)
    end
  else Returns (dev, curr).

(** ** Packets *)

(** [data[i]] *)
Definition byte_at (data : bytes) (i : Z) : result Z :=
  match data !! Z.to_nat i with
  | Some b => if i <? 0 then Throw OutOfBounds else Ok (Z_of_byte b)
  | None => Throw OutOfBounds
  end.

(** The [n] bytes of an address at [data + i]. *)
Definition address_at (data : bytes) (i n : Z) : result bytes :=
  if (0 <=? i) && (i + n <=? size data) then Ok (slice data i n) else Throw OutOfBounds.

(** The loop over the extension headers of IPv6: the offset of the UDP header, or -1. *)
Fixpoint skip_extensions (fuel : nat) (len : Z) (data : bytes) (nxt data_offset : Z) : result Z :=
  if nxt =? 17 then Ok data_offset else
  match fuel with
  | O => Throw OutOfFuel
  | S fuel =>
      if negb (nxt =? 0) && negb (nxt =? 43) && negb (nxt =? 60) then Ok (-1) else
      let! nxt := byte_at data data_offset in
      let! n := byte_at data (data_offset + 1) in
      let data_offset := data_offset + 8 * (1 + n) in
      if len <? data_offset + 2 then Ok (-1)
      else skip_extensions fuel len data nxt data_offset
  end.

(** The offset of the UDP payload with the addresses, or -1. *)
Definition process_ipv4_ipv6 (len : Z) (data : bytes) : result (Z * option (bytes * bytes)) :=
  if len <? 1 then Ok (-1, None) else
  let! first := byte_at data 0 in
  let pt := Z.land first 240 in
  if pt =? 64 then
    let data_offset := Z.land first 15 * 4 in
    if len <? data_offset then Ok (-1, None) else
    let! proto := byte_at data 9 in
    if negb (proto =? 17) then Ok (-1, None) else
    let! src := address_at data 12 4 in
    let! dst := address_at data 16 4 in
    Ok (data_offset + 8, Some (src, dst))
  else if pt =? 96 then
    if len <? 42 then Ok (-1, None) else
    let! nxt := byte_at data 6 in
    let! data_offset := skip_extensions (Z.to_nat len) len data nxt 40 in
    if data_offset =? -1 then Ok (-1, None) else
    let! src := address_at data 8 16 in
    let! dst := address_at data 24 16 in
    Ok (data_offset + 8, Some (src, dst))
  else Ok (-1, None).

Inductive datalink : Type := DLT_RAW | DLT_NULL | DLT_EN10MB | DLT_LINUX_SLL | DLT_LINUX_SLL2 | DLT_OTHER.

(** What is done with a packet. *)
Inductive report : Type :=
| Skipped (why : string)
| Unrecognized (src dst : bytes) (payload : bytes)
| Segment (src dst : bytes) (seg : TCPSegment) (correct : bool) (payload : bytes)
| GivesUp.

(** Two bytes in network order. *)
Definition word_at (data : bytes) (i : Z) : result Z :=
  let! hi := byte_at data i in
  let! lo := byte_at data (i + 1) in
  Ok (Z.lor (Z.shiftl hi 8) lo).

(** The length of the link header: its offset, or why the packet is not looked at. *)
Definition link_header (dl_type : datalink) (pkt : bytes) : result (Z + report) :=
  let caplen := size pkt in
  let ethertype hdr_off at_ :=
    if caplen <? hdr_off then Ok (inr (Skipped "malformed packet"))
    else let! pt := word_at pkt at_ in
         if negb (pt =? 2048) && negb (pt =? 34525) then Ok (inr (Skipped "non-IP packet")) else Ok (inl hdr_off) in
  match dl_type with
  | DLT_NULL =>
      if caplen <? 4 then Ok (inr (Skipped "malformed packet")) else
      let! pt := byte_at pkt 3 in
      if negb (pt =? 2) && negb (pt =? 24) && negb (pt =? 28) && negb (pt =? 30)
      then Ok (inr (Skipped "non-IP packet")) else Ok (inl 4)
  | DLT_EN10MB => ethertype 14 12
  | DLT_LINUX_SLL => ethertype 16 14
  | DLT_LINUX_SLL2 => ethertype 20 0
  | DLT_RAW => Ok (inl 0)
  | DLT_OTHER => Ok (inr GivesUp)
  end.

(** [res > ParseResult::BadChecksum] *)
Definition unrecognized (res : ParseResult) : bool :=
  match res with NoError | BadChecksum => false | _ => true end.

(** A turn of the capture loop.  The length of the payload is a difference of unsigned
    numbers. *)
Definition dump_packet (dl_type : datalink) (pkt : bytes) : result report :=
  let! h := link_header dl_type pkt in
  match h with
  | inr r => Ok r
  | inl hdr_off =>
      let! (start_off, addresses) := process_ipv4_ipv6 (size pkt - hdr_off) (zdrop hdr_off pkt) in
      match addresses with
      | None => Ok (Skipped "Error parsing IPv4/IPv6 packet")
      | Some (src, dst) =>
          let payload_off := hdr_off + start_off in
          let payload_len := u64 (size pkt - payload_off) in
          if size pkt <? payload_off + payload_len then Throw OutOfBounds else
          let payload := slice pkt payload_off payload_len in
          let! (res, seg) := segment_parse default_segment (buffer_of payload) 0 in
          if unrecognized res then Ok (Unrecognized src dst payload)
          else Ok (Segment src dst seg (bool_decide (res = NoError)) payload)
      end
  end.

(** The arguments are read within the command line. *)
Lemma parse_arguments_total fuel argv curr dev : 0 <= curr -> argc argv - curr <= Z.of_nat fuel ->
  match parse_arguments fuel argv curr dev with Fails _ => False | _ => True end.
Proof.
  revert curr dev. induction fuel as [|fuel IH]; intros curr dev H0 Hf; cbn [parse_arguments];
    (destruct (Z.ltb_spec curr (argc argv)); [|done]); [lia|].
  destruct (arg_ok argv curr) as (s & -> & _); [lia|]. cbn [pbind]. destruct (strneq 3 "-i" s); [|by destruct (_ || _)].
  unfold check_arg. destruct (Z.leb_spec (argc argv) (curr + 1)); [done|]. cbn [pbind].
  destruct (arg_ok argv (curr + 1)) as (d & -> & _); [lia|]. cbn [pbind]. apply IH; lia.
Qed.

(** ** The parts of a packet *)

Lemma byte_at_app l b rest i : i = size l -> byte_at (l ++ b :: rest) i = Ok (Z_of_byte b).
Proof.
  intros ->. unfold byte_at, size. rewrite Nat2Z.id, lookup_app_r, Nat.sub_diag by done. simpl.
  destruct (Z.ltb_spec (Z.of_nat (length l)) 0); [lia|done].
Qed.

Lemma byte_at_front l rest i z : byte_at l i = Ok z -> byte_at (l ++ rest) i = Ok z.
Proof.
  unfold byte_at. destruct (l !! Z.to_nat i) as [b|] eqn:E; [|done]. by rewrite (lookup_app_l_Some _ _ _ _ E).
Qed.

Lemma byte_at_ok l i : 0 <= i < size l -> exists z, byte_at l i = Ok z /\ is_u8 z.
Proof.
  intros Hi. unfold byte_at, size in *. destruct (l !! Z.to_nat i) as [b|] eqn:E; [|apply lookup_ge_None in E; lia].
  exists (Z_of_byte b). destruct (Z.ltb_spec i 0); [lia|]. split; [done|apply Z_of_byte_range].
Qed.

Lemma address_at_ok l i n : 0 <= i -> i + n <= size l -> address_at l i n = Ok (slice l i n).
Proof. intros H1 H2. unfold address_at. destruct (Z.leb_spec 0 i), (Z.leb_spec (i + n) (size l)); try lia. done. Qed.

(** A chain of hop-by-hop options (0), routing (43) and destination options (60)
    headers that leads from one of the type [nxt] to UDP: the extension headers the
    program looks through. *)
Inductive extensions : Z -> list bytes -> Prop :=
| ext_udp : extensions 17 []
| ext_more nxt b n body rest : nxt = 0 \/ nxt = 43 \/ nxt = 60 -> size (b :: n :: body) = 8 * (1 + Z_of_byte n) ->
    extensions (Z_of_byte b) rest -> extensions nxt ((b :: n :: body) :: rest).

Lemma skip_extensions_spec fuel nxt exts pre rest len : extensions nxt exts ->
  (length exts <= fuel)%nat -> len = size (pre ++ concat exts ++ rest) -> 2 <= size rest ->
  skip_extensions fuel len (pre ++ concat exts ++ rest) nxt (size pre) = Ok (size pre + size (concat exts)).
Proof.
  intros He. revert fuel pre. induction He as [|nxt b n body exts Ht Hsz He IH]; intros fuel pre Hf Hlen Hr.
  { destruct fuel; simpl; by rewrite Z.add_0_r. }
  destruct fuel as [|fuel]; [simpl in Hf; lia|]. cbn [skip_extensions concat] in *.
  assert ((nxt =? 17) = false) as -> by (destruct Ht as [->|[->| ->]]; done).
  assert (negb (nxt =? 0) && negb (nxt =? 43) && negb (nxt =? 60) = false) as -> by (destruct Ht as [->|[->| ->]]; done).
  rewrite <- !app_assoc in *. cbn [app] in *. rewrite byte_at_app by done. cbn [rbind].
  change (b :: n :: body ++ concat exts ++ rest) with ([b] ++ n :: body ++ concat exts ++ rest).
  rewrite (app_assoc pre [b]), byte_at_app by (rewrite size_app; done). cbn [rbind].
  set (e := b :: n :: body) in *. pose proof (Z_of_byte_range n). pose proof (size_nonneg (concat exts)).
  replace (size pre + 8 * (1 + Z_of_byte n)) with (size (pre ++ e)) by (rewrite size_app, Hsz; lia).
  assert ((pre ++ [b]) ++ n :: body ++ concat exts ++ rest = (pre ++ e) ++ concat exts ++ rest) as Eq by (by rewrite <- !app_assoc).
  rewrite Eq. replace (pre ++ b :: n :: body ++ concat exts ++ rest) with ((pre ++ e) ++ concat exts ++ rest) in Hlen by (by rewrite <- !app_assoc).
  destruct (Z.ltb_spec len (size (pre ++ e) + 2)) as [Hlt|_]; [rewrite Hlen, !size_app in Hlt; lia|].
  rewrite IH by (done || (simpl in Hf; lia)). rewrite !size_app. f_equal. unfold e. simpl. rewrite !size_cons, size_app. lia.
Qed.

(** An IPv4 header with its options, or an IPv6 header with such extensions, that
    leads to UDP, with its source and destination addresses. *)
Inductive ip_header : bytes -> bytes -> bytes -> Prop :=
| ip_v4 hdr ihl : 5 <= ihl <= 15 -> size hdr = 4 * ihl -> byte_at hdr 0 = Ok (64 + ihl) -> byte_at hdr 9 = Ok 17 ->
    ip_header hdr (slice hdr 12 4) (slice hdr 16 4)
| ip_v6 fixed first nxt exts : size fixed = 40 -> byte_at fixed 0 = Ok first -> Z.land first 240 = 96 ->
    byte_at fixed 6 = Ok nxt -> extensions nxt exts ->
    ip_header (fixed ++ concat exts) (slice fixed 8 16) (slice fixed 24 16).

(** The link header of an Internet packet. *)
Inductive link_ok : datalink -> bytes -> Prop :=
| link_raw : link_ok DLT_RAW []
| link_null l pt : size l = 4 -> byte_at l 3 = Ok pt -> pt = 2 \/ pt = 24 \/ pt = 28 \/ pt = 30 -> link_ok DLT_NULL l
| link_ethernet l pt : size l = 14 -> word_at l 12 = Ok pt -> pt = 2048 \/ pt = 34525 -> link_ok DLT_EN10MB l
| link_sll l pt : size l = 16 -> word_at l 14 = Ok pt -> pt = 2048 \/ pt = 34525 -> link_ok DLT_LINUX_SLL l
| link_sll2 l pt : size l = 20 -> word_at l 0 = Ok pt -> pt = 2048 \/ pt = 34525 -> link_ok DLT_LINUX_SLL2 l.

Lemma first_byte_v4 ihl : 5 <= ihl <= 15 -> Z.land (64 + ihl) 240 = 64 /\ Z.land (64 + ihl) 15 = ihl.
Proof.
  intros Hi. assert (ihl = 5 \/ ihl = 6 \/ ihl = 7 \/ ihl = 8 \/ ihl = 9 \/ ihl = 10 \/ ihl = 11 \/ ihl = 12 \/ ihl = 13 \/ ihl = 14 \/ ihl = 15)
    as Hc by lia. by repeat destruct Hc as [->|Hc]; subst.
Qed.

Lemma extensions_length nxt exts : extensions nxt exts -> Z.of_nat (length exts) <= size (concat exts).
Proof.
  induction 1 as [|nxt b n body exts _ _ _ IH]; [done|]. cbn [length concat]. rewrite size_app, !size_cons. pose proof (size_nonneg body). lia.
Qed.

Lemma word_at_front l rest i z : word_at l i = Ok z -> word_at (l ++ rest) i = Ok z.
Proof.
  unfold word_at. intros (hi & E1 & (lo & E2 & E3)%rbind_ok_inv)%rbind_ok_inv.
  by rewrite (byte_at_front _ _ _ _ E1); simpl; rewrite (byte_at_front _ _ _ _ E2).
Qed.

Lemma process_spec hdr src dst rest : ip_header hdr src dst -> 8 <= size rest ->
  process_ipv4_ipv6 (size (hdr ++ rest)) (hdr ++ rest) = Ok (size hdr + 8, Some (src, dst)).
Proof.
  intros Hh Hr. unfold process_ipv4_ipv6. rewrite size_app. pose proof (size_nonneg hdr).
  destruct (Z.ltb_spec (size hdr + size rest) 1); [lia|]. destruct Hh as [hdr ihl Hi Hsz Hb0 H9|fixed first nxt exts Hsz Hb0 Hv H6 He].
  - rewrite (byte_at_front _ _ _ _ Hb0). cbn [rbind]. destruct (first_byte_v4 ihl Hi) as [-> ->]. cbn [Z.eqb Pos.eqb].
    destruct (Z.ltb_spec (size hdr + size rest) (ihl * 4)); [lia|]. rewrite (byte_at_front _ _ _ _ H9). cbn [rbind Z.eqb Pos.eqb negb].
    rewrite !address_at_ok by (rewrite ?size_app; lia). cbn [rbind].
    rewrite !slice_app_l by lia. repeat f_equal. lia.
  - rewrite size_app in *. pose proof (size_nonneg (concat exts)). pose proof (extensions_length _ _ He). rewrite <- app_assoc.
    rewrite (byte_at_front _ _ _ _ Hb0). cbn [rbind]. rewrite Hv. cbn [Z.eqb Pos.eqb].
    destruct (Z.ltb_spec (size fixed + size (concat exts) + size rest) 42); [lia|].
    rewrite (byte_at_front _ _ _ _ H6). cbn [rbind].
    pose proof (skip_extensions_spec (Z.to_nat (size fixed + size (concat exts) + size rest)) nxt exts fixed rest
      (size fixed + size (concat exts) + size rest) He ltac:(lia) ltac:(rewrite !size_app; lia) ltac:(lia)) as Es.
    rewrite Hsz in *. rewrite Es. cbn [rbind]. destruct (Z.eqb_spec (40 + size (concat exts)) (-1)); [lia|].
    rewrite !address_at_ok by (rewrite ?size_app; lia). cbn [rbind].
    by rewrite !slice_app_l by lia.
Qed.

Lemma link_header_spec dl link rest : link_ok dl link -> link_header dl (link ++ rest) = Ok (inl (size link)).
Proof.
  intros Hl. pose proof (size_nonneg rest). unfold link_header. rewrite size_app.
  destruct Hl as [|l pt Hs Hb Hp|l pt Hs Hb Hp|l pt Hs Hb Hp|l pt Hs Hb Hp]; [done| | | |]; rewrite Hs;
    (match goal with |- context [Z.ltb ?a ?b] => destruct (Z.ltb_spec a b); [lia|] end).
  - rewrite (byte_at_front _ _ _ _ Hb). cbn [rbind]. by destruct Hp as [->|[->|[->| ->]]].
  - rewrite (word_at_front _ _ _ _ Hb). cbn [rbind]. by destruct Hp as [->| ->].
  - rewrite (word_at_front _ _ _ _ Hb). cbn [rbind]. by destruct Hp as [->| ->].
  - rewrite (word_at_front _ _ _ _ Hb). cbn [rbind]. by destruct Hp as [->| ->].
Qed.

(** ** Properties *)

(** C37: A TCP segment in a UDP datagram is found.  Whatever the link (raw, loopback,
    Ethernet, Linux cooked captures), in an IPv4 packet with any options, or an IPv6
    packet with any chain of hop-by-hop options, routing and destination options
    headers: if the UDP payload is a serialized TCP segment, the program reports that
    segment, with the addresses of the packet, a correct checksum and exactly its
    payload.  (With another extension header, such as a fragment or authentication
    header, the packet is skipped: see [dump_skips_other_extensions].) *)
Theorem dump_finds_segment dl link hdr src dst udp seg : link_ok dl link -> ip_header hdr src dst -> size udp = 8 ->
  header_ok (_header seg) -> 65280 * (4 * doff (_header seg) + size (str (_payload seg))) + 65535 < 4294967296 ->
  exists l seg' c, segment_serialize seg 0 = Ok l /\
    dump_packet dl (link ++ hdr ++ udp ++ concatenate l) = Ok (Segment src dst seg' true (concatenate l)) /\
    _header seg' = with_cksum (_header seg) c /\ str (_payload seg') = str (_payload seg).
Proof.
  intros Hlink Hip Hudp Hok Hsz.
  destruct (segment_wire seg 0 Hok) as (l & c & seg' & Hser & Hparse & Hh & _ & Hp & Hlen); [lia|lia|].
  pose proof (size_nonneg (concatenate l)) as Hpos.
  assert (8 <= size (udp ++ concatenate l)) as H8 by (rewrite size_app; lia).
  pose proof (process_spec hdr src dst (udp ++ concatenate l) Hip H8) as Hproc.
  exists l, seg', c. split_and!; [done| |done|done]. unfold dump_packet. rewrite (link_header_spec dl link _ Hlink). cbn [rbind].
  rewrite zdrop_app, (size_app link), Z.add_simpl_l, Hproc. cbn [rbind].
  set (pkt := link ++ hdr ++ udp ++ concatenate l).
  assert (size link + size (hdr ++ udp ++ concatenate l) - (size link + (size hdr + 8)) = size (concatenate l)) as ->
    by (rewrite !size_app; lia).
  rewrite u64_small by (unfold is_u64; pose proof (size_nonneg (str (_payload seg))); lia).
  destruct (Z.ltb_spec (size link + size (hdr ++ udp ++ concatenate l)) (size link + (size hdr + 8) + size (concatenate l))) as [Hlt|_];
    [rewrite !size_app in Hlt; lia|].
  assert (slice pkt (size link + (size hdr + 8)) (size (concatenate l)) = concatenate l) as ->.
  { unfold slice. replace (size link + (size hdr + 8)) with (size (link ++ hdr ++ udp)) by (rewrite !size_app; lia).
    replace pkt with ((link ++ hdr ++ udp) ++ concatenate l) by (unfold pkt; by rewrite <- !app_assoc).
    rewrite zdrop_app. by apply ztake_all. }
  rewrite Hparse. cbn [rbind unrecognized]. by rewrite bool_decide_true.
Qed.

(** An Ethernet frame with an IPv6 packet, one extension header of the type [nxt], and
    a SYN. *)
Definition sample_link : bytes := replicate 12 x00 ++ [x86; xdd].
Definition sample_fixed (nxt : byte) : bytes :=
  [x60] ++ replicate 5 x00 ++ [nxt; x00] ++ replicate 16 x0a ++ replicate 16 x0b.
Definition sample_extension : bytes := [x11; x00] ++ replicate 6 x00.
Definition sample_segment : TCPSegment :=
  mkTCPSegment (with_seq default_header (mkWrappingInt32 7) true false) (buffer_of [x61; x62]).

Lemma dump_finds_segment_witness : exists l seg' c, segment_serialize sample_segment 0 = Ok l /\
  dump_packet DLT_EN10MB (sample_link ++ (sample_fixed x3c ++ concat [sample_extension]) ++ replicate 8 x00 ++ concatenate l)
    = Ok (Segment (replicate 16 x0a) (replicate 16 x0b) seg' true (concatenate l)) /\
  _header seg' = with_cksum (_header sample_segment) c /\ str (_payload seg') = [x61; x62].
Proof.
  apply (dump_finds_segment DLT_EN10MB sample_link (sample_fixed x3c ++ concat [sample_extension])
    (replicate 16 x0a) (replicate 16 x0b) (replicate 8 x00) sample_segment).
  - apply (link_ethernet _ 34525); [done|done|by right].
  - apply (ip_v6 (sample_fixed x3c) 96 60 [sample_extension]); try done. apply ext_more; [auto|done|exact ext_udp].
  - done.
  - split; vm_compute; intuition congruence.
  - done.
Defined.

(** The same packet with a fragment header (44) or an authentication header (51) in
    the place of the destination options is not looked into. *)
Example dump_skips_other_extensions :
  let pkt nxt l := sample_link ++ (sample_fixed nxt ++ sample_extension) ++ replicate 8 x00 ++ concatenate l in
  (let! l := segment_serialize sample_segment 0 in dump_packet DLT_EN10MB (pkt x2c l))
    = Ok (Skipped "Error parsing IPv4/IPv6 packet") /\
  (let! l := segment_serialize sample_segment 0 in dump_packet DLT_EN10MB (pkt x33 l))
    = Ok (Skipped "Error parsing IPv4/IPv6 packet").
Proof. split; vm_compute; reflexivity. Qed.

(** *** Every packet: what is read, and what is not there

    With the header length of an IPv4 packet at least five words, the header is read
    within the packet. *)
Lemma skip_extensions_total fuel len data nxt off : 0 <= off -> off + 2 <= len -> len = size data -> len - off < Z.of_nat fuel ->
  exists r, skip_extensions fuel len data nxt off = Ok r.
Proof.
  revert nxt off. induction fuel as [|fuel IH]; intros nxt off H0 H1 H2 Hf; [lia|]. cbn [skip_extensions].
  destruct (nxt =? 17); [eauto|]. destruct (_ && _); [eauto|].
  destruct (byte_at_ok data off) as (n1 & -> & _); [lia|]. cbn [rbind].
  destruct (byte_at_ok data (off + 1)) as (n2 & -> & Hn2); [lia|]. cbn [rbind]. unfold is_u8 in Hn2.
  destruct (Z.ltb_spec len (off + 8 * (1 + n2) + 2)); [eauto|]. apply IH; lia.
Qed.

Lemma process_total data : (forall first, byte_at data 0 = Ok first -> Z.land first 240 = 64 -> 5 <= Z.land first 15) ->
  exists r, process_ipv4_ipv6 (size data) data = Ok r.
Proof.
  intros Hihl. unfold process_ipv4_ipv6. pose proof (size_nonneg data). destruct (Z.ltb_spec (size data) 1); [eauto|].
  destruct (byte_at_ok data 0) as (first & E & _); [lia|]. rewrite E. cbn [rbind].
  destruct (Z.eqb_spec (Z.land first 240) 64) as [Hv|_].
  - specialize (Hihl first E Hv). destruct (Z.ltb_spec (size data) (Z.land first 15 * 4)); [eauto|].
    destruct (byte_at_ok data 9) as (p & -> & _); [lia|]. cbn [rbind]. destruct (negb _); [eauto|].
    rewrite !address_at_ok by lia. cbn [rbind]. eauto.
  - destruct (Z.land first 240 =? 96); [|eauto]. destruct (Z.ltb_spec (size data) 42); [eauto|].
    destruct (byte_at_ok data 6) as (nxt & -> & _); [lia|]. cbn [rbind].
    destruct (skip_extensions_total (Z.to_nat (size data)) (size data) data nxt 40) as [off ->]; [lia|lia|done|lia|]. cbn [rbind].
    destruct (off =? -1); [eauto|]. rewrite !address_at_ok by lia. cbn [rbind]. eauto.
Qed.

(** A shorter header length is not rejected: the protocol is read past the packet. *)
Example dump_reads_past_short_header : dump_packet DLT_RAW [x40] = Throw OutOfBounds.
Proof. reflexivity. Qed.

(** A packet that ends in its UDP header has a payload of almost 2^64 bytes. *)
Example dump_reads_past_cut_packet :
  dump_packet DLT_RAW ([x45] ++ replicate 8 x00 ++ [x11] ++ replicate 10 x00) = Throw OutOfBounds.
Proof. vm_compute. reflexivity. Qed.

(** With a bad checksum the header shown is not the packet's. *)
Example dump_shows_default_header : exists src dst,
  dump_packet DLT_RAW ([x45] ++ replicate 8 x00 ++ [x11] ++ replicate 18 x00 ++ [x12; x34]) =
  Ok (Segment src dst default_segment false [x12; x34]).
Proof. eexists _, _. vm_compute. reflexivity. Qed.
