(* ===== verification/System.v ===== *)
(** * System: stateful code, system calls and file descriptors' kernel

    The code above the protocol library calls the kernel, changes objects it shares
    through references, and throws.  A piece of such code is an [M S A]: it takes
    the state [S] it runs in and gives its value, or the exception it ends with, and
    the state it leaves behind: what was changed before a [throw] stays changed, as
    in C++.

    The kernel is a parameter ([Kernel]): a state and what it answers to a system
    call.  Every call and its answer is recorded in the state's history, which is
    what the theorems about observable behaviour speak of.  [posix] states what the
    manual pages promise of the answers the code relies on.

    Models [SystemCall] of [libsponge/util/util.hh] and [util.cc]. *)

From Stdlib Require Import Strings.String.
From stdpp Require Import relations.
From S2P Require Import Prelude.

(** ** Computations with state and exceptions *)

Definition M (S A : Type) : Type := S -> result A * S.

Definition mret {S A : Type} (a : A) : M S A := fun s => (Ok a, s).

Definition mbind {S A B : Type} (m : M S A) (k : A -> M S B) : M S B := fun s =>
  match m s with
  | (Ok a, s') => k a s'
  | (Throw e, s') => (Throw e, s')
  end.

Definition mthrow {S A : Type} (e : exn) : M S A := fun s => (Throw e, s).

(** [try { m } catch (...) { h }] *)
Definition mcatch {S A : Type} (m : M S A) (h : exn -> M S A) : M S A := fun s =>
  match m s with
  | (Ok a, s') => (Ok a, s')
  | (Throw e, s') => h e s'
  end.

Definition mget {S : Type} : M S S := fun s => (Ok s, s).
Definition mgets {S A : Type} (f : S -> A) : M S A := fun s => (Ok (f s), s).
Definition mmodify {S : Type} (f : S -> S) : M S unit := fun s => (Ok tt, f s).

(** A call that may throw but changes nothing else. *)
Definition mlift {S A : Type} (r : result A) : M S A := fun s => (r, s).

Notation "'let*' x ':=' m 'in' k" := (mbind m (fun x => k))
  (at level 10, x pattern, m at level 100, k at level 200)
  : sponge_scope.
Notation "'do*' m ';' k" := (mbind m (fun _ => k))
  (at level 10, m at level 100, k at level 200)
  : sponge_scope.

(** Code that runs on one part of a larger object. *)
Definition zoom {S T A : Type} (get : S -> T) (set : S -> T -> S) (m : M T A) : M S A := fun s =>
  let '(r, t) := m (get s) in (r, set s t).

(** *** Reasoning

    [steps R m]: whatever [m] ends with, the state it leaves is related by [R] to
    the one it started in.  For a reflexive and transitive [R] this is closed under
    composition, which the hints below use. *)
Section steps.
Context {S : Type} (R : S -> S -> Prop).

Definition steps {A : Type} (m : M S A) : Prop := forall s, R s (snd (m s)).

Context `{!Reflexive R} `{!Transitive R}.

Lemma steps_ret {A} (a : A) : steps (mret a).
Proof. intros s. simpl. reflexivity. Qed.

Lemma steps_throw {A} e : steps (@mthrow S A e).
Proof. intros s. simpl. reflexivity. Qed.

Lemma steps_gets {A} (f : S -> A) : steps (mgets f).
Proof. intros s. simpl. reflexivity. Qed.

Lemma steps_lift {A} (r : result A) : steps (mlift r).
Proof. intros s. simpl. reflexivity. Qed.

Lemma steps_bind {A B} (m : M S A) (k : A -> M S B) :
  steps m -> (forall a, steps (k a)) -> steps (mbind m k).
Proof.
  intros Hm Hk s. unfold mbind. specialize (Hm s). destruct (m s) as [[a|e] s']; simpl in *; [|done].
  etransitivity; [exact Hm|apply Hk].
Qed.

Lemma steps_catch {A} (m : M S A) h : steps m -> (forall e, steps (h e)) -> steps (mcatch m h).
Proof.
  intros Hm Hh s. unfold mcatch. specialize (Hm s). destruct (m s) as [[a|e] s']; simpl in *; [done|].
  etransitivity; [exact Hm|apply Hh].
Qed.
End steps.

Create HintDb steps.
#[export] Hint Resolve steps_ret steps_throw steps_gets steps_lift steps_bind steps_catch : steps.

(** [triple P m Q E]: from a state with [P], [m] ends normally with a value and a
    state that satisfy [Q], or with an exception and a state that satisfy [E]. *)
Definition outcome {S A : Type} (Q : A -> S -> Prop) (E : exn -> S -> Prop) (x : result A * S) : Prop :=
  match x with
  | (Ok a, s) => Q a s
  | (Throw e, s) => E e s
  end.

Definition triple {S A : Type} (P : S -> Prop) (m : M S A) (Q : A -> S -> Prop) (E : exn -> S -> Prop) : Prop :=
  forall s, P s -> outcome Q E (m s).

Section triples.
Context {S : Type} (E : exn -> S -> Prop).

Lemma outcome_bind {A B} (m : M S A) (k : A -> M S B) Q s :
  outcome (fun a s => outcome Q E (k a s)) E (m s) -> outcome Q E (mbind m k s).
Proof. unfold mbind. by destruct (m s) as [[a|e] s']. Qed.

Lemma outcome_weaken {A} (Q Q' : A -> S -> Prop) x : outcome Q E x -> (forall a s, Q a s -> Q' a s) -> outcome Q' E x.
Proof. destruct x as [[a|e] s]; simpl; auto. Qed.

Lemma triple_bind {A B} P R (m : M S A) (k : A -> M S B) Q :
  triple P m R E -> (forall a, triple (R a) (k a) Q E) -> triple P (mbind m k) Q E.
Proof.
  intros Hm Hk s HP. apply outcome_bind. eapply outcome_weaken; [by apply Hm|]. intros a s' HR. by apply Hk.
Qed.
End triples.

Lemma outcome_zoom {S T A} (E : exn -> S -> Prop) (get : S -> T) (set : S -> T -> S) (m : M T A) Q s :
  outcome (fun a t => Q a (set s t)) (fun e t => E e (set s t)) (m (get s)) -> outcome Q E (zoom get set m s).
Proof. unfold zoom. by destruct (m (get s)) as [[a|e] t]. Qed.

Lemma mbind_ok {S A B} (m : M S A) (k : A -> M S B) s a s1 r : m s = (Ok a, s1) -> k a s1 = r -> mbind m k s = r.
Proof. intros E <-. unfold mbind. by rewrite E. Qed.

(** The cases of a sequential composition that ends normally. *)
Lemma mbind_ok_inv {S A B} (m : M S A) (k : A -> M S B) s b s' :
  mbind m k s = (Ok b, s') -> exists a s1, m s = (Ok a, s1) /\ k a s1 = (Ok b, s').
Proof. unfold mbind. destruct (m s) as [[a|e] s1]; [eauto|done]. Qed.

(** ** System calls *)

(** Constants of [poll] and [errno]. *)
Definition POLLIN : Z := 1.
Definition POLLOUT : Z := 4.
Definition POLLERR : Z := 8.
Definition POLLHUP : Z := 16.
Definition POLLNVAL : Z := 32.
Definition EINTR : Z := 4.

(** The calls the library makes.  A file descriptor is a number; buffers are given
    by their length or their content; a socket address is its bytes. *)
Inductive syscall : Type :=
| sys_read (fd count : Z)
| sys_writev (fd : Z) (iov : list bytes)
| sys_close (fd : Z)
| sys_getfl (fd : Z)                               (* fcntl(fd, F_GETFL) *)
| sys_setfl (fd flags : Z)                         (* fcntl(fd, F_SETFL, flags) *)
| sys_poll (fds : list (Z * Z)) (timeout : Z)
| sys_socket (domain type protocol : Z)
| sys_socketpair (domain type protocol : Z)
| sys_getsockopt (fd level option : Z)
| sys_setsockopt (fd level option value : Z)
| sys_getsockname (fd : Z)
| sys_getpeername (fd : Z)
| sys_bind (fd : Z) (address : bytes)
| sys_connect (fd : Z) (address : bytes)
| sys_listen (fd backlog : Z)
| sys_accept (fd : Z)
| sys_shutdown (fd how : Z)
| sys_recvfrom (fd count flags : Z)
| sys_sendmsg (fd : Z) (address : option bytes) (iov : list bytes)
| sys_open (path : string) (flags : Z)
| sys_ioctl (fd request flags : Z) (name : string)
| sys_clock                                        (* steady_clock::now() *)
| sys_random.                                      (* random_device()() *)

(** The answer: the return value, [errno], the bytes stored through a pointer (the
    buffer of [read] and [recvfrom]), a socket address, and the numbers stored
    through a pointer (the [revents] of [poll], the descriptors of [socketpair], the
    option and its length of [getsockopt], the milliseconds of the clock). *)
Record sysret : Type := mkSysret {
  ret : Z;
  errno : Z;
  out : bytes;
  out_address : bytes;
  out_values : list Z
}.

Class Kernel (K : Type) : Type := kcall : K -> syscall -> sysret * K.

Definition iov_size (iov : list bytes) : Z := size (concat iov).

(** What the manual pages say of the answers: a call that fails returns -1 and sets
    [errno]; a transfer is of at most 0x7ffff000 bytes; [read] stores as many bytes as
    it returns, and no more than asked for; [recvfrom] stores what fits of the datagram
    whose length it returns; [writev] takes no more than it is given,
    and something of a non-empty buffer unless it fails (the case the code guards
    against with an exception of its own, see [write_zero_throws] in [FileDescriptor]);
    [poll] answers for each descriptor. *)
Definition posix (c : syscall) (r : sysret) : Prop :=
  match c with
  | sys_clock => is_u64 (ret r)
  | sys_random => is_u32 (ret r)
  | _ =>
      -1 <= ret r <= 2147479552 /\ (ret r < 0 -> 0 < errno r) /\
      match c with
      | sys_read _ count => 0 <= ret r -> ret r <= count /\ size (out r) = ret r
      | sys_recvfrom _ count _ => 0 <= ret r -> size (out r) = Z.min (ret r) count
      | sys_writev _ iov => ret r <= iov_size iov /\ (0 < iov_size iov -> ret r <> 0)
      | sys_poll fds _ => length (out_values r) = length fds
      | _ => True
      end
  end.

Class PosixKernel (K : Type) `{Kernel K} : Prop :=
  kernel_posix : forall k c, posix c (fst (kcall k c)).

(** The system a thread runs on: the kernel and the history of the calls made. *)
Record Sys (K : Type) : Type := mkSys {
  kernel : K;
  history : list (syscall * sysret)
}.
Arguments mkSys {K}.
Arguments kernel {K}.
Arguments history {K}.

Section syscalls.
Context {K : Type} `{Kernel K}.

Definition sys (c : syscall) : M (Sys K) sysret := fun s =>
  let '(r, k) := kcall (kernel s) c in (Ok r, mkSys k (history s ++ [(c, r)])).

(** [SystemCall(attempt, return_value, errno_mask)], the return value converted to
    [int]. *)
Definition SystemCall (attempt : string) (r : sysret) (errno_mask : Z) : result Z :=
  let return_value := s32 (ret r) in
  if (0 <=? return_value) || (errno r =? errno_mask) then Ok return_value
  else Throw (SystemError attempt (errno r)).

(** [SystemCall(attempt, ::call(...))]: the answer is kept for what the call stores
    through its pointers. *)
Definition checked (attempt : string) (c : syscall) : M (Sys K) (Z * sysret) :=
  let* r := sys c in
  let* v := mlift (SystemCall attempt r 0) in
  mret (v, r).

(** [timestamp_ms()] *)
Definition timestamp_ms : M (Sys K) Z :=
  let* r := sys sys_clock in mret (u64 (ret r)).

(** *** What a call does *)

Lemma sys_history c s : exists r k, sys c s = (Ok r, mkSys k (history s ++ [(c, r)])) /\
  kcall (kernel s) c = (r, k).
Proof. unfold sys. destruct (kcall (kernel s) c) as [r k] eqn:E. eauto. Qed.

(** A checked call adds one entry to the history; it throws when the call failed. *)
Lemma checked_spec `{!PosixKernel K} attempt c s : c <> sys_clock -> c <> sys_random ->
  exists r k, kcall (kernel s) c = (r, k) /\ posix c r /\ checked attempt c s =
    (if ret r <? 0 then Throw (SystemError attempt (errno r)) else Ok (ret r, r),
     mkSys k (history s ++ [(c, r)])).
Proof.
  intros Hc Hr. destruct (sys_history c s) as (r & k & Es & Ek). exists r, k.
  pose proof (kernel_posix (kernel s) c) as Hp. rewrite Ek in Hp. split; [done|]. split; [done|].
  unfold checked, mbind. rewrite Es. unfold mlift, SystemCall.
  assert (-1 <= ret r <= 2147479552 /\ (ret r < 0 -> 0 < errno r)) as [Hret Herr].
  { destruct c; try (by destruct Hp as (? & ? & _)); done. }
  assert (s32 (ret r) = ret r) as -> by ints.
  destruct (Z.leb_spec 0 (ret r)), (Z.ltb_spec (ret r) 0); try lia; cbn [orb]; [done|].
  destruct (Z.eqb_spec (errno r) 0); [lia|done].
Qed.

(** A run of system calls that satisfy [P]. *)
Definition os_step (P : syscall -> Prop) (s s' : Sys K) : Prop :=
  exists c r k, P c /\ kcall (kernel s) c = (r, k) /\ s' = mkSys k (history s ++ [(c, r)]).

Definition os_steps (P : syscall -> Prop) : Sys K -> Sys K -> Prop := rtc (os_step P).

Lemma os_step_one P c s r k : P c -> kcall (kernel s) c = (r, k) -> os_steps P s (mkSys k (history s ++ [(c, r)])).
Proof. intros HP Hk. apply rtc_once. by exists c, r, k. Qed.

Lemma os_steps_mono (P Q : syscall -> Prop) s s' : (forall c, P c -> Q c) -> os_steps P s s' -> os_steps Q s s'.
Proof.
  intros HPQ. induction 1 as [|s s1 s' (c & r & k & HP & Hk & ->) _ IH]; [constructor|].
  eapply rtc_l; [|exact IH]. exists c, r, k. auto.
Qed.

(** The history a run adds. *)
Lemma os_steps_trace P s s' : os_steps P s s' ->
  exists tr, history s' = history s ++ tr /\ Forall (fun e => P (fst e)) tr.
Proof.
  induction 1 as [s|s s1 s' (c & r & k & HP & Hk & ->) _ (tr & Htr & Hall)]; [exists []; by rewrite app_nil_r|].
  exists ((c, r) :: tr). split; [by rewrite Htr; simpl; rewrite <- app_assoc|by constructor].
Qed.

(** What does not change with any of the calls does not change with the run. *)
Lemma os_steps_stable {A} (P : syscall -> Prop) (f : Sys K -> A) s s' :
  (forall s c r k, P c -> kcall (kernel s) c = (r, k) -> f (mkSys k (history s ++ [(c, r)])) = f s) ->
  os_steps P s s' -> f s' = f s.
Proof.
  intros Hf. induction 1 as [|s s1 s' (c & r & k & HP & Hk & ->) _ IH]; [done|]. rewrite IH. by apply Hf.
Qed.
End syscalls.

(** ** What a history shows *)

(** The descriptor a call is about. *)
Definition call_fd (c : syscall) : option Z :=
  match c with
  | sys_read fd _ | sys_writev fd _ | sys_close fd | sys_getfl fd | sys_setfl fd _ | sys_getsockopt fd _ _
  | sys_setsockopt fd _ _ _ | sys_getsockname fd | sys_getpeername fd | sys_bind fd _ | sys_connect fd _
  | sys_listen fd _ | sys_accept fd | sys_shutdown fd _ | sys_recvfrom fd _ _ | sys_sendmsg fd _ _
  | sys_ioctl fd _ _ _ => Some fd
  | sys_poll _ _ | sys_socket _ _ _ | sys_socketpair _ _ _ | sys_open _ _ | sys_clock | sys_random => None
  end.

Definition about (fd : Z) (e : syscall * sysret) : Prop := call_fd (fst e) = Some fd.

(** The bytes read from, and taken by, the descriptor [fd]. *)
Definition read_bytes (fd : Z) (e : syscall * sysret) : bytes :=
  match fst e with
  | sys_read fd' _ => if fd' =? fd then ztake (ret (snd e)) (out (snd e)) else []
  | _ => []
  end.

Definition written_bytes (fd : Z) (e : syscall * sysret) : bytes :=
  match fst e with
  | sys_writev fd' iov => if fd' =? fd then ztake (ret (snd e)) (concat iov) else []
  | _ => []
  end.

Definition received (fd : Z) (h : list (syscall * sysret)) : bytes := concat (map (read_bytes fd) h).
Definition sent (fd : Z) (h : list (syscall * sysret)) : bytes := concat (map (written_bytes fd) h).

Lemma received_app fd h h' : received fd (h ++ h') = received fd h ++ received fd h'.
Proof. unfold received. by rewrite map_app, concat_app. Qed.

Lemma sent_app fd h h' : sent fd (h ++ h') = sent fd h ++ sent fd h'.
Proof. unfold sent. by rewrite map_app, concat_app. Qed.

Lemma concat_nils {A B} (f : A -> list B) l : Forall (fun x => f x = []) l -> concat (map f l) = [].
Proof. induction 1 as [|x l Hx _ IH]; simpl; [done|by rewrite Hx]. Qed.

(** Calls about another descriptor do not show. *)
Lemma received_other fd fd' h : fd <> fd' -> Forall (about fd') h -> received fd h = [].
Proof.
  intros Hne Hh. apply concat_nils. eapply Forall_impl; [exact Hh|]. intros [c r] Ha.
  unfold about, read_bytes in *. simpl in *. destruct c; try done. simplify_eq/=. case_cmp; [congruence|done].
Qed.

Lemma sent_other fd fd' h : fd <> fd' -> Forall (about fd') h -> sent fd h = [].
Proof.
  intros Hne Hh. apply concat_nils. eapply Forall_impl; [exact Hh|]. intros [c r] Ha.
  unfold about, written_bytes in *. simpl in *. destruct c; try done. simplify_eq/=. case_cmp; [congruence|done].
Qed.
