(* ===== verification/SimKernel.v ===== *)
(** * SimKernel: a kernel to run the code on

    A small kernel with two descriptors: number 3 is one end of a stream whose other
    end has written [stream] and closed it, number 4 is a device that offers packets,
    one per call of [poll], as scheduled.  It takes whatever is written to it, at most
    [burst] bytes at a time.  It satisfies what the manual pages promise ([posix]), so
    the theorems about code that runs on a kernel can be tried on it. *)

From Stdlib Require Import Strings.String.
From S2P Require Import Prelude System.

Record SimKernel : Type := mkSimKernel {
  stream : bytes;
  ready : option bytes;                (* the packet that can be read now *)
  schedule : list (option bytes);      (* what becomes readable with each [poll] *)
  burst : Z
}.

Definition STREAM_FD : Z := 3.
Definition DEVICE_FD : Z := 4.
Definition EAGAIN : Z := 11.
Definition EINVAL : Z := 22.

Definition done_with (n : Z) : sysret := mkSysret n 0 [] [] [].
Definition failed_with (code : Z) : sysret := mkSysret (-1) code [] [] [].
Definition gave (l : bytes) : sysret := mkSysret (size l) 0 l [] [].

(** At most this much in one transfer. *)
Definition transfer (k : SimKernel) (n : Z) : Z := Z.max 1 (Z.min n (Z.min (burst k) 65536)).

Definition poll_answer (k : SimKernel) (x : Z * Z) : Z :=
  let readable := if fst x =? DEVICE_FD then match ready k with Some _ => POLLIN | None => 0 end else POLLIN in
  Z.land (snd x) (Z.lor readable POLLOUT).

#[export] Instance sim_kernel : Kernel SimKernel := fun k c =>
  match c with
  | sys_read fd count =>
      if count <=? 0 then (failed_with EINVAL, k) else
      if fd =? STREAM_FD then
        let n := transfer k count in
        (gave (ztake n (stream k)), mkSimKernel (zdrop n (stream k)) (ready k) (schedule k) (burst k))
      else match ready k with
           | Some x => (gave (ztake (Z.min count 65536) x), mkSimKernel (stream k) None (schedule k) (burst k))
           | None => (failed_with EAGAIN, k)
           end
  | sys_writev fd iov => (done_with (Z.min (iov_size iov) (transfer k (iov_size iov))), k)
  | sys_poll fds timeout =>
      let k' := match schedule k with
                | [] => mkSimKernel (stream k) (ready k) [] (burst k)
                | None :: rest => mkSimKernel (stream k) (ready k) rest (burst k)
                | Some x :: rest => mkSimKernel (stream k) (Some x) rest (burst k)
                end in
      let answers := map (poll_answer k') fds in
      (mkSysret (if existsb (fun v => negb (v =? 0)) answers then 1 else 0) 0 [] [] answers, k')
  | sys_recvfrom _ _ _ => (failed_with EAGAIN, k)
  | sys_random => (done_with 7, k)
  | _ => (done_with 0, k)
  end.

Lemma read_fails fd count code : 0 < code -> posix (sys_read fd count) (failed_with code).
Proof. intros Hc. simpl. split_and!; try lia; intros; lia. Qed.

Lemma read_gives fd count l n : 0 < n -> n <= count -> n <= 65536 -> posix (sys_read fd count) (gave (ztake n l)).
Proof.
  intros H1 H2 H3. simpl. rewrite size_ztake by lia. pose proof (size_nonneg l). split_and!; try lia; intros; lia.
Qed.

#[export] Instance sim_posix : PosixKernel SimKernel.
Proof.
  intros k c. unfold kcall, sim_kernel, transfer.
  destruct c as [fd count|fd iov| | | |fds t| | | | | | | | | | | |fd count flags| | | | |]; try (simpl; by split_and!).
  - destruct (Z.leb_spec count 0); [by apply read_fails|].
    destruct (fd =? STREAM_FD); [apply read_gives; lia|]. destruct (ready k); [apply read_gives; lia|by apply read_fails].
  - simpl. unfold iov_size. pose proof (size_nonneg (concat iov)). split_and!; try lia; intros; lia.
  - simpl. rewrite length_map. by destruct (existsb _ _); split_and!.
Qed.
