(* ===== verification/Capture.v ===== *)
(** * Capture: the capture loop of udp_tcpdump

    Models [main] of [apps/udp_tcpdump.cc] around the decoding of a packet (file
    [UdpDump]): the arguments, opening the capture, the filter, the loop over the packets
    and what is printed of each, on the streams of file [Printers].  The capture library
    is a parameter (class [Pcap]), as is the textual form of an address ([inet_ntop]).
    The handle is part of the state; using it after it has been closed is undefined, and
    [OutOfBounds] here.  What is printed on [cerr] and the usage text are left out.  The
    loop is watched for a number of turns. *)

From Stdlib Require Import Strings.String.
From S2P Require Import Prelude WrappingIntegers Parser TCPSegment Address System SimKernel Printers CommandLine UdpDump.

(** ** The capture library *)

(** What [pcap_next_ex] returns: 1, 0, -1 and -2. *)
Inductive captured : Type :=
| Packet (pkt : bytes)
| TimedOut
| ReadError
| Broken.

Class Pcap (P : Type) : Type := {
  pcap_open_live : option string -> P -> string + P;      (* the message, or the handle *)
  pcap_datalink : P -> datalink;
  pcap_datalink_val_to_description : datalink -> string;
  pcap_compile : string -> P -> bool * P;                 (* whether it succeeds *)
  pcap_setfilter : P -> bool * P;
  pcap_geterr : P -> string;
  pcap_next_ex : P -> captured * P
}.

(** ** What is printed of a packet *)

Section capture.
Context {P : Type} `{Pcap P} (inet_ntop : bytes -> option string).

(** [inet4_addr], [inet6_addr] *)
Definition address_text (address : bytes) : bytes := text (default "unknown"%string (inet_ntop address)).

Definition set_base (hex : bool) (o : ostream) : ostream := mkOstream hex (fill o) (written o).

Definition flag_text (h : TCPHeader) : string :=
  ((if urg h then "U" else "") ++ (if psh h then "P" else "") ++ (if rst h then "R" else "") ++
   (if syn h then "S" else "") ++ (if fin h then "F" else "") ++ (if ack h then "." else ""))%string.

Definition show_segment (src dst : bytes) (seg : TCPSegment) (correct : bool) (payload_len : Z) (o : ostream) : ostream :=
  let tcp_hdr := _header seg in
  let seqlen := u32 (length_in_sequence_space seg) in
  let o := put_int 0 (sport tcp_hdr) (put (address_text src ++ text ":") o) in
  let o := put_int 0 (dport tcp_hdr) (put (text " > " ++ address_text dst ++ text ":") o) in
  let o := put ([x0a] ++ text "    Flags [" ++ text (flag_text tcp_hdr) ++ text "] cksum 0x") o in
  let o := set_base false (put_int 4 (cksum tcp_hdr) (set_base true o)) in
  let o := put (text (if correct then " (correct)" else " (incorrect!)") ++ text " seq ") o in
  let o := put_int 0 (raw_value (seqno tcp_hdr)) o in
  let o := if 0 <? seqlen then put_int 0 (raw_value (wadd (seqno tcp_hdr) seqlen)) (put (text ":") o) else o in
  let o := put_int 0 (raw_value (ackno tcp_hdr)) (put (text " ack ") o) in
  let o := put_int 0 (win tcp_hdr) (put (text " win ") o) in
  put [x0a] (put_int 0 payload_len (put (text " length ") o)).

(** What a report looks like; nothing when the packet is skipped. *)
Definition show_report (r : report) (o : ostream) : ostream :=
  match r with
  | Skipped _ | GivesUp => o
  | Unrecognized src dst payload =>
      hexdump payload 8
        (put (text "(did not recognize TCP header) src: " ++ address_text src ++ text " dst: " ++ address_text dst ++ [x0a]) o)
  | Segment src dst seg correct payload =>
      hexdump payload 8 (show_segment src dst seg correct (size payload) o)
  end.

(** ** The program *)

Abbreviation S := (P * ostream)%type.

Definition on_handle {A : Type} (f : P -> A * P) : M S A := fun s => let '(a, p) := f (fst s) in (Ok a, (p, snd s)).
Definition print (data : bytes) : M S unit := mmodify (fun s => (fst s, put data (snd s))).

(** [while ((next_ret = pcap_next_ex(...)) >= 0)], and what follows: the status.  The
    handle is closed before the message of an error is asked for. *)
Fixpoint capture_loop (turns : nat) (dl_type : datalink) : M S Z :=
  match turns with
  | O => mthrow OutOfFuel
  | Datatypes.S turns =>
      let* next_ret := on_handle pcap_next_ex in
      match next_ret with
      | TimedOut => capture_loop turns dl_type
      | Packet pkt =>
          let* r := mlift (dump_packet dl_type pkt) in
          do* mmodify (fun s => (fst s, show_report r (snd s)));
          match r with
          | GivesUp => mret 1
          | _ => capture_loop turns dl_type
          end
      | ReadError => mthrow OutOfBounds
      | Broken => mret 0
      end
  end.

(** [for (int i = exp_start; i < argc; ++i) f_stream << argv[i] << ' '] *)
Definition filter_expression (words : list string) : string := String.concat "" (map (fun w => w ++ " ")%string words).

Definition supported (dl_type : datalink) : bool := match dl_type with DLT_OTHER => false | _ => true end.

(** From the handle on. *)
Definition capture (turns : nat) (words : list string) : M S Z :=
  let* p := mgets fst in
  let dl_type := pcap_datalink p in
  let description := text (pcap_datalink_val_to_description dl_type) in
  if negb (supported dl_type) then
    do* print ([x0a] ++ text "Error: unsupported datalink type " ++ description ++ [x0a]);
    mret 1
  else
  do* print (text " (type: " ++ description ++ text ")" ++ [x0a]);
  do* print (text "Using filter expression: " ++ text (filter_expression words) ++ [x0a]);
  let* compiled := on_handle (pcap_compile (filter_expression words)) in
  if negb compiled then
    let* p := mgets fst in
    do* print (text "Error compiling filter expression: " ++ text (pcap_geterr p) ++ [x0a]);
    mret 1
  else
  let* set := on_handle pcap_setfilter in
  if negb set then
    let* p := mgets fst in
    do* print (text "Error configuring packet filter: " ++ text (pcap_geterr p) ++ [x0a]);
    mret 1
  else
  do* mmodify (fun s => (fst s, mkOstream (is_hex (snd s)) "0"%byte (written (snd s))));
  capture_loop turns dl_type.

(** [p] is the library before the call of [pcap_open_live]. *)
Definition dump_main (turns : nat) (argv : list string) : M S Z :=
  match parse_arguments (length argv) argv 1 None with
  | Exits status _ => mret status
  | Fails e => mthrow e
  | Returns (dev, exp_start) =>
      do* print (match dev with
                 | Some dev => text "Capturing on interface " ++ text dev
                 | None => text "Capturing on all interfaces"
                 end);
      let* p := mgets fst in
      match pcap_open_live dev p with
      | inl errbuf =>
          do* print ([x0a] ++ text "Error initiating capture: " ++ text errbuf ++ [x0a]);
          mret 1
      | inr p =>
          do* mmodify (fun s => (p, snd s));
          capture turns (drop (Z.to_nat exp_start) argv)
      end
  end.
End capture.

(** ** Properties *)

(** The packets that a number of calls deliver. *)
Fixpoint packets {P : Type} `{Pcap P} (turns : nat) (p : P) : list bytes :=
  match turns with
  | O => []
  | Datatypes.S turns =>
      match pcap_next_ex p with
      | (Packet pkt, p) => pkt :: packets turns p
      | (TimedOut, p) => packets turns p
      | _ => []
      end
  end.

(** Whether the capture is still going on after a number of calls, and how it ended. *)
Fixpoint ending {P : Type} `{Pcap P} (turns : nat) (p : P) : result Z :=
  match turns with
  | O => Throw OutOfFuel
  | Datatypes.S turns =>
      match pcap_next_ex p with
      | (Packet _, p) | (TimedOut, p) => ending turns p
      | (ReadError, _) => Throw OutOfBounds
      | (Broken, _) => Ok 0
      end
  end.

(** Every packet is shown.  Whatever the library delivers, for as long as the loop runs:
    if each packet can be decoded (file [UdpDump] says which can, and to what), then the
    reports of all packets have been printed, one after the other in the order of their
    arrival, and nothing else; timeouts are passed over; and the loop ends only when the
    library says so. *)
Theorem capture_shows_packets {P : Type} `{Pcap P} inet_ntop turns dl_type (p : P) o rs :
  Forall2 (fun pkt r => dump_packet dl_type pkt = Ok r /\ r <> GivesUp) (packets turns p) rs ->
  let '(r, s') := capture_loop inet_ntop turns dl_type (p, o) in
  snd s' = fold_left (fun o r => show_report inet_ntop r o) rs o /\ r = ending turns p.
Proof.
  revert p o rs. induction turns as [|turns IH]; intros p o rs Hrs; cbn [packets ending] in *; [by inversion Hrs|].
  cbn [capture_loop]. unfold mbind, on_handle. cbn [fst snd]. destruct (pcap_next_ex p) as [[pkt| | |] p1].
  - inversion Hrs as [|? r ? rs' [E Hne] Hrs']; subst. rewrite E. cbn. specialize (IH p1 (show_report inet_ntop r o) rs' Hrs').
    destruct r; [exact IH|exact IH|exact IH|done].
  - by apply IH.
  - by inversion Hrs.
  - by inversion Hrs.
Qed.

(** A library that delivers the packets of a list, and then fails or is stopped. *)
Module Recorded.
Record t : Type := mkRecorded { pending : list bytes; fails : bool }.

#[global] Instance recorded_pcap : Pcap t := {|
  pcap_open_live _ p := inr p;
  pcap_datalink _ := DLT_RAW;
  pcap_datalink_val_to_description _ := "Raw IP"%string;
  pcap_compile _ p := (true, p);
  pcap_setfilter p := (true, p);
  pcap_geterr _ := "read error"%string;
  pcap_next_ex p := match pending p with
                    | pkt :: rest => (Packet pkt, mkRecorded rest (fails p))
                    | [] => ((if fails p then ReadError else Broken), p)
                    end
|}.

Definition run (fails : bool) : result Z * (t * ostream) :=
  dump_main (fun _ => None) 3 ["udp_tcpdump"; "udp"]%string (mkRecorded [[]] fails, cout).
End Recorded.

(** The program ends when the capture is stopped; after a read error it asks the closed
    handle for the message. *)
Example capture_error_uses_closed_handle : fst (Recorded.run false) = Ok 0 /\ fst (Recorded.run true) = Throw OutOfBounds.
Proof. split; vm_compute; reflexivity. Qed.

Lemma capture_shows_packets_witness : exists pkt r, dump_packet DLT_RAW pkt = Ok r /\ r <> GivesUp /\
  snd (snd (capture_loop (fun _ => None) 2 DLT_RAW (Recorded.mkRecorded [pkt] false, cout))) = show_report (fun _ => None) r cout.
Proof.
  exists [], (Skipped "Error parsing IPv4/IPv6 packet"). split; [vm_compute; reflexivity|]. split; [done|].
  pose proof (capture_shows_packets (fun _ => None) 2 DLT_RAW (Recorded.mkRecorded [[]] false) cout [Skipped "Error parsing IPv4/IPv6 packet"]) as Ht.
  destruct (capture_loop _ 2 DLT_RAW _) as [r s']. destruct Ht as [E _]; [|exact E]. constructor; [by split; [vm_compute|]|constructor].
Defined.
