(* ===== verification/FileDescriptor.v ===== *)
(** * FileDescriptor: reference-counted handles to kernel descriptors

    Models [libsponge/util/file_descriptor.hh], [file_descriptor.cc] and
    [BufferViewList::as_iovecs] of [buffer.cc].  A [FileDescriptor] is a
    [shared_ptr] to an [FDWrapper]: here the index of a cell of the process's heap,
    with its use count.  Copies of the index are aliases, as copies of the pointer
    are: a read through one is seen through the other. *)

From Stdlib Require Import Strings.String.
From stdpp Require Import relations.
From S2P Require Import Prelude Address Parser System SimKernel.

(** ** State *)

Record FDWrapper : Type := mkFDWrapper {
  _fd : Z;
  _eof : bool;
  _closed : bool;
  _read_count : Z;           (* unsigned *)
  _write_count : Z           (* unsigned *)
}.

(** A cell of the heap: the wrapper and the use count of the pointers to it. *)
Record cell : Type := mkCell {
  wrapper : FDWrapper;
  uses : nat
}.

(** The system and the heap. *)
Record Proc (K : Type) : Type := mkProc {
  os : Sys K;
  heap : list cell
}.
Arguments mkProc {K}.
Arguments os {K}.
Arguments heap {K}.

(** [std::shared_ptr<FDWrapper> _internal_fd] *)
Abbreviation FileDescriptor := nat.

Definition O_NONBLOCK : Z := 2048.
Definition BUFFER_SIZE : Z := 1024 * 1024.
Definition NPOS : Z := 18446744073709551615.   (* numeric_limits<size_t>::max() *)

(** The elements point to the views: their content and lengths. *)
Definition as_iovecs (l : BufferViewList) : list bytes := map (fun x => x) l.

Definition map_wrapper (f : FDWrapper -> FDWrapper) (c : cell) : cell := mkCell (f (wrapper c)) (uses c).
Definition set_eof (x : FDWrapper) : FDWrapper :=
  mkFDWrapper (_fd x) true (_closed x) (_read_count x) (_write_count x).
Definition set_closed (x : FDWrapper) : FDWrapper :=
  mkFDWrapper (_fd x) true true (_read_count x) (_write_count x).
Definition count_read (x : FDWrapper) : FDWrapper :=
  mkFDWrapper (_fd x) (_eof x) (_closed x) (u32 (_read_count x + 1)) (_write_count x).
Definition count_write (x : FDWrapper) : FDWrapper :=
  mkFDWrapper (_fd x) (_eof x) (_closed x) (_read_count x) (u32 (_write_count x + 1)).

Section file_descriptor.
Context {K : Type} `{Kernel K}.

Definition on_os {A : Type} (m : M (Sys K) A) : M (Proc K) A :=
  zoom os (fun p s => mkProc s (heap p)) m.

Definition syscall_checked (attempt : string) (c : syscall) : M (Proc K) (Z * sysret) := on_os (checked attempt c).

(** [*_internal_fd] *)
Definition deref (d : FileDescriptor) : M (Proc K) FDWrapper := fun p =>
  match heap p !! d with
  | Some c => (Ok (wrapper c), p)
  | None => (Throw NullDereference, p)
  end.

Definition update (d : FileDescriptor) (f : cell -> cell) : M (Proc K) unit :=
  mmodify (fun p => mkProc (os p) (alter f d (heap p))).

(** ** FDWrapper *)

Definition construct_wrapper (fd : Z) : result FDWrapper :=
  if fd <? 0 then Throw (RuntimeError ("invalid fd number:-" ++ to_string (- fd))) else Ok (mkFDWrapper fd false false 0 0).

Definition wrapper_close (d : FileDescriptor) : M (Proc K) unit :=
  let* x := deref d in
  do* syscall_checked "close" (sys_close (_fd x));
  update d (map_wrapper set_closed).

(** [~FDWrapper]: an exception is reported and dropped. *)
Definition destruct_wrapper (d : FileDescriptor) : M (Proc K) unit :=
  mcatch
    (let* x := deref d in
     if _closed x then mret tt else wrapper_close d)
    (fun _ => mret tt).

(** ** FileDescriptor *)

Definition construct_fd (fd : Z) : M (Proc K) FileDescriptor :=
  let* x := mlift (construct_wrapper fd) in
  let* d := mgets (fun p => length (heap p)) in
  do* mmodify (fun p => mkProc (os p) (heap p ++ [mkCell x 1]));
  mret d.

Definition duplicate (d : FileDescriptor) : M (Proc K) FileDescriptor :=
  do* deref d;
  do* update d (fun c => mkCell (wrapper c) (uses c + 1));
  mret d.

(** [~FileDescriptor]: the last pointer takes the wrapper with it. *)
Definition destruct_fd (d : FileDescriptor) : M (Proc K) unit :=
  do* update d (fun c => mkCell (wrapper c) (uses c - 1));
  let* n := mgets (fun p => match heap p !! d with Some c => uses c | None => 1%nat end) in
  match n with
  | O => destruct_wrapper d
  | S _ => mret tt
  end.

Definition register_read (d : FileDescriptor) : M (Proc K) unit := update d (map_wrapper count_read).
Definition register_write (d : FileDescriptor) : M (Proc K) unit := update d (map_wrapper count_write).

Definition fd_close (d : FileDescriptor) : M (Proc K) unit := wrapper_close d.

Definition fd_num (d : FileDescriptor) : M (Proc K) Z := let* x := deref d in mret (_fd x).
Definition fd_eof (d : FileDescriptor) : M (Proc K) bool := let* x := deref d in mret (_eof x).
Definition fd_closed (d : FileDescriptor) : M (Proc K) bool := let* x := deref d in mret (_closed x).
Definition read_count (d : FileDescriptor) : M (Proc K) Z := let* x := deref d in mret (_read_count x).
Definition write_count (d : FileDescriptor) : M (Proc K) Z := let* x := deref d in mret (_write_count x).

(** [str.resize(n)] throws for a length that no string has. *)
Definition string_resize (s : bytes) (n : Z) : result bytes :=
  if 9223372036854775807 <? n then Throw LengthError else Ok (resize s n).

(** [read(std::string &str, limit)]: the kernel stores [out] at the front of the
    buffer. *)
Definition read_into (d : FileDescriptor) (str : bytes) (limit : Z) : M (Proc K) bytes :=
  let size_to_read := Z.min BUFFER_SIZE limit in
  let str := resize str size_to_read in
  let* fd := fd_num d in
  let* (bytes_read, r) := syscall_checked "read" (sys_read fd size_to_read) in
  let str := ztake size_to_read (out r) ++ zdrop (size (out r)) str in
  do* (if (0 <? limit) && (bytes_read =? 0) then update d (map_wrapper set_eof) else mret tt);
  if size_to_read <? bytes_read then mthrow (RuntimeError "read() read more than requested") else
  let* str := mlift (string_resize str (u64 bytes_read)) in
  do* register_read d;
  mret str.

Definition fd_read (d : FileDescriptor) (limit : Z) : M (Proc K) bytes := read_into d [] limit.

(** The [do ... while] loop of [write]. *)
Fixpoint write_loop (fuel : nat) (d : FileDescriptor) (buffer : BufferViewList) (write_all : bool)
    (total_bytes_written : Z) : M (Proc K) Z :=
  match fuel with
  | O => mthrow OutOfFuel
  | S fuel =>
      let iovecs := as_iovecs buffer in
      let* fd := fd_num d in
      let* (bytes_written, _) := syscall_checked "writev" (sys_writev fd iovecs) in
      if (bytes_written =? 0) && negb (view_size buffer =? 0)
      then mthrow (RuntimeError "write returned 0 given non-empty input buffer") else
      if view_size buffer <? bytes_written
      then mthrow (RuntimeError "write wrote more than length of input buffer") else
      do* register_write d;
      let* buffer := mlift (view_remove_prefix buffer (u64 bytes_written)) in
      let total_bytes_written := u64 (total_bytes_written + bytes_written) in
      if write_all && negb (view_size buffer =? 0)
      then write_loop fuel d buffer write_all total_bytes_written
      else mret total_bytes_written
  end.

(** Each turn of the loop writes a byte, so one turn more than there are bytes is
    enough. *)
Definition fd_write (d : FileDescriptor) (buffer : BufferViewList) (write_all : bool) : M (Proc K) Z :=
  write_loop (S (Z.to_nat (view_size buffer))) d buffer write_all 0.

Definition set_blocking (d : FileDescriptor) (blocking_state : bool) : M (Proc K) unit :=
  let* fd := fd_num d in
  let* (flags, _) := syscall_checked "fcntl" (sys_getfl fd) in
  let flags := if blocking_state then Z.lxor flags (Z.land flags O_NONBLOCK) else Z.lor flags O_NONBLOCK in
  let* fd := fd_num d in
  do* syscall_checked "fcntl" (sys_setfl fd flags);
  mret tt.
End file_descriptor.

(** ** Views *)

Lemma view_size_concat l : size (concat l) < 18446744073709551616 -> view_size l = size (concat l).
Proof.
  unfold view_size. intros Hl. enough (forall acc, 0 <= acc -> acc + size (concat l) < 18446744073709551616 ->
    fold_left (fun ret v => u64 (ret + size v)) l acc = acc + size (concat l)) as H by (apply H; lia).
  clear Hl. induction l as [|v l IH]; intros acc Ha Hl; simpl in *; [rewrite size_nil; lia|].
  rewrite size_app in Hl |- *. pose proof (size_nonneg v). pose proof (size_nonneg (concat l)).
  rewrite u64_small by ints. rewrite IH by lia. lia.
Qed.

Lemma view_remove_prefix_spec l n : n <= size (concat l) ->
  exists l', view_remove_prefix l n = Ok l' /\ concat l' = zdrop n (concat l).
Proof.
  revert n. induction l as [|v l IH]; intros n Hn; simpl; destruct (Z.leb_spec n 0).
  - eexists. split; [done|]. by rewrite zdrop_0.
  - simpl in Hn. change (size (@nil byte)) with 0 in Hn. lia.
  - eexists. split; [done|]. by rewrite zdrop_0.
  - simpl in Hn. rewrite size_app in Hn. destruct (Z.ltb_spec n (size v)).
    + eexists. split; [done|]. simpl. by rewrite zdrop_app_le by lia.
    + destruct (IH (n - size v)) as (l' & -> & E); [lia|]. exists l'. split; [done|].
      by rewrite zdrop_app_ge by lia.
Qed.

Lemma as_iovecs_id l : as_iovecs l = l.
Proof. apply map_id. Qed.

(** ** What the operations do *)

Section facts.
Context {K : Type} `{PosixKernel K}.
Implicit Types (p : Proc K) (d : FileDescriptor).

(** The process after a system call. *)
Definition called p (k : K) (c : syscall) (r : sysret) : Proc K := mkProc (mkSys k (history (os p) ++ [(c, r)])) (heap p).

Lemma syscall_checked_spec attempt c p : c <> sys_clock -> c <> sys_random ->
  exists r k, kcall (kernel (os p)) c = (r, k) /\ posix c r /\ syscall_checked attempt c p =
    (if ret r <? 0 then Throw (SystemError attempt (errno r)) else Ok (ret r, r), called p k c r).
Proof.
  intros H1 H2. destruct (checked_spec attempt c (os p) H1 H2) as (r & k & Hk & Hp & E).
  exists r, k. split_and!; [done|done|]. unfold syscall_checked, on_os, zoom. by rewrite E.
Qed.

Lemma deref_ok d p c : heap p !! d = Some c -> deref d p = (Ok (wrapper c), p).
Proof. intros E. unfold deref. by rewrite E. Qed.

Lemma fd_num_ok d p c : heap p !! d = Some c -> fd_num d p = (Ok (_fd (wrapper c)), p).
Proof. intros E. unfold fd_num, mbind. by rewrite (deref_ok d p c E). Qed.

Definition after_read (limit n : Z) (x : FDWrapper) : FDWrapper :=
  count_read (if (0 <? limit) && (n =? 0) then set_eof x else x).

Lemma alter_twice d (f g : FDWrapper -> FDWrapper) (l : list cell) :
  alter (map_wrapper f) d (alter (map_wrapper g) d l) = alter (map_wrapper (fun x => f (g x))) d l.
Proof. rewrite list_alter_alter_eq. by apply list_alter_ext. Qed.

Lemma next_count_ne z : u32 (z + 1) <> z.
Proof. ints. Qed.

Lemma after_read_keeps limit n x : _fd (after_read limit n x) = _fd x /\ _closed (after_read limit n x) = _closed x /\
  _read_count (after_read limit n x) <> _read_count x.
Proof. unfold after_read. destruct (_ && _); simpl; split_and!; try done; apply next_count_ne. Qed.

(** Counting writes changes no flag. *)
Lemma iter_count_write m x : let y := Nat.iter m count_write x in
  _fd y = _fd x /\ _eof y = _eof x /\ _closed y = _closed x /\ _read_count y = _read_count x.
Proof. induction m as [|m IH]; simpl; [done|]. destruct IH as (? & ? & ? & ?). by split_and!. Qed.

(** While another object shares the wrapper, destroying one closes nothing. *)
Lemma destruct_fd_shared d (p : Proc K) c : heap p !! d = Some c -> (2 <= uses c)%nat ->
  destruct_fd d p = (Ok tt, mkProc (os p) (alter (fun c => mkCell (wrapper c) (uses c - 1)) d (heap p))).
Proof.
  intros Hc Hu. unfold destruct_fd, mbind, update, mmodify, mgets. cbn [heap].
  rewrite list_lookup_alter_eq, Hc. simpl. by destruct (uses c) as [|[|n]] eqn:E; [lia|lia|].
Qed.

(** A read is one system call.  It gives what the kernel stored, sets the EOF flag
    when there was nothing although something was asked for, and is counted. *)
Lemma fd_read_spec d limit p c : heap p !! d = Some c ->
  let call := sys_read (_fd (wrapper c)) (Z.min BUFFER_SIZE limit) in
  exists r k, kcall (kernel (os p)) call = (r, k) /\ posix call r /\
    fd_read d limit p =
      if ret r <? 0 then (Throw (SystemError "read" (errno r)), called p k call r)
      else (Ok (out r), mkProc (os (called p k call r))
                          (alter (map_wrapper (after_read limit (ret r))) d (heap p))).
Proof.
  intros Hd call. destruct (syscall_checked_spec "read" call p) as (r & k & Hk & Hp & E); [done|done|].
  exists r, k. split; [done|]. split; [done|]. unfold fd_read, read_into, mbind. rewrite (fd_num_ok d p c Hd).
  change (sys_read _ _) with call. rewrite E. unfold BUFFER_SIZE in *.
  destruct Hp as (Hret & _ & Hok). destruct (Z.ltb_spec (ret r) 0); [done|].
  destruct (Hok ltac:(lia)) as [Hle Hsz].
  assert (ztake (Z.min (1024 * 1024) limit) (out r) = out r) as -> by (apply ztake_all; lia).
  unfold string_resize. rewrite (u64_small (ret r)) by (unfold is_u64; lia).
  set (tl := zdrop _ _). destruct (Z.ltb_spec 9223372036854775807 (ret r)); [lia|].
  assert (resize (out r ++ tl) (ret r) = out r) as E2.
  { unfold resize. rewrite <- app_assoc, <- Hsz. apply ztake_app. }
  destruct ((0 <? limit) && (ret r =? 0)) eqn:Ez; (destruct (Z.ltb_spec (Z.min (1024 * 1024) limit) (ret r)); [lia|]);
    unfold mret, mlift, update, register_read, mmodify; simpl; rewrite E2; unfold after_read; rewrite Ez; do 2 f_equal.
  by rewrite alter_twice.
Qed.
(** What a write does: the calls [tr] on the descriptor [fd] take the first [n] bytes
    of the buffer, [m] of them succeed and are counted. *)
Record write_post (d : FileDescriptor) (fd : Z) (data : bytes) (all : bool) p (res : result Z) p'
    (tr : list (syscall * sysret)) (n : Z) (m : nat) : Prop := {
  wp_history : history (os p') = history (os p) ++ tr;
  wp_os : os_steps (fun c => exists iov, c = sys_writev fd iov) (os p) (os p');
  wp_about : Forall (about fd) tr;
  wp_sent : sent fd tr = ztake n data;
  wp_received : received fd tr = [];
  wp_n : 0 <= n <= size data;
  wp_heap : heap p' = alter (map_wrapper (Nat.iter m count_write)) d (heap p);
  wp_calls : (m <= length tr <= S m)%nat /\ (0 < size data -> Z.of_nat m <= n);
  wp_result : match res with
              | Ok t => t = n /\ (1 <= m)%nat /\ (all = true -> n = size data) /\ (all = false -> m = 1%nat) /\
                        (0 < size data -> 0 < n)
              | Throw e => (exists code, e = SystemError "writev" code) /\ (all = false -> n = 0)
              end
}.

Lemma writev_history c buffer r : let fd := _fd (wrapper c) in
  let tr := [(sys_writev fd buffer, r)] in
  Forall (about fd) tr /\ received fd tr = [] /\ sent fd tr = ztake (ret r) (concat buffer).
Proof. split_and!; [by repeat constructor|done|]. unfold sent, written_bytes. simpl. by rewrite Z.eqb_refl, app_nil_r. Qed.

(** One successful call, and the calls after it. *)
Lemma write_post_one d p c k buffer all r : heap p !! d = Some c ->
  kcall (kernel (os p)) (sys_writev (_fd (wrapper c)) buffer) = (r, k) -> 0 <= ret r <= size (concat buffer) ->
  (0 < size (concat buffer) -> ret r <> 0) -> (all = true -> ret r = size (concat buffer)) ->
  let call := sys_writev (_fd (wrapper c)) buffer in
  write_post d (_fd (wrapper c)) (concat buffer) all p (Ok (ret r))
    (mkProc (os (called p k call r)) (alter (map_wrapper count_write) d (heap p))) [(call, r)] (ret r) 1.
Proof.
  intros Hd Hk Hr Hnz Hall call. destruct (writev_history c buffer r) as (Hab & Hrc & Hst).
  constructor; try done; simpl; [apply os_step_one; eauto|split; lia|]. split_and!; try done; lia.
Qed.

Lemma write_post_more d p c k buffer rest r res p' tr n m : heap p !! d = Some c ->
  kcall (kernel (os p)) (sys_writev (_fd (wrapper c)) buffer) = (r, k) ->
  0 < ret r < size (concat buffer) -> concat rest = zdrop (ret r) (concat buffer) ->
  let call := sys_writev (_fd (wrapper c)) buffer in
  write_post d (_fd (wrapper c)) (concat rest) true
    (mkProc (os (called p k call r)) (alter (map_wrapper count_write) d (heap p))) res p' tr n m ->
  write_post d (_fd (wrapper c)) (concat buffer) true p (rbind res (fun t => Ok (t + ret r))) p'
    ((call, r) :: tr) (ret r + n) (S m).
Proof.
  intros Hd Hk Hr Hrest call; subst call. intros [Hh Hos Ha Hs Hc Hn Hp Hm Hres]. destruct (writev_history c buffer r) as (Hab & Hrc & Hst).
  assert (size (concat rest) = size (concat buffer) - ret r) as Hrs by (rewrite Hrest, size_zdrop; lia).
  constructor; simpl in *.
  - by rewrite Hh, <- app_assoc.
  - etransitivity; [|exact Hos]. apply os_step_one; eauto.
  - constructor; [by inversion Hab|done].
  - change (sent (_fd (wrapper c)) ([(sys_writev (_fd (wrapper c)) buffer, r)] ++ tr) = ztake (ret r + n) (concat buffer)).
    rewrite sent_app, Hst, Hs, Hrest, <- !slice_prefix. by rewrite <- slice_app by lia.
  - change (received (_fd (wrapper c)) ([(sys_writev (_fd (wrapper c)) buffer, r)] ++ tr) = []). by rewrite received_app, Hrc, Hc.
  - lia.
  - rewrite Hp, alter_twice. apply list_alter_ext; [|done]. intros x _. unfold map_wrapper. f_equal. symmetry. apply Nat.iter_succ_r.
  - lia.
  - destruct res as [t|e]; simpl; [|by split; [apply Hres|]]. destruct Hres as (-> & ? & Hall & _ & _). specialize (Hall eq_refl). split_and!; lia || done.
Qed.

Lemma write_loop_spec fuel d p c buffer all total : heap p !! d = Some c ->
  size (concat buffer) < 9223372036854775808 -> size (concat buffer) < Z.of_nat fuel ->
  is_u64 total -> total + size (concat buffer) < 18446744073709551616 ->
  exists res p' tr n m, write_loop fuel d buffer all total p = (res, p') /\
    write_post d (_fd (wrapper c)) (concat buffer) all p (rbind res (fun t => Ok (t - total))) p' tr n m.
Proof.
  revert p c buffer total. induction fuel as [|fuel IH]; intros p c buffer total Hd Hsz Hfuel Ht Hsum; [pose proof (size_nonneg (concat buffer)); lia|].
  pose proof (size_nonneg (concat buffer)) as Hpos.
  cbn [write_loop]. unfold mbind at 1. rewrite (fd_num_ok d p c Hd), as_iovecs_id.
  destruct (syscall_checked_spec "writev" (sys_writev (_fd (wrapper c)) buffer) p) as (r & k & Hk & Hp & E); [done|done|].
  unfold mbind at 1. rewrite E. pose proof Hp as (Hret & _ & Hle & Hnz). unfold iov_size in *.
  rewrite (view_size_concat buffer) by lia.
  destruct (writev_history c buffer r) as (Hab & Hrc & Hst). set (call := sys_writev _ _) in *.
  destruct (Z.ltb_spec (ret r) 0).
  { eexists _, _, [(call, r)], 0, 0%nat. split; [done|]. constructor; try done; simpl.
    - apply os_step_one; eauto.
    - rewrite Hst, !ztake_0 by lia. done.
    - rewrite (alter_fixed _ _ _ _ Hd); [done|by destruct c].
    - split; lia.
    - split; [by exists (errno r)|done]. }
  destruct (Z.eqb_spec (ret r) 0) as [Hz|Hz], (Z.eqb_spec (size (concat buffer)) 0) as [Hs|Hs]; cbn [andb negb];
    try lia; destruct (Z.ltb_spec (size (concat buffer)) (ret r)); try lia.
  all: unfold mbind at 1, register_write at 1, update at 1, mmodify at 1; unfold mbind at 1, mlift at 1.
  all: rewrite (u64_small (ret r)) by (unfold is_u64; lia).
  all: destruct (view_remove_prefix_spec buffer (ret r) Hle) as (rest & -> & Hrest).
  all: assert (size (concat rest) = size (concat buffer) - ret r) as Hrs by (rewrite Hrest, size_zdrop; lia).
  all: rewrite (view_size_concat rest) by lia; rewrite (u64_small (total + ret r)) by (unfold is_u64 in *; lia).
  { rewrite Hrs, Hs, Hz, andb_false_r. eexists _, _, _, _, _. split; [done|]. cbn [rbind].
    replace (total + 0 - total) with (ret r) by lia. apply (write_post_one d p c k); lia || done. }
  destruct (all && negb (size (concat rest) =? 0)) eqn:Eall.
  - apply andb_true_iff in Eall as [-> Hne%negb_true_iff%Z.eqb_neq].
    destruct (IH (mkProc (os (called p k call r)) (alter (map_wrapper count_write) d (heap p)))
                (map_wrapper count_write c) rest (total + ret r)) as (res & p' & tr & n & m & Eq & Hpost).
    + cbn [heap]. by rewrite list_lookup_alter_eq, Hd.
    + lia.
    + lia.
    + unfold is_u64 in *. lia.
    + lia.
    + exists res, p', ((call, r) :: tr), (ret r + n), (S m). split; [exact Eq|].
      assert (rbind res (fun t => Ok (t - total)) = rbind (rbind res (fun t => Ok (t - (total + ret r)))) (fun t => Ok (t + ret r))) as ->.
      { destruct res; simpl; [f_equal; lia|done]. }
      eapply write_post_more; [done|done|lia|done|exact Hpost].
  - eexists _, _, _, _, _. split; [done|]. cbn [rbind]. replace (total + ret r - total) with (ret r) by lia.
    apply (write_post_one d p c k); try done. intros ->. simpl in Eall. apply negb_false_iff, Z.eqb_eq in Eall. lia.
Qed.

Lemma fd_write_spec d p c buffer all : heap p !! d = Some c -> size (concat buffer) < 9223372036854775808 ->
  exists res p' tr n m, fd_write d buffer all p = (res, p') /\
    write_post d (_fd (wrapper c)) (concat buffer) all p res p' tr n m.
Proof.
  intros Hd Hsz. pose proof (size_nonneg (concat buffer)). unfold fd_write. rewrite view_size_concat by lia.
  destruct (write_loop_spec (S (Z.to_nat (size (concat buffer)))) d p c buffer all 0) as (res & p' & tr & n & m & E & Hp);
    [done|done|lia|unfold is_u64; lia|lia|].
  exists res, p', tr, n, m. split; [done|]. destruct res; simpl in Hp; [by rewrite Z.sub_0_r in Hp|done].
Qed.
End facts.

(** ** Properties *)

(** C28: Writing everything ends.  [write(buffer, true)] returns on every kernel: when it
    returns normally, exactly the bytes of the buffer have been taken by the descriptor,
    in order, and their number is returned; otherwise a [writev] failed, its error is
    thrown, and what was taken before is a prefix of the buffer.  (The bound on the
    number of turns is never met: each turn writes a byte.  A kernel whose [writev]
    takes nothing of a non-empty buffer and reports no failure is not a [PosixKernel];
    on it the code throws, see [write_zero_throws].) *)
Theorem fd_write_terminates {K : Type} `{PosixKernel K} d (p : Proc K) c buffer :
  heap p !! d = Some c -> size (concat buffer) < 9223372036854775808 ->
  let out h := sent (_fd (wrapper c)) (history (os h)) in
  match fd_write d buffer true p with
  | (Ok n, p') => n = size (concat buffer) /\ out p' = out p ++ concat buffer
  | (Throw e, p') => (exists code, e = SystemError "writev" code) /\
                     exists n, 0 <= n <= size (concat buffer) /\ out p' = out p ++ ztake n (concat buffer)
  end.
Proof.
  intros Hd Hsz. cbv zeta. destruct (fd_write_spec d p c buffer true Hd Hsz) as (res & p' & tr & n & m & -> & [W1 _ _ W4 _ W6 _ _ W9]).
  rewrite W1, sent_app, W4. destruct res as [t|e].
  - destruct W9 as (-> & _ & Hall & _). rewrite (Hall eq_refl). by rewrite ztake_all.
  - split; [apply W9|]. by exists n.
Qed.

Definition demo_proc (burst : Z) (data : bytes) : Proc SimKernel :=
  mkProc (mkSys (mkSimKernel data None [] burst) []) [mkCell (mkFDWrapper STREAM_FD false false 0 0) 1].

Lemma fd_write_terminates_witness : exists p', fd_write 0 [[x61; x62; x63]; [x64]] true (demo_proc 3 []) = (Ok 4, p') /\
  sent STREAM_FD (history (os p')) = [x61; x62; x63; x64].
Proof.
  eexists. split; [vm_compute; reflexivity|].
  pose proof (fd_write_terminates 0%nat (demo_proc 3 []) (mkCell (mkFDWrapper STREAM_FD false false 0 0) 1)
    [[x61; x62; x63]; [x64]] eq_refl ltac:(by vm_compute)) as Ht.
  exact (proj2 Ht).
Defined.

(** A kernel on which every call returns 0. *)
Definition zero_kernel : Kernel unit := fun k _ => (mkSysret 0 0 [] [] [], k).

Example write_zero_throws :
  let p := mkProc (mkSys tt []) [mkCell (mkFDWrapper 3 false false 0 0) 1] in
  fst (@fd_write unit zero_kernel 0%nat [[x61]] true p)
  = Throw (RuntimeError "write returned 0 given non-empty input buffer").
Proof. reflexivity. Qed.

(** C29: Reading is bounded.  [read(limit)] makes one system call; it returns at most
    [limit] bytes (and at most a megabyte), exactly those the kernel delivered; the EOF
    flag becomes set when something was asked for and nothing came, and is otherwise
    left; the only exception is that of a failed [read], which leaves the descriptor's
    flags and counters. *)
Theorem fd_read_bounded {K : Type} `{PosixKernel K} d limit (p : Proc K) c : heap p !! d = Some c ->
  match fd_read d limit p with
  | (Ok data, p') =>
      size data <= Z.min BUFFER_SIZE limit /\
      received (_fd (wrapper c)) (history (os p')) = received (_fd (wrapper c)) (history (os p)) ++ data /\
      exists c', heap p' !! d = Some c' /\ _fd (wrapper c') = _fd (wrapper c) /\
        _eof (wrapper c') = _eof (wrapper c) || ((0 <? limit) && (size data =? 0)) /\
        _read_count (wrapper c') = u32 (_read_count (wrapper c) + 1)
  | (Throw e, p') => (exists code, e = SystemError "read" code) /\ heap p' = heap p
  end.
Proof.
  intros Hd. destruct (fd_read_spec d limit p c Hd) as (r & k & Hk & (_ & _ & Hlen) & ->).
  destruct (Z.ltb_spec (ret r) 0); [by split; [eexists|]|]. destruct (Hlen ltac:(lia)) as [Hle Hsz]. split; [lia|]. split.
  - simpl. rewrite received_app. f_equal. unfold received, read_bytes. simpl. rewrite Z.eqb_refl, app_nil_r. apply ztake_all. lia.
  - eexists. simpl. rewrite list_lookup_alter_eq, Hd. split; [done|]. unfold after_read. rewrite <- Hsz.
    destruct ((0 <? limit) && (size (out r) =? 0)); simpl; by rewrite ?orb_true_r, ?orb_false_r.
Qed.

Lemma fd_read_bounded_witness : exists p', fd_read 0 2 (demo_proc 100 [x61; x62; x63]) = (Ok [x61; x62], p') /\
  size [x61; x62] <= 2.
Proof.
  eexists. split; [vm_compute; reflexivity|].
  exact (proj1 (fd_read_bounded 0%nat 2 (demo_proc 100 [x61; x62; x63])
    (mkCell (mkFDWrapper STREAM_FD false false 0 0) 1) eq_refl)).
Defined.
