(* ===== verification/Socket.v ===== *)
(** * Socket: sockets and TUN/TAP devices

    Models [libsponge/util/socket.hh], [socket.cc], [tun.hh] and [tun.cc]: the
    constructors with their checks, and every method.  A socket is a
    [FileDescriptor]; the subclasses differ in the domain and type their
    constructors ask for. *)

From Stdlib Require Import Strings.String.
From S2P Require Import Prelude Parser Address System FileDescriptor.

Definition AF_UNIX : Z := 1.
Definition SOCK_STREAM : Z := 1.
Definition SOCK_DGRAM : Z := 2.
Definition SOL_SOCKET : Z := 1.
Definition SO_REUSEADDR : Z := 2.
Definition SO_TYPE : Z := 3.
Definition SO_DOMAIN : Z := 39.
Definition MSG_TRUNC : Z := 32.
Definition SHUT_RD : Z := 0.
Definition SHUT_WR : Z := 1.
Definition SHUT_RDWR : Z := 2.
Definition SIZEOF_INT : Z := 4.

(** The [i]-th number the kernel stored. *)
Definition out_value (r : sysret) (i : nat) : Z := match out_values r !! i with Some z => z | None => 0 end.

(** The bytes an [Address] passes to the kernel. *)
Definition sockaddr (a : Address) : bytes := ztake (_size a) (_address a).

Record received_datagram : Type := mkReceived {
  source_address : Address;
  payload : bytes
}.

Section socket.
Context {K : Type} `{Kernel K}.

(** ** Socket *)

(** [Socket(domain, type)] *)
Definition open_socket (domain type : Z) : M (Proc K) FileDescriptor :=
  let* (fd, _) := syscall_checked "socket" (sys_socket domain type 0) in
  construct_fd fd.

Definition verify_option (d : FileDescriptor) (option expected : Z) (what : string) : M (Proc K) unit :=
  let* fd := fd_num d in
  let* (_, r) := syscall_checked "getsockopt" (sys_getsockopt fd SOL_SOCKET option) in
  if negb (out_value r 1 =? SIZEOF_INT) || negb (out_value r 0 =? expected)
  then mthrow (RuntimeError what) else mret tt.

(** [Socket(fd, domain, type)]: when a check throws, the base is destroyed. *)
Definition socket_of_fd (d : FileDescriptor) (domain type : Z) : M (Proc K) FileDescriptor :=
  mcatch
    (do* verify_option d SO_DOMAIN domain "socket domain mismatch";
     do* verify_option d SO_TYPE type "socket type mismatch";
     mret d)
    (fun e => do* destruct_fd d; mthrow e).

Definition get_address (name_of_function : string) (function : Z -> syscall) (d : FileDescriptor)
    : M (Proc K) Address :=
  let* fd := fd_num d in
  let* (_, r) := syscall_checked name_of_function (function fd) in
  mlift (address_of_raw (out_address r) (out_value r 0)).

Definition local_address (d : FileDescriptor) : M (Proc K) Address := get_address "getsockname" sys_getsockname d.
Definition peer_address (d : FileDescriptor) : M (Proc K) Address := get_address "getpeername" sys_getpeername d.

Definition socket_bind (d : FileDescriptor) (address : Address) : M (Proc K) unit :=
  let* fd := fd_num d in
  do* syscall_checked "bind" (sys_bind fd (sockaddr address));
  mret tt.

Definition socket_connect (d : FileDescriptor) (address : Address) : M (Proc K) unit :=
  let* fd := fd_num d in
  do* syscall_checked "connect" (sys_connect fd (sockaddr address));
  mret tt.

Definition shutdown (d : FileDescriptor) (how : Z) : M (Proc K) unit :=
  let* fd := fd_num d in
  do* syscall_checked "shutdown" (sys_shutdown fd how);
  if how =? SHUT_RD then register_read d
  else if how =? SHUT_WR then register_write d
  else if how =? SHUT_RDWR then do* register_read d; register_write d
  else mthrow (RuntimeError "Socket::shutdown() called with invalid `how`").

Definition setsockopt (d : FileDescriptor) (level option option_value : Z) : M (Proc K) unit :=
  let* fd := fd_num d in
  do* syscall_checked "setsockopt" (sys_setsockopt fd level option option_value);
  mret tt.

Definition set_reuseaddr (d : FileDescriptor) : M (Proc K) unit := setsockopt d SOL_SOCKET SO_REUSEADDR 1.

(** ** UDPSocket *)

Definition open_udp : M (Proc K) FileDescriptor := open_socket AF_INET SOCK_DGRAM.
Definition udp_of_fd (d : FileDescriptor) : M (Proc K) FileDescriptor := socket_of_fd d AF_INET SOCK_DGRAM.

(** [recv(datagram, mtu)], for the datagram [old] passed by reference. *)
Definition recv_into (d : FileDescriptor) (old : received_datagram) (mtu : Z) : M (Proc K) received_datagram :=
  let buffer := resize (payload old) mtu in
  let* fd := fd_num d in
  let* (recv_len, r) := syscall_checked "recvfrom" (sys_recvfrom fd (size buffer) MSG_TRUNC) in
  let buffer := ztake (size buffer) (out r) ++ zdrop (size (out r)) buffer in
  if mtu <? recv_len then mthrow (RuntimeError "recvfrom (oversized datagram)") else
  do* register_read d;
  let* a := mlift (address_of_raw (out_address r) (out_value r 0)) in
  let* p := mlift (string_resize buffer (u64 recv_len)) in
  mret (mkReceived a p).

Definition recv (d : FileDescriptor) (mtu : Z) : M (Proc K) received_datagram :=
  let* a := mlift (address_of_raw [] 0) in
  recv_into d (mkReceived a []) mtu.

Definition sendmsg_helper (fd : Z) (destination_address : option bytes) (payload : BufferViewList)
    : M (Proc K) unit :=
  let iovecs := as_iovecs payload in
  let* (bytes_sent, _) := syscall_checked "sendmsg" (sys_sendmsg fd destination_address iovecs) in
  if negb (u64 bytes_sent =? view_size payload)
  then mthrow (RuntimeError "datagram payload too big for sendmsg()") else mret tt.

Definition sendto (d : FileDescriptor) (destination : Address) (payload : BufferViewList) : M (Proc K) unit :=
  let* fd := fd_num d in
  do* sendmsg_helper fd (Some (sockaddr destination)) payload;
  register_write d.

Definition send (d : FileDescriptor) (payload : BufferViewList) : M (Proc K) unit :=
  let* fd := fd_num d in
  do* sendmsg_helper fd None payload;
  register_write d.

(** ** TCPSocket and LocalStreamSocket *)

Definition open_tcp : M (Proc K) FileDescriptor := open_socket AF_INET SOCK_STREAM.
Definition tcp_of_fd (d : FileDescriptor) : M (Proc K) FileDescriptor := socket_of_fd d AF_INET SOCK_STREAM.
Definition local_stream_of_fd (d : FileDescriptor) : M (Proc K) FileDescriptor := socket_of_fd d AF_UNIX SOCK_STREAM.

Definition listen (d : FileDescriptor) (backlog : Z) : M (Proc K) unit :=
  let* fd := fd_num d in
  do* syscall_checked "listen" (sys_listen fd backlog);
  mret tt.

Definition accept (d : FileDescriptor) : M (Proc K) FileDescriptor :=
  do* register_read d;
  let* fd := fd_num d in
  let* (n, _) := syscall_checked "accept" (sys_accept fd) in
  let* d' := construct_fd n in
  tcp_of_fd d'.

(** ** TunTapFD *)

Definition CLONEDEV : string := "/dev/net/tun".
Definition O_RDWR : Z := 2.
Definition TUNSETIFF : Z := 1074025674.
Definition IFF_TUN : Z := 1.
Definition IFF_TAP : Z := 2.
Definition IFF_NO_PI : Z := 4096.
Definition IFNAMSIZ : nat := 16.

(** The name is cut so that a terminating null fits.  When [ioctl] throws, the base
    is destroyed. *)
Definition open_tuntap (devname : string) (is_tun : bool) : M (Proc K) FileDescriptor :=
  let* (n, _) := syscall_checked "open" (sys_open CLONEDEV O_RDWR) in
  let* d := construct_fd n in
  let ifr_flags := Z.lor (if is_tun then IFF_TUN else IFF_TAP) IFF_NO_PI in
  let ifr_name := substring 0 (IFNAMSIZ - 1) devname in
  mcatch
    (let* fd := fd_num d in
     do* syscall_checked "ioctl" (sys_ioctl fd TUNSETIFF ifr_flags ifr_name);
     mret d)
    (fun e => do* destruct_fd d; mthrow e).

Definition open_tun (devname : string) : M (Proc K) FileDescriptor := open_tuntap devname true.
Definition open_tap (devname : string) : M (Proc K) FileDescriptor := open_tuntap devname false.
End socket.
