(* ===== verification/EventLoop.v ===== *)
(** * EventLoop: polling descriptors and running callbacks

    Models [libsponge/util/eventloop.hh] and [eventloop.cc].  The callbacks of a
    rule are closures over objects of the program: here they are computations on a
    state that has the process and the program's own part [U].  The list of rules is
    not part of what they can change (no callback of the repository adds a rule).

    The main result is a rule of inference for [wait_next_event]
    ([wait_next_event_ok]): what the callbacks of each rule keep, the loop keeps,
    and the loop throws only what they throw, or because [poll] reported an error. *)

From Stdlib Require Import Strings.String.
From S2P Require Import Prelude System SimKernel FileDescriptor.

(** ** State *)

Inductive Direction : Type := In | Out.

Definition direction_events (d : Direction) : Z := match d with In => POLLIN | Out => POLLOUT end.

Inductive Result : Type := Success | Timeout | Exit.

Record pollfd : Type := mkPollfd {
  pfd : Z;
  events : Z;
  revents : Z
}.

Section event_loop.
Context {K : Type} `{Kernel K} {U : Type}.

(** The state the callbacks run in. *)
Definition World : Type := Proc K * U.

Definition on_proc {A : Type} (m : M (Proc K) A) : M World A := zoom fst (fun w p => (p, snd w)) m.

Record Rule : Type := mkRule {
  rule_fd : FileDescriptor;
  direction : Direction;
  callback : M World unit;
  interest : M World bool;
  cancel : M World unit
}.

Record EventLoop : Type := mkEventLoop {
  _rules : list Rule
}.

Definition service_count (r : Rule) : M World Z :=
  on_proc (match direction r with In => read_count (rule_fd r) | Out => write_count (rule_fd r) end).

(** ** Operations *)

Definition add_rule (fd : FileDescriptor) (direction : Direction) (callback : M World unit)
    (interest : M World bool) (cancel : M World unit) (l : EventLoop) : M World EventLoop :=
  let* fd := on_proc (duplicate fd) in
  mret (mkEventLoop (_rules l ++ [mkRule fd direction callback interest cancel])).

Definition on_world {A : Type} (m : M World A) : M (EventLoop * World) A := zoom snd (fun s w => (fst s, w)) m.

(** [_rules.erase(it)], where the rules before and after [it] are [done] and [rest]:
    the rule's descriptor is destroyed with it. *)
Definition erase (done : list Rule) (r : Rule) (rest : list Rule) : M (EventLoop * World) unit :=
  do* mmodify (fun s => (mkEventLoop (done ++ rest), snd s));
  on_world (on_proc (destruct_fd (rule_fd r))).

(** The first loop: the rules [done] have a [pollfd], the rules [rest] are to come. *)
Fixpoint setup (done rest : list Rule) (pollfds : list pollfd) (something_to_poll : bool)
    : M (EventLoop * World) (list pollfd * bool) :=
  match rest with
  | [] => mret (pollfds, something_to_poll)
  | this_rule :: rest =>
      let* at_eof := (match direction this_rule with
                      | In => on_world (on_proc (fd_eof (rule_fd this_rule)))
                      | Out => mret false
                      end) in
      if (at_eof : bool) then
        do* on_world (cancel this_rule);
        do* erase done this_rule rest;
        setup done rest pollfds something_to_poll
      else
      let* closed := on_world (on_proc (fd_closed (rule_fd this_rule))) in
      if (closed : bool) then
        do* on_world (cancel this_rule);
        do* erase done this_rule rest;
        setup done rest pollfds something_to_poll
      else
      let* interested := on_world (interest this_rule) in
      let* n := on_world (on_proc (fd_num (rule_fd this_rule))) in
      if (interested : bool) then
        setup (done ++ [this_rule]) rest (pollfds ++ [mkPollfd n (direction_events (direction this_rule)) 0]) true
      else
        setup (done ++ [this_rule]) rest (pollfds ++ [mkPollfd n 0 0]) something_to_poll
  end.

(** What [poll] stores: an answer per descriptor, in order. *)
Fixpoint store_revents (pollfds : list pollfd) (answers : list Z) : list pollfd :=
  match pollfds, answers with
  | x :: pollfds, v :: answers => mkPollfd (pfd x) (events x) v :: store_revents pollfds answers
  | _, _ => pollfds
  end.

Definition poll_call (pollfds : list pollfd) (timeout_ms : Z) : syscall :=
  sys_poll (map (fun x => (pfd x, events x)) pollfds) timeout_ms.

Definition has_bits (revents mask : Z) : bool := negb (Z.land revents mask =? 0).

(** The third loop: the rules [done] are dealt with; [pollfds] starts with the entry of
    the first rule of [rest]. *)
Fixpoint service (done rest : list Rule) (pollfds : list pollfd) : M (EventLoop * World) unit :=
  match rest with
  | [] => mret tt
  | this_rule :: rest =>
      match pollfds with
      | [] => mthrow OutOfBounds
      | this_pollfd :: pollfds =>
          if has_bits (revents this_pollfd) (Z.lor POLLERR POLLNVAL)
          then mthrow (RuntimeError "EventLoop: error on polled file descriptor") else
          let poll_ready := has_bits (revents this_pollfd) (events this_pollfd) in
          let poll_hup := has_bits (revents this_pollfd) POLLHUP in
          if poll_hup && negb (events this_pollfd =? 0) && negb poll_ready then
            do* on_world (cancel this_rule);
            do* erase done this_rule rest;
            service done rest pollfds
          else
          do* (if poll_ready then
                 let* count_before := on_world (service_count this_rule) in
                 do* on_world (callback this_rule);
                 let* count_after := on_world (service_count this_rule) in
                 if count_before =? count_after then
                   let* interested := on_world (interest this_rule) in
                   if (interested : bool)
                   then mthrow (RuntimeError "EventLoop: busy wait detected: callback did not read/write fd and is still interested")
                   else mret tt
                 else mret tt
               else mret tt);
          service (done ++ [this_rule]) rest pollfds
      end
  end.

(** An error of [poll] other than EINTR is caught and ignored. *)
Definition wait_next_event (timeout_ms : Z) : M (EventLoop * World) Result :=
  let* rules := mgets (fun s => _rules (fst s)) in
  let* (pollfds, something_to_poll) := setup [] rules [] false in
  if negb something_to_poll then mret Exit else
  let* r := on_world (on_proc (on_os (sys (poll_call pollfds timeout_ms)))) in
  let pollfds := store_revents pollfds (out_values r) in
  let go_on :=
    let* rules := mgets (fun s => _rules (fst s)) in
    do* service [] rules pollfds;
    mret Success in
  match SystemCall "poll" r 0 with
  | Ok n => if n =? 0 then mret Timeout else go_on
  | Throw (SystemError _ code) => if code =? EINTR then mret Exit else go_on
  | Throw e => mthrow e
  end.
End event_loop.
Arguments World : clear implicits.
Arguments Rule : clear implicits.
Arguments EventLoop : clear implicits.

(** ** Reasoning about the loop *)

Lemma pairs_middle {A} (R : A -> A -> Prop) l1 x l2 : ForallOrdPairs R (l1 ++ x :: l2) ->
  ForallOrdPairs R (l1 ++ l2) /\ Forall (fun a => R a x) l1 /\ Forall (R x) l2.
Proof.
  induction l1 as [|a l1 IH]; simpl; inversion 1 as [|? ? Ha Hl]; simplify_eq; [done|].
  apply Forall_app in Ha as [Ha1 Ha2]. inversion Ha2; simplify_eq. destruct (IH Hl) as (? & ? & ?).
  split_and!; [constructor; [by apply Forall_app|done]|by constructor|done].
Qed.

Lemma sublist_middle {A} (l l1 l2 : list A) x : l `sublist_of` l1 ++ l2 -> l `sublist_of` l1 ++ x :: l2.
Proof. intros Hl. transitivity (l1 ++ l2); [done|]. apply sublist_app; [done|]. by apply sublist_cons. Qed.

Section rule.
Context {K : Type} `{Kernel K} {U : Type}.
Implicit Types (r : Rule K U) (w : World K U) (l : list (Rule K U)).

(** What the heap says of a rule's descriptor. *)
Definition rule_cell r w : option cell := heap (fst w) !! rule_fd r.

Definition counter r (c : cell) : Z :=
  match direction r with In => _read_count (wrapper c) | Out => _write_count (wrapper c) end.

(** The rule's descriptor can deliver nothing more. *)
Definition at_end r w : Prop := exists c, rule_cell r w = Some c /\
  (_closed (wrapper c) = true \/ direction r = In /\ _eof (wrapper c) = true).

(** The callback used the descriptor, or the rule has lost interest. *)
Definition progressed r w w' : Prop :=
  interest r w' = (Ok false, w') \/
  exists c c', rule_cell r w = Some c /\ rule_cell r w' = Some c' /\ counter r c <> counter r c'.

(** The state after [poll]. *)
Definition polled w (k : K) (c : syscall) (a : sysret) : World K U := (called (fst w) k c a, snd w).

(** A rule that is cancelled and erased. *)
Definition cancel_erase r : M (World K U) unit := do* cancel r; on_proc (destruct_fd (rule_fd r)).

(** [I] is the invariant of the program, given the rules that are left; [E] the
    exceptions it may end with, and the states they leave.  [num r] is the number of the rule's descriptor.
    [armed r] is what the interest of a rule establishes for its callback, [hung r]
    what a hangup reported by [poll] establishes for its [cancel]: both hold until the
    rule is dealt with. *)
Context (I : list (Rule K U) -> World K U -> Prop) (E : exn -> World K U -> Prop).
Context (num : Rule K U -> Z) (armed hung : Rule K U -> World K U -> Prop).

Record rule_ok r : Prop := {
  ok_fd : forall l w, I l w -> r ∈ l -> exists c, rule_cell r w = Some c /\ _fd (wrapper c) = num r;
  ok_interest : forall l w, I l w -> r ∈ l -> ~ at_end r w ->
    exists b, interest r w = (Ok b, w) /\ (b = true -> armed r w);
  ok_callback : forall l w, I l w -> r ∈ l -> armed r w ->
    outcome (fun _ w' => I l w' /\ progressed r w w') E (callback r w);
  ok_cancel : forall l1 l2 w, I (l1 ++ r :: l2) w -> at_end r w \/ hung r w ->
    outcome (fun _ w' => I (l1 ++ l2) w') E (cancel_erase r w)
}.

Definition keeps r (P : World K U -> Prop) (m : M (World K U) unit) : Prop :=
  forall l w, I l w -> r ∈ l -> P w -> outcome (fun _ w' => P w') (fun _ _ => True) (m w).

(** Dealing with [r1] leaves what [r2] waits for. *)
Record leaves (r1 r2 : Rule K U) : Prop := {
  lv_armed : keeps r1 (armed r2) (callback r1);
  lv_hung : keeps r1 (hung r2) (callback r1);
  lv_armed_cancel : keeps r1 (armed r2) (cancel_erase r1);
  lv_hung_cancel : keeps r1 (hung r2) (cancel_erase r1)
}.

Record rules_ok (l : list (Rule K U)) : Prop := {
  rs_ok : Forall rule_ok l;
  rs_indep : ForallOrdPairs (fun a b => leaves a b /\ leaves b a) l
}.

(** [poll] changes neither what the program keeps nor what was established, and
    establishes [hung] for a rule when it reports only a hangup. *)
Record poll_ok : Prop := {
  pl_inv : forall l w fds t, I l w -> let '(a, k) := kcall (kernel (os (fst w))) (sys_poll fds t) in
    I l (polled w k (sys_poll fds t) a);
  pl_armed : forall r l w fds t, I l w -> armed r w ->
    let '(a, k) := kcall (kernel (os (fst w))) (sys_poll fds t) in armed r (polled w k (sys_poll fds t) a);
  pl_hung : forall r l w fds t i v, I l w -> r ∈ l -> fds !! i = Some (num r, direction_events (direction r)) ->
    let '(a, k) := kcall (kernel (os (fst w))) (sys_poll fds t) in
    out_values a !! i = Some v -> has_bits v POLLHUP = true ->
    has_bits v (direction_events (direction r)) = false ->
    hung r (polled w k (sys_poll fds t) a);
  pl_error : forall l w, I l w -> E (RuntimeError "EventLoop: error on polled file descriptor") w
}.

Lemma rules_ok_middle l1 r l2 : rules_ok (l1 ++ r :: l2) ->
  rules_ok (l1 ++ l2) /\ rule_ok r /\ Forall (fun a => leaves r a) l1 /\ Forall (fun a => leaves r a) l2.
Proof.
  intros [Hok Hp]. apply Forall_app in Hok as [H1 H2]. inversion H2; simplify_eq.
  destruct (pairs_middle _ _ _ _ Hp) as (? & Ha & Hb). split_and!; [split; [by apply Forall_app|done]|done| |].
  - eapply Forall_impl; [exact Ha|]. by intros ? [].
  - eapply Forall_impl; [exact Hb|]. by intros ? [].
Qed.

Lemma destruct_fd_ok d (p : Proc K) : fst (destruct_fd d p) = Ok tt.
Proof.
  unfold destruct_fd, mbind, update, mmodify, mgets, destruct_wrapper, mcatch. simpl.
  destruct (alter _ d (heap p) !! d) as [c|]; [|done]. destruct (uses c); [|done].
  by destruct (mbind _ _ _) as [[[]|] ?].
Qed.

(** An entry of the array of [pollfd]s. *)
Definition entry_ok w r (x : pollfd) : Prop :=
  pfd x = num r /\ revents x = 0 /\ (events x = 0 \/ events x = direction_events (direction r) /\ armed r w).

Lemma entry_ok_keep w w' r x : entry_ok w r x -> (armed r w -> armed r w') -> entry_ok w' r x.
Proof. intros (Hn & H0 & [He|[He Ha]]) Hk; split_and!; auto. Qed.

(** Cancelling [r] leaves the entries of the other rules. *)
Lemma cancel_keeps l r rs xs (w : World K U) : I l w -> r ∈ l -> Forall (leaves r) rs -> Forall2 (entry_ok w) rs xs ->
  outcome (fun _ w' => Forall2 (entry_ok w') rs xs) (fun _ _ => True) (cancel_erase r w).
Proof.
  intros HI Hin Hl Hx. induction Hx as [|a x rs xs Ha Hx IH]; [destruct (cancel_erase r w) as [[[]|e] w']; simpl; [constructor|done]|].
  inversion Hl; simplify_eq. specialize (IH ltac:(done)).
  destruct (cancel_erase r w) as [[[]|e] w'] eqn:Ec; simpl in *; [|done]. constructor; [|done].
  eapply entry_ok_keep; [exact Ha|]. intros Hr. assert (leaves r a) as [_ _ Hk _] by done.
  specialize (Hk l w HI Hin Hr). by rewrite Ec in Hk.
Qed.

Abbreviation E' := (fun e (s : EventLoop K U * World K U) => E e (snd s)).

Lemma cancel_step r l1 l2 (s : EventLoop K U * World K U) Q :
  outcome (fun _ w' => Q tt (mkEventLoop (l1 ++ l2), w')) E (cancel_erase r (snd s)) ->
  outcome Q E' ((do* on_world (cancel r); erase l1 r l2) s).
Proof.
  destruct s as [lo w]. unfold cancel_erase, mbind, erase, on_world, on_proc, zoom, mmodify. simpl.
  destruct (cancel r w) as [[[]|e] w'] eqn:Ec; simpl; [|done].
  pose proof (destruct_fd_ok (rule_fd r) (fst w')) as Hd.
  destruct (destruct_fd (rule_fd r) (fst w')) as [[[]|] p] eqn:Ed; simpl in *; [|done]; unfold mbind; simpl; by rewrite Ed.
Qed.

Lemma mbind_assoc {S A B C} (m : M S A) (k : A -> M S B) (k' : B -> M S C) s :
  mbind m (fun a => mbind (k a) k') s = mbind (mbind m k) k' s.
Proof. unfold mbind. by destruct (m s) as [[a|e] s']. Qed.

(** The state of the loops: the rules are [done ++ rest]; those of [done] have the
    entries [pollfds]. *)
Record loop_at (l : list (Rule K U)) (s : EventLoop K U * World K U) : Prop := {
  la_rules : _rules (fst s) = l;
  la_ok : rules_ok l;
  la_inv : I l (snd s)
}.

Lemma erase_at done r rest (s : EventLoop K U * World K U) xs : loop_at (done ++ r :: rest) s ->
  at_end r (snd s) \/ hung r (snd s) -> Forall2 (entry_ok (snd s)) done xs ->
  outcome (fun _ s' => loop_at (done ++ rest) s' /\ Forall2 (entry_ok (snd s')) done xs) E'
    ((do* on_world (cancel r); erase done r rest) s).
Proof.
  intros [Hr Hok HI] Hend Hx. destruct (rules_ok_middle _ _ _ Hok) as (Hok' & Hro & Hl & _).
  apply cancel_step. pose proof (ok_cancel _ Hro _ _ _ HI Hend) as Hc.
  assert (r ∈ done ++ r :: rest) as Hin by (apply elem_of_app; right; left).
  pose proof (cancel_keeps _ r _ _ _ HI Hin Hl Hx) as Hk.
  destruct (cancel_erase r (snd s)) as [[[]|e] w']; simpl in *; [|done]. done.
Qed.

Lemma setup_spec rest : forall done xs b s, loop_at (done ++ rest) s -> Forall2 (entry_ok (snd s)) done xs ->
  outcome (fun res s' => exists l, l `sublist_of` done ++ rest /\ loop_at l s' /\ Forall2 (entry_ok (snd s')) l (fst res)) E'
    (setup done rest xs b s).
Proof.
  induction rest as [|r rest IH]; intros done xs b s Hs Hx; cbn [setup].
  { rewrite app_nil_r in *. simpl. eauto. }
  pose proof Hs as [Hr Hok HI]. destruct (rules_ok_middle _ _ _ Hok) as (_ & Hro & _ & _).
  assert (r ∈ done ++ r :: rest) as Hin by set_solver.
  destruct (ok_fd _ Hro _ _ HI Hin) as (c & Hc & Hn). unfold rule_cell in Hc.
  assert (forall f (g : FDWrapper -> f), on_world (on_proc (let* x := deref (rule_fd r) in mret (g x))) s
    = (Ok (g (wrapper c)), s)) as Hacc.
  { intros f g. destruct s as [lo [p u]]. unfold on_world, on_proc, zoom, mbind. simpl in *.
    by rewrite (deref_ok _ _ _ Hc). }
  assert (forall b, (at_end r (snd s) -> outcome (fun res s' => exists l, l `sublist_of` done ++ r :: rest /\ loop_at l s' /\ Forall2 (entry_ok (snd s')) l (fst res)) E'
    ((do* on_world (cancel r); do* erase done r rest; setup done rest xs b) s))) as Hcancel.
  { intros b' Hend. rewrite mbind_assoc. apply outcome_bind.
    eapply outcome_weaken; [apply erase_at; [exact Hs|by left|exact Hx]|]. intros [] s' [Hs' Hx'].
    eapply outcome_weaken; [by apply IH|]. intros res s2 (l & Hl & Hat). exists l. split; [|done]. by apply sublist_middle. }
  match goal with |- outcome ?Q _ (mbind _ ?k s) =>
    assert ((direction r = In -> _eof (wrapper c) = false) -> outcome Q E' (k false s)) as Hopen end.
  { intros Hne. cbn beta iota. unfold mbind at 1. unfold fd_closed at 1. rewrite Hacc. destruct (_closed (wrapper c)) eqn:Ecl.
    { apply Hcancel. exists c. auto. }
    destruct (ok_interest _ Hro _ _ HI Hin) as (i & Hi & Harm).
    { intros (c' & Hc' & He). unfold rule_cell in Hc'. simplify_eq. destruct He as [He|[Hd He]]; [congruence|].
      by rewrite (Hne Hd) in He. }
    assert (on_world (interest r) s = (Ok i, s)) as Hint.
    { destruct s as [lo w]. unfold on_world, zoom. simpl in *. by rewrite Hi. }
    unfold mbind at 1. rewrite Hint. unfold mbind at 1. unfold fd_num. rewrite Hacc.
    rewrite (cons_middle r done rest), app_assoc in Hs |- *.
    destruct i; (apply IH; [exact Hs|]); (apply Forall2_app; [exact Hx|]); (constructor; [|constructor]);
      (split_and!; [done|done|]); [right; auto|by left]. }
  destruct (direction r) eqn:Ed; [|by apply Hopen].
  unfold mbind at 1. unfold fd_eof. rewrite Hacc. destruct (_eof (wrapper c)) eqn:Ee; [|by apply Hopen].
  apply Hcancel. exists c. auto.
Qed.

(** An entry after [poll]. *)
Definition answer_ok (w : World K U) (r : Rule K U) (x : pollfd) : Prop :=
  (has_bits (revents x) (events x) = true -> armed r w) /\
  (has_bits (revents x) POLLHUP = true -> events x <> 0 -> has_bits (revents x) (events x) = false -> hung r w).

Lemma answers_keep r0 (m : M (World K U) unit) l (w : World K U) rs xs : I l w -> r0 ∈ l ->
  Forall (fun r => keeps r0 (armed r) m /\ keeps r0 (hung r) m) rs -> Forall2 (answer_ok w) rs xs ->
  outcome (fun _ w' => Forall2 (answer_ok w') rs xs) (fun _ _ => True) (m w).
Proof.
  intros HI Hin Hl Hx. induction Hx as [|a x rs xs Ha Hx IH]; [destruct (m w) as [[[]|e] w']; simpl; [constructor|done]|].
  inversion Hl as [|? ? [Hk1 Hk2] Hl']; simplify_eq. specialize (IH Hl').
  destruct (m w) as [[[]|e] w'] eqn:Em; simpl in *; [|done]. constructor; [|done].
  destruct Ha as [Ha1 Ha2]. split.
  - intros Hr. specialize (Hk1 l w HI Hin (Ha1 Hr)). by rewrite Em in Hk1.
  - intros Hh He Hr. specialize (Hk2 l w HI Hin (Ha2 Hh He Hr)). by rewrite Em in Hk2.
Qed.

Lemma service_count_ok l r (s : EventLoop K U * World K U) : I l (snd s) -> rule_ok r -> r ∈ l ->
  exists c, rule_cell r (snd s) = Some c /\ on_world (service_count r) s = (Ok (counter r c), s).
Proof.
  intros HI Hro Hin. destruct (ok_fd _ Hro _ _ HI Hin) as (c & Hc & _). exists c. split; [done|].
  destruct s as [lo [p u]]. unfold rule_cell in Hc. unfold on_world, service_count, on_proc, zoom, counter. simpl in *.
  by destruct (direction r); unfold read_count, write_count, mbind; rewrite (deref_ok _ _ _ Hc).
Qed.

(** The callback of a ready rule runs, and no busy wait is detected. *)
Lemma run_callback l r (s : EventLoop K U * World K U) rs xs : loop_at l s -> rule_ok r -> r ∈ l ->
  armed r (snd s) -> Forall (leaves r) rs -> Forall2 (answer_ok (snd s)) rs xs ->
  outcome (fun _ s' => loop_at l s' /\ Forall2 (answer_ok (snd s')) rs xs) E'
    ((let* count_before := on_world (service_count r) in
      do* on_world (callback r);
      let* count_after := on_world (service_count r) in
      if count_before =? count_after then
        let* interested := on_world (interest r) in
        if (interested : bool)
        then mthrow (RuntimeError "EventLoop: busy wait detected: callback did not read/write fd and is still interested")
        else mret tt
      else mret tt) s).
Proof.
  intros [Hr Hok HI] Hro Hin Harm Hl Hx.
  destruct (service_count_ok l r s HI Hro Hin) as (c & Hc & Hcount). unfold mbind at 1. rewrite Hcount.
  pose proof (ok_callback _ Hro _ _ HI Hin Harm) as Hcb.
  assert (outcome (fun _ w' => Forall2 (answer_ok w') rs xs) (fun _ _ => True) (callback r (snd s))) as Hk.
  { eapply (answers_keep r); [exact HI|done| |exact Hx]. eapply Forall_impl; [exact Hl|]. by intros a []. }
  unfold mbind at 1, on_world at 1, zoom at 1.
  destruct (callback r (snd s)) as [[[]|e] w']; simpl in Hcb, Hk |- *; [|done]. destruct Hcb as [HI' Hpr].
  destruct (service_count_ok l r (fst s, w') HI' Hro Hin) as (c' & Hc' & Hcount').
  unfold mbind at 1. rewrite Hcount'. destruct (Z.eqb_spec (counter r c) (counter r c')) as [Heq|]; [|by split].
  unfold mbind, on_world, zoom. simpl. destruct Hpr as [->|(c1 & c2 & Hc1 & Hc2 & Hne)]; [by split|].
  simpl in *. congruence.
Qed.

Lemma service_spec rest : forall done xs s, loop_at (done ++ rest) s -> Forall2 (answer_ok (snd s)) rest xs ->
  (forall l w, I l w -> E (RuntimeError "EventLoop: error on polled file descriptor") w) ->
  outcome (fun _ s' => exists l, l `sublist_of` done ++ rest /\ loop_at l s') E' (service done rest xs s).
Proof.
  induction rest as [|r rest IH]; intros done xs s Hs Hx Herr; cbn [service]; [simpl; eauto|].
  inversion Hx as [|? x ? xs' [Hready Hhup] Hx']; simplify_eq.
  destruct (has_bits (revents x) (Z.lor POLLERR POLLNVAL)); [by eapply Herr, Hs|].
  pose proof Hs as [Hr Hok HI]. destruct (rules_ok_middle _ _ _ Hok) as (_ & Hro & _ & Hl).
  assert (r ∈ done ++ r :: rest) as Hin by set_solver.
  destruct (has_bits (revents x) POLLHUP && negb (events x =? 0) && negb (has_bits (revents x) (events x))) eqn:Eh.
  - apply andb_true_iff in Eh as [[Hh Hev%negb_true_iff%Z.eqb_neq]%andb_true_iff Hrd%negb_true_iff].
    rewrite mbind_assoc. apply outcome_bind.
    assert (outcome (fun _ w' => Forall2 (answer_ok w') rest xs') (fun _ _ => True) (cancel_erase r (snd s))) as Hk.
    { eapply (answers_keep r); [exact HI|done| |exact Hx']. eapply Forall_impl; [exact Hl|]. by intros a []. }
    apply cancel_step. pose proof (ok_cancel _ Hro _ _ _ HI (or_intror (Hhup Hh Hev Hrd))) as Hc.
    destruct (rules_ok_middle _ _ _ Hok) as (Hok' & _).
    destruct (cancel_erase r (snd s)) as [[[]|e] w']; simpl in *; [|done].
    eapply outcome_weaken; [by apply IH|]. intros [] s2 (l & Hsl & Hat). exists l. split; [|done]. by apply sublist_middle.
  - apply outcome_bind. rewrite (cons_middle r done rest), app_assoc. destruct (has_bits (revents x) (events x)) eqn:Erd.
    + eapply outcome_weaken.
      { apply (run_callback (done ++ r :: rest) r s rest xs'); auto. }
      intros [] s' [Hs' Hxs]. rewrite (cons_middle r done rest), app_assoc in Hs'. by apply IH.
    + rewrite (cons_middle r done rest), app_assoc in Hs. by apply IH.
Qed.

Lemma has_bits_0 m : has_bits 0 m = false.
Proof. done. Qed.

Lemma answers_poll (w w' : World K U) l xs vs : Forall2 (entry_ok w) l xs -> (forall r, armed r w -> armed r w') ->
  (forall i r x v, l !! i = Some r -> xs !! i = Some x -> events x = direction_events (direction r) -> vs !! i = Some v ->
     has_bits v POLLHUP = true -> has_bits v (events x) = false -> hung r w') ->
  Forall2 (answer_ok w') l (store_revents xs vs).
Proof.
  intros Hx Ha. revert vs. induction Hx as [|r x l xs (Hn & H0 & He) Hx IH]; intros vs Hh; [constructor|].
  destruct vs as [|v vs]; simpl.
  - constructor.
    + split; rewrite H0; [by rewrite has_bits_0|done].
    + specialize (IH []). destruct xs; (apply IH; intros i; by destruct i).
  - constructor; [|apply IH; intros i; apply (Hh (S i))]. split; simpl.
    + destruct He as [->|[_ ?]]; [|auto]. unfold has_bits. by rewrite Z.land_0_r.
    + intros Hhup Hev Hrd. destruct He as [?|[He _]]; [done|]. by apply (Hh 0%nat r x v).
Qed.

(** ** The rule of inference *)
Lemma wait_next_event_ok timeout_ms l : poll_ok ->
  triple (loop_at l) (wait_next_event timeout_ms) (fun _ s' => exists l', l' `sublist_of` l /\ loop_at l' s') E'.
Proof.
  intros Hpoll s Hs. unfold wait_next_event. unfold mbind at 1. cbn [mgets].
  rewrite (la_rules _ _ Hs). apply outcome_bind.
  eapply outcome_weaken; [apply (setup_spec l []); [exact Hs|constructor]|].
  intros [xs b] s1 (l1 & Hsub & Hs1 & Hx). simpl in Hx. destruct b; [|simpl; eauto].
  cbn [negb]. destruct s1 as [lo w]. destruct Hs1 as [Hr1 Hok1 HI1]. simpl in *.
  unfold mbind at 1, on_world at 1, on_proc at 1, on_os at 1, sys at 1, zoom. simpl. unfold poll_call.
  set (fds := map (fun x => (pfd x, events x)) xs).
  pose proof (pl_inv Hpoll l1 w fds timeout_ms HI1) as Hinv.
  pose proof (fun r => pl_armed Hpoll r l1 w fds timeout_ms HI1) as Harm.
  pose proof (fun r i v => pl_hung Hpoll r l1 w fds timeout_ms i v HI1) as Hhung.
  destruct (kcall _ _) as [a k]. change (_, snd w) with (polled w k (sys_poll fds timeout_ms) a).
  set (w' := polled _ _ _ _) in *.
  assert (loop_at l1 (lo, w')) as Hat by done.
  assert (Forall2 (answer_ok w') l1 (store_revents xs (out_values a))) as Hans.
  { eapply answers_poll; [exact Hx|exact Harm|]. intros i r x v Hl Hi He Hv Hh Hrd.
    apply (Hhung r i v); try done; [by eapply list_elem_of_lookup_2| |by rewrite <- He].
    unfold fds. rewrite list_lookup_fmap, Hi. simpl. rewrite He.
    destruct (Forall2_lookup_lr _ _ _ _ _ _ Hx Hl Hi) as (-> & _). done. }
  assert (outcome (fun (_ : Result) s' => exists l', l' `sublist_of` l /\ loop_at l' s') E'
    ((let* rules := mgets (fun s => _rules (fst s)) in
      do* service [] rules (store_revents xs (out_values a)); mret Success) (lo, w'))) as Hgo.
  { unfold mbind at 1. cbn [mgets fst]. rewrite Hr1. apply outcome_bind.
    eapply outcome_weaken; [apply (service_spec l1 []); [exact Hat|exact Hans|apply Hpoll]|].
    intros [] s2 (l2 & Hsub2 & Hat2). exists l2. split; [by transitivity l1|done]. }
  unfold SystemCall. destruct ((0 <=? _) || _).
  - destruct (_ =? 0); [simpl; eauto|exact Hgo].
  - destruct (_ =? EINTR); [simpl; eauto|exact Hgo].
Qed.
End rule.

(** ** Descriptors the rules share

    Each rule holds a copy of its descriptor, besides the one of the program. *)
Section sharing.
Context {K U : Type}.
Implicit Types (r : Rule K U) (l : list (Rule K U)) (p : Proc K).

Definition refs (d : FileDescriptor) l : nat := length (filter (fun r => rule_fd r = d) l).

Definition cell_ok (d : FileDescriptor) (n : Z) l (p : Proc K) : Prop :=
  exists c, heap p !! d = Some c /\ _fd (wrapper c) = n /\ (refs d l < uses c)%nat.

Lemma cell_ok_alter d n l p os' f d' : cell_ok d n l p ->
  (d = d' -> forall c, heap p !! d = Some c -> _fd (f (wrapper c)) = n) ->
  cell_ok d n l (mkProc os' (alter (map_wrapper f) d' (heap p))).
Proof.
  intros (c & Hc & Hn & Hu) Hf. destruct (decide (d = d')) as [<-|Hne].
  - exists (map_wrapper f c). cbn [heap]. rewrite list_lookup_alter_eq, Hc. split_and!; [done|by apply Hf|done].
  - exists c. cbn [heap]. by rewrite list_lookup_alter_ne by done.
Qed.

Lemma refs_middle d l1 r l2 : refs d (l1 ++ r :: l2) = (refs d (l1 ++ l2) + if decide (rule_fd r = d) then 1 else 0)%nat.
Proof.
  unfold refs. rewrite !filter_app, filter_cons, !length_app. destruct (decide (rule_fd r = d)); simpl; lia.
Qed.

Lemma cell_ok_erase d n l1 r l2 p : cell_ok d n (l1 ++ r :: l2) p ->
  cell_ok d n (l1 ++ l2) (mkProc (os p) (alter (fun c => mkCell (wrapper c) (uses c - 1)) (rule_fd r) (heap p))).
Proof.
  intros (c & Hc & Hn & Hu). rewrite refs_middle in Hu. unfold cell_ok. cbn [heap].
  destruct (decide (rule_fd r = d)) as [->|Hne].
  - exists (mkCell (wrapper c) (uses c - 1)). rewrite list_lookup_alter_eq, Hc. split_and!; [done|done|simpl; lia].
  - exists c. rewrite list_lookup_alter_ne by done. split_and!; [done|done|lia].
Qed.

Lemma refs_snoc d l r : refs d (l ++ [r]) = (refs d l + if decide (rule_fd r = d) then 1 else 0)%nat.
Proof. rewrite refs_middle. by rewrite app_nil_r. Qed.

Lemma cell_ok_duplicate d n l r p : cell_ok d n l p ->
  cell_ok d n (l ++ [r]) (mkProc (os p) (alter (fun c => mkCell (wrapper c) (uses c + 1)) (rule_fd r) (heap p))).
Proof.
  intros (c & Hc & Hn & Hu). unfold cell_ok. rewrite refs_snoc. cbn [heap].
  destruct (decide (rule_fd r = d)) as [->|Hne].
  - exists (mkCell (wrapper c) (uses c + 1)). rewrite list_lookup_alter_eq, Hc. split_and!; [done|done|simpl; lia].
  - exists c. rewrite list_lookup_alter_ne by done. split_and!; [done|done|lia].
Qed.
End sharing.

(** ** Properties *)

(** C27: The event loop keeps the program's invariant.  Let the callbacks of the rules
    keep an invariant [I] and make progress (use their descriptor, or lose interest), and
    let cancelling a rule at its end keep it.  Then a call of [wait_next_event] keeps it
    on every kernel, whatever [poll] answers: rules are only removed, in place, each
    callback runs only while what its interest established still holds, and the only
    exceptions are those of the callbacks and the one for an error reported on a polled
    descriptor; in particular no busy wait is detected. *)
Theorem event_loop_keeps_invariant {K U : Type} `{Kernel K} (I : list (Rule K U) -> World K U -> Prop)
    (E : exn -> World K U -> Prop) num armed hung timeout_ms l s :
  poll_ok I E num armed hung -> loop_at I E num armed hung l s ->
  outcome (fun _ s' => exists l', l' `sublist_of` l /\ loop_at I E num armed hung l' s') (fun e s' => E e (snd s'))
    (wait_next_event timeout_ms s).
Proof. intros Hp. by apply wait_next_event_ok. Qed.

(** A program that collects what it reads. *)
Module Collect.
Definition callback : M (World SimKernel bytes) unit :=
  let* data := on_proc (fd_read 0 NPOS) in mmodify (fun w => (fst w, snd w ++ data)).

Definition rule : Rule SimKernel bytes := mkRule 0%nat In callback (mret true) (mret tt).

Record inv (l : list (Rule SimKernel bytes)) (w : World SimKernel bytes) : Prop := {
  cl_all : Forall (eq rule) l;
  cl_fd : exists c, heap (fst w) !! 0%nat = Some c /\ _fd (wrapper c) = STREAM_FD /\ (length l < uses c)%nat;
  cl_data : received STREAM_FD (history (os (fst w))) = snd w
}.

Definition ends (e : exn) (w : World SimKernel bytes) : Prop :=
  (exists attempt code, e = SystemError attempt code) \/ e = RuntimeError "EventLoop: error on polled file descriptor".

Abbreviation num := (fun _ : Rule SimKernel bytes => STREAM_FD).
Abbreviation always := (fun (_ : Rule SimKernel bytes) (_ : World SimKernel bytes) => True).

Lemma callback_ok l w : inv l w -> outcome (fun _ w' => inv l w' /\ progressed rule w w') ends (callback w).
Proof.
  intros [Ha (c & Hc & Hn & Hu) Hd]. unfold callback. apply outcome_bind. unfold on_proc, zoom.
  destruct (fd_read_spec 0%nat NPOS (fst w) c Hc) as (r & k & Hk & (_ & _ & Hp) & ->). rewrite Hn in *.
  destruct (Z.ltb_spec (ret r) 0); [left; by eexists _, _|]. destruct (Hp ltac:(lia)) as [_ Hsz].
  destruct (after_read_keeps NPOS (ret r) (wrapper c)) as (K1 & _ & K2). simpl. split.
  - constructor; [done| |].
    + exists (map_wrapper (after_read NPOS (ret r)) c). cbn [fst heap]. rewrite list_lookup_alter_eq, Hc.
      split_and!; [done|exact (eq_trans K1 Hn)|done].
    + simpl. rewrite received_app, Hd. f_equal. unfold received, read_bytes. simpl. rewrite app_nil_r. apply ztake_all. lia.
  - right. exists c, (map_wrapper (after_read NPOS (ret r)) c). unfold rule_cell. cbn [rule_fd rule fst heap].
    rewrite list_lookup_alter_eq, Hc. split_and!; [done|done|]. unfold counter. cbn [direction rule]. exact (not_eq_sym K2).
Qed.

Lemma cancel_ok l1 l2 w : inv (l1 ++ rule :: l2) w -> outcome (fun _ w' => inv (l1 ++ l2) w') ends (cancel_erase rule w).
Proof.
  intros [Ha (c & Hc & Hn & Hu) Hd]. rewrite length_app in Hu. simpl in Hu.
  unfold cancel_erase, mbind, on_proc, zoom. cbn [cancel rule rule_fd mret].
  rewrite (destruct_fd_shared 0%nat (fst w) c Hc) by lia. constructor; [|cbn [fst heap]|done].
  - apply Forall_app in Ha as [Ha1 Ha2]. inversion Ha2. by apply Forall_app.
  - eexists. rewrite list_lookup_alter_eq, Hc. split_and!; [done|done|]. rewrite length_app. simpl. lia.
Qed.

Lemma keeps_always r m : keeps inv r (always r) m.
Proof. intros l w _ _ _. by destruct (m w) as [[[]|e] w']. Qed.

Lemma rule_is_ok : rule_ok inv ends num always always rule.
Proof.
  constructor; [|by eauto|by intros; apply callback_ok|by intros; apply cancel_ok].
  intros l w [_ (c & ? & ? & _) _] _. by exists c.
Qed.

Lemma polling_ok : poll_ok inv ends num always always.
Proof.
  constructor; [|done|done|by right]. intros l w fds t [Ha Hc Hd]. destruct (kcall _ _) as [a k]. constructor; [done|done|].
  simpl. by rewrite received_app, Hd, app_nil_r.
Qed.

Definition start (data : bytes) : EventLoop SimKernel bytes * World SimKernel bytes :=
  (mkEventLoop [rule], (mkProc (mkSys (mkSimKernel data None [] 2) []) [mkCell (mkFDWrapper STREAM_FD false false 0 0) 2], [])).
End Collect.

Lemma event_loop_keeps_invariant_witness :
  fst (wait_next_event 10 (Collect.start [x61; x62; x63])) = Ok Success /\
  snd (snd (snd (wait_next_event 10 (Collect.start [x61; x62; x63])))) = [x61; x62] /\
  outcome (fun _ s' => exists l', Collect.inv l' (snd s')) (fun _ _ => False)
    (wait_next_event 10 (Collect.start [x61; x62; x63])).
Proof.
  split; [vm_compute; reflexivity|]. split; [vm_compute; reflexivity|].
  pose proof (event_loop_keeps_invariant Collect.inv Collect.ends _ _ _ 10 [Collect.rule] (Collect.start [x61; x62; x63])
    Collect.polling_ok) as Hrule.
  destruct (wait_next_event 10 (Collect.start [x61; x62; x63])) as [[r|e] s'] eqn:Ew.
  - destruct Hrule as (l' & _ & [_ _ Hi]); [|by exists l'].
    split; [done| |constructor; [by constructor| |done]].
    + split; [constructor; [apply Collect.rule_is_ok|constructor]|]. repeat constructor.
    + exists (mkCell (mkFDWrapper STREAM_FD false false 0 0) 2). split_and!; [done|done|simpl; lia].
  - exfalso. apply (f_equal (fun x => match fst x with Ok _ => true | Throw _ => false end)) in Ew. vm_compute in Ew. done.
Defined.
