(* ===== verification/StreamCopy.v ===== *)
(** * StreamCopy: standard input and output over a socket

    Models [apps/bidirectional_stream_copy.cc], the program part shared by the
    command-line clients and servers: an event loop with four rules that copies the
    standard input to a socket and the socket to the standard output, through two
    byte streams.  The function is a computation on the process; its local variables
    (the loop, the streams, the flags, the two descriptors) live while it runs.

    The theorem is about the calls the function makes: on every kernel, and for as
    long as it runs, what it has written is a prefix of what it has read, in each
    direction, and an end of file is passed on only after everything before it. *)

From Stdlib Require Import Strings.String.
From stdpp Require Import relations.
From S2P Require Import Prelude ByteStream Parser System SimKernel FileDescriptor Socket EventLoop.

(** ** State *)

Definition max_copy_length : Z := 65536.
Definition buffer_size : Z := 1048576.
Definition STDIN_FILENO : Z := 0.
Definition STDOUT_FILENO : Z := 1.

(** The local variables the rules capture, apart from the descriptors. *)
Record Copy : Type := mkCopy {
  _outbound : ByteStream;
  _inbound : ByteStream;
  _outbound_shutdown : bool;
  _inbound_shutdown : bool
}.

(** The two directions, which have a stream and a flag each. *)
Inductive side : Type := Outbound | Inbound.

#[export] Instance side_eq_dec : EqDecision side.
Proof. solve_decision. Defined.

Definition stream_of (b : side) (c : Copy) : ByteStream :=
  match b with Outbound => _outbound c | Inbound => _inbound c end.

Definition is_shutdown (b : side) (c : Copy) : bool :=
  match b with Outbound => _outbound_shutdown c | Inbound => _inbound_shutdown c end.

Definition set_stream (b : side) (o : ByteStream) (c : Copy) : Copy :=
  match b with
  | Outbound => mkCopy o (_inbound c) (_outbound_shutdown c) (_inbound_shutdown c)
  | Inbound => mkCopy (_outbound c) o (_outbound_shutdown c) (_inbound_shutdown c)
  end.

Definition set_shutdown (b : side) (c : Copy) : Copy :=
  match b with
  | Outbound => mkCopy (_outbound c) (_inbound c) true (_inbound_shutdown c)
  | Inbound => mkCopy (_outbound c) (_inbound c) (_outbound_shutdown c) true
  end.

Definition other (b : side) : side := match b with Outbound => Inbound | Inbound => Outbound end.

(** ** The rules *)

Section stream_copy.
Context {K : Type} `{Kernel K}.

Abbreviation W := (World K Copy).
Abbreviation Loop := (EventLoop K Copy).

Definition stream (b : side) : M W ByteStream := mgets (fun w => stream_of b (snd w)).
Definition put_stream (b : side) (o : ByteStream) : M W unit := mmodify (fun w => (fst w, set_stream b o (snd w))).
Definition put_shutdown (b : side) : M W unit := mmodify (fun w => (fst w, set_shutdown b (snd w))).

(** [_stream.end_input()] *)
Definition end_stream (b : side) : M W unit := let* o := stream b in put_stream b (end_input o).

(** The callback of rules 1 and 3: from a descriptor into a stream. *)
Definition read_to_stream (b : side) (d : FileDescriptor) : M W unit :=
  let* o := stream b in
  let* data := on_proc (fd_read d (remaining_capacity o)) in
  do* put_stream b (fst (write o data));
  let* at_eof := on_proc (fd_eof d) in
  if (at_eof : bool) then end_stream b else mret tt.

Definition wants_input (b : side) : M W bool :=
  let* o := stream b in
  let* o' := stream (other b) in
  mret (negb (ByteStream.error o) && (0 <? remaining_capacity o) && negb (ByteStream.error o')).

(** The callback of rules 2 and 4: from a stream into a descriptor, which is told of
    the end. *)
Definition write_from_stream (b : side) (d : FileDescriptor) (finish : M (Proc K) unit) : M W unit :=
  let* o := stream b in
  let bytes_to_write := Z.min max_copy_length (ByteStream.buffer_size o) in
  let* bytes_written := on_proc (fd_write d [peek_output o bytes_to_write] false) in
  let o := pop_output o bytes_written in
  do* put_stream b o;
  if eof o then
    do* on_proc finish;
    put_shutdown b
  else mret tt.

Definition has_output (b : side) : M W bool :=
  let* o := stream b in
  let* shut := mgets (fun w => is_shutdown b (snd w)) in
  mret (negb (buffer_empty o) || (eof o && negb shut)).

Section rules.
Context (socket _input _output : FileDescriptor).

Definition rule1 : Rule K Copy :=
  mkRule _input In (read_to_stream Outbound _input) (wants_input Outbound) (end_stream Outbound).
Definition rule2 : Rule K Copy :=
  mkRule socket Out (write_from_stream Outbound socket (shutdown socket SHUT_WR)) (has_output Outbound)
    (end_stream Outbound).
Definition rule3 : Rule K Copy :=
  mkRule socket In (read_to_stream Inbound socket) (wants_input Inbound) (end_stream Inbound).
Definition rule4 : Rule K Copy :=
  mkRule _output Out (write_from_stream Inbound _output (fd_close _output)) (has_output Inbound)
    (end_stream Inbound).

Definition install (r : Rule K Copy) : M (Loop * W) unit :=
  let* l := mgets fst in
  let* l := on_world (add_rule (rule_fd r) (direction r) (callback r) (interest r) (cancel r) l) in
  mmodify (fun s => (l, snd s)).

(** [while (true)]: the number of turns is a bound on how long the function is
    watched; it throws [OutOfFuel] when it is still running. *)
Fixpoint copy_loop (turns : nat) : M (Loop * W) unit :=
  match turns with
  | O => mthrow OutOfFuel
  | S turns =>
      let* r := wait_next_event (-1) in
      match r with
      | Exit => mret tt
      | _ => copy_loop turns
      end
  end.

(** The body, after the local variables have been made. *)
Definition copy_body (turns : nat) : M (Loop * W) unit :=
  do* on_world (on_proc (set_blocking socket false));
  do* on_world (on_proc (set_blocking _input false));
  do* on_world (on_proc (set_blocking _output false));
  do* install rule1;
  do* install rule2;
  do* install rule3;
  do* install rule4;
  copy_loop turns.

(** The end of the local variables' lives, the last one first; the loop goes with the
    descriptors of its rules. *)
Definition copy_end : M (Loop * W) unit :=
  do* on_world (on_proc (destruct_fd _output));
  do* on_world (on_proc (destruct_fd _input));
  let* rules := mgets (fun s => _rules (fst s)) in
  fold_right (fun r rest => do* on_world (on_proc (destruct_fd (rule_fd r))); rest) (mret tt) rules.
End rules.

Definition no_copy : Copy := mkCopy (construct buffer_size) (construct buffer_size) false false.

Definition bidirectional_stream_copy (turns : nat) (socket : FileDescriptor) : M (Proc K) unit :=
  let* _input := construct_fd STDIN_FILENO in
  let* _output := construct_fd STDOUT_FILENO in
  fun p =>
    let '(r, s) := copy_body socket _input _output turns (mkEventLoop [], (p, no_copy)) in
    let '(_, s) := copy_end _input _output s in
    (r, fst (snd s)).
End stream_copy.

(** ** What the callbacks do *)

Section effects.
Context {K : Type} `{PosixKernel K}.

Abbreviation W := (World K Copy).
Implicit Types (w : W) (d : FileDescriptor) (b : side).

Lemma stream_set b b' o (u : Copy) : stream_of b (set_stream b' o u) = if decide (b = b') then o else stream_of b u.
Proof. by destruct b, b'. Qed.

Lemma stream_shutdown b b' (u : Copy) : stream_of b (set_shutdown b' u) = stream_of b u.
Proof. by destruct b, b'. Qed.

(** The stream after a read: the bytes are stored, and the input ends with the
    descriptor's EOF flag. *)
Definition after_input (o : ByteStream) (data : bytes) (at_eof : bool) : ByteStream :=
  if at_eof then end_input (fst (write o data)) else fst (write o data).

Lemma read_to_stream_eq b d w c : heap (fst w) !! d = Some c ->
  let o := stream_of b (snd w) in
  let call := sys_read (_fd (wrapper c)) (Z.min BUFFER_SIZE (remaining_capacity o)) in
  exists r k, kcall (kernel (os (fst w))) call = (r, k) /\ posix call r /\
    read_to_stream b d w =
      if ret r <? 0 then (Throw (SystemError "read" (errno r)), (called (fst w) k call r, snd w))
      else let x := after_read (remaining_capacity o) (ret r) in
           (Ok tt, (mkProc (os (called (fst w) k call r)) (alter (map_wrapper x) d (heap (fst w))),
                    set_stream b (after_input o (out r) (_eof (x (wrapper c)))) (snd w))).
Proof.
  intros Hc o call. destruct (fd_read_spec d (remaining_capacity o) (fst w) c Hc) as (r & k & Hk & Hp & E).
  exists r, k. split; [exact Hk|]. split; [exact Hp|]. unfold read_to_stream. unfold mbind at 1, stream at 1. cbn [mgets]. fold o.
  unfold mbind at 1, on_proc at 1, zoom at 1. rewrite E. fold call. destruct (ret r <? 0); [done|]. cbn beta iota.
  set (x := after_read _ _). unfold mbind at 1, put_stream at 1, mmodify at 1. cbn [fst snd].
  unfold mbind at 1, on_proc, zoom, fd_eof, mbind, deref. cbn [fst snd heap]. rewrite list_lookup_alter_eq, Hc.
  cbn [fmap option_fmap option_map map_wrapper wrapper mret]. clearbody x.
  unfold after_input. destruct (_eof (x (wrapper c))); [|done].
  unfold end_stream, mbind, stream, put_stream, mgets, mmodify. cbn [fst snd]. rewrite stream_set, decide_True by done.
  by destruct b.
Qed.

(** Telling a descriptor of the end: one system call, after which only the flags of
    the descriptor differ. *)
Record finishes d (call : Z -> syscall) (finish : M (Proc K) unit) (g : FDWrapper -> FDWrapper) : Prop := {
  fi_quiet : forall n m r, received m [(call n, r)] = [] /\ sent m [(call n, r)] = [];
  fi_fd : forall x, _fd (g x) = _fd x;
  fi_count : forall x, _write_count (g x) = _write_count x \/ _write_count (g x) = u32 (_write_count x + 1);
  fi_run : forall p c, heap p !! d = Some c -> exists r k,
    kcall (kernel (os p)) (call (_fd (wrapper c))) = (r, k) /\
    finish p = if ret r <? 0 then (Throw (SystemError (match call 0 with sys_close _ => "close" | _ => "shutdown" end) (errno r)),
                                   called p k (call (_fd (wrapper c))) r)
               else (Ok tt, mkProc (os (called p k (call (_fd (wrapper c))) r)) (alter (map_wrapper g) d (heap p)))
}.

Lemma finishes_shutdown d : finishes d (fun n => sys_shutdown n SHUT_WR) (shutdown d SHUT_WR) count_write.
Proof.
  constructor; [done|done|by right|]. intros p c Hc. unfold shutdown, mbind. rewrite (fd_num_ok d p c Hc).
  destruct (syscall_checked_spec "shutdown" (sys_shutdown (_fd (wrapper c)) SHUT_WR) p) as (r & k & Hk & _ & ->); [done|done|].
  exists r, k. split; [done|]. by destruct (ret r <? 0).
Qed.

Lemma finishes_close d : finishes d sys_close (fd_close d) set_closed.
Proof.
  constructor; [done|done|by left|]. intros p c Hc. unfold fd_close, wrapper_close, mbind. rewrite (deref_ok d p c Hc).
  destruct (syscall_checked_spec "close" (sys_close (_fd (wrapper c))) p) as (r & k & Hk & _ & ->); [done|done|].
  exists r, k. split; [done|]. by destruct (ret r <? 0).
Qed.

(** A write takes a piece of the stream; when that was the last one the descriptor is
    told. *)
Lemma write_from_stream_eq b d finish w c : heap (fst w) !! d = Some c ->
  let o := stream_of b (snd w) in
  let data := peek_output o (Z.min max_copy_length (ByteStream.buffer_size o)) in
  exists res p tr n m, write_post d (_fd (wrapper c)) data false (fst w) res p tr n m /\
    0 <= n <= size (_que o) /\ ztake n data = ztake n (_que o) /\
    write_from_stream b d finish w =
      match res with
      | Throw e => (Throw e, (p, snd w))
      | Ok _ => let w1 := (p, set_stream b (pop_output o n) (snd w)) in
                if eof (pop_output o n) then (do* on_proc finish; put_shutdown b) w1 else (Ok tt, w1)
      end.
Proof.
  intros Hc o data. pose proof (size_nonneg (_que o)) as Hq.
  assert (size data <= 65536 /\ size data <= size (_que o) /\ data = ztake (size data) (_que o)) as (Hd & Hd2 & Ed).
  { unfold data, peek_output, ByteStream.buffer_size, max_copy_length. rewrite size_ztake by lia.
    split_and!; [lia|lia|]. f_equal. lia. }
  destruct (fd_write_spec d (fst w) c [data] false Hc) as (res & p & tr & n & m & Ew & Hpost).
  { simpl. rewrite app_nil_r. lia. }
  simpl concat in Hpost. rewrite app_nil_r in Hpost. exists res, p, tr, n, m. pose proof (wp_n _ _ _ _ _ _ _ _ _ _ Hpost) as Hn.
  split; [done|]. split; [lia|]. split; [rewrite Ed, ztake_ztake; f_equal; lia|].
  unfold write_from_stream. unfold mbind at 1, stream at 1. cbn [mgets]. fold o. fold data.
  unfold mbind at 1, on_proc at 1, zoom at 1. rewrite Ew. destruct res as [t|e]; [|done].
  destruct (wp_result _ _ _ _ _ _ _ _ _ _ Hpost) as (-> & _). cbn beta iota.
  unfold mbind at 1, put_stream at 1, mmodify at 1. cbn [fst snd]. by destruct (eof _).
Qed.
End effects.

(** ** The invariant *)

Section copying.
Context {K : Type} `{PosixKernel K}.

(** The cells of the three descriptors, the number of the socket, and the calls made
    before. *)
Context (ds di do_ : FileDescriptor) (ns : Z) (h0 : list (syscall * sysret)).
Context (Hcells : ds <> di /\ ds <> do_ /\ di <> do_) (Hnum : ns <> STDIN_FILENO /\ ns <> STDOUT_FILENO).

Abbreviation W := (World K Copy).
Abbreviation Loop := (EventLoop K Copy).
Implicit Types (w : W) (b : side) (l : list (Rule K Copy)).

Definition source b : FileDescriptor := match b with Outbound => di | Inbound => ds end.
Definition sink b : FileDescriptor := match b with Outbound => ds | Inbound => do_ end.
Definition source_num b : Z := match b with Outbound => STDIN_FILENO | Inbound => ns end.
Definition sink_num b : Z := match b with Outbound => ns | Inbound => STDOUT_FILENO end.

(** The call that tells the sink of the end. *)
Definition end_call b : syscall :=
  match b with Outbound => sys_shutdown ns SHUT_WR | Inbound => sys_close STDOUT_FILENO end.

Definition told b (tr : list (syscall * sysret)) : Prop := Exists (fun e => fst e = end_call b) tr.

Definition key (r : Rule K Copy) : FileDescriptor * Direction := (rule_fd r, direction r).
Definition keys l : list (FileDescriptor * Direction) := map key l.

Definition eof_flag (d : FileDescriptor) (p : Proc K) : option bool := (fun c => _eof (wrapper c)) <$> heap p !! d.

(** Nothing more comes from the source: it is at its end, or is no longer read. *)
Definition source_done b l (p : Proc K) : Prop := eof_flag (source b) p = Some true \/ (source b, In) ∉ keys l.

(** What has come from the source has gone to the sink or is in the stream. *)
Record side_ok b l (p : Proc K) (o : ByteStream) (tr : list (syscall * sysret)) : Prop := {
  so_wf : wf o;
  so_bytes : received (source_num b) tr = sent (sink_num b) tr ++ _que o;
  so_told : told b tr -> _que o = [] /\ source_done b l p;
  so_ended : _end o = true -> source_done b l p \/ (sink b, Out) ∉ keys l
}.

Record inv l w : Prop := {
  in_keys : NoDup (keys l);
  in_socket : cell_ok ds ns l (fst w);
  in_input : cell_ok di STDIN_FILENO l (fst w);
  in_output : cell_ok do_ STDOUT_FILENO l (fst w);
  in_trace : exists tr, history (os (fst w)) = h0 ++ tr /\ forall b, side_ok b l (fst w) (stream_of b (snd w)) tr
}.

(** How the function may end: by a failed system call, or an error that [poll] reports. *)
Definition allowed (e : exn) : Prop :=
  (exists attempt code, e = SystemError attempt code) \/ e = RuntimeError "EventLoop: error on polled file descriptor".

Definition ends (e : exn) w : Prop := allowed e /\ exists l, inv l w.

(** What an observer of the system calls sees. *)
Definition copied b (tr : list (syscall * sysret)) : Prop :=
  sent (sink_num b) tr `prefix_of` received (source_num b) tr /\
  (told b tr -> sent (sink_num b) tr = received (source_num b) tr).

Lemma side_copied b l p o tr : side_ok b l p o tr -> copied b tr.
Proof.
  intros [_ Hb Ht _]. split; [exists (_que o); done|]. intros Hx. destruct (Ht Hx) as [E _]. by rewrite Hb, E, app_nil_r.
Qed.

(** A rule fewer is less to come. *)
Lemma side_fewer b l l' p o tr : (forall k, k ∈ keys l' -> k ∈ keys l) -> side_ok b l p o tr -> side_ok b l' p o tr.
Proof.
  intros Hk [S1 S2 S3 S4]. assert (source_done b l p -> source_done b l' p) as Hd by (intros [|]; [by left|right; auto]).
  constructor; [done|done| |].
  - intros Ht. destruct (S3 Ht). auto.
  - intros He. destruct (S4 He); auto.
Qed.

(** Calls that are none of a side's business. *)
Definition apart b (e : syscall * sysret) : Prop :=
  read_bytes (source_num b) e = [] /\ written_bytes (sink_num b) e = [] /\ fst e <> end_call b.

Lemma told_app b tr tr' : told b (tr ++ tr') <-> told b tr \/ told b tr'.
Proof. apply Exists_app. Qed.

Lemma apart_trace b tr : Forall (apart b) tr ->
  received (source_num b) tr = [] /\ sent (sink_num b) tr = [] /\ ~ told b tr.
Proof.
  intros Ha. split_and!.
  - apply concat_nils. eapply Forall_impl; [exact Ha|]. by intros e (? & _).
  - apply concat_nils. eapply Forall_impl; [exact Ha|]. by intros e (_ & ? & _).
  - unfold told. rewrite Exists_exists. intros (e & Hin & He). rewrite Forall_forall in Ha. by destruct (Ha e Hin) as (_ & _ & ?).
Qed.

Definition eof_grows (p p' : Proc K) : Prop := forall d, eof_flag d p = Some true -> eof_flag d p' = Some true.

Lemma side_apart b l p p' o tr tr' : Forall (apart b) tr' -> eof_grows p p' -> side_ok b l p o tr ->
  side_ok b l p' o (tr ++ tr').
Proof.
  intros (Er & Es & Et)%apart_trace Hg [S1 S2 S3 S4].
  assert (source_done b l p -> source_done b l p') as Hd by (intros [|]; [left; auto|by right]).
  constructor; [done| | |].
  - by rewrite received_app, sent_app, Er, Es, !app_nil_r.
  - intros [Ht|]%told_app; [|done]. destruct (S3 Ht). auto.
  - intros He. destruct (S4 He); auto.
Qed.

(** The heap after an operation on one descriptor. *)
Lemma eof_alter d p o' (f : FDWrapper -> FDWrapper) d' :
  eof_flag d' (mkProc o' (alter (map_wrapper f) d (heap p))) =
  if decide (d' = d) then (fun c => _eof (f (wrapper c))) <$> heap p !! d else eof_flag d' p.
Proof.
  unfold eof_flag. cbn [heap]. destruct (decide (d' = d)) as [->|Hne]; [|by rewrite list_lookup_alter_ne].
  rewrite list_lookup_alter_eq. by destruct (heap p !! d).
Qed.

Lemma eof_grows_alter d p o' (f : FDWrapper -> FDWrapper) : (forall x, _eof x = true -> _eof (f x) = true) ->
  eof_grows p (mkProc o' (alter (map_wrapper f) d (heap p))).
Proof.
  intros Hf d' He. rewrite eof_alter. destruct (decide (d' = d)) as [->|]; [|done]. unfold eof_flag in He.
  destruct (heap p !! d) as [c|]; [|done]. simpl in *. f_equal. apply Hf. by injection He.
Qed.

Lemma cells_alter l w o' u d (f : FDWrapper -> FDWrapper) : inv l w -> (forall x, _fd (f x) = _fd x) ->
  let p' := mkProc o' (alter (map_wrapper f) d (heap (fst w))) in
  (exists tr, history o' = h0 ++ tr /\ forall b, side_ok b l p' (stream_of b u) tr) -> inv l (p', u).
Proof.
  intros [I1 I2 I3 I4 _] Hf p' Htr.
  assert (forall d' n, cell_ok d' n l (fst w) -> cell_ok d' n l p') as Hc.
  { intros d' n Hd. apply cell_ok_alter; [done|]. intros -> c Hx. rewrite Hf. destruct Hd as (c' & ? & ? & _). congruence. }
  constructor; auto.
Qed.

Lemma inv_source l w b : inv l w -> cell_ok (source b) (source_num b) l (fst w).
Proof. intros [_ ? ? _ _]. by destruct b. Qed.

Lemma inv_sink l w b : inv l w -> cell_ok (sink b) (sink_num b) l (fst w).
Proof. intros [_ ? _ ? _]. by destruct b. Qed.

Lemma other_side b b' : b' <> b -> source_num b' <> source_num b /\ sink_num b' <> sink_num b.
Proof. clear Hcells. destruct Hnum, b, b'; simpl; split; congruence. Qed.

Lemma apart_other b b' c r : b' <> b -> (exists n, c = sys_read (source_num b) n) \/
    (exists iov, c = sys_writev (sink_num b) iov) \/ c = end_call b -> apart b' (c, r).
Proof.
  intros Hne Hc. destruct (other_side b b' Hne) as [H1 H2]. unfold apart, read_bytes, written_bytes. simpl.
  destruct Hc as [[n ->]|[[iov ->]| ->]].
  - case_cmp; [congruence|]. split_and!; [done|done|by destruct b'].
  - case_cmp; [congruence|]. split_and!; [done|done|by destruct b'].
  - by destruct b, b'.
Qed.

(** Calls apart from both sides. *)
Lemma inv_calls l w o' tr' : inv l w -> history o' = history (os (fst w)) ++ tr' -> (forall b, Forall (apart b) tr') ->
  inv l (mkProc o' (heap (fst w)), snd w).
Proof.
  intros [I1 I2 I3 I4 (tr & Htr & Hs)] Ho Ha. constructor; try done. exists (tr ++ tr'). split.
  - cbn [fst os]. by rewrite Ho, Htr, app_assoc.
  - intros b. apply (side_apart b l (fst w)); [apply Ha|by intros d|apply Hs].
Qed.

Lemma failed_read_apart b n r b' : ret r < 0 -> apart b' (sys_read (source_num b) n, r).
Proof.
  intros Hr. destruct (decide (b' = b)) as [->|Hne]; [|apply (apart_other b); eauto].
  unfold apart, read_bytes, written_bytes. simpl. rewrite Z.eqb_refl. split_and!; [by apply ztake_0; lia|done|by destruct b].
Qed.

Lemma write_all_que o data : wf o -> size data <= remaining_capacity o -> _que (fst (write o data)) = _que o ++ data.
Proof. intros [_ _ Hc _ _ _] Hd. rewrite write_que by lia. by rewrite ztake_all. Qed.

(** A reading rule keeps the invariant while its source is not at its end. *)
Lemma read_spec l w b : inv l w -> (source b, In) ∈ keys l -> eof_flag (source b) (fst w) = Some false ->
  outcome (fun _ w' => inv l w') ends (read_to_stream b (source b) w).
Proof.
  intros Hi Hk He. pose proof (inv_source l w b Hi) as (c & Hc & Hn & _).
  destruct (read_to_stream_eq b (source b) w c Hc) as (r & k & _ & Hp & ->). rewrite Hn in *.
  set (call := sys_read _ _) in *. destruct (Z.ltb_spec (ret r) 0) as [Hneg|Hpos].
  { split; [left; eauto|]. exists l. eapply (inv_calls l w _ [(call, r)]); [done|done|].
    intros b'. constructor; [by apply failed_read_apart|constructor]. }
  destruct Hp as (_ & _ & Hp). destruct (Hp Hpos) as [Hle Hsz]. set (o := stream_of b (snd w)) in *. cbv zeta.
  set (x := after_read _ _). assert (forall y, _fd (x y) = _fd y) as Hfd by (intros y; apply (after_read_keeps _ _ y)).
  assert (forall y, _eof y = true -> _eof (x y) = true) as Hmono by (intros y Hy; unfold x, after_read; by destruct (_ && _)).
  destruct (in_trace _ _ Hi) as (tr & Htr & Hs). pose proof (Hs b) as [S1 S2 S3 S4]. fold o in S1, S2, S3, S4.
  assert (~ source_done b l (fst w)) as Hnd by (intros [E|E]; [congruence|done]).
  cbn [outcome]. apply cells_alter; [done|done|]. exists (tr ++ [(call, r)]). split; [simpl; by rewrite Htr, app_assoc|].
  intros b'. rewrite stream_set. destruct (decide (b' = b)) as [->|Hne].
  2:{ eapply side_apart; [|by apply eof_grows_alter|done]. constructor; [|constructor]. apply (apart_other b); eauto. }
  assert (_que (after_input o (out r) (_eof (x (wrapper c)))) = _que o ++ out r) as Eq.
  { unfold after_input. rewrite <- write_all_que by (done || lia). by destruct (_eof _). }
  constructor.
  - unfold after_input. destruct (_eof _); auto with stream.
  - rewrite Eq, received_app, sent_app, S2, app_assoc. f_equal; [by rewrite app_nil_r|].
    unfold received, read_bytes. simpl. rewrite Z.eqb_refl, app_nil_r. apply ztake_all. lia.
  - intros [Ht|Ht]%told_app; [by destruct (S3 Ht)|]. apply Exists_cons in Ht as [Ht|Ht%Exists_nil]; [by destruct b|done].
  - unfold after_input, source_done. rewrite eof_alter, decide_True, Hc by done. cbn [fmap option_fmap option_map].
    destruct (_eof (x (wrapper c))) eqn:Ee; [intros _; by left; left|]. intros Hend. destruct (S4 Hend) as [?|]; [done|by right].
Qed.

(** How a sink is told of the end. *)
Definition finish b : M (Proc K) unit := match b with Outbound => shutdown ds SHUT_WR | Inbound => fd_close do_ end.
Definition finish_flags b : FDWrapper -> FDWrapper := match b with Outbound => count_write | Inbound => set_closed end.

Lemma finish_spec b p c : heap p !! sink b = Some c -> _fd (wrapper c) = sink_num b ->
  exists r k, outcome (fun _ p' => p' = mkProc (os (called p k (end_call b) r)) (alter (map_wrapper (finish_flags b)) (sink b) (heap p)))
    (fun e p' => allowed e /\ p' = called p k (end_call b) r) (finish b p).
Proof.
  intros Hc Hn. destruct b; simpl in *; rewrite <- Hn.
  - destruct (fi_run _ _ _ _ (finishes_shutdown ds) p c Hc) as (r & k & _ & ->). exists r, k.
    destruct (ret r <? 0); simpl; [split; [left; eauto|done]|done].
  - destruct (fi_run _ _ _ _ (finishes_close do_) p c Hc) as (r & k & _ & ->). exists r, k.
    destruct (ret r <? 0); simpl; [split; [left; eauto|done]|done].
Qed.

Lemma pop_output_0 o : wf o -> pop_output o 0 = o.
Proof.
  intros [Hmax Hroom Hcap Hw Hr Hc]. pose proof (size_nonneg (_que o)). destruct o; unfold pop_output; simpl in *.
  rewrite Z.min_l by lia. f_equal; ints.
Qed.

Lemma set_stream_id b (u : Copy) : set_stream b (stream_of b u) u = u.
Proof. by destruct b, u. Qed.

(** After a piece of a stream has gone to its sink. *)
Lemma inv_wrote l w b p c res tr' n m data : inv l w -> heap (fst w) !! sink b = Some c ->
  write_post (sink b) (sink_num b) data false (fst w) res p tr' n m ->
  let o := stream_of b (snd w) in
  0 <= n <= size (_que o) -> ztake n data = ztake n (_que o) -> inv l (p, set_stream b (pop_output o n) (snd w)).
Proof.
  intros Hi Hc [W1 W2 W3 W4 W5 W6 W7 _ _] o Hn Ed. destruct p as [o' hp]. simpl in *. subst hp.
  destruct (os_steps_trace _ _ _ W2) as (tr2 & Htr2 & Hw). rewrite W1 in Htr2. apply app_inv_head in Htr2 as <-.
  destruct (in_trace _ _ Hi) as (tr & Htr & Hs). apply cells_alter; [done|intros x; by apply iter_count_write|].
  exists (tr ++ tr'). split; [by rewrite W1, Htr, app_assoc|].
  assert (forall x, _eof x = true -> _eof (Nat.iter m count_write x) = true) as Hmono.
  { intros x Hx. by destruct (iter_count_write m x) as (_ & -> & _). }
  intros b'. rewrite stream_set. destruct (decide (b' = b)) as [->|Hne].
  2:{ apply (side_apart b' l (fst w)); [|by apply eof_grows_alter|done].
      eapply Forall_impl; [exact Hw|]. intros [x r] [iov Hx]. simpl in Hx. apply (apart_other b); eauto. }
  pose proof (Hs b) as [S1 S2 S3 S4]. fold o in S1, S2, S3, S4.
  pose proof (eof_grows_alter (sink b) (fst w) o' _ Hmono) as Hg.
  assert (forall p', eof_grows (fst w) p' -> source_done b l (fst w) -> source_done b l p') as Hd.
  { intros p' Hg' [|]; [left; auto|by right]. }
  constructor.
  - auto with stream lia.
  - assert (received (source_num b) tr' = []) as Er.
    { apply concat_nils. eapply Forall_impl; [exact Hw|]. intros [x r] [iov Hx]. simpl in Hx. by subst x. }
    rewrite received_app, sent_app, pop_output_que, Er, app_nil_r, S2, W4, Ed, Z.min_l, <- app_assoc by lia.
    by rewrite ztake_zdrop.
  - rewrite pop_output_que. intros [Ht|Ht]%told_app.
    + destruct (S3 Ht) as [-> ?]. split; [unfold zdrop; by rewrite drop_nil|by apply Hd].
    + exfalso. apply Exists_exists in Ht as (e & He & Hx). rewrite Forall_forall in Hw. destruct (Hw e He) as [iov Hy].
      rewrite Hy in Hx. by destruct b.
  - intros He. destruct (S4 He); [left; by apply Hd|by right].
Qed.

(** After the sink has been told, or the attempt has failed. *)
Lemma inv_told l w b o' k r g : inv l w -> _que (stream_of b (snd w)) = [] -> source_done b l (fst w) ->
  o' = os (called (fst w) k (end_call b) r) -> (forall x, _fd (g x) = _fd x) -> (forall x, _eof x = true -> _eof (g x) = true) ->
  inv l (mkProc o' (alter (map_wrapper g) (sink b) (heap (fst w))), snd w).
Proof.
  intros Hi Hq Hd -> Hg Hmono. destruct (in_trace _ _ Hi) as (tr & Htr & Hs). apply cells_alter; [done|done|].
  exists (tr ++ [(end_call b, r)]). split; [simpl; by rewrite Htr, app_assoc|]. intros b'.
  assert (eof_grows (fst w) (mkProc (os (called (fst w) k (end_call b) r)) (alter (map_wrapper g) (sink b) (heap (fst w))))) as Hgr
    by by apply eof_grows_alter.
  destruct (decide (b' = b)) as [->|Hne].
  2:{ apply (side_apart b' l (fst w)); [|done|done]. constructor; [|constructor]. apply (apart_other b); auto. }
  pose proof (Hs b) as [S1 S2 S3 S4].
  assert (source_done b l (mkProc (os (called (fst w) k (end_call b) r)) (alter (map_wrapper g) (sink b) (heap (fst w))))) as Hd'.
  { destruct Hd as [E|]; [left; by apply Hgr|by right]. }
  constructor; [done| |done|by left].
  rewrite received_app, sent_app, S2, Hq, !app_nil_r. f_equal. by destruct b.
Qed.

Lemma inv_shut l w b : inv l w -> inv l (fst w, set_shutdown b (snd w)).
Proof.
  intros [I1 I2 I3 I4 (tr & Htr & Hs)]. constructor; try done. exists tr. split; [done|]. intros b'. cbn [fst snd].
  by rewrite stream_shutdown.
Qed.

Lemma write_spec l w b : inv l w -> (sink b, Out) ∈ keys l ->
  outcome (fun _ w' => inv l w') ends (write_from_stream b (sink b) (finish b) w).
Proof.
  intros Hi Hk. pose proof (inv_sink l w b Hi) as (c & Hc & Hn & _).
  destruct (write_from_stream_eq b (sink b) (finish b) w c Hc) as (res & p & tr & n & m & Hpost & Hr & Ed & ->). rewrite Hn in *.
  pose proof (inv_wrote l w b p c res tr n m _ Hi Hc Hpost Hr Ed) as Hi1. set (o := stream_of b (snd w)) in *.
  assert (wf o) as Hwf by (destruct (in_trace _ _ Hi) as (? & _ & Hs); apply (Hs b)).
  destruct res as [t|e].
  2:{ destruct (wp_result _ _ _ _ _ _ _ _ _ _ Hpost) as [[code ->] Hn0]. split; [left; eauto|]. exists l.
      rewrite (Hn0 eq_refl), pop_output_0 in Hi1 by done. unfold o in Hi1. by rewrite set_stream_id in Hi1. }
  cbv zeta. destruct (eof (pop_output o n)) eqn:Ee; [|exact Hi1].
  assert (wf (pop_output o n)) as Hwf' by auto with stream lia.
  rewrite eof_que in Ee by done. apply andb_true_iff in Ee as [Hend Hq]. simpl in Hend, Hq.
  destruct (pop_front_n _ _) eqn:Eq in Hq; [|done]. clear Hq.
  set (w1 := (p, set_stream b (pop_output o n) (snd w))) in *.
  assert (_que (stream_of b (snd w1)) = [] /\ source_done b l (fst w1)) as [Hq Hd].
  { destruct (in_trace _ _ Hi1) as (tr1 & _ & Hs1). destruct (Hs1 b) as [_ _ _ S4].
    unfold w1 in S4 |- *. cbn [fst snd] in *. rewrite stream_set, decide_True in * by done.
    split; [exact Eq|]. by destruct (S4 Hend). }
  pose proof (inv_sink l w1 b Hi1) as (c1 & Hc1 & Hn1 & _).
  destruct (finish_spec b (fst w1) c1 Hc1 Hn1) as (r & k & Hf).
  apply outcome_bind. apply outcome_zoom. destruct (finish b (fst w1)) as [[[]|e] p2]; simpl in Hf |- *.
  - subst p2. apply (inv_shut l (_, snd w1)).
    apply (inv_told l w1 b _ k r); try done; intros x; by destruct b.
  - destruct Hf as [He ->]. split; [done|]. exists l.
    pose proof (inv_told l w1 b _ k r (fun x => x) Hi1 Hq Hd eq_refl ltac:(done) ltac:(done)) as Hi2.
    by rewrite (alter_fixed _ _ _ _ Hc1) in Hi2 by (by destruct c1).
Qed.

(** *** Progress, and what the callbacks leave to each other *)

Lemma read_touches b d w c : heap (fst w) !! d = Some c ->
  outcome (fun _ w' => exists f, heap (fst w') = alter (map_wrapper f) d (heap (fst w)) /\
      _read_count (f (wrapper c)) <> _read_count (wrapper c)) (fun _ _ => True) (read_to_stream b d w).
Proof.
  intros Hc. destruct (read_to_stream_eq b d w c Hc) as (r & k & _ & _ & ->).
  destruct (ret r <? 0); [done|]. eexists. split; [done|]. apply after_read_keeps.
Qed.

Lemma write_touches b w c : heap (fst w) !! sink b = Some c ->
  outcome (fun _ w' => exists f, heap (fst w') = alter (map_wrapper f) (sink b) (heap (fst w)) /\
      _write_count (f (wrapper c)) <> _write_count (wrapper c) /\ (b = Outbound -> forall x, _eof (f x) = _eof x))
    (fun _ _ => True) (write_from_stream b (sink b) (finish b) w).
Proof.
  intros Hc. destruct (write_from_stream_eq b (sink b) (finish b) w c Hc) as (res & p & tr & n & m & Hpost & _ & _ & ->).
  destruct res as [t|e]; [|done]. pose proof Hpost as [_ _ _ _ _ _ W7 _ (_ & _ & _ & Hm & _)]. rewrite (Hm eq_refl) in W7.
  cbv zeta. destruct (eof _); [|by exists count_write; split_and!; [exact W7|apply next_count_ne|]].
  apply outcome_bind, outcome_zoom. cbn [fst snd].
  assert (heap p !! sink b = Some (map_wrapper count_write c)) as Hc1 by by rewrite W7, list_lookup_alter_eq, Hc.
  destruct b; simpl in *.
  - destruct (fi_run _ _ _ _ (finishes_shutdown ds) p _ Hc1) as (r & k & _ & ->). destruct (ret r <? 0); [done|].
    exists (fun x => count_write (count_write x)). simpl. rewrite W7, alter_twice. split_and!; [done|simpl; ints|done].
  - destruct (fi_run _ _ _ _ (finishes_close do_) p _ Hc1) as (r & k & _ & ->). destruct (ret r <? 0); [done|].
    exists (fun x => set_closed (count_write x)). simpl. rewrite W7, alter_twice. split_and!; [done|simpl; ints|done].
Qed.

(** *** The rules *)

Definition reader b : Rule K Copy := mkRule (source b) In (read_to_stream b (source b)) (wants_input b) (end_stream b).
Definition writer b : Rule K Copy :=
  mkRule (sink b) Out (write_from_stream b (sink b) (finish b)) (has_output b) (end_stream b).

Definition copy_rules : list (Rule K Copy) := [rule1 di; rule2 ds; rule3 ds; rule4 do_].

Lemma copy_rules_eq : copy_rules = [reader Outbound; writer Outbound; reader Inbound; writer Inbound].
Proof. done. Qed.

Definition number (r : Rule K Copy) : Z :=
  if decide (rule_fd r = ds) then ns else if decide (rule_fd r = di) then STDIN_FILENO else STDOUT_FILENO.

(** A reading rule is polled only while its source is not at its end. *)
Definition armed (r : Rule K Copy) w : Prop := direction r = In -> eof_flag (rule_fd r) (fst w) = Some false.
Definition hung (r : Rule K Copy) w : Prop := True.

Lemma source_number b : (if decide (source b = ds) then ns else if decide (source b = di) then STDIN_FILENO else STDOUT_FILENO) = source_num b.
Proof. destruct Hcells as (? & ? & ?). by destruct b; simpl; repeat case_decide. Qed.

Lemma sink_number b : (if decide (sink b = ds) then ns else if decide (sink b = di) then STDIN_FILENO else STDOUT_FILENO) = sink_num b.
Proof. destruct Hcells as (? & ? & ?). by destruct b; simpl; repeat case_decide. Qed.

Lemma keys_middle l1 (r : Rule K Copy) l2 : keys (l1 ++ r :: l2) ≡ₚ key r :: keys (l1 ++ l2).
Proof. unfold keys. rewrite !map_app. simpl. symmetry. apply Permutation_middle. Qed.

Lemma eof_uses d (p : Proc K) d' : eof_flag d' (mkProc (os p) (alter (fun c => mkCell (wrapper c) (uses c - 1)) d (heap p))) = eof_flag d' p.
Proof.
  unfold eof_flag. cbn [heap]. destruct (decide (d' = d)) as [->|Hne]; [|by rewrite list_lookup_alter_ne].
  rewrite list_lookup_alter_eq. by destruct (heap p !! d).
Qed.

(** Erasing a rule after the input of its stream has been ended. *)
Lemma cancel_spec l1 r l2 w b : inv (l1 ++ r :: l2) w -> r = reader b \/ r = writer b ->
  outcome (fun _ w' => inv (l1 ++ l2) w' /\ forall d, eof_flag d (fst w') = eof_flag d (fst w)) ends (cancel_erase r w).
Proof.
  intros Hi Hr. pose proof Hi as [I1 I2 I3 I4 (tr & Htr & Hs)]. rewrite keys_middle in I1. apply NoDup_cons in I1 as [Hk I1].
  assert (exists c, heap (fst w) !! rule_fd r = Some c /\ (2 <= uses c)%nat) as (c & Hc & Hu).
  { destruct Hr as [E|E]; [pose proof (inv_source _ _ b Hi) as (c & Hc & _ & Hu)|pose proof (inv_sink _ _ b Hi) as (c & Hc & _ & Hu)];
      exists c; rewrite refs_middle, E, decide_True in Hu by done; rewrite E; (split; [done|lia]). }
  assert (cancel r = end_stream b) as Ec by (destruct Hr as [->| ->]; done).
  unfold cancel_erase. rewrite Ec. unfold mbind, end_stream, mbind, stream, put_stream, mgets, mmodify, on_proc, zoom. cbn [fst snd].
  rewrite (destruct_fd_shared _ _ c Hc Hu). cbn [outcome fst snd]. split; [|by intros d; apply eof_uses].
  constructor; [done|by apply cell_ok_erase..|]. exists tr. split; [done|]. cbn [fst snd]. intros b'. rewrite stream_set.
  assert (forall o, side_ok b' (l1 ++ r :: l2) (fst w) o tr -> side_ok b' (l1 ++ l2)
    (mkProc (os (fst w)) (alter (fun c => mkCell (wrapper c) (uses c - 1)) (rule_fd r) (heap (fst w)))) o tr) as Hside.
  { intros o Ho. rewrite <- (app_nil_r tr). apply (side_apart b' _ (fst w)); [constructor|intros d; by rewrite eof_uses|].
    eapply side_fewer; [|exact Ho]. intros k Hin. rewrite keys_middle. by right. }
  destruct (decide (b' = b)) as [->|Hne]; [|by apply Hside].
  pose proof (Hside _ (Hs b)) as [S1 S2 S3 S4]. constructor; [auto with stream|done|done|]. intros _.
  destruct Hr as [E|E]; rewrite E in Hk; [left; right; done|by right].
Qed.

Lemma member_key (r : Rule K Copy) l : r ∈ l -> key r ∈ keys l.
Proof. apply list_elem_of_fmap_2. Qed.

Lemma outcome_and {S B : Type} (Q Q' : B -> S -> Prop) E E' (x : result B * S) :
  outcome Q E x -> outcome Q' E' x -> outcome (fun a s => Q a s /\ Q' a s) E x.
Proof. destruct x as [[a|e] s]; simpl; auto. Qed.

Lemma reader_ok b : rule_ok inv ends number armed hung (reader b).
Proof.
  constructor.
  - intros l w Hi _. destruct (inv_source l w b Hi) as (c & Hc & Hn & _). exists c. unfold number. simpl. by rewrite source_number.
  - intros l w Hi _ Hne. eexists. split; [done|]. intros _ _. destruct (inv_source l w b Hi) as (c & Hc & _ & _).
    unfold eof_flag. simpl. rewrite Hc. simpl. destruct (_eof (wrapper c)) eqn:Ee; [|done]. exfalso. apply Hne. exists c. auto.
  - intros l w Hi Hin Ha. apply member_key in Hin. destruct (inv_source l w b Hi) as (c & Hc & _ & _).
    eapply outcome_weaken; [exact (outcome_and _ _ _ _ _ (read_spec l w b Hi Hin (Ha eq_refl)) (read_touches b _ w c Hc))|].
    intros [] w' [Hi' (f & Hh & Hne)]. split; [done|]. right. exists c, (map_wrapper f c). unfold rule_cell. simpl.
    rewrite Hh, list_lookup_alter_eq, Hc. split_and!; [done|done|]. unfold counter. simpl. by apply not_eq_sym.
  - intros l1 l2 w Hi _. eapply outcome_weaken; [by apply (cancel_spec l1 _ l2 w b); [|left]|]. by intros [] w' [? _].
Qed.

Lemma writer_ok b : rule_ok inv ends number armed hung (writer b).
Proof.
  constructor.
  - intros l w Hi _. destruct (inv_sink l w b Hi) as (c & Hc & Hn & _). exists c. unfold number. simpl. by rewrite sink_number.
  - intros l w Hi _ _. eexists. split; [done|]. by intros _.
  - intros l w Hi Hin _. apply member_key in Hin. destruct (inv_sink l w b Hi) as (c & Hc & _ & _).
    eapply outcome_weaken; [exact (outcome_and _ _ _ _ _ (write_spec l w b Hi Hin) (write_touches b w c Hc))|].
    intros [] w' [Hi' (f & Hh & Hne & _)]. split; [done|]. right. exists c, (map_wrapper f c). unfold rule_cell. simpl.
    rewrite Hh, list_lookup_alter_eq, Hc. split_and!; [done|done|]. unfold counter. simpl. by apply not_eq_sym.
  - intros l1 l2 w Hi _. eapply outcome_weaken; [by apply (cancel_spec l1 _ l2 w b); [|right]|]. by intros [] w' [? _].
Qed.

(** *** What the rules leave to each other *)

Lemma keeps_trivial a (r : Rule K Copy) (P : W -> Prop) m : (forall w, P w) -> keeps inv a P m.
Proof. intros HP l w _ _ _. destruct (m w) as [[[]|e] w']; [apply HP|done]. Qed.

(** A rule leaves a source alone when its own descriptor is another, or keeps the flag. *)
Lemma leaves_source a b : (exists b', a = reader b' \/ a = writer b') ->
  (forall l w, inv l w -> a ∈ l -> outcome (fun _ w' => eof_flag (source b) (fst w') = eof_flag (source b) (fst w))
     (fun _ _ => True) (callback a w)) ->
  leaves inv armed hung a (reader b).
Proof.
  intros [b' Ha] Hcb.
  assert (keeps inv a (armed (reader b)) (cancel_erase a)) as Hce.
  { intros l w Hi Hin Hp. apply list_elem_of_split in Hin as (l1 & l2 & ->).
    pose proof (cancel_spec l1 a l2 w b' Hi Ha) as Hc. destruct (cancel_erase a w) as [[[]|e] w']; [|done].
    destruct Hc as [_ Hf]. intros _. simpl. rewrite Hf. by apply Hp. }
  split; [|by apply (keeps_trivial _ a)|exact Hce|by apply (keeps_trivial _ a)].
  intros l w Hi Hin Hp. specialize (Hcb l w Hi Hin). destruct (callback a w) as [[[]|e] w']; [|done].
  intros _. simpl in *. rewrite Hcb. by apply Hp.
Qed.

Lemma leaves_writer a b : leaves inv armed hung a (writer b).
Proof. split; by apply (keeps_trivial _ a). Qed.

Lemma reader_leaves b b' : b' <> b -> leaves inv armed hung (reader b') (reader b).
Proof.
  intros Hne. apply leaves_source; [eauto|]. intros l w Hi _. destruct (inv_source l w b' Hi) as (c & Hc & _).
  simpl. pose proof (read_touches b' _ w c Hc) as Ht. destruct (read_to_stream _ _ w) as [[[]|e] [p' u]]; [|done].
  destruct Ht as (f & Hh & _). simpl in *. unfold eof_flag. rewrite Hh, list_lookup_alter_ne; [done|].
  destruct Hcells as (? & _). by destruct b, b'; simpl; auto.
Qed.

Lemma writer_leaves b b' : leaves inv armed hung (writer b') (reader b).
Proof.
  apply leaves_source; [eauto|]. intros l w Hi _. destruct (inv_sink l w b' Hi) as (c & Hc & _).
  simpl. pose proof (write_touches b' w c Hc) as Ht. destruct (write_from_stream _ _ _ w) as [[[]|e] [p' u]]; [|done].
  destruct Ht as (f & Hh & _ & Hf). simpl in *. unfold eof_flag. rewrite Hh. destruct Hcells as (? & ? & ?).
  destruct (decide (sink b' = source b)) as [E|Hne]; [|by rewrite list_lookup_alter_ne].
  destruct b, b'; simpl in *; try done. rewrite list_lookup_alter_eq, Hc. simpl. by rewrite Hf.
Qed.

Lemma copy_rules_ok : rules_ok inv ends number armed hung copy_rules.
Proof.
  rewrite copy_rules_eq. split; [repeat (apply Forall_cons; split); auto using reader_ok, writer_ok|].
  assert (leaves inv armed hung (reader Outbound) (reader Inbound)) by by apply reader_leaves.
  assert (leaves inv armed hung (reader Inbound) (reader Outbound)) by by apply reader_leaves.
  repeat apply FOP_cons; try apply FOP_nil; repeat (apply Forall_cons; split); try apply Forall_nil; try done;
    split; auto using leaves_writer, writer_leaves.
Qed.

Lemma apart_call b c r : call_fd c = None -> apart b (c, r).
Proof. intros Hc. unfold apart, read_bytes, written_bytes. destruct c; simpl in *; try done; by destruct b. Qed.

Lemma copy_poll_ok : poll_ok inv ends number armed hung.
Proof.
  constructor.
  - intros l w fds t Hi. destruct (kcall _ _) as [a k]. eapply (inv_calls l w _ [(sys_poll fds t, a)]); [done|done|].
    intros b. constructor; [by apply apart_call|constructor].
  - intros r l w fds t _ Ha. by destruct (kcall _ _) as [a k].
  - intros r l w fds t i v _ _ _. by destruct (kcall _ _) as [a k].
  - intros l w Hi. split; [by right|eauto].
Qed.

(** *** The loop and the function *)

Abbreviation loops := (loop_at inv ends number armed hung).

Lemma copy_loop_spec turns l s : loops l s ->
  outcome (fun _ s' => exists l, inv l (snd s')) (fun e s' => (e = OutOfFuel \/ allowed e) /\ exists l, inv l (snd s'))
    (copy_loop turns s).
Proof.
  revert l s. induction turns as [|turns IH]; intros l s Hl; cbn [copy_loop].
  { split; [by left|]. destruct Hl. eauto. }
  pose proof (wait_next_event_ok _ _ _ _ _ (-1) l copy_poll_ok s Hl) as Hw. unfold mbind.
  destruct (wait_next_event (-1) s) as [[r|e] s'].
  - destruct Hw as (l' & _ & Hl'). destruct r; [by eapply IH..|]. destruct Hl'. simpl. eauto.
  - destruct Hw as [? ?]. split; [by right|done].
Qed.

(** Before the loop starts. *)
Record ready l w : Prop := {
  rd_keys : NoDup (keys l);
  rd_socket : cell_ok ds ns l (fst w);
  rd_input : cell_ok di STDIN_FILENO l (fst w);
  rd_output : cell_ok do_ STDOUT_FILENO l (fst w);
  rd_trace : exists tr, history (os (fst w)) = h0 ++ tr /\ forall b, Forall (apart b) tr;
  rd_copy : snd w = no_copy
}.

Lemma ready_inv l w : ready l w -> inv l w.
Proof.
  intros [R1 R2 R3 R4 (tr & Htr & Ha) R6]. constructor; try done. exists tr. split; [done|]. intros b. rewrite R6.
  destruct (apart_trace b tr (Ha b)) as (E1 & E2 & E3).
  assert (stream_of b no_copy = construct buffer_size) as -> by by destruct b.
  constructor; [by apply construct_wf|by rewrite E1, E2|done|done].
Qed.

Lemma set_blocking_spec d n l w : ready l w -> cell_ok d n l (fst w) ->
  outcome (fun _ w' => ready l w') (fun e w' => allowed e /\ ready l w') (on_proc (set_blocking d false) w).
Proof.
  intros Hr (c & Hc & _).
  assert (forall w k c a, ready l w -> (exists fd, c = sys_getfl fd \/ exists v, c = sys_setfl fd v) ->
    ready l (called (fst w) k c a, snd w)) as Hcall.
  { intros w1 k call a [R1 R2 R3 R4 (tr & Htr & Ha) R6] Hx. constructor; try done. exists (tr ++ [(call, a)]). simpl.
    rewrite Htr, app_assoc. split; [done|]. intros b. apply Forall_app. split; [done|]. constructor; [|constructor].
    destruct Hx as (fd & [->|[v ->]]); by destruct b. }
  apply outcome_zoom. unfold set_blocking. unfold mbind at 1. rewrite (fd_num_ok d (fst w) c Hc).
  destruct (syscall_checked_spec "fcntl" (sys_getfl (_fd (wrapper c))) (fst w)) as (a & k & _ & _ & E); [done|done|].
  unfold mbind at 1. rewrite E. assert (ready l (called (fst w) k (sys_getfl (_fd (wrapper c))) a, snd w)) as H1 by eauto.
  destruct (ret a <? 0); [split; [left; eauto|exact H1]|]. set (p1 := called _ _ _ _) in *.
  unfold mbind at 1. rewrite (fd_num_ok d p1 c Hc). set (v := Z.lor _ _).
  destruct (syscall_checked_spec "fcntl" (sys_setfl (_fd (wrapper c)) v) p1) as (a' & k' & _ & _ & E'); [done|done|].
  unfold mbind at 1. rewrite E'.
  assert (ready l (called p1 k' (sys_setfl (_fd (wrapper c)) v) a', snd w)) as H2 by (apply (Hcall (p1, snd w)); eauto).
  destruct (ret a' <? 0); [split; [left; eauto|exact H2]|exact H2].
Qed.

Lemma install_spec r l s : ready l (snd s) -> _rules (fst s) = l -> (exists b, r = reader b \/ r = writer b) -> key r ∉ keys l ->
  exists w', install r s = (Ok tt, (mkEventLoop (l ++ [r]), w')) /\ ready (l ++ [r]) w'.
Proof.
  intros [R1 R2 R3 R4 R5 R6] El Hr Hk.
  assert (exists c, heap (fst (snd s)) !! rule_fd r = Some c) as [c Hc].
  { destruct R2 as (? & ? & _), R3 as (? & ? & _), R4 as (? & ? & _). destruct Hr as ([|] & [->| ->]); simpl; eauto. }
  destruct s as [lo [p u]]. cbn [fst snd] in *. eexists. split.
  - unfold install, add_rule, duplicate, on_world, on_proc, zoom, mbind, mgets, mmodify. cbn [fst snd].
    rewrite (deref_ok _ _ _ Hc). simpl. rewrite El. by destruct r.
  - constructor; cbn [fst snd]; [|by apply cell_ok_duplicate..|done|done].
    unfold keys. rewrite map_app. apply NoDup_app. split_and!; [done| |apply NoDup_singleton].
    intros x Hx Hx2. apply list_elem_of_singleton in Hx2 as ->. done.
Qed.

(** The key of a rule is not among those of others. *)
Ltac new_key := unfold keys, key; simpl; repeat (apply not_elem_of_cons; split; [congruence|]); apply not_elem_of_nil.

(** The body keeps the invariant from the start to its end, however it ends. *)
Lemma copy_body_spec turns w : ready [] w ->
  outcome (fun _ s' => exists l, inv l (snd s')) (fun e s' => (e = OutOfFuel \/ allowed e) /\ exists l, inv l (snd s'))
    (copy_body ds di do_ turns (mkEventLoop [], w)).
Proof.
  intros H0r. unfold copy_body. set (E := fun (e : exn) (s' : Loop * W) => _).
  assert (forall d n w (k : unit -> M (Loop * W) unit) Q, cell_ok d n ([] : list (Rule K Copy)) (fst w) -> ready [] w ->
    (forall w', ready [] w' -> outcome Q E (k tt (mkEventLoop [], w'))) ->
    outcome Q E (mbind (on_world (on_proc (set_blocking d false))) k (mkEventLoop [], w))) as Hblock.
  { intros d n w1 k Q Hc Hr Hk. apply outcome_bind, outcome_zoom. pose proof (set_blocking_spec d n [] w1 Hr Hc) as Hs.
    simpl. destruct (on_proc (set_blocking d false) w1) as [[[]|e] w']; simpl in *; [by apply Hk|].
    destruct Hs as [He Hr']. split; [by right|]. exists []. by apply ready_inv. }
  apply (Hblock ds ns); [apply H0r|done|]. intros w1 H1. apply (Hblock di STDIN_FILENO); [apply H1|done|]. intros w2 H2.
  apply (Hblock do_ STDOUT_FILENO); [apply H2|done|]. intros w3 H3. clear Hblock. destruct Hcells as (C1 & C2 & C3).
  destruct (install_spec (rule1 di) [] (mkEventLoop [], w3)) as (w4 & E4 & H4); [done|done|exists Outbound; by left|new_key|].
  destruct (install_spec (rule2 ds) _ (mkEventLoop [rule1 di], w4) H4) as (w5 & E5 & H5); [done|exists Outbound; by right|new_key|].
  destruct (install_spec (rule3 ds) _ (mkEventLoop [rule1 di; rule2 ds], w5) H5) as (w6 & E6 & H6); [done|exists Inbound; by left|new_key|].
  destruct (install_spec (rule4 do_) _ (mkEventLoop [rule1 di; rule2 ds; rule3 ds], w6) H6) as (w7 & E7 & H7);
    [done|exists Inbound; by right|new_key|].
  unfold mbind. rewrite E4. simpl app. rewrite E5. simpl app. rewrite E6. simpl app. rewrite E7. simpl app.
  apply (copy_loop_spec turns copy_rules). split; [done|exact copy_rules_ok|]. by apply ready_inv.
Qed.
End copying.

(** *** The end of the function *)

Section ending.
Context {K : Type} `{Kernel K}.

(** Destroying descriptors makes no call but [close]. *)
Definition only_closes (p p' : Proc K) : Prop :=
  exists tr, history (os p') = history (os p) ++ tr /\ Forall (fun e => exists n, fst e = sys_close n) tr.

#[export] Instance only_closes_refl : Reflexive only_closes.
Proof. intros p. exists []. by rewrite app_nil_r. Qed.

#[export] Instance only_closes_trans : Transitive only_closes.
Proof.
  intros p1 p2 p3 (t1 & E1 & F1) (t2 & E2 & F2). exists (t1 ++ t2). rewrite E2, E1, app_assoc. by rewrite Forall_app.
Qed.

Lemma destruct_fd_closes d : steps only_closes (destruct_fd d : M (Proc K) unit).
Proof.
  assert (forall f, steps only_closes (update d f : M (Proc K) unit)) as Hu.
  { intros f p. exists []. simpl. by rewrite app_nil_r. }
  unfold destruct_fd. apply steps_bind; [apply _|apply Hu|]. intros _. apply steps_bind; [apply _|apply steps_gets, _|].
  intros [|n]; [|apply steps_ret, _]. unfold destruct_wrapper. apply steps_catch; [apply _| |intros e; apply steps_ret, _].
  apply steps_bind; [apply _| |].
  { intros p. unfold deref. by destruct (heap p !! d). }
  intros x. destruct (_closed x); [apply steps_ret, _|]. unfold wrapper_close. apply steps_bind; [apply _| |].
  { intros p. unfold deref. by destruct (heap p !! d). }
  intros y. apply steps_bind; [apply _| |intros _; apply Hu].
  intros p. unfold syscall_checked, on_os, zoom, checked, mbind, sys, mlift. destruct (kcall _ _) as [r k].
  destruct (SystemCall _ _ _); simpl; (eexists; split; [done|]); repeat constructor; eauto.
Qed.

Lemma copy_end_closes di do_ (s : EventLoop K Copy * World K Copy) : only_closes (fst (snd s)) (fst (snd (snd (copy_end di do_ s)))).
Proof.
  set (R := fun (s s' : EventLoop K Copy * World K Copy) => only_closes (fst (snd s)) (fst (snd s'))).
  assert (Reflexive R) by (intros x; unfold R; reflexivity).
  assert (Transitive R) by (intros x y z; unfold R; intros; by etransitivity).
  assert (forall d, steps R (on_world (on_proc (destruct_fd d)))) as Hd.
  { intros d [lo [p u]]. unfold on_world, on_proc, zoom, R. simpl. pose proof (destruct_fd_closes d p) as Hc.
    by destruct (destruct_fd d p). }
  revert s. change (steps R (copy_end di do_)). unfold copy_end.
  apply steps_bind; [done|apply Hd|]. intros _. apply steps_bind; [done|apply Hd|]. intros _.
  apply steps_bind; [done|by apply steps_gets|]. intros rules. induction rules as [|r rules IH]; simpl; [by apply steps_ret|].
  by apply steps_bind; [..|intros _].
Qed.
End ending.

Section function.
Context {K : Type} `{PosixKernel K}.

(** What the closing of descriptors adds to a history. *)
Lemma closes_quiet tr : Forall (fun e : syscall * sysret => exists n, fst e = sys_close n) tr ->
  forall n, received n tr = [] /\ sent n tr = [].
Proof.
  intros Hc n. split; apply concat_nils; (eapply Forall_impl; [exact Hc|]); intros [c r] [m Hm]; simpl in Hm; by subst c.
Qed.

Lemma stream_copy_spec turns socket (p : Proc K) c : heap p !! socket = Some c -> (0 < uses c)%nat ->
  let ns := _fd (wrapper c) in ns <> STDIN_FILENO -> ns <> STDOUT_FILENO ->
  let '(r, p') := bidirectional_stream_copy turns socket p in
  exists tr, history (os p') = history (os p) ++ tr /\
    sent ns tr `prefix_of` received STDIN_FILENO tr /\ sent STDOUT_FILENO tr `prefix_of` received ns tr /\
    (Exists (fun e => fst e = sys_shutdown ns SHUT_WR) tr -> sent ns tr = received STDIN_FILENO tr) /\
    match r with Ok _ => True | Throw e => e = OutOfFuel \/ allowed e end.
Proof.
  intros Hc Hu ns N0 N1. unfold bidirectional_stream_copy. unfold mbind, construct_fd, mbind, mlift, construct_wrapper, mgets, mmodify.
  simpl. rewrite length_app. simpl. set (do_ := (length (heap p) + 1)%nat). set (di := length (heap p)). set (p1 := mkProc _ _).
  assert (socket < di)%nat as Hlt by (by eapply lookup_lt_Some).
  assert (ready socket di do_ ns (history (os p)) [] (p1, no_copy)) as Hr.
  { assert (heap p1 = heap p ++ [mkCell (mkFDWrapper STDIN_FILENO false false 0 0) 1; mkCell (mkFDWrapper STDOUT_FILENO false false 0 0) 1]) as Hh
      by (unfold p1; simpl; by rewrite <- app_assoc).
    constructor; [constructor|..|exists []; split; [simpl; by rewrite app_nil_r|constructor]|done]; cbn [fst]; unfold cell_ok; rewrite Hh.
    - exists c. rewrite lookup_app_l by done. split_and!; [done|done|exact Hu].
    - eexists. rewrite lookup_app_r by (unfold do_, di; lia). replace (di - length (heap p))%nat with 0%nat by (unfold di; lia). split_and!; [done|done|exact Nat.lt_0_1].
    - eexists. rewrite lookup_app_r by (unfold do_, di; lia). replace (do_ - length (heap p))%nat with 1%nat by (unfold do_, di; lia). split_and!; [done|done|exact Nat.lt_0_1]. }
  assert (socket <> di /\ socket <> do_ /\ di <> do_) as Hcells by (clear Hr; unfold do_, di in *; lia).
  pose proof (copy_body_spec socket di do_ ns (history (os p)) Hcells (conj N0 N1) turns _ Hr) as Hb.
  destruct (copy_body socket di do_ turns _) as [r s].
  assert ((exists l, inv socket di do_ ns (history (os p)) l (snd s)) /\ match r with Ok _ => True | Throw e => e = OutOfFuel \/ allowed e end)
    as [[l Hi] Hres] by (destruct r; [by split|by destruct Hb]).
  destruct (in_trace _ _ _ _ _ _ _ Hi) as (tr & Htr & Hs).
  pose proof (copy_end_closes di do_ s) as (tc & Etc & Hclose). destruct (copy_end di do_ s) as [r2 s2]. simpl in Etc.
  exists (tr ++ tc). rewrite !received_app, !sent_app. destruct (closes_quiet tc Hclose ns) as [-> ->].
  destruct (closes_quiet tc Hclose STDIN_FILENO) as [-> _]. destruct (closes_quiet tc Hclose STDOUT_FILENO) as [_ ->]. rewrite !app_nil_r.
  destruct (side_copied _ _ _ _ _ _ _ _ _ (Hs Outbound)) as [P1 T1]. destruct (side_copied _ _ _ _ _ _ _ _ _ (Hs Inbound)) as [P2 _].
  split_and!; [by rewrite Etc, Htr, app_assoc|exact P1|exact P2| |exact Hres].
  intros [Hx|Hx]%Exists_app; [by apply T1|]. exfalso. apply Exists_exists in Hx as (e & He & Hx). rewrite Forall_forall in Hclose.
  destruct (Hclose e He) as [n En]. congruence.
Qed.
(** C8: Copying between the standard streams and a socket is faithful.  On every kernel,
    whatever the calls answer, and however long the function runs: the bytes written to
    the socket are a prefix of those read from the standard input, the bytes written to
    the standard output are a prefix of those read from the socket, and the socket is
    shut down for writing only after everything read from the input has been written to
    it.  The function ends normally, or because a system call failed or [poll] reported
    an error: no busy wait is detected and no byte is refused.  ([OutOfFuel] is a
    function still running after the given number of turns.) *)
Theorem stream_copy_faithful turns socket (p : Proc K) c : heap p !! socket = Some c -> (0 < uses c)%nat ->
  let ns := _fd (wrapper c) in ns <> STDIN_FILENO -> ns <> STDOUT_FILENO ->
  let '(r, p') := bidirectional_stream_copy turns socket p in
  exists tr, history (os p') = history (os p) ++ tr /\
    sent ns tr `prefix_of` received STDIN_FILENO tr /\ sent STDOUT_FILENO tr `prefix_of` received ns tr /\
    (Exists (fun e => fst e = sys_shutdown ns SHUT_WR) tr -> sent ns tr = received STDIN_FILENO tr) /\
    match r with Ok _ => True | Throw e => e = OutOfFuel \/ allowed e end.
Proof. apply stream_copy_spec. Qed.
End function.

(** A kernel with a standard input and a socket that can be read, and takes three bytes
    at a time. *)
Module Pipes.
Record PipeKernel : Type := mkPipes { input : bytes; peer : bytes }.

#[global] Instance pipe_kernel : Kernel PipeKernel := fun k c =>
  match c with
  | sys_read fd count =>
      if count <=? 0 then (failed_with EINVAL, k) else
      if fd =? STDIN_FILENO then (gave (ztake (Z.min count 2) (input k)), mkPipes (zdrop (Z.min count 2) (input k)) (peer k))
      else (gave (ztake (Z.min count 2) (peer k)), mkPipes (input k) (zdrop (Z.min count 2) (peer k)))
  | sys_writev fd iov => (done_with (Z.min (iov_size iov) 3), k)
  | sys_poll fds timeout => (mkSysret 1 0 [] [] (map snd fds), k)
  | sys_recvfrom _ _ _ => (failed_with EAGAIN, k)
  | _ => (done_with 0, k)
  end.

#[global] Instance pipe_posix : PosixKernel PipeKernel.
Proof.
  intros k c. unfold kcall, pipe_kernel.
  destruct c as [fd count|fd iov| | | |fds t| | | | | | | | | | | |fd count flags| | | | |]; try (simpl; by split_and!).
  - destruct (Z.leb_spec count 0); [by apply read_fails|]. destruct (fd =? STDIN_FILENO); apply read_gives; lia.
  - simpl. unfold iov_size. pose proof (size_nonneg (concat iov)). split_and!; try lia; intros; lia.
  - simpl. rewrite length_map. by split_and!.
Qed.

Definition proc : Proc PipeKernel :=
  mkProc (mkSys (mkPipes [x61; x62; x63] [x78; x79; x7a; x31; x32]) []) [mkCell (mkFDWrapper 3 false false 0 0) 1].

(** The calls of a run to its end. *)
Definition calls : list (syscall * sysret) := history (os (snd (bidirectional_stream_copy 10 0 proc))).
End Pipes.

Lemma stream_copy_faithful_witness :
  fst (bidirectional_stream_copy 10 0 Pipes.proc) = Ok tt /\
  sent 3 Pipes.calls = [x61; x62; x63] /\ sent STDOUT_FILENO Pipes.calls = [x78; x79; x7a; x31; x32] /\
  sent 3 Pipes.calls = received STDIN_FILENO Pipes.calls.
Proof.
  split; [vm_compute; reflexivity|]. split; [vm_compute; reflexivity|]. split; [vm_compute; reflexivity|].
  assert (Exists (fun e => fst e = sys_shutdown 3 SHUT_WR) Pipes.calls) as Hshut
    by (vm_compute; repeat first [by apply Exists_cons_hd|apply Exists_cons_tl]).
  pose proof (stream_copy_faithful 10 0%nat Pipes.proc (mkCell (mkFDWrapper 3 false false 0 0) 1) eq_refl ltac:(simpl; lia)
    ltac:(done) ltac:(done)) as Ht.
  unfold Pipes.calls in *. destruct (bidirectional_stream_copy 10 0 Pipes.proc) as [r p'].
  destruct Ht as (tr & Htr & _ & _ & Hs & _). simpl in *. rewrite Htr in *. by apply Hs.
Defined.
