(* ===== verification/Webget.v ===== *)
(** * Webget: fetching a page

    Models [get_URL] of [apps/webget.cc] after the connection has been made: the
    request is written to the socket, everything that comes back until the end of file
    is printed, the socket is closed and waited for.  The standard output is part of
    the state.  The socket is the owner's end of a [CS144TCPSocket], whose descriptor
    is used with the methods of [FileDescriptor]; waiting for it to close begins with
    [shutdown], and joining its thread changes nothing of the owner's. *)

From Stdlib Require Import Strings.String.
From S2P Require Import Prelude Parser System SimKernel FileDescriptor Socket StreamCopy.

Definition crlf : string := String (Ascii.ascii_of_nat 13) (String (Ascii.ascii_of_nat 10) EmptyString).

(** The four pieces that are written. *)
Definition request (host path : string) : list bytes :=
  map text ["GET " ++ path ++ " HTTP/1.1" ++ crlf; "Host: " ++ host ++ crlf; "Connection: close" ++ crlf; crlf]%string.

Section webget.
Context {K : Type} `{Kernel K}.

(** The process and what it has printed. *)
Abbreviation S := (Proc K * bytes)%type.

Definition in_process {A : Type} (m : M (Proc K) A) : M S A := zoom fst (fun s p => (p, snd s)) m.
Definition print (data : bytes) : M S unit := mmodify (fun s => (fst s, snd s ++ data)).

(** [sock.write(...)], once for each piece. *)
Fixpoint write_pieces (sock : FileDescriptor) (pieces : list bytes) : M S unit :=
  match pieces with
  | [] => mret tt
  | piece :: pieces =>
      do* in_process (fd_write sock [piece] true);
      write_pieces sock pieces
  end.

(** [while (!sock.eof()) cout << sock.read();] watched for [turns] turns. *)
Fixpoint print_response (turns : nat) (sock : FileDescriptor) : M S unit :=
  let* at_eof := in_process (fd_eof sock) in
  if (at_eof : bool) then mret tt else
  match turns with
  | O => mthrow OutOfFuel
  | Datatypes.S turns =>
      let* data := in_process (fd_read sock NPOS) in
      do* print data;
      print_response turns sock
  end.

Definition get_URL (turns : nat) (sock : FileDescriptor) (host path : string) : M S unit :=
  do* write_pieces sock (request host path);
  do* print_response turns sock;
  do* in_process (fd_close sock);
  in_process (shutdown sock SHUT_RDWR).
End webget.

(** ** What is sent and printed *)

Section facts.
Context {K : Type} `{PosixKernel K}.
Context (sock : FileDescriptor) (n : Z).
Implicit Types (s : Proc K * bytes).

Definition failed (attempt : string) (e : exn) : Prop := exists code, e = SystemError attempt code.
Definition failed_result {A} (attempt : string) (r : result A) : Prop := exists code, r = Throw (SystemError attempt code).

(** The descriptor keeps its number. *)
Definition at_sock (p : Proc K) : Prop := exists c, heap p !! sock = Some c /\ _fd (wrapper c) = n.

Lemma at_sock_alter p o' f : at_sock p -> (forall x, _fd (f x) = _fd x) ->
  at_sock (mkProc o' (alter (map_wrapper f) sock (heap p))).
Proof.
  intros (c & Hc & Hn) Hf. exists (map_wrapper f c). cbn [heap]. rewrite list_lookup_alter_eq, Hc. split; [done|]. simpl. by rewrite Hf.
Qed.

(** The calls made: writes to the socket, reads from it. *)
Abbreviation calls s s' tr := (history (os (fst s')) = history (os (fst s)) ++ tr).
Definition writes (tr : list (syscall * sysret)) : Prop := Forall (fun e => exists iov, fst e = sys_writev n iov) tr.
Definition reads (tr : list (syscall * sysret)) : Prop := Forall (fun e => exists count, fst e = sys_read n count) tr.

(** The end of file has been seen. *)
Definition sock_eof (p : Proc K) : Prop := exists c, heap p !! sock = Some c /\ _eof (wrapper c) = true.

Lemma write_pieces_spec pieces s : at_sock (fst s) -> Forall (fun x => size x < 9223372036854775808) pieces ->
  outcome (fun _ s' => at_sock (fst s') /\ (sock_eof (fst s') -> sock_eof (fst s)) /\ snd s' = snd s /\
      exists tr, calls s s' tr /\ writes tr /\ sent n tr = concat pieces)
    (fun e s' => failed "writev" e /\ snd s' = snd s /\
      exists tr, calls s s' tr /\ writes tr /\ sent n tr `prefix_of` concat pieces)
    (write_pieces sock pieces s).
Proof.
  revert s. induction pieces as [|x pieces IH]; intros s Hs Hsz; cbn [write_pieces].
  { split_and!; [done|done|done|]. exists []. rewrite app_nil_r. by split_and!; try constructor. }
  inversion Hsz as [|? ? Hx Hrest]; simplify_eq. pose proof Hs as (c & Hc & Hn). apply outcome_bind, outcome_zoom.
  destruct (fd_write_spec sock (fst s) c [x] true Hc) as (res & p & tr & k & m & -> & [W1 W2 _ W4 _ W6 W7 _ W9]); [simpl; by rewrite app_nil_r|].
  simpl concat in *. rewrite app_nil_r, Hn in *.
  assert (writes tr) as Hw.
  { destruct (os_steps_trace _ _ _ W2) as (tr' & E & Hf). rewrite W1 in E. by apply app_inv_head in E as ->. }
  destruct res as [t|e]; cbn [outcome].
  - destruct W9 as (-> & _ & Hall & _). rewrite (Hall eq_refl), ztake_all in W4 by done.
    assert (at_sock p /\ (sock_eof p -> sock_eof (fst s))) as [Hp He].
    { destruct p as [o hp]. simpl in W7. subst hp. split; [apply at_sock_alter; [done|]; intros y; by apply iter_count_write|].
      intros (c' & Hc' & He). cbn [heap] in Hc'. rewrite list_lookup_alter_eq, Hc in Hc'.
      simpl in Hc'. injection Hc' as <-. exists c. split; [done|].
      rewrite <- He. symmetry. by apply iter_count_write. }
    specialize (IH (p, snd s) Hp Hrest). cbn [fst snd] in IH.
    destruct (write_pieces sock pieces (p, snd s)) as [[[]|e] s']; cbn [outcome] in *.
    + destruct IH as (? & ? & ? & tr2 & E2 & Hw2 & Hs2). split_and!; [done|by auto|done|]. exists (tr ++ tr2).
      rewrite sent_app, W4, Hs2. split_and!; [by rewrite E2, W1, app_assoc|by apply Forall_app|done].
    + destruct IH as (? & ? & tr2 & E2 & Hw2 & Hs2). split_and!; [done|done|]. exists (tr ++ tr2).
      rewrite sent_app, W4. split_and!; [by rewrite E2, W1, app_assoc|by apply Forall_app|by apply prefix_app].
  - destruct W9 as [He _]. split_and!; [done|done|]. exists tr. rewrite W4. split_and!; [done|done|].
    exists (zdrop k x ++ concat pieces). by rewrite app_assoc, ztake_zdrop.
Qed.

(** What the reads leave: the socket at its end, by the last of them if it was not
    before. *)
Definition ended_by (p : Proc K) (tr : list (syscall * sysret)) : Prop :=
  sock_eof p /\ tr = [] \/ exists e, last tr = Some e /\ ret (snd e) = 0.

Lemma print_response_spec turns s : at_sock (fst s) ->
  outcome (fun _ s' => at_sock (fst s') /\
      exists tr, calls s s' tr /\ reads tr /\ snd s' = snd s ++ received n tr /\ ended_by (fst s) tr)
    (fun e s' => (e = OutOfFuel \/ failed "read" e) /\
      exists tr, calls s s' tr /\ reads tr /\ snd s' = snd s ++ received n tr)
    (print_response turns sock s).
Proof.
  assert (forall s : Proc K * bytes, calls s s [] /\ reads [] /\ snd s = snd s ++ received n []) as Hnil.
  { intros s'. unfold received. simpl. rewrite !app_nil_r. by split_and!; try constructor. }
  revert s. induction turns as [|turns IH]; intros s Hs; cbn [print_response]; pose proof Hs as (c & Hc & Hn);
    unfold mbind at 1, in_process at 1, zoom at 1, fd_eof, mbind at 1; rewrite (deref_ok _ _ _ Hc); cbn [mret fst snd];
    replace (fst s, snd s) with s by (by destruct s);
    (destruct (_eof (wrapper c)) eqn:Ee;
      [split; [done|]; exists []; destruct (Hnil s) as (? & ? & ?); split_and!; try done; left; split; [by exists c|done]|]).
  { split; [by left|]. by exists []. }
  apply outcome_bind, outcome_zoom. destruct (fd_read_spec sock NPOS (fst s) c Hc) as (r & k & _ & (_ & _ & Hp) & E). cbn [fst].
  rewrite E, Hn. set (call := sys_read _ _).
  assert (reads [(call, r)]) as Hrd by (repeat constructor; by eexists).
  assert (received n [(call, r)] = ztake (ret r) (out r)) as Hrc
    by (unfold received, read_bytes; simpl; by rewrite Z.eqb_refl, app_nil_r).
  destruct (Z.ltb_spec (ret r) 0) as [Hneg|Hpos]; cbn [outcome].
  - split; [right; by eexists|]. exists [(call, r)]. rewrite Hrc, ztake_0, app_nil_r by lia. done.
  - destruct (Hp Hpos) as [_ Hsz]. unfold mbind at 1, print, mmodify. cbn [fst snd].
    set (p1 := mkProc _ _). assert (at_sock p1) as Hp1 by (apply at_sock_alter; [done|]; intros x; apply after_read_keeps).
    assert (sock_eof p1 -> ret r = 0) as Hz.
    { intros (c' & Hc' & He). cbn [heap p1] in Hc'. rewrite list_lookup_alter_eq, Hc in Hc'.
      simpl in Hc'. injection Hc' as <-. destruct (Z.eqb_spec (ret r) 0) as [|Hne]; [done|]. apply Z.eqb_neq in Hne. unfold after_read in He.
      rewrite Hne, andb_false_r in He. simpl in He. congruence. }
    rewrite ztake_all in Hrc by lia. assert (calls s (p1, snd s ++ out r) [(call, r)]) as E1 by done.
    specialize (IH (p1, snd s ++ out r) Hp1). cbn [fst snd] in IH, E1.
    destruct (print_response turns sock (p1, snd s ++ out r)) as [[[]|e] s']; cbn [outcome] in *.
    + destruct IH as (? & tr2 & E2 & Hr2 & Hout & Hend). split; [done|]. exists ([(call, r)] ++ tr2).
      rewrite received_app, Hrc. split_and!; [by rewrite E2, E1, <- app_assoc|by apply Forall_app|by rewrite Hout, app_assoc|right].
      destruct Hend as [[Heof ->]|(e & He & He0)]; [exists (call, r); by auto|]. exists e. split; [|done].
      by rewrite last_app, He.
    + destruct IH as (? & tr2 & E2 & Hr2 & Hout). split; [done|]. exists ([(call, r)] ++ tr2).
      rewrite received_app, Hrc. split_and!; [by rewrite E2, E1, <- app_assoc|by apply Forall_app|by rewrite Hout, app_assoc].
Qed.

(** Closing and shutting down. *)
Lemma close_spec s : at_sock (fst s) ->
  let '(r, s') := (do* in_process (fd_close sock); in_process (shutdown sock SHUT_RDWR)) s in
  snd s' = snd s /\ exists ending, calls s s' ending /\
    (failed_result "close" r /\ map fst ending = [sys_close n] \/
     (r = Ok tt \/ failed_result "shutdown" r) /\ map fst ending = [sys_close n; sys_shutdown n SHUT_RDWR]).
Proof.
  destruct s as [p pr]. cbn [fst snd]. intros (c & Hc & Hn).
  unfold mbind at 1, in_process at 1, zoom at 1, fd_close, wrapper_close, mbind at 1. cbn [fst snd].
  rewrite (deref_ok _ _ _ Hc), Hn. unfold mbind at 1.
  destruct (syscall_checked_spec "close" (sys_close n) p) as (r3 & k3 & _ & _ & E3); [done|done|]. rewrite E3.
  set (call3 := sys_close _). destruct (ret r3 <? 0).
  { split; [done|]. exists [(call3, r3)]. split; [done|]. left. split; [by exists (errno r3)|done]. }
  unfold update, mmodify. set (p3 := mkProc _ _).
  assert (heap p3 !! sock = Some (map_wrapper set_closed c)) as Hc3 by (unfold p3; cbn [heap called]; by rewrite list_lookup_alter_eq, Hc).
  unfold in_process, zoom, shutdown, mbind at 1. cbn [fst snd]. rewrite (fd_num_ok _ _ _ Hc3). unfold mbind at 1.
  assert (_fd (wrapper (map_wrapper set_closed c)) = n) as -> by done.
  destruct (syscall_checked_spec "shutdown" (sys_shutdown n SHUT_RDWR) p3) as (r4 & k4 & _ & _ & E4); [done|done|].
  rewrite E4. set (call4 := sys_shutdown _ _).
  assert (history (os p3) = history (os p) ++ [(call3, r3)]) as E5 by done.
  destruct (ret r4 <? 0); simpl; (split; [done|]); exists [(call3, r3); (call4, r4)];
    (split; [rewrite <- app_assoc; done|right]); (split; [|done]); [right; by exists (errno r4)|by left].
Qed.
End facts.

(** ** Properties *)

(** C39: [get_URL] sends the request, then prints the answer.  On every kernel, the
    calls it makes are first writes to the socket, then reads from it, then the close and
    the shutdown.  If the request cannot be written, what was sent is a beginning of it,
    nothing is read and nothing is printed; otherwise the writes send exactly the
    request, all of it before the first read.  What is printed is always exactly what
    has been read.  The socket is closed only when the last read has met the end of
    file (or it had been met before); until then the function ends only by a failed
    read, or is still waiting ([OutOfFuel]) after the given number of turns. *)
Theorem get_URL_prints_response {K : Type} `{PosixKernel K} turns sock host path (p : Proc K) c :
  heap p !! sock = Some c -> Forall (fun x => size x < 9223372036854775808) (request host path) ->
  let n := _fd (wrapper c) in
  let '(r, (p', printed)) := get_URL turns sock host path (p, []) in
  exists tr_write tr_read ending, history (os p') = history (os p) ++ tr_write ++ tr_read ++ ending /\
    Forall (fun e => exists iov, fst e = sys_writev n iov) tr_write /\
    Forall (fun e => exists count, fst e = sys_read n count) tr_read /\
    printed = received n tr_read /\
    (failed_result "writev" r /\ sent n tr_write `prefix_of` concat (request host path) /\ tr_read = [] /\ ending = [] \/
     sent n tr_write = concat (request host path) /\
     ((r = Throw OutOfFuel \/ failed_result "read" r) /\ ending = [] \/
      (_eof (wrapper c) = false -> exists e, last tr_read = Some e /\ ret (snd e) = 0) /\
      (failed_result "close" r /\ map fst ending = [sys_close n] \/
       (r = Ok tt \/ failed_result "shutdown" r) /\ map fst ending = [sys_close n; sys_shutdown n SHUT_RDWR]))).
Proof.
  intros Hc Hsz n. unfold get_URL. unfold mbind at 1.
  pose proof (write_pieces_spec sock n (request host path) (p, []) (ex_intro _ c (conj Hc eq_refl)) Hsz) as H1.
  destruct (write_pieces sock (request host path) (p, [])) as [[[]|e] [p1 pr1]]; cbn [outcome fst snd] in H1.
  2:{ destruct H1 as ([code ->] & -> & tr & Htr & Hw & Ho). exists tr, [], []. rewrite !app_nil_r.
      split_and!; [done|done|constructor|done|]. left. split_and!; [by exists code|done|done|done]. }
  destruct H1 as (Hs1 & He1 & -> & tr1 & Htr1 & Hw & Ho). unfold mbind at 1.
  pose proof (print_response_spec sock n turns (p1, []) Hs1) as H2.
  destruct (print_response turns sock (p1, [])) as [[[]|e] [p2 pr2]]; cbn [outcome fst snd app] in H2.
  2:{ destruct H2 as (He & tr2 & Htr2 & Hr & ->). exists tr1, tr2, []. rewrite app_nil_r.
      split_and!; [by rewrite Htr2, Htr1, app_assoc|done|done|done|]. right. split; [done|]. left. split; [|done].
      destruct He as [->|[code ->]]; [by left|right; by exists code]. }
  destruct H2 as (Hs2 & tr2 & Htr2 & Hr & -> & Hend).
  pose proof (close_spec sock n (p2, received n tr2) Hs2) as H3.
  match type of H3 with (let '(_, _) := ?m in _) => destruct m as [r [p3 pr3]] end.
  cbn [fst snd] in H3. destruct H3 as (-> & ending & He & Hres). exists tr1, tr2, ending.
  split_and!; [by rewrite He, Htr2, Htr1, !app_assoc|done|done|done|]. right. split; [done|]. right. split; [|done].
  intros Hno. destruct Hend as [[Heof _]|]; [|done]. destruct (He1 Heof) as (c' & Hc' & Heof'). simpl in Hc'. congruence.
Qed.

(** The socket's end of the pair is descriptor 3 of the kernel [Pipes]. *)
Abbreviation run := (get_URL 10 0 "cs144.keithw.org" "/hello" (Pipes.proc, [])).

Lemma get_URL_prints_response_witness : fst run = Ok tt /\ snd (snd run) = [x78; x79; x7a; x31; x32] /\
  exists tr_write tr_read ending, history (os (fst (snd run))) = tr_write ++ tr_read ++ ending /\
    sent 3 tr_write = concat (request "cs144.keithw.org" "/hello") /\ snd (snd run) = received 3 tr_read.
Proof.
  split; [vm_compute; reflexivity|]. split; [vm_compute; reflexivity|].
  pose proof (get_URL_prints_response 10 0%nat "cs144.keithw.org" "/hello" Pipes.proc (mkCell (mkFDWrapper 3 false false 0 0) 1) eq_refl
    ltac:(repeat constructor)) as Ht.
  assert (fst run = Ok tt) as Hr by (vm_compute; reflexivity).
  destruct (get_URL 10 0 "cs144.keithw.org" "/hello" (Pipes.proc, [])) as [r [p' printed]]. cbn [fst snd] in *.
  destruct Ht as (w & rd & en & Htr & _ & _ & Hp & [[[code Hx] _]|(Ho & _)]); [congruence|].
  exists w, rd, en. split; [exact Htr|]. split; [exact Ho|exact Hp].
Defined.

(** The socket is shut down after it has been closed: on Linux the call fails with
    EBADF, and the program ends with a failure after it has printed the page. *)
Example get_URL_shuts_down_closed_socket :
  drop (length (history (os (fst (snd run)))) - 2) (map fst (history (os (fst (snd run))))) = [sys_close 3; sys_shutdown 3 2].
Proof. vm_compute. reflexivity. Qed.
