(* ===== verification/TunShow.v ===== *)
(** * TunShow: showing the packets of a TUN device

    Models [apps/tun.cc]: every packet read from the device is dumped, parsed as an IPv4
    datagram and, if it carries one, as a TCP segment, and what was found is printed.  The
    standard output is part of the state.  The loop has no end of its own; it is watched
    for a number of turns. *)

From Stdlib Require Import Strings.String.
From S2P Require Import Prelude Parser Checksum TCPSegment IPv4 Address Robustness Printers.
From S2P Require Import System SimKernel FileDescriptor Socket EventLoop.

Definition line (s : string) : bytes := text s ++ [x0a].

(** The body of the loop after the read. *)
Definition show_packet (buffer : bytes) (o : ostream) : result ostream :=
  let o := put ([x0a; x0a] ++ line "***" ++ line "*** Got packet:" ++ line "***") o in
  let o := hexdump buffer 0 o in
  let o := put (text "attempting to parse as ipv4 datagram... ") o in
  let! (res, ip_dgram) := datagram_parse default_datagram (buffer_of buffer) in
  if negb (bool_decide (res = NoError)) then Ok (put (line "failed.") o) else
  let o := put (line ", IPv4 header contents:") (put_int 0 (len (dgram_header ip_dgram)) (put (text "success! totlen=") o)) in
  let o := put (text (ipv4_header_to_string (dgram_header ip_dgram))) o in
  if negb (proto (dgram_header ip_dgram) =? PROTO_TCP) then Ok (put ([x0a] ++ line "Not TCP, skipping.") o) else
  let o := put ([x0a] ++ text "Attempting to parse as a TCP segment... ") o in
  let! payload := bufferlist_to_buffer (dgram_payload ip_dgram) in
  let! (res, tcp_seg) := segment_parse default_segment payload (pseudo_cksum (dgram_header ip_dgram)) in
  if negb (bool_decide (res = NoError)) then Ok (put (line "failed.") o) else
  let o := put (line ", TCP header contents:") (put_int 0 (buffer_size (_payload tcp_seg)) (put (text "success! payload len=") o)) in
  Ok (put (text (tcp_header_to_string (_header tcp_seg)) ++ [x0a]) o).

Section tun.
Context {K : Type} `{Kernel K}.

(** The process and its standard output. *)
Abbreviation S := (Proc K * ostream)%type.

Definition in_process {A : Type} (m : M (Proc K) A) : M S A := zoom fst (fun s p => (p, snd s)) m.

(** [while (true)] *)
Fixpoint show_loop (turns : nat) (tun : FileDescriptor) : M S unit :=
  match turns with
  | O => mthrow OutOfFuel
  | Datatypes.S turns =>
      let* buffer := in_process (fd_read tun NPOS) in
      do* (fun s => match show_packet buffer (snd s) with
                    | Ok o => (Ok tt, (fst s, o))
                    | Throw e => (Throw e, s)
                    end);
      show_loop turns tun
  end.

(** The exception that ends the program is its result. *)
Definition tun_main (turns : nat) : M S unit :=
  let* tun := in_process (open_tun "tun144") in
  show_loop turns tun.
End tun.

(** ** Every packet is shown *)

(** Whatever the packet, the body of the loop goes through. *)
Lemma show_packet_total buffer o : exists o', show_packet buffer o = Ok o'.
Proof.
  unfold show_packet. destruct (datagram_parse_total default_datagram (buffer_of buffer)) as (res & h & b & ->). cbn [rbind].
  destruct (negb _); [eauto|]. destruct (negb _); [eauto|]. cbn [dgram_payload bufferlist_to_buffer rbind dgram_header].
  destruct (segment_parse_total default_segment b (pseudo_cksum h)) as [[r seg] ->]. cbn [rbind].
  destruct (negb _); eauto.
Qed.

(** One packet after the other. *)
Inductive shows : list bytes -> ostream -> ostream -> Prop :=
| shows_nil o : shows [] o o
| shows_cons packet packets o o1 o' :
    show_packet packet o = Ok o1 -> shows packets o1 o' -> shows (packet :: packets) o o'.

(** The packets that calls of [read] on [n] have given. *)
Definition packets_read (n : Z) (tr : list (syscall * sysret)) : list bytes :=
  omap (fun e => match e with
                 | (sys_read fd _, r) => if (fd =? n) && (0 <=? ret r) then Some (out r) else None
                 | _ => None
                 end) tr.

Section facts.
Context {K : Type} `{PosixKernel K}.

Lemma show_loop_spec turns tun n (p : Proc K) o c : heap p !! tun = Some c -> _fd (wrapper c) = n ->
  let '(r, (p', o')) := show_loop turns tun (p, o) in
  exists tr, history (os p') = history (os p) ++ tr /\ shows (packets_read n tr) o o' /\
    (r = Throw OutOfFuel /\ length (packets_read n tr) = turns \/ exists code, r = Throw (SystemError "read" code)).
Proof.
  revert p o c. induction turns as [|turns IH]; intros p o c Hc Hn; cbn [show_loop].
  { exists []. rewrite app_nil_r. split_and!; [done|constructor|by left]. }
  unfold mbind at 1, in_process, zoom. cbn [fst].
  destruct (fd_read_spec tun NPOS p c Hc) as (r & k & _ & (_ & _ & Hp) & ->). rewrite Hn.
  set (call := sys_read _ _). destruct (Z.ltb_spec (ret r) 0) as [Hneg|Hpos]; cbn [snd].
  - exists [(call, r)]. cbn. rewrite (proj2 (Z.leb_gt 0 (ret r))), andb_false_r by done.
    split_and!; [done|constructor|right; eauto].
  - unfold mbind at 1. destruct (show_packet_total (out r) o) as [o1 E]. cbn [fst snd]. rewrite E.
    set (p1 := mkProc _ _).
    assert (Hc1 : heap p1 !! tun = Some (map_wrapper (after_read NPOS (ret r)) c))
      by (unfold p1; cbn [heap]; by rewrite list_lookup_alter_eq, Hc).
    specialize (IH p1 o1 _ Hc1). destruct (show_loop turns tun (p1, o1)) as [res [p' o']].
    destruct IH as (tr & Htr & Hs & Hr); [cbn [map_wrapper wrapper]; by destruct (after_read_keeps NPOS (ret r) (wrapper c)) as [-> _]|].
    assert (Epk : packets_read n ((call, r) :: tr) = out r :: packets_read n tr).
    { unfold packets_read. cbn. rewrite Z.eqb_refl, (proj2 (Z.leb_le 0 (ret r))) by done. done. }
    exists ((call, r) :: tr). rewrite Htr, Epk. split_and!; [by cbn; rewrite <- app_assoc|by econstructor|].
    destruct Hr as [[-> <-]|Hr]; [by left|by right].
Qed.

(** Opening the device: its descriptor is new; if the device cannot be had it is closed. *)
Lemma open_tuntap_spec devname is_tun (p : Proc K) :
  match open_tuntap devname is_tun p with
  | (Ok d, p') => exists c r r', heap p' !! d = Some c /\ _fd (wrapper c) = ret r /\
      history (os p') = history (os p) ++ [(sys_open CLONEDEV O_RDWR, r);
        (sys_ioctl (ret r) TUNSETIFF (Z.lor (if is_tun then IFF_TUN else IFF_TAP) IFF_NO_PI) (substring 0 15 devname), r')]
  | (Throw e, _) => exists attempt code, attempt ∈ ["open"; "ioctl"]%string /\ e = SystemError attempt code
  end.
Proof.
  unfold open_tuntap, mbind at 1.
  destruct (syscall_checked_spec "open" (sys_open CLONEDEV O_RDWR) p) as (r & k & _ & _ & E); [done|done|]. rewrite E.
  destruct (Z.ltb_spec (ret r) 0) as [Hneg|Hpos]; [eexists _, _; split; [|done]; set_solver|].
  unfold mbind at 1, construct_fd, mbind at 1, construct_wrapper, mlift. rewrite (proj2 (Z.ltb_ge (ret r) 0)) by done.
  unfold mbind, mgets, mmodify, mret. set (p1 := mkProc _ _).
  assert (Hc : heap p1 !! length (heap p) = Some (mkCell (mkFDWrapper (ret r) false false 0 0) 1))
    by (unfold p1; cbn [heap called]; by rewrite list_lookup_middle).
  unfold mcatch. cbn [called heap]. rewrite (fd_num_ok _ _ _ Hc). cbn [wrapper _fd].
  match goal with |- context [syscall_checked "ioctl" ?c p1] =>
    destruct (syscall_checked_spec "ioctl" c p1) as (r' & k' & _ & _ & E'); [done|done|] end. rewrite E'.
  destruct (Z.ltb_spec (ret r') 0).
  - match goal with |- context [destruct_fd ?d ?s] => pose proof (destruct_fd_ok d s); destruct (destruct_fd d s) as [[[]|] p2]; [|done] end.
    unfold mthrow. eexists _, _; split; [|done]; set_solver.
  - eexists _, r, r'. split_and!; [exact Hc|done|]. unfold p1. cbn. by rewrite <- app_assoc.
Qed.
End facts.

(** ** Properties *)

(** The program [tun] shows every packet.  On every kernel it ends only when the
    device cannot be opened or a read fails, never because of a packet: whatever the
    bytes read, what has been printed is the rendering of the packets read from the
    device, one after the other, and after [turns] turns there have been as many. *)
Theorem tun_shows_packets {K : Type} `{PosixKernel K} turns (p : Proc K) o :
  let '(r, (p', o')) := tun_main turns (p, o) in
  (o' = o /\ exists attempt code, attempt ∈ ["open"; "ioctl"]%string /\ r = Throw (SystemError attempt code)) \/
  (exists n tr, history (os p') = history (os p) ++ tr /\ shows (packets_read n tr) o o' /\
    (r = Throw OutOfFuel /\ length (packets_read n tr) = turns \/ exists code, r = Throw (SystemError "read" code))).
Proof.
  unfold tun_main, mbind at 1, in_process, zoom. cbn [fst snd]. pose proof (open_tuntap_spec "tun144" true p) as Ho.
  unfold open_tun. destruct (open_tuntap "tun144" true p) as [[d|e] p1].
  - destruct Ho as (c & r & r' & Hc & Hn & Hh). pose proof (show_loop_spec turns d (ret r) p1 o c Hc Hn) as Hl.
    destruct (show_loop turns d (p1, o)) as [res [p' o']]. destruct Hl as (tr & Htr & Hs & Hr).
    right. eexists (ret r), (_ ++ tr). rewrite Htr, Hh, <- app_assoc. split; [done|]. unfold packets_read. rewrite omap_app. done.
  - destruct Ho as (attempt & code & ? & ->). left. split; [done|]. eauto.
Qed.

(** An empty packet and one that is not IPv4. *)
Example show_empty_packet : exists o, show_packet [] cout = Ok o /\ fill o = "0"%byte.
Proof. eexists. split; [vm_compute; reflexivity|]. done. Qed.
