(* ===== verification/Bouncer.v ===== *)
(** * Bouncer: relaying datagrams between pairs of ports

    Models [apps/bouncer.cc]: UDP sockets on consecutive ports, in pairs.  Each socket
    remembers who last sent to it; what arrives on one socket of a pair is sent from the
    other to the one it remembers.  The vectors of sockets and of peers are the program's
    part of the world of the event loop; the references the callbacks capture are indices
    into them.  What is printed about a new peer is left out, but not the calls that are
    made for it.  The number of pairs and the number of turns of the loop are arguments;
    the program has [PAIRS] pairs. *)

From Stdlib Require Import Strings.String.
From stdpp Require Import gmap.
From S2P Require Import Prelude Parser Address System SimKernel FileDescriptor Socket EventLoop.

Definition MTU : Z := 65536.
Definition FIRST_PORT : Z := 1024.
Definition PAIRS : nat := Z.to_nat ((64000 - 1024) / 2 + 1).

Record Bouncer : Type := mkBouncer {
  sockets : list FileDescriptor;
  peers : list (option Address)
}.

(** [peers.at(i)] by reference *)
Definition peer (i : nat) (b : Bouncer) : option Address := peers b !! i ≫= fun a => a.
Definition set_peer (i : nat) (a : Address) (b : Bouncer) : Bouncer := mkBouncer (sockets b) (<[i := Some a]> (peers b)).

(** [x_peer.has_value() and x_peer.value() == a] *)
Definition is_peer (x_peer : option Address) (a : Address) : bool :=
  match x_peer with Some b => address_eqb b a | None => false end.

Section bouncer.
Context {RS : Resolver} {K : Type} `{Kernel K}.

Abbreviation W := (World K Bouncer).
Abbreviation Loop := (EventLoop K Bouncer).

(** The callback of socket [x], the [i]-th; [y] is the other one of the pair, the [j]-th. *)
Definition bounce (i j : nat) (x y : FileDescriptor) : M W unit :=
  let* rec := on_proc (recv x MTU) in
  let* x_peer := mgets (fun w => peer i (snd w)) in
  do* (if negb (is_peer x_peer (source_address rec)) then
         do* mmodify (fun w => (fst w, set_peer i (source_address rec) (snd w)));
         let* local := on_proc (local_address x) in
         do* mlift (address_to_string local);
         do* mlift (address_to_string (source_address rec));
         mret tt
       else mret tt);
  let* y_peer := mgets (fun w => peer j (snd w)) in
  match y_peer with
  | Some a => if negb (size (payload rec) =? 0) then on_proc (sendto y a [payload rec]) else mret tt
  | None => mret tt
  end.

(** [sockets.emplace_back()] *)
Definition emplace_socket : M (Loop * W) FileDescriptor :=
  let* d := on_world (on_proc open_udp) in
  do* on_world (mmodify (fun w => (fst w, mkBouncer (sockets (snd w) ++ [d]) (peers (snd w)))));
  mret d.

Definition emplace_peer : M (Loop * W) unit :=
  on_world (mmodify (fun w => (fst w, mkBouncer (sockets (snd w)) (peers (snd w) ++ [None])))).

(** [x.bind(Address{"0", port})] *)
Definition bind_port (d : FileDescriptor) (port : Z) : M (Loop * W) unit :=
  let* a := mlift (address_of_ip "0" port) in
  on_world (on_proc (socket_bind d a)).

(** [loop.add_rule(x, Direction::In, callback)], with the default interest and cancel. *)
Definition listen_on (d : FileDescriptor) (callback : M W unit) : M (Loop * W) unit :=
  let* l := mgets fst in
  let* l := on_world (add_rule d In callback (mret true) (mret tt) l) in
  mmodify (fun s => (l, snd s)).

(** The body of the [for] loop. *)
Definition add_pair (lower_port : Z) : M (Loop * W) unit :=
  let* n := mgets (fun s => length (sockets (snd (snd s)))) in
  let* x := emplace_socket in
  let* y := emplace_socket in
  do* emplace_peer;
  do* emplace_peer;
  do* bind_port x lower_port;
  do* bind_port y (u16 (lower_port + 1));
  do* listen_on x (bounce n (S n) x y);
  listen_on y (bounce (S n) n y x).

Fixpoint add_pairs (pairs : nat) (lower_port : Z) : M (Loop * W) unit :=
  match pairs with
  | O => mret tt
  | S pairs => do* add_pair lower_port; add_pairs pairs (u16 (lower_port + 2))
  end.

Fixpoint bounce_loop (turns : nat) : M (Loop * W) unit :=
  match turns with
  | O => mthrow OutOfFuel
  | S turns =>
      let* r := wait_next_event (-1) in
      match r with
      | Exit => mret tt
      | _ => bounce_loop turns
      end
  end.

Definition bouncer (pairs turns : nat) : M (Loop * W) unit :=
  do* add_pairs pairs FIRST_PORT;
  bounce_loop turns.
End bouncer.

(** ** What the bouncer is to do *)

(** A datagram that came in at, or went out from, a descriptor: who sent it or is to get
    it, and what it carries. *)
Abbreviation packet := (Z * bytes * bytes)%type.

Definition arrival (e : syscall * sysret) : option packet :=
  match e with
  | (sys_recvfrom fd _ _, r) =>
      if (0 <=? ret r) && (ret r <=? MTU) then
        match address_of_raw (out_address r) (out_value r 0) with
        | Ok a => Some (fd, sockaddr a, out r)
        | Throw _ => None
        end
      else None
  | _ => None
  end.

Definition departure (e : syscall * sysret) : option packet :=
  match e with
  | (sys_sendmsg fd (Some a) iov, _) => Some (fd, a, concat iov)
  | _ => None
  end.

Definition opening (e : syscall * sysret) : option Z :=
  match e with
  | (sys_socket _ _ _, r) => if 0 <=? ret r then Some (ret r) else None
  | _ => None
  end.

Definition arrivals (tr : list (syscall * sysret)) : list packet := omap arrival tr.
Definition departures (tr : list (syscall * sysret)) : list packet := omap departure tr.
Definition opened (tr : list (syscall * sysret)) : list Z := omap opening tr.

(** The other one of a pair. *)
Definition mate (i : nat) : nat := if Nat.even i then S i else pred i.
Definition mate_of (ns : list Z) (n : Z) : option Z :=
  match list_find (fun m => m = n) ns with
  | Some (i, _) => ns !! mate i
  | None => None
  end.

(** Who last sent to each descriptor. *)
Definition learn (m : gmap Z bytes) (e : packet) : gmap Z bytes := let '(fd, from, _) := e in <[fd := from]> m.

(** What an arrival makes the bouncer send. *)
Definition answer (ns : list Z) (m : gmap Z bytes) (e : packet) : list packet :=
  let '(fd, _, data) := e in
  match mate_of ns fd with
  | Some g =>
      match m !! g with
      | Some to => if size data =? 0 then [] else [(g, to, data)]
      | None => []
      end
  | None => []
  end.

Fixpoint relay (ns : list Z) (m : gmap Z bytes) (es : list packet) : list packet :=
  match es with
  | [] => []
  | e :: es => let m := learn m e in answer ns m e ++ relay ns m es
  end.

Lemma relay_snoc ns m es e :
  relay ns m (es ++ [e]) = relay ns m es ++ answer ns (learn (foldl learn m es) e) e.
Proof.
  revert m. induction es as [|a es IH]; intros m; simpl; [by rewrite app_nil_r|]. by rewrite IH, app_assoc.
Qed.

Lemma mate_of_lookup ns i n : NoDup ns -> ns !! i = Some n -> mate_of ns n = ns !! mate i.
Proof.
  intros Hd Hi. unfold mate_of. assert (list_find (fun m => m = n) ns = Some (i, n)) as ->; [|done].
  apply list_find_Some. split_and!; [done|done|]. intros j y Hj Hlt ->. pose proof (NoDup_lookup _ _ _ _ Hd Hi Hj). lia.
Qed.

Lemma mate_ne i : mate i <> i.
Proof. unfold mate. destruct (Nat.even i) eqn:E; [lia|]. destruct i; [done|]. simpl. lia. Qed.

(** ** What the calls do *)

(** The exceptions the program may end with: a busy wait of the event loop, a null
    dereference or an access out of bounds are not among them. *)
Definition failure (e : exn) : Prop :=
  match e with
  | SystemError _ _ | InvalidArgument | OutOfRange => True
  | RuntimeError what =>
      what <> "EventLoop: busy wait detected: callback did not read/write fd and is still interested"%string
  | _ => False
  end.

Lemma raw_address_failure addr n e : address_of_raw addr n = Throw e -> failure e.
Proof. unfold address_of_raw. destruct (_ <? _); [|done]. intros [= <-]. by intros [=]. Qed.

Lemma to_string_failure `{Resolver} a e : address_to_string a = Throw e -> failure e.
Proof.
  unfold address_to_string, ip_port. destruct (getnameinfo _ _) as [g [ip pt]]. destruct (negb _); [by intros [= <-]|].
  unfold stoi. destruct (match skip_spaces pt with String _ _ => _ | EmptyString => _ end) as [neg [|ch s]]; [by intros [= <-]|].
  destruct (digit ch); [|by intros [= <-]]. cbv zeta. destruct (_ && _); by intros [= <-].
Qed.

Lemma resolve_failure `{Resolver} node service flags family e : resolve node service flags family = Throw e -> failure e.
Proof.
  unfold resolve. destruct (getaddrinfo _ _ _ _) as [g [addr|]]; (destruct (negb _); [by intros [= <-]|]);
    [apply raw_address_failure|intros [= <-]; by intros [=]].
Qed.

Section calls.
Context {RS : Resolver} {K : Type} `{PosixKernel K}.
Implicit Types (p : Proc K) (d : FileDescriptor).

(** Receiving is one call.  The address is stored after the read has been counted. *)
Lemma recv_spec d p c : heap p !! d = Some c ->
  let call := sys_recvfrom (_fd (wrapper c)) MTU MSG_TRUNC in
  exists r k, kcall (kernel (os p)) call = (r, k) /\
    recv d MTU p =
      if ret r <? 0 then (Throw (SystemError "recvfrom" (errno r)), called p k call r)
      else if MTU <? ret r then (Throw (RuntimeError "recvfrom (oversized datagram)"), called p k call r)
      else (let! a := address_of_raw (out_address r) (out_value r 0) in Ok (mkReceived a (out r)),
            mkProc (os (called p k call r)) (alter (map_wrapper count_read) d (heap p))).
Proof.
  intros Hd call. destruct (syscall_checked_spec "recvfrom" call p) as (r & k & Hk & (Hret & _ & Hp) & E); [done|done|].
  exists r, k. split; [done|]. unfold recv, recv_into, mbind at 1, mlift at 1. cbn [address_of_raw sizeof_storage Z.ltb Z.compare].
  unfold mbind at 1. rewrite (fd_num_ok d p c Hd). unfold mbind at 1. cbn [payload].
  assert (size (resize [] MTU) = MTU) as -> by done. fold call. rewrite E.
  destruct (Z.ltb_spec (ret r) 0); [done|]. destruct (Z.ltb_spec MTU (ret r)); [done|]. specialize (Hp ltac:(lia)).
  unfold mbind, register_read, update, mmodify, mlift. destruct (address_of_raw _ _) as [a|e]; cbn [rbind]; [|done].
  unfold string_resize. rewrite (u64_small (ret r)) by (unfold is_u64; unfold MTU in *; lia).
  destruct (Z.ltb_spec 9223372036854775807 (ret r)); [lia|]. unfold mret. do 4 f_equal.
  assert (ztake MTU (out r) = out r) as -> by (apply ztake_all; lia).
  unfold resize. rewrite <- app_assoc. replace (ret r) with (size (out r)) by lia. by rewrite ztake_app.
Qed.

Lemma open_udp_spec p : let call := sys_socket AF_INET SOCK_DGRAM 0 in
  exists r k, open_udp p =
    if ret r <? 0 then (Throw (SystemError "socket" (errno r)), called p k call r)
    else (Ok (length (heap p)), mkProc (os (called p k call r)) (heap p ++ [mkCell (mkFDWrapper (ret r) false false 0 0) 1])).
Proof.
  intros call. destruct (syscall_checked_spec "socket" call p) as (r & k & _ & _ & E); [done|done|].
  exists r, k. unfold open_udp, open_socket, mbind at 1. fold call. rewrite E. destruct (ret r <? 0) eqn:Er; [done|].
  unfold construct_fd, mbind at 1, construct_wrapper, mlift. rewrite Er. done.
Qed.

Lemma local_address_spec d p c : heap p !! d = Some c ->
  let call := sys_getsockname (_fd (wrapper c)) in
  exists r k, local_address d p =
    (if ret r <? 0 then Throw (SystemError "getsockname" (errno r)) else address_of_raw (out_address r) (out_value r 0),
     called p k call r).
Proof.
  intros Hd call. destruct (syscall_checked_spec "getsockname" call p) as (r & k & _ & _ & E); [done|done|].
  exists r, k. unfold local_address, get_address, mbind at 1. rewrite (fd_num_ok d p c Hd). unfold mbind. fold call. rewrite E.
  by destruct (ret r <? 0).
Qed.

(** Sending is one call. *)
Lemma sendto_spec d p c a data : heap p !! d = Some c ->
  let call := sys_sendmsg (_fd (wrapper c)) (Some (sockaddr a)) [data] in
  exists r k, kcall (kernel (os p)) call = (r, k) /\
    outcome (fun _ p' => p' = mkProc (os (called p k call r)) (alter (map_wrapper count_write) d (heap p)))
      (fun e _ => failure e) (sendto d a [data] p) /\
    os (snd (sendto d a [data] p)) = os (called p k call r).
Proof.
  intros Hd call. destruct (syscall_checked_spec "sendmsg" call p) as (r & k & Hk & _ & E); [done|done|].
  exists r, k. split; [done|]. unfold sendto, mbind at 1 3. rewrite (fd_num_ok d p c Hd). unfold mbind, sendmsg_helper, mbind.
  cbn [as_iovecs map]. fold call. rewrite E. destruct (ret r <? 0); [done|].
  destruct (negb _); [|done]. split; [|done]. by intros [=].
Qed.
End calls.

(** ** Traces *)

Lemma omap_snoc_None {A B} (f : A -> option B) l e : f e = None -> omap f (l ++ [e]) = omap f l.
Proof. intros E. rewrite omap_app. cbn [omap list_omap]. by rewrite E, app_nil_r. Qed.

Lemma omap_snoc_Some {A B} (f : A -> option B) l e b : f e = Some b -> omap f (l ++ [e]) = omap f l ++ [b].
Proof. intros E. rewrite omap_app. cbn [omap list_omap]. by rewrite E. Qed.

(** The peers [u] remembers are those the trace shows; the datagrams sent are those that
    the arrivals call for, but for [out], which are still owed. *)
Record owes (ns : list Z) (u : Bouncer) (tr : list (syscall * sysret)) (out : list packet) : Prop := {
  ow_peers i n : ns !! i = Some n -> sockaddr <$> peer i u = foldl learn ∅ (arrivals tr) !! n;
  ow_relay : relay ns ∅ (arrivals tr) = departures tr ++ out
}.

Lemma owes_call ns u tr out e : owes ns u tr out -> arrival e = None -> departure e = None -> owes ns u (tr ++ [e]) out.
Proof.
  intros [O1 O2] Ha Hd. split; [intros i n Hi|]; unfold arrivals, departures in *;
    rewrite (omap_snoc_None _ _ _ Ha), ?(omap_snoc_None _ _ _ Hd); auto.
Qed.

Lemma owes_send ns u tr e q : owes ns u tr [q] -> arrival e = None -> departure e = Some q -> owes ns u (tr ++ [e]) [].
Proof.
  intros [O1 O2] Ha Hd. split; [intros i n Hi|]; unfold arrivals, departures in *;
    rewrite (omap_snoc_None _ _ _ Ha), ?(omap_snoc_Some _ _ _ _ Hd), ?app_nil_r; auto.
Qed.

Lemma owes_arrive ns u u' tr e i n a data : NoDup ns -> ns !! i = Some n -> owes ns u tr [] ->
  arrival e = Some (n, sockaddr a, data) -> departure e = None ->
  sockaddr <$> peer i u' = Some (sockaddr a) -> (forall j, j <> i -> peer j u' = peer j u) ->
  owes ns u' (tr ++ [e])
    match ns !! mate i, peer (mate i) u' with
    | Some g, Some b => if size data =? 0 then [] else [(g, sockaddr b, data)]
    | _, _ => []
    end.
Proof.
  intros Hd Hi [O1 O2] Ha Hdep Hp Hothers.
  assert (arrivals (tr ++ [e]) = arrivals tr ++ [(n, sockaddr a, data)]) as Ea by by apply omap_snoc_Some.
  assert (departures (tr ++ [e]) = departures tr) as Ed by by apply omap_snoc_None.
  assert (Hpeers : forall j m, ns !! j = Some m -> sockaddr <$> peer j u' = foldl learn ∅ (arrivals tr ++ [(n, sockaddr a, data)]) !! m).
  { intros j m Hj. rewrite foldl_app. simpl. destruct (decide (j = i)) as [->|Hne].
    - simplify_eq. by rewrite lookup_insert_eq.
    - rewrite Hothers, lookup_insert_ne by (done || intros ->; apply Hne; by eapply NoDup_lookup). auto. }
  split; rewrite Ea, ?Ed; [done|]. rewrite relay_snoc, O2, app_nil_r. f_equal. unfold answer at 1.
  rewrite (mate_of_lookup ns i n) by done. destruct (ns !! mate i) as [g|] eqn:Eg; [|done].
  specialize (Hpeers (mate i) g Eg). rewrite foldl_app in Hpeers. simpl in Hpeers |- *. rewrite <- Hpeers.
  by destruct (peer (mate i) u').
Qed.

(** A trace as it is when an exception has ended the program: at most one datagram is owed. *)
Definition nearly_relayed (tr : list (syscall * sysret)) : Prop :=
  NoDup (opened tr) -> departures tr = relay (opened tr) ∅ (arrivals tr) \/
    exists last, relay (opened tr) ∅ (arrivals tr) = departures tr ++ [last].

Lemma owes_nearly ns u tr out : opened tr = ns -> (NoDup ns -> owes ns u tr out) -> (length out <= 1)%nat -> nearly_relayed tr.
Proof.
  intros <- Ho Hlen Hd. destruct (Ho Hd) as [_ O2]. destruct out as [|q [|]]; simpl in Hlen; [|eauto|lia].
  left. by rewrite O2, app_nil_r.
Qed.

(** ** The loop *)

Section loop.
Context {RS : Resolver} {K : Type} `{PosixKernel K}.
Context (h0 : list (syscall * sysret)) (ds : list FileDescriptor) (ns : list Z).

Abbreviation W := (World K Bouncer).
Implicit Types (w : W) (l : list (Rule K Bouncer)).

Definition rule_at (i : nat) (x y : FileDescriptor) : Rule K Bouncer :=
  mkRule x In (bounce i (mate i) x y) (mret true) (mret tt).

(** The rule of a socket, which has its mate and its place among the peers. *)
Definition is_rule (m : nat) (r : Rule K Bouncer) : Prop :=
  exists i x y, ds !! i = Some x /\ ds !! mate i = Some y /\ (i < m)%nat /\ r = rule_at i x y.

Record inv (out : list packet) l w : Prop := {
  in_cells : Forall2 (fun d n => cell_ok d n l (fst w)) ds ns;
  in_rules : Forall (is_rule (length (peers (snd w)))) l;
  in_trace : exists tr, history (os (fst w)) = h0 ++ tr /\ opened tr = ns /\ (NoDup ns -> owes ns (snd w) tr out)
}.

Definition ends (e : exn) w : Prop :=
  failure e /\ exists tr, history (os (fst w)) = h0 ++ tr /\ nearly_relayed tr.

Lemma inv_ends out l w e : inv out l w -> (length out <= 1)%nat -> failure e -> ends e w.
Proof.
  intros [_ _ (tr & Htr & Ho & Hw)] Hlen He. split; [done|]. exists tr. split; [done|]. by eapply owes_nearly.
Qed.

Lemma bouncer_inv_cell out l w i x : inv out l w -> ds !! i = Some x -> exists n c, ns !! i = Some n /\ heap (fst w) !! x = Some c /\ _fd (wrapper c) = n.
Proof.
  intros Hi Hx. destruct (Forall2_lookup_l _ _ _ _ _ (in_cells _ _ _ Hi) Hx) as (n & Hn & c & Hc & Hf & _). eauto.
Qed.

(** Calls that are neither an arrival nor a departure change nothing. *)
Lemma inv_call out l w k c r : inv out l w -> arrival (c, r) = None -> departure (c, r) = None -> opening (c, r) = None ->
  inv out l (called (fst w) k c r, snd w).
Proof.
  intros [I1 I2 (tr & Htr & Ho & Hw)] Ha Hd Hop. split; [done|done|]. exists (tr ++ [(c, r)]). cbn. rewrite Htr, app_assoc.
  split_and!; [done| |intros Hnd; apply owes_call; auto]. unfold opened. by rewrite omap_snoc_None.
Qed.

Lemma inv_alter out l w d f : inv out l w -> (forall x, _fd (f x) = _fd x) ->
  inv out l (mkProc (os (fst w)) (alter (map_wrapper f) d (heap (fst w))), snd w).
Proof.
  intros [I1 I2 I3] Hf. split; [|done|done]. eapply Forall2_impl; [exact I1|]. intros x n Hx. cbn [fst].
  apply cell_ok_alter; [done|]. intros -> c Hc. rewrite Hf. destruct Hx as (c' & Hc' & Hn & _). by simplify_eq.
Qed.

(** The reading of a datagram: [u'] is what the program remembers then. *)
Lemma inv_arrive l w k i x n c r a u' : inv [] l w -> ds !! i = Some x -> ns !! i = Some n ->
  arrival (c, r) = Some (n, sockaddr a, out r) -> departure (c, r) = None -> opening (c, r) = None ->
  length (peers u') = length (peers (snd w)) -> sockaddr <$> peer i u' = Some (sockaddr a) ->
  (forall j, j <> i -> peer j u' = peer j (snd w)) ->
  inv match ns !! mate i, peer (mate i) u' with
      | Some g, Some b => if size (out r) =? 0 then [] else [(g, sockaddr b, out r)]
      | _, _ => []
      end l (called (fst w) k c r, u').
Proof.
  intros [I1 I2 (tr & Htr & Ho & Hw)] Hx Hn Ha Hd Hop Hl Hp Hothers. split; [done|by cbn [snd]; rewrite Hl|].
  exists (tr ++ [(c, r)]). cbn [fst os called history snd]. rewrite Htr, app_assoc. split_and!; [done| |].
  - unfold opened. by rewrite omap_snoc_None.
  - intros Hnd. by eapply owes_arrive; eauto.
Qed.

(** The sending of the datagram that is owed. *)
Lemma inv_send l w k g to data c r : inv [(g, to, data)] l w -> c = sys_sendmsg g (Some to) [data] ->
  inv [] l (called (fst w) k c r, snd w).
Proof.
  intros [I1 I2 (tr & Htr & Ho & Hw)] ->. split; [done|done|]. eexists (tr ++ [_]). cbn. rewrite Htr, app_assoc.
  split_and!; [done| |intros Hnd; eapply owes_send; [by apply Hw|done|cbn; by rewrite app_nil_r]].
  unfold opened. by rewrite omap_snoc_None.
Qed.

Lemma same_peer i a (u : Bouncer) : (i < length (peers u))%nat ->
  let u' := if negb (is_peer (peer i u) a) then set_peer i a u else u in
  length (peers u') = length (peers u) /\ sockaddr <$> peer i u' = Some (sockaddr a) /\ forall j, j <> i -> peer j u' = peer j u.
Proof.
  intros Hi. destruct (is_peer (peer i u) a) eqn:E; cbn [negb]; cbv zeta.
  - split_and!; [done| |done]. unfold is_peer in E. destruct (peer i u) as [b|]; [|done]. simpl. f_equal.
    unfold address_eqb in E. destruct (Z.eqb_spec (_size b) (_size a)) as [Es|]; [|done]. cbn [negb] in E.
    apply bool_decide_eq_true in E. unfold sockaddr. by rewrite E, Es.
  - unfold peer, set_peer. cbn [peers]. rewrite length_insert, list_lookup_insert_eq by done. split_and!; [done|done|].
    intros j Hj. by rewrite list_lookup_insert_ne.
Qed.

(** Being read is counted, and whatever happens afterwards leaves the count. *)
Definition was_read (x : FileDescriptor) w w' : Prop :=
  exists c c', heap (fst w) !! x = Some c /\ heap (fst w') !! x = Some c' /\ _read_count (wrapper c) <> _read_count (wrapper c').

(** What follows the reading: the datagram that is owed is sent. *)
Lemma answer_spec l w j y data : let out := match ns !! j, peer j (snd w) with
      | Some g, Some b => if size data =? 0 then [] else [(g, sockaddr b, data)]
      | _, _ => []
      end in
  inv out l w -> ds !! j = Some y ->
  outcome (fun _ w' => inv [] l w' /\ forall x w0, was_read x w0 w -> was_read x w0 w') ends
    ((let* y_peer := mgets (fun w => peer j (snd w)) in
      match y_peer with
      | Some a => if negb (size data =? 0) then on_proc (sendto y a [data]) else mret tt
      | None => mret tt
      end) w).
Proof.
  intros out Hi Hy. destruct (bouncer_inv_cell _ _ _ _ _ Hi Hy) as (g & c & Hg & Hc & Hn). subst out. rewrite Hg in Hi.
  unfold mbind, mgets. destruct (peer j (snd w)) as [b|]; [|done]. destruct (Z.eqb_spec (size data) 0); cbn [negb]; [done|].
  destruct (sendto_spec y (fst w) c b data Hc) as (r & k & _ & Hout & Hos). rewrite Hn in *.
  set (call := sys_sendmsg _ _ _) in *. pose proof (inv_send l w k _ _ _ call r Hi eq_refl) as Hi'.
  unfold on_proc. apply outcome_zoom. destruct (sendto y b [data] (fst w)) as [[[]|e] p'] eqn:Es; cbn [outcome] in *.
  - subst p'. split; [exact (inv_alter _ _ _ y count_write Hi' (fun _ => eq_refl))|].
    intros x w0 (c0 & c1 & Hc0 & Hc1 & Hne). exists c0. cbn [fst heap]. destruct (decide (x = y)) as [->|Hxy].
    + exists (map_wrapper count_write c1). by rewrite list_lookup_alter_eq, Hc1.
    + exists c1. by rewrite list_lookup_alter_ne.
  - cbn [snd] in Hos. destruct Hi' as [_ _ (tr & Htr & Ho & Hw)]. split; [done|]. exists tr. cbn [fst snd].
    rewrite Hos. split; [done|]. eapply owes_nearly; [exact Ho|exact Hw|simpl; lia].
Qed.

(** What is said about a new peer. *)
Lemma announce_spec l w out x a : inv out l w -> (length out <= 1)%nat -> (exists i, ds !! i = Some x) ->
  outcome (fun _ w' => inv out l w' /\ heap (fst w') = heap (fst w) /\ snd w' = snd w) ends
    ((let* local := on_proc (local_address x) in
      do* mlift (address_to_string local);
      do* mlift (address_to_string a);
      mret tt) w).
Proof.
  intros Hi Hlen [i Hx]. destruct (bouncer_inv_cell _ _ _ _ _ Hi Hx) as (n & c & _ & Hc & Hn).
  apply outcome_bind. unfold on_proc. apply outcome_zoom. destruct (local_address_spec x (fst w) c Hc) as (r & k & ->).
  set (call := sys_getsockname _). pose proof (inv_call _ _ _ k call r Hi eq_refl eq_refl eq_refl) as Hi'.
  destruct (ret r <? 0); [by eapply inv_ends|].
  destruct (address_of_raw _ _) as [b|e] eqn:Ea; [|eapply inv_ends; [done|done|by eapply raw_address_failure]].
  cbn [outcome]. unfold mbind, mlift. destruct (address_to_string b) as [s|e] eqn:Eb; [|eapply inv_ends; [done|done|by eapply to_string_failure]].
  destruct (address_to_string a) as [s'|e] eqn:Es; [|eapply inv_ends; [done|done|by eapply to_string_failure]].
  done.
Qed.

Lemma bounce_spec l w i x y : inv [] l w -> ds !! i = Some x -> ds !! mate i = Some y -> (i < length (peers (snd w)))%nat ->
  outcome (fun _ w' => inv [] l w' /\ was_read x w w') ends (bounce i (mate i) x y w).
Proof.
  intros Hi Hx Hy Hlen. destruct (bouncer_inv_cell _ _ _ _ _ Hi Hx) as (n & c & Hn & Hc & Hf).
  apply outcome_bind. unfold on_proc at 1. apply outcome_zoom.
  destruct (recv_spec x (fst w) c Hc) as (r & k & _ & E). rewrite E, Hf. clear E. set (call := sys_recvfrom _ _ _).
  assert (arrival (call, r) = if (0 <=? ret r) && (ret r <=? MTU) then
    match address_of_raw (out_address r) (out_value r 0) with Ok a => Some (n, sockaddr a, out r) | Throw _ => None end else None) as Ha by done.
  assert (Hquiet : forall e, arrival (call, r) = None -> failure e -> ends e (called (fst w) k call r, snd w)).
  { intros e Hna He. eapply inv_ends; [by apply inv_call|simpl; lia|done]. }
  destruct (Z.ltb_spec (ret r) 0); [apply Hquiet; [by rewrite Ha, (proj2 (Z.leb_gt 0 (ret r)))|done]|].
  destruct (Z.ltb_spec MTU (ret r)); [apply Hquiet; [by rewrite Ha, (proj2 (Z.leb_gt (ret r) MTU)), andb_false_r|by intros [=]]|].
  rewrite (proj2 (Z.leb_le 0 (ret r))), (proj2 (Z.leb_le (ret r) MTU)) in Ha by done. cbn [andb] in Ha.
  destruct (address_of_raw (out_address r) (out_value r 0)) as [a|e] eqn:Ea; cbn [rbind outcome].
  2:{ apply raw_address_failure in Ea. specialize (Hquiet e Ha Ea). exact Hquiet. }
  cbn [source_address payload]. destruct (same_peer i a (snd w) Hlen) as (Hl & Hp & Hothers). set (u' := if negb _ then _ else _) in *.
  pose proof (inv_arrive l w k i x n call r a u' Hi Hx Hn Ha eq_refl eq_refl Hl Hp Hothers) as Hi1.
  set (out1 := match ns !! mate i with Some _ => _ | None => _ end) in Hi1.
  apply (inv_alter _ _ _ x count_read) in Hi1; [|done]. cbn [fst snd] in Hi1. set (p1 := mkProc _ _) in *.
  assert (Hread : was_read x w (p1, u')).
  { exists c, (map_wrapper count_read c). cbn. rewrite list_lookup_alter_eq, Hc. split_and!; [done|done|]. apply not_eq_sym, next_count_ne. }
  assert (Hout : (length out1 <= 1)%nat).
  { unfold out1. destruct (ns !! mate i); [|simpl; lia]. destruct (peer (mate i) u'); [|simpl; lia]. destruct (_ =? 0); simpl; lia. }
  unfold mbind at 1, mgets at 1. cbn [snd].
  assert (Hsay : outcome (fun _ w' => inv out1 l w' /\ heap (fst w') = heap p1 /\ snd w' = u') ends
    ((if negb (is_peer (peer i (snd w)) a) then
         do* mmodify (fun w : W => (fst w, set_peer i a (snd w)));
         let* local := on_proc (local_address x) in
         do* mlift (address_to_string local);
         do* mlift (address_to_string a);
         mret tt
       else mret tt) (p1, snd w))).
  { unfold u' in *. destruct (is_peer (peer i (snd w)) a); cbn [negb] in *; [done|]. unfold mbind at 1, mmodify. cbn [fst snd].
    eapply outcome_weaken; [by apply announce_spec; [exact Hi1|done|eauto]|]. done. }
  apply outcome_bind. eapply outcome_weaken; [exact Hsay|]. intros [] w2 (Hi2 & Hheap & Hu). unfold out1 in Hi2. rewrite <- Hu in Hi2.
  eapply outcome_weaken; [exact (answer_spec l w2 (mate i) y (System.out r) Hi2 Hy)|]. intros [] w3 [Hi3 Hr3]. split; [done|]. apply Hr3.
  destruct Hread as (c0 & c1 & Hc0 & Hc1 & Hne). exists c0, c1. cbn [fst] in Hc1. by rewrite Hheap.
Qed.

(** *** The rules *)

Definition number (r : Rule K Bouncer) : Z :=
  match list_find (fun d => d = rule_fd r) ds with
  | Some (i, _) => match ns !! i with Some n => n | None => 0 end
  | None => 0
  end.

Abbreviation always := (fun (_ : Rule K Bouncer) (_ : W) => True).

Lemma bouncer_inv_member l w r : inv [] l w -> r ∈ l -> is_rule (length (peers (snd w))) r.
Proof. intros [_ I2 _] Hr. rewrite Forall_forall in I2. by apply I2. Qed.

(** Cancelling a rule drops its copy of the socket. *)
Lemma bouncer_erase_spec l1 r l2 w : inv [] (l1 ++ r :: l2) w -> is_rule (length (peers (snd w))) r ->
  outcome (fun _ w' => inv [] (l1 ++ l2) w') ends (cancel_erase r w).
Proof.
  intros [I1 I2 I3] (i & x & y & Hx & _ & _ & ->). destruct (Forall2_lookup_l _ _ _ _ _ I1 Hx) as (n & Hn & c & Hc & Hf & Hu).
  rewrite refs_middle in Hu. cbn [rule_fd rule_at] in Hu. rewrite decide_True in Hu by done.
  unfold cancel_erase, mbind. cbn [cancel rule_at]. unfold mret, on_proc, zoom. cbn [rule_fd].
  rewrite (destruct_fd_shared x (fst w) c Hc) by lia. cbn [outcome]. split.
  - eapply Forall2_impl; [exact I1|]. intros d m Hd. exact (cell_ok_erase d m l1 (rule_at i x y) l2 (fst w) Hd).
  - cbn [snd]. apply Forall_app in I2 as [I2 I2']. apply Forall_app. split; [done|]. by inversion I2'.
  - done.
Qed.

Lemma bouncer_rule_ok r : rule_ok (inv []) ends number always always r.
Proof.
  constructor.
  - intros l w Hi Hr. destruct (bouncer_inv_member _ _ _ Hi Hr) as (i & x & y & Hx & _ & _ & ->). unfold rule_cell, number. cbn [rule_fd rule_at].
    destruct (list_find (fun d => d = x) ds) as [[j x']|] eqn:Ef.
    + apply list_find_Some in Ef as (Hj & -> & _). destruct (bouncer_inv_cell _ _ _ _ _ Hi Hj) as (n & c & Hn & Hc & Hf). rewrite Hn. eauto.
    + apply list_find_None in Ef. rewrite Forall_forall in Ef. by destruct (Ef x (list_elem_of_lookup_2 _ _ _ Hx)).
  - intros l w Hi Hr _. destruct (bouncer_inv_member _ _ _ Hi Hr) as (i & x & y & _ & _ & _ & ->). by exists true.
  - intros l w Hi Hr _. destruct (bouncer_inv_member _ _ _ Hi Hr) as (i & x & y & Hx & Hy & Hl & ->).
    eapply outcome_weaken; [by apply bounce_spec|]. intros [] w' [Hi' (c & c' & Hc & Hc' & Hne)]. split; [done|]. right. by exists c, c'.
  - intros l1 l2 w Hi _. apply bouncer_erase_spec; [done|]. eapply bouncer_inv_member; [exact Hi|]. set_solver.
Qed.

Lemma pairs_total {T} (R : T -> T -> Prop) (l : list T) : (forall a b, R a b) -> ForallOrdPairs R l.
Proof. intros HR. induction l; constructor; [|done]. by apply Forall_true. Qed.

Lemma bouncer_rules_ok l : rules_ok (inv []) ends number always always l.
Proof.
  split; [apply Forall_true, bouncer_rule_ok|]. apply pairs_total. intros a b.
  split; split; intros ? w _ _ _; by match goal with |- outcome _ _ ?x => destruct x as [[[]|] ?] end.
Qed.

Lemma bouncer_poll_ok : poll_ok (inv []) ends number always always.
Proof.
  constructor.
  - intros l w fds t Hi. destruct (kcall _ _) as [a k]. by apply inv_call.
  - intros r l w fds t _ _. by destruct (kcall _ _) as [a k].
  - intros r l w fds t i v _ _ _. by destruct (kcall _ _) as [a k].
  - intros l w Hi. eapply inv_ends; [exact Hi|simpl; lia|by intros [=]].
Qed.

Lemma bounce_loop_spec turns l s : _rules (fst s) = l -> inv [] l (snd s) ->
  outcome (fun _ s' => exists l', inv [] l' (snd s')) (fun e s' => e = OutOfFuel /\ (exists l', inv [] l' (snd s')) \/ ends e (snd s'))
    (bounce_loop turns s).
Proof.
  revert l s. induction turns as [|turns IH]; intros l s Hl Hi; cbn [bounce_loop]; [left; eauto|].
  pose proof (wait_next_event_ok _ _ _ _ _ (-1) l bouncer_poll_ok s (Build_loop_at _ _ _ _ _ _ _ Hl (bouncer_rules_ok l) Hi)) as Hw.
  unfold mbind. destruct (wait_next_event (-1) s) as [[r|e] s'].
  - destruct Hw as (l' & _ & [Hl' _ Hi']). destruct r; [by eapply IH..|]. simpl. eauto.
  - by right.
Qed.
End loop.

(** ** Setting up *)

Section setup.
Context {RS : Resolver} {K : Type} `{PosixKernel K} (h0 : list (syscall * sysret)).

Abbreviation Loop := (EventLoop K Bouncer).
Abbreviation W := (World K Bouncer).
Implicit Types (s : Loop * W).

(** Before the loop: the sockets [ds] with the numbers [ns], [m] places for peers, and
    nothing received. *)
Record ready (ds : list FileDescriptor) (ns : list Z) (m : nat) s : Prop := {
  rd_cells : Forall2 (fun d n => cell_ok d n (_rules (fst s)) (fst (snd s))) ds ns;
  rd_rules : Forall (is_rule ds m) (_rules (fst s));
  rd_sockets : sockets (snd (snd s)) = ds;
  rd_peers : peers (snd (snd s)) = replicate m None;
  rd_trace : exists tr, history (os (fst (snd s))) = h0 ++ tr /\ opened tr = ns /\ arrivals tr = [] /\ departures tr = []
}.

Lemma bouncer_ready_inv ds ns m s : ready ds ns m s -> inv h0 ds ns [] (_rules (fst s)) (snd s).
Proof.
  intros [R1 R2 R3 R4 (tr & Htr & Ho & Ha & Hd)]. split; [done|by rewrite R4, length_replicate|].
  exists tr. split_and!; [done|done|]. intros _. split; rewrite Ha, ?Hd; [|done]. intros i n _. unfold peer. rewrite R4.
  destruct (replicate m None !! i) as [a|] eqn:E; [|done]. apply lookup_replicate in E as [-> _]. done.
Qed.

Lemma ready_ends ds ns m s e : ready ds ns m s -> failure e -> ends h0 e (snd s).
Proof. intros Hr He. eapply inv_ends; [by eapply bouncer_ready_inv|simpl; lia|done]. Qed.

Lemma ready_call ds ns m s k c r : ready ds ns m s -> arrival (c, r) = None -> departure (c, r) = None -> opening (c, r) = None ->
  ready ds ns m (fst s, (called (fst (snd s)) k c r, snd (snd s))).
Proof.
  intros [R1 R2 R3 R4 (tr & Htr & Ho & Ha & Hd)] E1 E2 E3. split; try done. exists (tr ++ [(c, r)]). cbn. rewrite Htr, app_assoc.
  unfold opened, arrivals, departures in *. by rewrite !omap_snoc_None.
Qed.

Abbreviation ends' := (fun e s => ends h0 e (snd s)).

Lemma is_rule_more (ds ds' : list FileDescriptor) m m' (r : Rule K Bouncer) : (m <= m')%nat -> is_rule ds m r -> is_rule (ds ++ ds') m' r.
Proof.
  intros Hm (i & x & y & Hx & Hy & Hi & ->). exists i, x, y.
  split_and!; [by apply lookup_app_l_Some|by apply lookup_app_l_Some|lia|done].
Qed.

Lemma refs_none d (l : list (Rule K Bouncer)) : Forall (fun r => rule_fd r <> d) l -> refs d l = 0%nat.
Proof. unfold refs. induction 1 as [|r l Hr _ IH]; [done|]. by rewrite filter_cons, decide_False. Qed.

Lemma emplace_socket_spec ds ns m s : ready ds ns m s ->
  outcome (fun d s' => exists n, ready (ds ++ [d]) (ns ++ [n]) m s') ends' (emplace_socket s).
Proof.
  intros Hr. unfold emplace_socket. apply outcome_bind. unfold on_world at 1. apply outcome_zoom. unfold on_proc. apply outcome_zoom.
  set (p := fst (snd s)). destruct (open_udp_spec p) as (r & k & ->). set (call := sys_socket _ _ _).
  destruct (Z.ltb_spec (ret r) 0) as [Hneg|Hpos].
  - apply (ready_ends ds ns m (fst s, (called p k call r, snd (snd s)))); [|done]. apply ready_call; try done.
    cbn. by rewrite (proj2 (Z.leb_gt 0 (ret r))).
  - cbn [outcome]. unfold mbind, on_world, zoom, mmodify, mret. cbn [fst snd outcome].
    destruct Hr as [R1 R2 R3 R4 (tr & Htr & Ho & Ha & Hd)]. exists (ret r). split; cbn [fst snd sockets peers].
    + apply Forall2_app.
      * eapply Forall2_impl; [exact R1|]. intros d n (c & Hc & Hn & Hu). exists c. split_and!; [|done|done].
        cbn [heap called]. by apply lookup_app_l_Some.
      * constructor; [|constructor]. eexists. cbn [heap called]. split_and!; [by rewrite list_lookup_middle|done|].
        cbn [uses]. assert (refs (length (heap p)) (_rules (fst s)) = 0%nat) as ->; [|lia].
        apply refs_none. eapply Forall_impl; [exact R2|].
        intros r0 (i & x & y & Hx & _ & _ & ->) Heq. cbn in Heq. subst x.
        destruct (Forall2_lookup_l _ _ _ _ _ R1 Hx) as (n & _ & c & Hc & _). apply lookup_lt_Some in Hc. fold p in Hc. lia.
    + eapply Forall_impl; [exact R2|]. intros r0. by apply is_rule_more.
    + by rewrite R3.
    + done.
    + exists (tr ++ [(call, r)]). cbn [os called history]. unfold p. rewrite Htr, app_assoc. split; [done|].
      unfold opened, arrivals, departures in *. rewrite (omap_snoc_Some opening tr _ (ret r)), Ho, !omap_snoc_None; try done.
      cbn. by rewrite (proj2 (Z.leb_le 0 (ret r))).
Qed.

Lemma emplace_peer_spec ds ns m s : ready ds ns m s -> outcome (fun _ s' => ready ds ns (S m) s') ends' (emplace_peer s).
Proof.
  intros [R1 R2 R3 R4 R5]. cbn. split; try done.
  - cbn. eapply Forall_impl; [exact R2|]. intros r Hr. rewrite <- (app_nil_r ds). eapply is_rule_more; [|exact Hr]. lia.
  - cbn. by rewrite R4, <- replicate_cons_app.
Qed.

Lemma bind_port_spec ds ns m s d i port : ready ds ns m s -> ds !! i = Some d ->
  outcome (fun _ s' => ready ds ns m s') ends' (bind_port d port s).
Proof.
  intros Hr Hd. unfold bind_port, mbind at 1, mlift. destruct (address_of_ip "0" port) as [a|e] eqn:Ea.
  2:{ cbn. eapply ready_ends; [exact Hr|]. by eapply resolve_failure. }
  destruct (Forall2_lookup_l _ _ _ _ _ (rd_cells _ _ _ _ Hr) Hd) as (n & _ & c & Hc & _).
  unfold on_world. apply outcome_zoom. unfold on_proc. apply outcome_zoom. unfold socket_bind, mbind at 1. rewrite (fd_num_ok _ _ _ Hc).
  unfold mbind. set (call := sys_bind _ _).
  destruct (syscall_checked_spec "bind" call (fst (snd s))) as (r & k & _ & _ & E); [done|done|]. rewrite E.
  pose proof (ready_call ds ns m s k call r Hr eq_refl eq_refl eq_refl) as Hr'.
  destruct (ret r <? 0); [by eapply (ready_ends _ _ _ (fst s, (called _ k call r, snd (snd s))))|exact Hr'].
Qed.

Lemma listen_on_spec ds ns m s i x y : ready ds ns m s -> ds !! i = Some x -> ds !! mate i = Some y -> (i < m)%nat ->
  outcome (fun _ s' => ready ds ns m s') ends' (listen_on x (bounce i (mate i) x y) s).
Proof.
  intros Hr Hx Hy Hi. pose proof Hr as [R1 R2 R3 R4 R5]. destruct (Forall2_lookup_l _ _ _ _ _ R1 Hx) as (n & _ & c & Hc & _).
  unfold listen_on, mbind at 1, mgets. unfold mbind at 1, on_world, zoom at 1, add_rule, mbind at 1, on_proc, zoom at 1, duplicate, mbind at 1.
  rewrite (deref_ok _ _ _ Hc). unfold mbind, update, mmodify, mret. cbn [fst snd outcome].
  split; cbn [fst snd _rules]; try done.
  - eapply Forall2_impl; [exact R1|]. intros d k Hd. exact (cell_ok_duplicate d k (_rules (fst s)) (rule_at i x y) (fst (snd s)) Hd).
  - apply Forall_app. split; [done|]. constructor; [|constructor]. by exists i, x, y.
Qed.

Lemma mate_even k : mate (2 * k) = S (2 * k) /\ mate (S (2 * k)) = (2 * k)%nat.
Proof. unfold mate. by rewrite Nat.even_succ, <- Nat.negb_even, Nat.even_even. Qed.

Lemma add_pair_spec k ds ns s port : ready ds ns (2 * k) s -> length ds = (2 * k)%nat ->
  outcome (fun _ s' => exists ds' ns', ready ds' ns' (2 * S k) s' /\ length ds' = (2 * S k)%nat) ends' (add_pair port s).
Proof.
  intros Hr Hk. destruct (mate_even k) as [Hm1 Hm2]. unfold add_pair. apply outcome_bind. unfold mgets. cbn [outcome]. cbv beta.
  set (n := length (sockets _)). assert (n = (2 * k)%nat) as En by (rewrite <- Hk; exact (f_equal length (rd_sockets _ _ _ _ Hr))).
  clearbody n. subst n.
  apply outcome_bind. eapply outcome_weaken; [exact (emplace_socket_spec _ _ _ _ Hr)|]. intros x s1 (n1 & Hr1).
  apply outcome_bind. eapply outcome_weaken; [exact (emplace_socket_spec _ _ _ _ Hr1)|]. intros y s2 (n2 & Hr2).
  rewrite <- !app_assoc in Hr2. simpl in Hr2.
  assert (Hx : (ds ++ [x; y]) !! (2 * k)%nat = Some x) by (by rewrite lookup_app_r, Hk, Nat.sub_diag by lia).
  assert (Hy : (ds ++ [x; y]) !! S (2 * k) = Some y) by (rewrite lookup_app_r, Hk by lia; by replace (S (2 * k) - 2 * k)%nat with 1%nat by lia).
  apply outcome_bind. eapply outcome_weaken; [exact (emplace_peer_spec _ _ _ _ Hr2)|]. intros [] s3 Hr3.
  apply outcome_bind. eapply outcome_weaken; [exact (emplace_peer_spec _ _ _ _ Hr3)|]. intros [] s4 Hr4.
  apply outcome_bind. eapply outcome_weaken; [exact (bind_port_spec _ _ _ _ _ _ _ Hr4 Hx)|]. intros [] s5 Hr5.
  apply outcome_bind. eapply outcome_weaken; [exact (bind_port_spec _ _ _ _ _ _ _ Hr5 Hy)|]. intros [] s6 Hr6.
  pose proof (listen_on_spec _ _ _ _ (2 * k) x y Hr6 Hx) as Hl1. rewrite Hm1 in Hl1.
  apply outcome_bind. eapply outcome_weaken; [apply Hl1; [exact Hy|lia]|]. intros [] s7 Hr7.
  pose proof (listen_on_spec _ _ _ _ (S (2 * k)) y x Hr7 Hy) as Hl. rewrite Hm2 in Hl.
  eapply outcome_weaken; [apply Hl; [exact Hx|lia]|]. intros [] s8 Hr8. exists (ds ++ [x; y]), (ns ++ [n1; n2]).
  replace (2 * S k)%nat with (S (S (2 * k))) by lia. split; [exact Hr8|]. rewrite length_app, Hk. simpl. lia.
Qed.

Lemma add_pairs_spec pairs k ds ns s port : ready ds ns (2 * k) s -> length ds = (2 * k)%nat ->
  outcome (fun _ s' => exists ds' ns' m, ready ds' ns' m s') ends' (add_pairs pairs port s).
Proof.
  revert k ds ns s port. induction pairs as [|pairs IH]; intros k ds ns s port Hr Hk; cbn [add_pairs]; [simpl; eauto|].
  apply outcome_bind. eapply outcome_weaken; [by apply (add_pair_spec k ds ns)|]. intros [] s' (ds' & ns' & Hr' & Hk'). by eapply IH.
Qed.
End setup.

(** ** Properties *)

(** C40: The bouncer relays.  On every kernel, for any number of pairs and for as long as
    it runs: provided the kernel gives the sockets different numbers, the datagrams sent
    are exactly those that the arrivals call for, in order: each non-empty datagram that
    arrives at a socket is sent unchanged from the other socket of the pair to whoever
    last sent to that one, if anyone has.  When the program ends with an exception at
    most the last of them is missing; it is an error of a call, of an address, or an
    error that [poll] reports, never a busy wait or an access out of bounds. *)
Theorem bouncer_relays `{Resolver} {K : Type} `{PosixKernel K} pairs turns (p : Proc K) :
  let '(r, (_, (p', _))) := bouncer pairs turns (mkEventLoop [], (p, mkBouncer [] [])) in
  exists tr, history (os p') = history (os p) ++ tr /\
    match r with
    | Ok _ | Throw OutOfFuel => NoDup (opened tr) -> departures tr = relay (opened tr) ∅ (arrivals tr)
    | Throw e => nearly_relayed tr /\ failure e
    end.
Proof.
  set (h0 := history (os p)).
  assert (Hr : ready h0 [] [] 0 (mkEventLoop [], (p, mkBouncer [] []))).
  { split; try done. exists []. by rewrite app_nil_r. }
  pose proof (add_pairs_spec h0 pairs 0 [] [] _ FIRST_PORT Hr eq_refl) as Ha. unfold bouncer, mbind.
  destruct (add_pairs pairs FIRST_PORT _) as [[[]|e] s1]; cbn [outcome] in Ha.
  - destruct Ha as (ds & ns & m & Hr1). pose proof (bounce_loop_spec h0 ds ns turns _ s1 eq_refl (bouncer_ready_inv _ _ _ _ _ Hr1)) as Hl.
    destruct (bounce_loop turns s1) as [[[]|e] [lo [p' u]]]; cbn [outcome snd fst] in Hl.
    + destruct Hl as (l & [_ _ (tr & Htr & Ho & Hw)]). exists tr. split; [done|]. rewrite Ho. intros Hnd. destruct (Hw Hnd) as [_ ->]. by rewrite app_nil_r.
    + destruct Hl as [[-> (l & [_ _ (tr & Htr & Ho & Hw)])]|[He (tr & Htr & Hn)]]; exists tr; (split; [done|]).
      * rewrite Ho. intros Hnd. destruct (Hw Hnd) as [_ ->]. by rewrite app_nil_r.
      * by destruct e.
  - destruct s1 as [lo [p' u]]. destruct Ha as [He (tr & Htr & Hn)]. exists tr. split; [done|].
    by destruct e.
Qed.

(** A kernel that numbers sockets from 3 on and delivers the datagrams of a list: the
    descriptor each arrives at, its sender's port and its payload. *)
Module Inbox.
Record t : Type := mk { next : Z; inbox : list (Z * Z * bytes) }.

Definition from_port (port : Z) : bytes := sockaddr_in 2130706433 port.

#[export] Instance inbox_kernel : Kernel t := fun k c =>
  match c with
  | sys_socket _ _ _ => (done_with (Z.max 3 (Z.min (next k) 1000)), mk (next k + 1) (inbox k))
  | sys_poll fds _ =>
      let answers := map (fun x => match inbox k with (fd, _, _) :: _ => if fst x =? fd then POLLIN else 0 | [] => 0 end) fds in
      (mkSysret (match inbox k with [] => -1 | _ => 1 end) EINTR [] [] answers, k)
  | sys_recvfrom _ count _ =>
      match inbox k with
      | (_, port, data) :: rest =>
          if count <? 9 then (failed_with EAGAIN, k)
          else (mkSysret (size (ztake 9 data)) 0 (ztake 9 data) (from_port port) [16], mk (next k) rest)
      | [] => (failed_with EAGAIN, k)
      end
  | sys_getsockname _ => (mkSysret 0 0 [] (from_port 1024) [16], k)
  | sys_sendmsg _ _ iov => (done_with (Z.min (iov_size iov) 1000), k)
  | sys_read _ _ | sys_writev _ _ => (failed_with EAGAIN, k)
  | _ => (done_with 0, k)
  end.

#[export] Instance inbox_posix : PosixKernel t.
Proof.
  intros k c. unfold kcall, inbox_kernel.
  destruct c as [fd count|fd iov| | | |fds t| | | | | | | | | | | |fd count flags|fd a iov| | | |]; try (simpl; split_and!; (lia || done)).
  - simpl. unfold iov_size. pose proof (size_nonneg (concat iov)). split_and!; (lia || done).
  - simpl. rewrite length_map. destruct (inbox k); simpl; split_and!; (lia || done).
  - destruct (inbox k) as [|[[? port] data] rest]; [simpl; split_and!; (lia || done)|].
    destruct (Z.ltb_spec count 9); [simpl; split_and!; (lia || done)|]. simpl. rewrite size_ztake by lia.
    pose proof (size_nonneg data). split_and!; lia.
  - simpl. unfold iov_size. pose proof (size_nonneg (concat iov)). split_and!; (lia || done).
Qed.

(** Port 70 writes to the first socket before anyone has written to the second; then port
    80 writes to the second, 70 to the first, and 90, a new peer, to the second. *)
Definition proc : Proc t := mkProc (mkSys (mk 3 [(3, 70, [x61]); (4, 80, [x62]); (3, 70, [x63]); (4, 90, []); (3, 71, [x64])]) []) [].
End Inbox.

Abbreviation run := (bouncer (RS := decimal_resolver) (H := Inbox.inbox_kernel) 1 20 (mkEventLoop [], (Inbox.proc, mkBouncer [] []))).

Lemma bouncer_relays_witness : fst run = Ok tt /\
  departures (history (os (fst (snd (snd run))))) =
    [(3, Inbox.from_port 70, [x62]); (4, Inbox.from_port 80, [x63]); (4, Inbox.from_port 90, [x64])].
Proof.
  assert (fst run = Ok tt) as Hr by (vm_compute; reflexivity). split; [exact Hr|].
  assert (opened (history (os (fst (snd (snd run))))) = [3; 4]) as Ho by (vm_compute; reflexivity).
  assert (relay [3; 4] ∅ (arrivals (history (os (fst (snd (snd run)))))) =
    [(3, Inbox.from_port 70, [x62]); (4, Inbox.from_port 80, [x63]); (4, Inbox.from_port 90, [x64])]) as Ha by (vm_compute; reflexivity).
  pose proof (bouncer_relays (H := decimal_resolver) (H1 := Inbox.inbox_posix) 1 20 Inbox.proc) as Ht.
  rewrite <- Ha. clear Ha. destruct run as [r [lo [p' u]]]. cbn [fst snd] in *. subst r. destruct Ht as (tr & Htr & Hd).
  change (history (os Inbox.proc)) with (@nil (syscall * sysret)) in Htr.
  rewrite Htr in *. cbn [app] in *. rewrite Ho in Hd. apply Hd. by apply (bool_decide_eq_true_1 (NoDup [3; 4])).

Defined.
