(* ===== verification/Native.v ===== *)
(** * Native: copying over a TCP socket of the kernel

    Models [apps/tcp_native.cc]: a TCP socket of the operating system is connected, or
    one connection is accepted, and [bidirectional_stream_copy] runs on it.  The objects
    that go out of scope are destroyed, also when an exception leaves the scope.  The
    usage text and the message of an exception are left out. *)

From Stdlib Require Import Strings.String.
From S2P Require Import Prelude Address System SimKernel FileDescriptor Socket EventLoop StreamCopy CommandLine.

Definition BACKLOG : Z := 16.

(** [argv[i]] *)
Definition argument (argv : list string) (i : Z) : result string :=
  match arg argv i with
  | Returns s => Ok s
  | Exits _ _ => Throw OutOfBounds
  | Fails e => Throw e
  end.

(** Whether the arguments are wrong, and [server_mode]. *)
Definition check_usage (argv : list string) : result (bool * bool) :=
  if argc argv <? 3 then Ok (true, false) else
  let! first := argument argv 1 in
  let server_mode := strneq 3 "-l" first in
  Ok (server_mode && (argc argv <? 4), server_mode).

Section native.
Context {RS : Resolver} {K : Type} `{Kernel K}.

(** The rest of a scope in which [d] has been constructed; [d] is destroyed at its end. *)
Definition scoped {A : Type} (d : FileDescriptor) (m : M (Proc K) A) : M (Proc K) A :=
  let* a := mcatch m (fun e => do* destruct_fd d; mthrow e) in
  do* destruct_fd d;
  mret a.

(** [{argv[i], argv[j]}] *)
Definition argument_address (argv : list string) (i j : Z) : M (Proc K) Address :=
  let* host := mlift (argument argv i) in
  let* service := mlift (argument argv j) in
  mlift (address_of_name host service).

(** The function that makes the socket. *)
Definition make_socket (server_mode : bool) (argv : list string) : M (Proc K) FileDescriptor :=
  if server_mode then
    let* listening_socket := open_tcp in
    scoped listening_socket
      (do* set_reuseaddr listening_socket;
       let* address := argument_address argv 2 3 in
       do* socket_bind listening_socket address;
       do* listen listening_socket BACKLOG;
       accept listening_socket)
  else
    let* connecting_socket := open_tcp in
    mcatch
      (let* address := argument_address argv 1 2 in
       do* socket_connect connecting_socket address;
       mret connecting_socket)
      (fun e => do* destruct_fd connecting_socket; mthrow e).

(** The exit status; [OutOfFuel] when the copying is still going on after so many turns. *)
Definition native_main (turns : nat) (argv : list string) : M (Proc K) Z :=
  mcatch
    (let* (wrong, server_mode) := mlift (check_usage argv) in
     if (wrong : bool) then mret 1 else
     let* socket := make_socket server_mode argv in
     do* scoped socket (bidirectional_stream_copy turns socket);
     mret 0)
    (fun e => match e with OutOfFuel => mthrow OutOfFuel | _ => mret 1 end).
End native.

Lemma check_usage_ok argv : exists wrong server_mode, check_usage argv = Ok (wrong, server_mode).
Proof.
  unfold check_usage. destruct (Z.ltb_spec (argc argv) 3) as [?|Hn]; [by eauto|].
  destruct argv as [|a [|b argv]]; [done|done|]. unfold argument, arg. simpl. eauto.
Qed.

(** ** Calls that transfer nothing *)

(** Neither a transfer nor a shutdown. *)
Definition is_setup (c : syscall) : Prop :=
  match c with
  | sys_read _ _ | sys_writev _ _ | sys_shutdown _ _ => False
  | _ => True
  end.

Definition transfers_nothing (tr : list (syscall * sysret)) : Prop := Forall (fun e => is_setup (fst e)) tr.

Lemma setup_quiet tr n : transfers_nothing tr -> received n tr = [] /\ sent n tr = [].
Proof.
  intros Ht. split; apply concat_nils; (eapply Forall_impl; [exact Ht|]); intros [c r] Hc; by destruct c.
Qed.

Section facts.
Context {RS : Resolver} {K : Type} `{PosixKernel K}.
Implicit Types (p : Proc K).

(** From [p] to [p'] only such calls were made. *)
Definition sets_up p p' : Prop := exists tr, history (os p') = history (os p) ++ tr /\ transfers_nothing tr.

#[export] Instance sets_up_refl : Reflexive sets_up.
Proof. intros p. exists []. rewrite app_nil_r. split; [done|constructor]. Qed.

#[export] Instance sets_up_trans : Transitive sets_up.
Proof.
  intros p1 p2 p3 (t1 & E1 & F1) (t2 & E2 & F2). exists (t1 ++ t2). rewrite E2, E1, app_assoc. split; [done|by apply Forall_app].
Qed.

Lemma steps_call attempt c : is_setup c -> steps sets_up (syscall_checked attempt c : M (Proc K) _).
Proof.
  intros Hc p. unfold syscall_checked, on_os, zoom, checked, mbind, sys, mlift. destruct (kcall _ _) as [r k].
  destruct (SystemCall _ _ _); simpl; (eexists; split; [done|]); by repeat constructor.
Qed.

Lemma steps_deref d : steps sets_up (deref d : M (Proc K) _).
Proof. intros p. unfold deref. by destruct (heap p !! d). Qed.

Lemma steps_update d f : steps sets_up (update d f : M (Proc K) unit).
Proof. intros p. exists []. simpl. rewrite app_nil_r. split; [done|constructor]. Qed.

Lemma steps_destruct d : steps sets_up (destruct_fd d : M (Proc K) unit).
Proof.
  intros p. destruct (destruct_fd_closes d p) as (tr & E & Hc). exists tr. split; [done|].
  eapply Forall_impl; [exact Hc|]. intros [c r] [n Hn]. simpl in *. by subst c.
Qed.
End facts.

Create HintDb setup.
#[export] Hint Resolve steps_ret steps_throw steps_gets steps_lift steps_call steps_deref steps_update steps_destruct : setup.
#[export] Hint Extern 1 (is_setup _) => exact I : setup.

(** Through the definitions, one statement after the other. *)
Ltac setup_steps :=
  repeat first
    [ progress intros
    | apply steps_bind; [apply _| |]
    | apply steps_catch; [apply _| |]
    | solve [eauto 3 with setup typeclass_instances]
    | match goal with
      | |- steps _ (if ?b then _ else _) => destruct b
      | |- steps _ (match ?x with _ => _ end) => destruct x
      end ].

Section program.
Context {RS : Resolver} {K : Type} `{PosixKernel K}.
Implicit Types (p : Proc K).

Lemma steps_alloc (f : Proc K -> list cell) : steps sets_up (mmodify (fun p : Proc K => mkProc (os p) (f p))).
Proof. intros p. exists []. simpl. rewrite app_nil_r. split; [done|constructor]. Qed.
#[local] Hint Resolve steps_alloc : setup.

Lemma make_socket_sets_up server_mode argv : steps sets_up (make_socket server_mode argv : M (Proc K) _).
Proof.
  unfold make_socket, scoped, argument_address, open_tcp, open_socket, construct_fd, set_reuseaddr, setsockopt, socket_bind,
    socket_connect, listen, accept, tcp_of_fd, socket_of_fd, verify_option, register_read, fd_num.
  destruct server_mode; setup_steps.
Qed.

(** The heap is as it was. *)
Definition same_heap p p' : Prop := heap p' = heap p.

#[local] Instance same_heap_refl : Reflexive same_heap.
Proof. done. Qed.

#[local] Instance same_heap_trans : Transitive same_heap.
Proof. intros p1 p2 p3 E1 E2. by transitivity (heap p2). Qed.

Lemma call_heap attempt c : steps same_heap (syscall_checked attempt c : M (Proc K) _).
Proof.
  intros p. unfold syscall_checked, on_os, zoom, checked, mbind, sys, mlift. destruct (kcall _ _) as [r k]. by destruct (SystemCall _ _ _).
Qed.

Lemma deref_heap d : steps same_heap (deref d : M (Proc K) _).
Proof. intros p. unfold deref. by destruct (heap p !! d). Qed.
#[local] Hint Resolve call_heap deref_heap : setup.

Lemma connect_heap d a : steps same_heap (socket_connect d a : M (Proc K) unit).
Proof. unfold socket_connect, fd_num. setup_steps. Qed.

Lemma prepare_heap d argv : steps same_heap (do* set_reuseaddr d;
       let* address := argument_address argv 2 3 in
       do* socket_bind d address;
       listen d BACKLOG : M (Proc K) unit).
Proof. unfold set_reuseaddr, setsockopt, argument_address, socket_bind, listen, fd_num. setup_steps. Qed.

Lemma verify_heap d o e w : steps same_heap (verify_option d o e w : M (Proc K) unit).
Proof. unfold verify_option, fd_num. setup_steps. Qed.

(** A descriptor that the caller alone holds. *)
Definition fresh (d : FileDescriptor) p : Prop := exists c, heap p !! d = Some c /\ (0 < uses c)%nat.

Lemma open_tcp_fresh p :
  outcome (fun d p' => d = length (heap p) /\ exists n, heap p' = heap p ++ [mkCell (mkFDWrapper n false false 0 0) 1]) (fun _ _ => True) (open_tcp p).
Proof.
  unfold open_tcp, open_socket. apply outcome_bind. set (call := sys_socket _ _ _).
  destruct (syscall_checked_spec "socket" call p) as (r & k & _ & _ & E); [done|done|]. rewrite E.
  destruct (Z.ltb_spec (ret r) 0); [done|]. cbn [outcome]. unfold construct_fd, mbind, construct_wrapper, mlift.
  rewrite (proj2 (Z.ltb_ge (ret r) 0)) by done. cbn. eauto.
Qed.

Lemma accept_fresh d p : is_Some (heap p !! d) ->
  outcome (fun d' p' => d' <> d /\ fresh d' p') (fun _ _ => True) (accept d p).
Proof.
  intros [c Hc]. unfold accept. apply outcome_bind. cbn. apply outcome_bind. set (p1 := mkProc _ _).
  assert (Hc1 : heap p1 !! d = Some (map_wrapper count_read c)) by (unfold p1; cbn; by rewrite list_lookup_alter_eq, Hc).
  rewrite (fd_num_ok _ _ _ Hc1). cbn [outcome]. apply outcome_bind.
  match goal with |- context [syscall_checked "accept" ?call p1] =>
    destruct (syscall_checked_spec "accept" call p1) as (r & k & _ & _ & E); [done|done|] end. rewrite E.
  destruct (Z.ltb_spec (ret r) 0); [done|]. cbn [outcome]. apply outcome_bind.
  unfold construct_fd, mbind, construct_wrapper, mlift. rewrite (proj2 (Z.ltb_ge (ret r) 0)) by done. cbn [outcome mgets mmodify mret].
  unfold tcp_of_fd, socket_of_fd, mcatch. set (d' := length _). set (p2 := mkProc _ _).
  assert (Hf : fresh d' p2) by (eexists; unfold p2, d'; cbn; rewrite list_lookup_middle by done; split; [done|simpl; lia]).
  assert (Hne : d' <> d) by (apply lookup_lt_Some in Hc1; unfold d'; cbn in *; lia).
  match goal with |- context [mbind ?m ?k p2] => assert (Hv : steps same_heap (mbind m k)) end.
  { apply steps_bind; [apply _|apply verify_heap|]. intros _. apply steps_bind; [apply _|apply verify_heap|]. intros _. by apply steps_ret. }
  specialize (Hv p2). destruct (mbind _ _ p2) as [[v|e] p3] eqn:Ev.
  - cbn [outcome]. assert (v = d') as ->.
    { unfold mbind in Ev. destruct (verify_option _ _ _ _ p2) as [[[]|] ?]; [|done]. destruct (verify_option _ _ _ _ _) as [[[]|] ?]; [|done].
      unfold mret in Ev. by injection Ev. }
    split; [done|]. destruct Hf as (c' & Hc' & Hu). exists c'. unfold same_heap in Hv. cbn [snd] in Hv. by rewrite Hv.
  - unfold mbind. by destruct (destruct_fd d' p3) as [[[]|] p4].
Qed.

(** Destroying a descriptor leaves the others. *)
Definition others_same (d : FileDescriptor) p p' : Prop := forall d', d' <> d -> heap p' !! d' = heap p !! d'.

#[local] Instance others_refl d : Reflexive (others_same d).
Proof. by intros p d' _. Qed.

#[local] Instance others_trans d : Transitive (others_same d).
Proof. intros p1 p2 p3 E1 E2 d' Hd. by rewrite E2, E1. Qed.

Lemma destruct_others d : steps (others_same d) (destruct_fd d : M (Proc K) unit).
Proof.
  assert (Hu : forall f, steps (others_same d) (update d f : M (Proc K) unit)).
  { intros f p d' Hd. cbn. by rewrite list_lookup_alter_ne. }
  assert (Hd : steps (others_same d) (deref d : M (Proc K) _)).
  { intros p d' _. by rewrite (deref_heap d p). }
  assert (Hc : forall a c, steps (others_same d) (syscall_checked a c : M (Proc K) _)).
  { intros a c p d' _. by rewrite (call_heap a c p). }
  unfold destruct_fd, destruct_wrapper, wrapper_close. setup_steps.
Qed.

Lemma make_socket_fresh server_mode argv p : outcome (fun d p' => fresh d p') (fun _ _ => True) (make_socket server_mode argv p).
Proof.
  unfold make_socket. destruct server_mode; apply outcome_bind; (eapply outcome_weaken; [exact (open_tcp_fresh p)|]);
    intros d p1 (-> & n & Hh); set (d := length (heap p)) in *.
  - assert (Hd : is_Some (heap p1 !! d)) by (rewrite Hh; unfold d; by rewrite list_lookup_middle).
    unfold scoped. apply outcome_bind.
    match goal with |- context [mcatch ?m ?h p1] => assert (Hm : outcome (fun d' p' => d' <> d /\ fresh d' p') (fun _ _ => True) (m p1)) end.
    { pose proof (prepare_heap d argv p1) as Hp. unfold mbind in Hp |- *. unfold same_heap in Hp.
      destruct (set_reuseaddr d p1) as [[[]|e] p2]; [|done]. destruct (argument_address argv 2 3 p2) as [[a|e] p3]; [|done].
      destruct (socket_bind d a p3) as [[[]|e] p4]; [|done]. destruct (listen d BACKLOG p4) as [[[]|e] p5]; [|done].
      apply accept_fresh. cbn in Hp. by rewrite Hp. }
    unfold mcatch. match goal with |- context [match ?x with (_, _) => _ end] => destruct x as [[d'|e] p2] end.
    + cbn [outcome] in Hm |- *. destruct Hm as [Hne (c & Hc & Hu)]. unfold mbind. pose proof (destruct_others d p2) as Ho.
      pose proof (destruct_fd_ok d p2). destruct (destruct_fd d p2) as [[[]|] p3]; [|done]. cbn. exists c. cbn in Ho. by rewrite Ho.
    + unfold mbind. by destruct (destruct_fd d p2) as [[[]|] p3].
  - unfold mcatch, mbind. unfold argument_address, mbind, mlift.
    destruct (argument argv 1) as [s1|e]; [|by destruct (destruct_fd d p1) as [[[]|] ?]].
    destruct (argument argv 2) as [s2|e]; [|by destruct (destruct_fd d p1) as [[[]|] ?]].
    destruct (address_of_name s1 s2) as [a|e]; [|by destruct (destruct_fd d p1) as [[[]|] ?]].
    pose proof (connect_heap d a p1) as Hc. destruct (socket_connect d a p1) as [[[]|e] p2]; [|by destruct (destruct_fd d p2) as [[[]|] ?]].
    cbn in Hc |- *. eexists. unfold same_heap in Hc. rewrite Hc, Hh. unfold d. rewrite list_lookup_middle by done. split; [done|simpl; lia].
Qed.

(** What a trace shows of copying between the standard streams and the socket [n]. *)
Definition copied_over (n : Z) (tr : list (syscall * sysret)) : Prop :=
  sent n tr `prefix_of` received STDIN_FILENO tr /\ sent STDOUT_FILENO tr `prefix_of` received n tr /\
  (Exists (fun e => fst e = sys_shutdown n SHUT_WR) tr -> sent n tr = received STDIN_FILENO tr).

Lemma copied_closes n tr tc : copied_over n tr -> Forall (fun e : syscall * sysret => exists m, fst e = sys_close m) tc ->
  copied_over n (tr ++ tc).
Proof.
  intros (P1 & P2 & P3) Hc. unfold copied_over. rewrite !received_app, !sent_app.
  destruct (closes_quiet tc Hc n) as [-> ->]. destruct (closes_quiet tc Hc STDIN_FILENO) as [-> _].
  destruct (closes_quiet tc Hc STDOUT_FILENO) as [_ ->]. rewrite !app_nil_r. split_and!; [done|done|].
  intros [Hx|Hx]%Exists_app; [by apply P3|]. apply Exists_exists in Hx as (e & He & Hx). rewrite Forall_forall in Hc.
  destruct (Hc e He) as [m Em]. congruence.
Qed.

(** The copying and the end of the socket's scope. *)
Lemma copy_scope turns d p c : heap p !! d = Some c -> (0 < uses c)%nat -> let n := _fd (wrapper c) in
  n <> STDIN_FILENO -> n <> STDOUT_FILENO ->
  exists tr, history (os (snd (scoped d (bidirectional_stream_copy turns d) p))) = history (os p) ++ tr /\ copied_over n tr.
Proof.
  intros Hc Hu n N0 N1. pose proof (stream_copy_spec turns d p c Hc Hu N0 N1) as Hs. fold n in Hs. unfold scoped, mbind, mcatch.
  destruct (bidirectional_stream_copy turns d p) as [r p1]. destruct Hs as (tr & Htr & P1 & P2 & P3 & _).
  pose proof (destruct_fd_closes d p1) as (tc & Etc & Hclose).
  exists (tr ++ tc). split; [|by apply copied_closes]. rewrite app_assoc, <- Htr, <- Etc.
  destruct r as [[]|e]; by destruct (destruct_fd d p1) as [[[]|] p2].
Qed.
End program.

(** ** Properties *)

(** The program [tcp_native].  On every kernel, for any arguments and for as long as
    it runs: it ends with 0 or 1, and with wrong arguments it ends with 1 and has made no
    system call.  Otherwise it first makes the calls that set up its socket, which
    transfer nothing, and if they fail it ends with 1 there.  If they succeed and the
    socket's number [n] is neither of the standard ones, what it then writes to the
    socket is a beginning of what it reads from its input, what it writes to its output
    is a beginning of what it reads from the socket, and the socket is shut down for
    writing only after all of the input has been written. *)
Theorem native_copies {RS : Resolver} {K : Type} `{PosixKernel K} turns argv (p : Proc K) :
  let '(r, p') := native_main turns argv p in
  (r = Ok 0 \/ r = Ok 1 \/ r = Throw OutOfFuel) /\
  match check_usage argv with
  | Throw _ => False
  | Ok (true, _) => r = Ok 1 /\ p' = p
  | Ok (false, server_mode) =>
      let '(made, p1) := make_socket server_mode argv p in
      exists tr1, history (os p1) = history (os p) ++ tr1 /\ transfers_nothing tr1 /\
      match made with
      | Throw _ => r <> Ok 0 /\ p' = p1
      | Ok d => exists c, heap p1 !! d = Some c /\ let n := _fd (wrapper c) in
          n <> STDIN_FILENO -> n <> STDOUT_FILENO ->
          exists tr2, history (os p') = history (os p1) ++ tr2 /\ copied_over n tr2
      end
  end.
Proof.
  unfold native_main, mcatch. unfold mbind at 1, mlift. pose proof (check_usage_ok argv) as (wrong & server_mode & Eu). rewrite Eu.
  destruct wrong; [by cbn; auto|].
  unfold mbind at 1. pose proof (make_socket_sets_up server_mode argv p) as (tr1 & Htr1 & Hq1).
  pose proof (make_socket_fresh server_mode argv p) as Hf. destruct (make_socket server_mode argv p) as [[d|e] p1]; cbn [snd outcome] in *.
  2:{ destruct e; (split; [by auto|]); by exists tr1. }
  destruct Hf as (c & Hc & Hu). pose proof (copy_scope turns d p1 c Hc Hu) as Hcopy. cbn zeta in Hcopy. unfold mbind.
  destruct (scoped d _ p1) as [[[]|e] p2]; cbn [snd] in Hcopy; [|destruct e]; (split; [by auto|]); exists tr1; (split_and!; [done|done|]); by exists c.
Qed.

(** The kernel of [Pipes], where a new socket has the number 3. *)
Module Client.
Record t : Type := mkClient { pipes : Pipes.PipeKernel }.

#[global] Instance client_kernel : Kernel t := fun k c =>
  match c with
  | sys_socket _ _ _ => (done_with 3, k)
  | _ => let '(r, p) := kcall (pipes k) c in (r, mkClient p)
  end.

#[global] Instance client_posix : PosixKernel t.
Proof.
  intros k c. assert (Hp := kernel_posix (pipes k) c). unfold kcall at 1, client_kernel.
  destruct c; try (destruct (kcall (pipes k) _) as [r p]; exact Hp). by split_and!.
Qed.

Definition proc : Proc t := mkProc (mkSys (mkClient (Pipes.mkPipes [x61; x62; x63] [x78; x79; x7a; x31; x32])) []) [].

Definition argv : list string := ["tcp_native"; "16909060"; "80"]%string.

Definition run : result Z * Proc t := native_main (RS := decimal_resolver) 10 argv proc.
End Client.

Lemma native_copies_witness :
  fst Client.run = Ok 0 /\ sent 3 (history (os (snd Client.run))) = [x61; x62; x63] /\
  exists tr1 tr2, history (os (snd Client.run)) = tr1 ++ tr2 /\ transfers_nothing tr1 /\ copied_over 3 tr2.
Proof.
  split; [vm_compute; reflexivity|]. split; [vm_compute; reflexivity|].
  pose proof (native_copies (RS := decimal_resolver) 10 Client.argv Client.proc) as Ht. fold Client.run in Ht.
  destruct Client.run as [r p'] eqn:Er. destruct Ht as [_ Ht].
  assert (Hu : check_usage Client.argv = Ok (false, false)) by (vm_compute; reflexivity). rewrite Hu in Ht.
  assert (Hm : exists c, fst (make_socket (RS := decimal_resolver) false Client.argv Client.proc) = Ok 0%nat /\
    heap (snd (make_socket (RS := decimal_resolver) false Client.argv Client.proc)) !! 0%nat = Some c /\ _fd (wrapper c) = 3)
    by (eexists; split_and!; vm_compute; reflexivity).
  destruct (make_socket false Client.argv Client.proc) as [made p1]. destruct Hm as (c & Em & Hc & Hn). cbn [fst snd] in Em, Hc. subst made.
  destruct Ht as (tr1 & H1 & Hq & c' & Hc' & Hcopy). assert (c' = c) as -> by congruence. rewrite Hn in Hcopy.
  destruct Hcopy as (tr2 & H2 & Hcopied); [discriminate|discriminate|]. exists tr1, tr2. cbn [snd]. rewrite H2, H1. split_and!; [reflexivity|exact Hq|exact Hcopied].
Defined.
