(* ===== verification/NetworkSimulator.v ===== *)
(** * NetworkSimulator: hosts, links and the simulated network

    Models [apps/network_simulator.cc]: a network of a router with seven interfaces and
    six hosts, the exchange of frames over its links, the datagrams the hosts send and
    expect, and the tests the program runs.  The links use of an interface what the class
    [Link] states: the frames it has queued, and what it does with a frame it receives.
    An address literal is the number of its dotted quad; the random generator is its state
    and its step; what is printed on [cerr] is left out.  The hosts are in a hash map: the order in
    which [simulate] visits them is an argument. *)

From Stdlib Require Import Strings.String Strings.Ascii.
From stdpp Require Import gmap strings.
From S2P Require Import Prelude Parser IPv4 Ethernet Adapters Address NetworkInterface Robustness Printers System.

(** ** Links *)

Class Link (I : Type) : Type := {
  frames_out : I -> list EthernetFrame;
  set_frames_out : I -> list EthernetFrame -> I;
  link_recv_frame : I -> EthernetFrame -> I
}.

(** What the network relies on: receiving a frame may queue replies, and takes nothing
    from the queue. *)
Class LinkLaws (I : Type) `{Link I} : Prop := {
  recv_appends (i : I) f : frames_out i `prefix_of` frames_out (link_recv_frame i f);
  get_set_frames (i : I) q : frames_out (set_frames_out i q) = q
}.

(** [clear]: as many are taken from the second queue as the first one has; taking one
    from an empty queue is undefined. *)
Fixpoint clear {T : Type} (queue1 queue2 : list T) : result (list T) :=
  match queue1 with
  | [] => Ok queue2
  | _ :: queue1 =>
      match queue2 with
      | [] => Throw OutOfBounds
      | _ :: queue2 => clear queue1 queue2
      end
  end.

Section links.
Context {I : Type} `{Link I}.

(** [frame.payload() = frame.payload().concatenate()] *)
Definition unified (f : EthernetFrame) : EthernetFrame :=
  mkEthernetFrame (frame_header f) [buffer_of (concatenate (frame_payload f))].

Fixpoint deliver (to_send : list EthernetFrame) (dst : I) : I :=
  match to_send with
  | [] => dst
  | frame :: to_send => deliver to_send (link_recv_frame dst (unified frame))
  end.

Definition exchange_frames (x y : I) : result (I * I) :=
  let x_frames := frames_out x in
  let y_frames := frames_out y in
  let y := deliver x_frames y in
  let x := deliver y_frames x in
  let! qx := clear x_frames (frames_out x) in
  let! qy := clear y_frames (frames_out y) in
  Ok (set_frames_out x qx, set_frames_out y qy).

Definition exchange_frames3 (x y z : I) : result (I * I * I) :=
  let x_frames := frames_out x in
  let y_frames := frames_out y in
  let z_frames := frames_out z in
  let y := deliver x_frames y in
  let z := deliver x_frames z in
  let x := deliver y_frames x in
  let z := deliver y_frames z in
  let x := deliver z_frames x in
  let y := deliver z_frames y in
  let! qx := clear x_frames (frames_out x) in
  let! qy := clear y_frames (frames_out y) in
  let! qz := clear z_frames (frames_out z) in
  Ok (set_frames_out x qx, set_frames_out y qy, set_frames_out z qz).
End links.

(** ** Datagrams *)

(** [x.serialize().concatenate()] *)
Definition datagram_bytes (d : IPv4Datagram) : result bytes :=
  let! l := datagram_serialize d in Ok (concatenate l).

Definition quote : string := String "034"%char EmptyString.

(** The octets of a dotted quad. *)
Definition quad (a b c d : Z) : Z := a * 16777216 + b * 65536 + c * 256 + d.

Definition with_ttl (d : IPv4Datagram) (t : Z) : IPv4Datagram :=
  let h := dgram_header d in
  mkIPv4Datagram (mkIPv4Header (ver h) (hlen h) (tos h) (len h) (id h) (df h) (mf h) (offset h) t (proto h)
                    (cksum h) (IPv4.src h) (IPv4.dst h)) (dgram_payload d).

(** [dgram.header().ttl--] *)
Definition decrement_ttl (d : IPv4Datagram) : IPv4Datagram := with_ttl d (u8 (ttl (dgram_header d) - 1)).

Section simulator.
Context {RS : Resolver} {A : Type} `{AddressOps A}.

#[export] Instance async_link : Link (@AsyncNetworkInterface A) := {
  frames_out i := _frames_out (_interface_of i);
  set_frames_out i q := mkAsyncNetworkInterface (with_frames_out (_interface_of i) q) (_datagrams_out i);
  link_recv_frame := async_recv_frame
}.

(** ** Random numbers *)

Section random.
Context {R : Type} (rd : R -> Z * R).

(** [byte = rd()] for each of the [n] octets. *)
Fixpoint random_octets (n : nat) (r : R) : list Z * R :=
  match n with
  | O => ([], r)
  | S n => let v := rd r in let rest := random_octets n (snd v) in (u8 (fst v) :: fst rest, snd rest)
  end.

Definition random_host_ethernet_address (r : R) : EthernetAddress * R :=
  let addr := random_octets 6 r in
  (alter (fun x => Z.land (Z.lor x 2) 254) 0%nat (fst addr), snd addr).

Definition random_router_ethernet_address (r : R) : EthernetAddress * R :=
  let addr := random_octets 6 r in
  (<[2%nat := 0]> (<[1%nat := 0]> (<[0%nat := 2]> (fst addr))), snd addr).
End random.

(** ** Host *)

Record Host : Type := mkHost {
  _name : string;
  _my_address : A;
  _host_interface : @AsyncNetworkInterface A;
  _host_next_hop : A;
  _expecting_to_receive : list IPv4Datagram
}.

Definition with_interface (h : Host) (i : AsyncNetworkInterface) : Host :=
  mkHost (_name h) (_my_address h) i (_host_next_hop h) (_expecting_to_receive h).

Definition construct_host (name : string) (ethernet : EthernetAddress) (my_address next_hop : A) : Host :=
  mkHost name my_address (mkAsyncNetworkInterface (construct_interface ethernet my_address) []) next_hop [].

Fixpoint expecting (l : list IPv4Datagram) (expected : IPv4Datagram) : result bool :=
  match l with
  | [] => Ok false
  | x :: l =>
      let! a := datagram_bytes x in
      let! b := datagram_bytes expected in
      if bool_decide (a = b) then Ok true else expecting l expected
  end.

Fixpoint remove_expectation (l : list IPv4Datagram) (expected : IPv4Datagram) : result (list IPv4Datagram) :=
  match l with
  | [] => Ok []
  | x :: l =>
      let! a := datagram_bytes x in
      let! b := datagram_bytes expected in
      if bool_decide (a = b) then Ok l else
      let! l := remove_expectation l expected in
      Ok (x :: l)
  end.

(** [rand] is the number drawn for the payload. *)
Definition send_to (h : Host) (destination : A) (ttl : Z) (rand : Z) : Host * IPv4Datagram :=
  let payload := [buffer_of (text ("random payload: {" ++ to_string rand ++ "}"))] in
  let d := default_ipv4_header in
  let dgram := mkIPv4Datagram
    (mkIPv4Header (ver d) (hlen d) (tos d) (u16 (hlen d * 4 + bufferlist_size payload)) (id d) (df d) (mf d) (offset d)
       (u8 ttl) (proto d) (cksum d) (ipv4_numeric (_my_address h)) (ipv4_numeric destination)) payload in
  let i := _host_interface h in
  (with_interface h (mkAsyncNetworkInterface (send_datagram (_interface_of i) dgram (_host_next_hop h)) (_datagrams_out i)),
   dgram).

Definition expect (h : Host) (expected : IPv4Datagram) : Host :=
  mkHost (_name h) (_my_address h) (_host_interface h) (_host_next_hop h) (_expecting_to_receive h ++ [expected]).

Definition described (d : IPv4Datagram) : string :=
  (ipv4_header_summary (dgram_header d) ++ " payload=" ++ quote
   ++ string_of_list_byte (concatenate (dgram_payload d)) ++ quote)%string.

(** [summary], which [deliver] prints of every frame. *)
Definition summary (f : EthernetFrame) : result string :=
  let ret := ethernet_header_to_string (frame_header f) in
  if type (frame_header f) =? TYPE_IPv4 then
    let! payload := bufferlist_to_buffer (frame_payload f) in
    let! (res, dgram) := datagram_parse default_datagram payload in
    Ok (if bool_decide (res = NoError) then ret ++ " " ++ described dgram else ret ++ " (bad IPv4)")%string
  else if type (frame_header f) =? TYPE_ARP then
    let! payload := bufferlist_to_buffer (frame_payload f) in
    let! (res, arp) := arp_parse default_arp payload in
    Ok (if bool_decide (res = NoError) then ret ++ " " ++ arp_to_string arp else ret ++ " (bad ARP)")%string
  else Ok ret.

(** The loop of [check] over the datagrams received, and what is then still expected. *)
Fixpoint check_received (name : string) (q : list IPv4Datagram) (l : list IPv4Datagram) : result (list IPv4Datagram) :=
  match q with
  | [] => Ok l
  | dgram_received :: q =>
      let! b := expecting l dgram_received in
      if negb b then
        Throw (RuntimeError ("Host " ++ name ++ " received unexpected Internet datagram: " ++ described dgram_received))
      else
      let! l := remove_expectation l dgram_received in
      check_received name q l
  end.

Definition host_check (h : Host) : result Host :=
  let i := _host_interface h in
  let! l := check_received (_name h) (_datagrams_out i) (_expecting_to_receive h) in
  match l with
  | expected :: _ =>
      Throw (RuntimeError ("Host " ++ _name h ++ " did NOT receive an expected Internet datagram: " ++ described expected))
  | [] => Ok (mkHost (_name h) (_my_address h) (mkAsyncNetworkInterface (_interface_of i) []) (_host_next_hop h) [])
  end.

(** ** Network *)

Record Network : Type := mkNetwork {
  _router : @Router A;
  default_id : Z;
  eth0_id : Z;
  eth1_id : Z;
  eth2_id : Z;
  uun3_id : Z;
  hs4_id : Z;
  mit5_id : Z;
  _hosts : gmap string Host
}.

Definition with_router (n : Network) (r : Router) : Network :=
  mkNetwork r (default_id n) (eth0_id n) (eth1_id n) (eth2_id n) (uun3_id n) (hs4_id n) (mit5_id n) (_hosts n).
Definition with_hosts (n : Network) (hosts : gmap string Host) : Network :=
  mkNetwork (_router n) (default_id n) (eth0_id n) (eth1_id n) (eth2_id n) (uun3_id n) (hs4_id n) (mit5_id n) hosts.

Definition host (n : Network) (name : string) : result Host :=
  match _hosts n !! name with
  | None => Throw (RuntimeError ("unknown host: " ++ name))
  | Some h =>
      if bool_decide (_name h = name) then Ok h else Throw (RuntimeError ("invalid host: " ++ name))
  end.

(** The host a reference names is changed in place. *)
Definition set_host (n : Network) (name : string) (h : Host) : Network := with_hosts n (<[name := h]> (_hosts n)).
Definition set_interface (n : Network) (k : Z) (i : AsyncNetworkInterface) : Network :=
  with_router n (mkRouter (<[Z.to_nat k := i]> (_interfaces (_router n)))).

(** A link between an interface of the router and a host. *)
Definition link (k : Z) (name : string) (n : Network) : result Network :=
  let! x := interface (_router n) k in
  let! h := host n name in
  let! (x, y) := exchange_frames x (_host_interface h) in
  Ok (set_host (set_interface n k x) name (with_interface h y)).

(** A link between an interface of the router and two hosts. *)
Definition link3 (k : Z) (name1 name2 : string) (n : Network) : result Network :=
  let! x := interface (_router n) k in
  let! h1 := host n name1 in
  let! h2 := host n name2 in
  let! (x, y, z) := exchange_frames3 x (_host_interface h1) (_host_interface h2) in
  Ok (set_host (set_host (set_interface n k x) name1 (with_interface h1 y)) name2 (with_interface h2 z)).

Definition simulate_physical_connections (n : Network) : result Network :=
  let! n := link (default_id n) "default_router" n in
  let! n := link (eth0_id n) "applesauce" n in
  let! n := link (eth2_id n) "cherrypie" n in
  let! n := link (hs4_id n) "hs_router" n in
  link3 (uun3_id n) "dm42" "dm43" n.

Fixpoint simulate_turns (turns : nat) (n : Network) : result Network :=
  match turns with
  | O => Ok n
  | S turns =>
      let! r := route (_router n) in
      let! n := simulate_physical_connections (with_router n r) in
      simulate_turns turns n
  end.

(** [for (auto &host : _hosts) host.second.check()], in the order of the hash map. *)
Fixpoint check_hosts (order : list string) (n : Network) : result Network :=
  match order with
  | [] => Ok n
  | name :: order =>
      match _hosts n !! name with
      | None => check_hosts order n
      | Some h =>
          let! h := host_check h in
          check_hosts order (set_host n name h)
      end
  end.

Definition simulate (order : list string) (n : Network) : result Network :=
  let! n := simulate_turns 256 n in
  check_hosts order n.

(** ** The program *)

Section program.
Context {R : Type} (rd : R -> Z * R).

(** [_router.add_interface({random_router_ethernet_address(), {ip}})] *)
Definition add_random_interface (ip : Z) (s : Router * R) : Z * (Router * R) :=
  let e := random_router_ethernet_address rd (snd s) in
  let i := mkAsyncNetworkInterface (construct_interface (fst e) (from_quad ip 0)) [] in
  let added := add_interface (fst s) i in
  (snd added, (fst added, snd e)).

(** [_hosts.insert({name, {name, {ip}, {next_hop}}})]; the names are distinct. *)
Definition insert_host (name : string) (ip next_hop : Z) (s : gmap string Host * R) : gmap string Host * R :=
  let e := random_host_ethernet_address rd (snd s) in
  (<[name := construct_host name (fst e) (from_quad ip 0) (from_quad next_hop 0)]> (fst s), snd e).

Definition construct_network (r : R) : result (Network * R) :=
  let '(default_id, s) := add_random_interface (quad 171 67 76 46) (mkRouter [], r) in
  let '(eth0_id, s) := add_random_interface (quad 10 0 0 1) s in
  let '(eth1_id, s) := add_random_interface (quad 172 16 0 1) s in
  let '(eth2_id, s) := add_random_interface (quad 192 168 0 1) s in
  let '(uun3_id, s) := add_random_interface (quad 198 178 229 1) s in
  let '(hs4_id, s) := add_random_interface (quad 143 195 0 2) s in
  let '(mit5_id, s) := add_random_interface (quad 128 30 76 255) s in
  let '(router, r) := s in
  let '(hosts, r) :=
    insert_host "dm43" (quad 198 178 229 43) (quad 198 178 229 1)
    (insert_host "dm42" (quad 198 178 229 42) (quad 198 178 229 1)
    (insert_host "hs_router" (quad 143 195 0 1) 0
    (insert_host "cherrypie" (quad 192 168 0 2) (quad 192 168 0 1)
    (insert_host "default_router" (quad 171 67 76 1) 0
    (insert_host "applesauce" (quad 10 0 0 2) (quad 10 0 0 1) (∅, r)))))) in
  let n := mkNetwork router default_id eth0_id eth1_id eth2_id uun3_id hs4_id mit5_id hosts in
  let! default_router := host n "default_router" in
  let router := add_route router (quad 0 0 0 0) 0 (Some (_my_address default_router)) default_id in
  let router := add_route router (quad 10 0 0 0) 8 None eth0_id in
  let router := add_route router (quad 172 16 0 0) 16 None eth1_id in
  let router := add_route router (quad 192 168 0 0) 24 None eth2_id in
  let router := add_route router (quad 198 178 229 0) 24 None uun3_id in
  let! hs_router := host n "hs_router" in
  let router := add_route router (quad 143 195 0 0) 17 (Some (_my_address hs_router)) hs4_id in
  let router := add_route router (quad 143 195 128 0) 18 (Some (_my_address hs_router)) hs4_id in
  let router := add_route router (quad 143 195 192 0) 19 (Some (_my_address hs_router)) hs4_id in
  let router := add_route router (quad 128 30 76 255) 16 (Some (from_quad (quad 128 30 0 1) 0)) mit5_id in
  Ok (with_router n router, r).

(** [network.host(name).send_to(destination, ttl)] *)
Definition network_send (name : string) (destination : A) (ttl : Z) (s : Network * R)
    : result (IPv4Datagram * (Network * R)) :=
  let! h := host (fst s) name in
  let v := rd (snd s) in
  let sent := send_to h destination ttl (fst v) in
  Ok (snd sent, (set_host (fst s) name (fst sent), snd v)).

Context (order : list string).

(** One test: a datagram is sent, with its time to live decremented it is expected at a
    host, and the network is simulated. *)
Definition test_datagram (from : string) (destination : A) (to : string) (s : Network * R) : result (Network * R) :=
  let! (dgram_sent, s) := network_send from destination 64 s in
  let dgram_sent := decrement_ttl dgram_sent in
  let! h := host (fst s) to in
  let! n := simulate order (set_host (fst s) to (expect h dgram_sent)) in
  Ok (n, snd s).

(** A test between two hosts. *)
Definition test_hosts (from to : string) (s : Network * R) : result (Network * R) :=
  let! h := host (fst s) to in
  test_datagram from (_my_address h) to s.

(** A datagram that must not arrive anywhere. *)
Definition test_expiry (from : string) (destination : A) (ttl : Z) (s : Network * R) : result (Network * R) :=
  let! (_, s) := network_send from destination ttl s in
  let! n := simulate order (fst s) in
  Ok (n, snd s).

Definition network_simulator (r : R) : result (Network * R) :=
  let! s := construct_network r in
  let! s := test_hosts "applesauce" "cherrypie" s in
  let! s := test_hosts "cherrypie" "applesauce" s in
  let! s := test_datagram "applesauce" (from_quad (quad 1 2 3 4) 0) "default_router" s in
  let! s := test_datagram "applesauce" (from_quad (quad 143 195 131 17) 0) "hs_router" s in
  let! s := test_datagram "cherrypie" (from_quad (quad 143 195 193 52) 0) "hs_router" s in
  let! s := test_datagram "cherrypie" (from_quad (quad 143 195 223 255) 0) "hs_router" s in
  let! s := test_datagram "cherrypie" (from_quad (quad 143 195 224 0) 0) "default_router" s in
  let! s := test_hosts "dm42" "dm43" s in
  let! s := test_expiry "applesauce" (from_quad (quad 1 2 3 4) 0) 1 s in
  test_expiry "applesauce" (from_quad (quad 1 2 3 4) 0) 0 s.

(** [main]: 0 is [EXIT_SUCCESS], 1 is [EXIT_FAILURE]. *)
Definition simulator_main (r : R) : Z :=
  match network_simulator r with
  | Ok _ => 0
  | Throw _ => 1
  end.
End program.
End simulator.

(** ** What a link does *)

Section link_facts.
Context {I : Type} `{LinkLaws I}.

Lemma deliver_app q q' (i : I) : deliver (q ++ q') i = deliver q' (deliver q i).
Proof. revert i. induction q as [|f q IH]; intros i; simpl; [done|]. apply IH. Qed.

Lemma deliver_appends q (i : I) : frames_out i `prefix_of` frames_out (deliver q i).
Proof.
  revert i. induction q as [|f q IH]; intros i; simpl; [done|]. etransitivity; [apply recv_appends|apply IH].
Qed.

Lemma clear_app {T} (q q' : list T) : clear q (q ++ q') = Ok q'.
Proof. induction q; simpl; auto. Qed.

(** [i'] is [i] after it has received [inbound], with only what it queued meanwhile. *)
Definition exchanged (i : I) (inbound : list EthernetFrame) (i' : I) : Prop :=
  exists replies, frames_out (deliver inbound i) = frames_out i ++ replies /\
    i' = set_frames_out (deliver inbound i) replies /\ frames_out i' = replies.

Lemma clear_exchanged (i : I) inbound : exists q, clear (frames_out i) (frames_out (deliver inbound i)) = Ok q /\
  exchanged i inbound (set_frames_out (deliver inbound i) q).
Proof.
  destruct (deliver_appends inbound i) as [q E]. exists q. rewrite E, clear_app. split; [done|].
  exists q. by rewrite get_set_frames.
Qed.
End link_facts.

(** Printing a frame does not stop its delivery: its payload is one buffer then. *)
Lemma summary_total {RS : Resolver} f : exists s, summary (unified f) = Ok s.
Proof.
  unfold summary, unified. cbn [frame_header frame_payload bufferlist_to_buffer rbind].
  destruct (_ =? TYPE_IPv4).
  { destruct (datagram_parse_total default_datagram (buffer_of (concatenate (frame_payload f)))) as (res & h & b & ->). cbn. eauto. }
  destruct (_ =? TYPE_ARP); [|by eauto].
  destruct (arp_parse_total default_arp (buffer_of (concatenate (frame_payload f)))) as [[res m] ->]. cbn. eauto.
Qed.

(** ** What a check establishes *)

Section check_facts.
Context {RS : Resolver} {A : Type} `{AddressOps A}.

(** The bytes of some datagrams. *)
Definition wires : list IPv4Datagram -> list bytes -> Prop := Forall2 (fun d b => datagram_bytes d = Ok b).

Lemma expecting_spec l bs d b : wires l bs -> datagram_bytes d = Ok b -> expecting l d = Ok (bool_decide (b ∈ bs)).
Proof.
  intros Hl Hd. induction Hl as [|x c l bs Hx Hl IH]; cbn [expecting]; [done|]. rewrite Hx, Hd. cbn [rbind].
  destruct (decide (c = b)) as [->|Hne].
  - rewrite !bool_decide_eq_true_2 by (done || set_solver). done.
  - rewrite bool_decide_eq_false_2, IH by done. f_equal. apply bool_decide_ext. rewrite elem_of_cons. split; [by right|by intros [->|?]].
Qed.

Lemma remove_expectation_spec l bs d b : wires l bs -> datagram_bytes d = Ok b -> b ∈ bs ->
  exists l' bs', remove_expectation l d = Ok l' /\ wires l' bs' /\ bs ≡ₚ b :: bs'.
Proof.
  intros Hl Hd. induction Hl as [|x c l bs Hx Hl IH]; intros Hb; [by apply not_elem_of_nil in Hb|]. cbn [remove_expectation].
  rewrite Hx, Hd. cbn [rbind]. case_bool_decide as Hc; [subst c; by exists l, bs|].
  destruct IH as (l' & bs' & -> & Hw & Hp); [by apply elem_of_cons in Hb as [->|?]|]. cbn [rbind].
  exists (x :: l'), (c :: bs'). split; [done|]. split; [by constructor|]. rewrite Hp. constructor.
Qed.

Lemma check_received_spec name q qs l bs : wires q qs -> wires l bs ->
  (exists l' bs', check_received name q l = Ok l' /\ wires l' bs' /\ bs ≡ₚ qs ++ bs') \/
  (exists what, check_received name q l = Throw (RuntimeError what)) /\ ~ qs ⊆+ bs.
Proof.
  intros Hq. revert l bs. induction Hq as [|d b q qs Hd Hq IH]; intros l bs Hl; cbn [check_received].
  { left. by exists l, bs. }
  rewrite (expecting_spec l bs d b) by done. cbn [rbind]. case_bool_decide as Hb; cbn [negb].
  - destruct (remove_expectation_spec l bs d b) as (l1 & bs1 & -> & Hw & Hp); [done..|]. cbn [rbind].
    destruct (IH l1 bs1 Hw) as [(l' & bs' & E & Hw' & Hp')|[Hthrow Hsub]].
    + left. exists l', bs'. split; [done|]. split; [done|]. rewrite Hp, Hp'. done.
    + right. split; [done|]. intros Hs. apply Hsub. rewrite Hp in Hs. by apply submseteq_cons_l in Hs as (k & E & Hs); simplify_eq/=; apply Permutation_cons_inv in E; rewrite E.
  - right. split; [eauto|]. intros Hs. apply Hb. eapply elem_of_submseteq; [|exact Hs]. set_solver.
Qed.
End check_facts.

(** ** A network in which nothing happens *)

Section quiet.
Context {RS : Resolver} {A : Type} `{AddressOps A}.
Abbreviation Interface := (@AsyncNetworkInterface A).
Abbreviation Net := (@Network A).

Definition quiet (i : Interface) : Prop := _frames_out (_interface_of i) = [] /\ _datagrams_out i = [].

(** No interface has a frame or a datagram, and the links have their ends. *)
Record idle (n : Net) : Prop := {
  idle_router : Forall quiet (_interfaces (_router n));
  idle_hosts name h : _hosts n !! name = Some h -> quiet (_host_interface h) /\ _name h = name;
  idle_ids : Forall (fun k => is_Some (_interfaces (_router n) !! Z.to_nat k))
               [default_id n; eth0_id n; eth2_id n; hs4_id n; uun3_id n];
  idle_names : Forall (fun name => is_Some (_hosts n !! name))
                 ["default_router"; "applesauce"; "cherrypie"; "hs_router"; "dm42"; "dm43"]%string
}.

Lemma quiet_exchange (x y : Interface) : quiet x -> quiet y -> exchange_frames x y = Ok (x, y).
Proof. destruct x as [[? ? ?] ?], y as [[? ? ?] ?]. intros [??] [??]. simpl in *. by subst. Qed.

Lemma quiet_exchange3 (x y z : Interface) : quiet x -> quiet y -> quiet z -> exchange_frames3 x y z = Ok (x, y, z).
Proof. destruct x as [[? ? ?] ?], y as [[? ? ?] ?], z as [[? ? ?] ?]. intros [??] [??] [??]. simpl in *. by subst. Qed.

Lemma idle_interface (n : Net) k : idle n -> is_Some (_interfaces (_router n) !! Z.to_nat k) ->
  exists x, interface (_router n) k = Ok x /\ quiet x /\ set_interface n k x = n.
Proof.
  intros Hi [x Hx]. exists x. unfold interface. rewrite Hx. split; [done|]. split.
  - by eapply (Forall_lookup_1 _ _ _ _ (idle_router n Hi)).
  - unfold set_interface. rewrite list_insert_id by done. by destruct n as [[l] ? ? ? ? ? ? ? ?].
Qed.

Lemma set_host_id (n : Net) name h : _hosts n !! name = Some h -> set_host n name h = n.
Proof. intros Hh. unfold set_host. rewrite insert_id by done. by destruct n. Qed.

Lemma idle_host (n : Net) name : idle n -> is_Some (_hosts n !! name) ->
  exists h, _hosts n !! name = Some h /\ host n name = Ok h /\ quiet (_host_interface h).
Proof.
  intros Hi [h Hh]. destruct (idle_hosts n Hi name h Hh) as [Hq Hn]. exists h. unfold host. rewrite Hh.
  by rewrite bool_decide_eq_true_2.
Qed.

Lemma with_interface_id (h : @Host A) : with_interface h (_host_interface h) = h.
Proof. by destruct h. Qed.

Lemma idle_link (n : Net) k name : idle n -> is_Some (_interfaces (_router n) !! Z.to_nat k) -> is_Some (_hosts n !! name) ->
  link k name n = Ok n.
Proof.
  intros Hi Hk Hn. destruct (idle_interface n k Hi Hk) as (x & Ex & Hx & Sx). destruct (idle_host n name Hi Hn) as (h & Lh & Eh & Hh).
  unfold link. rewrite Ex, Eh. cbn [rbind]. rewrite quiet_exchange by done. cbn [rbind].
  by rewrite Sx, with_interface_id, set_host_id.
Qed.

Lemma idle_link3 (n : Net) k name1 name2 : idle n -> is_Some (_interfaces (_router n) !! Z.to_nat k) ->
  is_Some (_hosts n !! name1) -> is_Some (_hosts n !! name2) -> link3 k name1 name2 n = Ok n.
Proof.
  intros Hi Hk Hn1 Hn2. destruct (idle_interface n k Hi Hk) as (x & Ex & Hx & Sx).
  destruct (idle_host n name1 Hi Hn1) as (h1 & L1 & E1 & H1). destruct (idle_host n name2 Hi Hn2) as (h2 & L2 & E2 & H2).
  unfold link3. rewrite Ex, E1, E2. cbn [rbind]. rewrite quiet_exchange3 by done. cbn [rbind].
  by rewrite Sx, !with_interface_id, (set_host_id n name1), set_host_id.
Qed.

Lemma idle_route (n : Net) : idle n -> route (_router n) = Ok (_router n).
Proof.
  intros Hi. rewrite route_spec. destruct n as [[l] ? ? ? ? ? ? ? ?]. cbn [_router] in *. do 2 f_equal.
  pose proof (idle_router _ Hi) as Hq. cbn in Hq. clear Hi. induction Hq as [|[i q] l [_ Hq] _ IH]; [done|]. cbn in *. by rewrite IH, Hq.
Qed.

(** The simulation of an idle network leaves it as it is. *)
Lemma idle_simulate turns (n : Net) : idle n -> simulate_turns turns n = Ok n.
Proof.
  intros Hi. induction turns as [|turns IH]; [done|]. cbn [simulate_turns]. rewrite idle_route by done. cbn [rbind].
  assert (with_router n (_router n) = n) as -> by by destruct n.
  pose proof (idle_ids n Hi) as Hk. pose proof (idle_names n Hi) as Hn.
  repeat match goal with H : Forall _ (_ :: _) |- _ => apply Forall_cons in H as [? H] end.
  unfold simulate_physical_connections. do 4 (rewrite idle_link by done; cbn [rbind]). by rewrite idle_link3.
Qed.

(** A host that expects nothing passes its check unchanged; one that expects something fails it. *)
Lemma quiet_check (h : @Host A) : quiet (_host_interface h) -> 
  match _expecting_to_receive h with
  | [] => host_check h = Ok h
  | d :: _ => host_check h = Throw (RuntimeError ("Host " ++ _name h ++ " did NOT receive an expected Internet datagram: " ++ described d))
  end.
Proof.
  destruct h as [nm a [[e ip fr] q] nh l]. intros [E1 E2]. cbn in *. subst. unfold host_check. cbn.
  by destruct l.
Qed.

(** In an idle network in which one host alone expects something, the checks fail there. *)
Lemma idle_checks order (n : Net) to d l h : idle n -> _hosts n !! to = Some h -> _expecting_to_receive h = d :: l ->
  (forall name h', _hosts n !! name = Some h' -> name <> to -> _expecting_to_receive h' = []) -> to ∈ order ->
  check_hosts order n =
    Throw (RuntimeError ("Host " ++ to ++ " did NOT receive an expected Internet datagram: " ++ described d)).
Proof.
  intros Hi Hh Hd Hothers. induction order as [|name order IH]; intros Ho; [by apply not_elem_of_nil in Ho|].
  apply elem_of_cons in Ho. cbn [check_hosts].
  destruct (decide (name = to)) as [->|Hne].
  - rewrite Hh. destruct (idle_hosts n Hi to h Hh) as [Hq Hn]. pose proof (quiet_check h Hq) as Hc.
    rewrite Hd in Hc. by rewrite Hc, Hn.
  - destruct (_hosts n !! name) as [h'|] eqn:Eh; [|apply IH; by destruct Ho as [->|?]].
    destruct (idle_hosts n Hi name h' Eh) as [Hq _]. pose proof (quiet_check h' Hq) as Hc.
    rewrite (Hothers name h' Eh Hne) in Hc. rewrite Hc. cbn [rbind]. rewrite set_host_id by done. apply IH. by destruct Ho as [->|?].
Qed.

(** The network as it is constructed. *)
Lemma construct_idle {R} (rd : R -> Z * R) r : exists n r', construct_network rd r = Ok (n, r') /\ idle n /\
  (forall name h, _hosts n !! name = Some h -> _expecting_to_receive h = []).
Proof.
  eexists _, _. split; [reflexivity|]. split.
  - split.
    + cbn. repeat constructor.
    + intros name h. cbn [_hosts with_router fst snd insert_host].
      repeat (intros [[<- <-]|[_ Hl]]%lookup_insert_Some; [done|revert Hl]). by rewrite lookup_empty.
    + cbn. repeat constructor; by eexists.
    + cbn [_hosts with_router fst snd insert_host].
      repeat first [apply Forall_nil_2 | apply Forall_cons_2];
        repeat first [by rewrite lookup_insert_eq | rewrite lookup_insert_ne by done].
  - intros name h. cbn [_hosts with_router fst snd insert_host].
    repeat (intros [[<- <-]|[_ Hl]]%lookup_insert_Some; [done|revert Hl]). by rewrite lookup_empty.
Qed.
(** A datagram that is expected does not arrive. *)
Lemma test_first {R} (rd : R -> Z * R) order (n : Net) r : idle n ->
  (forall name h, _hosts n !! name = Some h -> _expecting_to_receive h = []) -> "cherrypie"%string ∈ order ->
  exists d, test_hosts rd order "applesauce" "cherrypie" (n, r) =
    Throw (RuntimeError ("Host cherrypie did NOT receive an expected Internet datagram: " ++ described d)).
Proof.
  intros Hi Hexp Ho. pose proof (idle_names n Hi) as Hn.
  repeat match goal with H : Forall _ (_ :: _) |- _ => apply Forall_cons in H as [? H] end.
  destruct (idle_host n "applesauce" Hi) as (ha & La & Ea & Qa); [done|].
  destruct (idle_host n "cherrypie" Hi) as (hc & Lc & Ec & Qc); [done|].
  unfold test_hosts, test_datagram, network_send. cbn [fst]. rewrite Ec. cbn [rbind]. rewrite Ea. cbn [rbind].
  set (sent := send_to _ _ _ _). assert (fst sent = ha) as -> by (destruct ha as [? ? [? ?] ? ?]; done).
  cbn [fst snd]. rewrite set_host_id by done. rewrite Ec. cbn [rbind].
  set (d := decrement_ttl _). exists d. set (n' := set_host n "cherrypie" (expect hc d)).
  assert (Hc' : _hosts n' !! "cherrypie"%string = Some (expect hc d)) by apply lookup_insert_eq.
  assert (Hne : forall name, name <> "cherrypie"%string -> _hosts n' !! name = _hosts n !! name)
    by (intros name Hne; by apply lookup_insert_ne).
  assert (Hi' : idle n').
  { destruct Hi as [I1 I2 I3 I4]. split; [exact I1| |exact I3|].
    - intros name h. destruct (decide (name = "cherrypie"%string)) as [->|Hd].
      + rewrite Hc'. intros [= <-]. by destruct (I2 _ _ Lc).
      + rewrite Hne by done. apply I2.
    - eapply Forall_impl; [exact I4|]. intros name Hs. destruct (decide (name = "cherrypie"%string)) as [->|Hd]; [by rewrite Hc'|by rewrite Hne]. }
  unfold simulate. rewrite idle_simulate by done. cbn [rbind].
  rewrite (idle_checks order n' "cherrypie" d [] (expect hc d)); [reflexivity|done|exact Hc'| |..|done].
  - cbn. by rewrite (Hexp _ _ Lc).
  - intros name h' Hl Hd. rewrite Hne in Hl by done. by eapply Hexp.
Qed.
End quiet.

(** ** Properties *)

(** The links of the simulated network.  For any interfaces that answer a frame by
    queueing at most some replies: an exchange over a link of two or of three ends
    returns, every end receives each frame queued at the other ends exactly once, with
    its payload in one buffer, in order and end by end, and what is queued at an end
    afterwards is exactly what it queued in reply. *)
Theorem links_exchange_frames {I : Type} `{LinkLaws I} (x y z : I) :
  (exists x' y', exchange_frames x y = Ok (x', y') /\
     exchanged x (frames_out y) x' /\ exchanged y (frames_out x) y') /\
  (exists x' y' z', exchange_frames3 x y z = Ok (x', y', z') /\
     exchanged x (frames_out y ++ frames_out z) x' /\ exchanged y (frames_out x ++ frames_out z) y' /\
     exchanged z (frames_out x ++ frames_out y) z').
Proof.
  split.
  - destruct (clear_exchanged x (frames_out y)) as (qx & Ex & Hx). destruct (clear_exchanged y (frames_out x)) as (qy & Ey & Hy).
    unfold exchange_frames. rewrite Ex, Ey. cbn [rbind]. eauto.
  - destruct (clear_exchanged x (frames_out y ++ frames_out z)) as (qx & Ex & Hx).
    destruct (clear_exchanged y (frames_out x ++ frames_out z)) as (qy & Ey & Hy).
    destruct (clear_exchanged z (frames_out x ++ frames_out y)) as (qz & Ez & Hz).
    rewrite deliver_app in Ex, Ey, Ez. unfold exchange_frames3. rewrite Ex, Ey, Ez. cbn [rbind]. rewrite <- !deliver_app. eauto 10.
Qed.

#[export] Instance async_link_laws {A : Type} : LinkLaws (@AsyncNetworkInterface A).
Proof. split; [|done]. intros [i q] f. done. Qed.

(** Three interfaces of the repository with two, one and no frames queued. *)
Definition sample_interface (payloads : list bytes) : @AsyncNetworkInterface IPv4Address :=
  mkAsyncNetworkInterface
    (mkNetworkInterface (replicate 6 1) (from_quad 0 0) (map (fun p => mkEthernetFrame default_ethernet_header [buffer_of p]) payloads)) [].

Lemma links_exchange_frames_witness :
  exists x' y', exchange_frames (sample_interface [[x61]; [x62]]) (sample_interface [[x63]]) = Ok (x', y') /\
    frames_out x' = [] /\ frames_out y' = [].
Proof.
  destruct (links_exchange_frames (sample_interface [[x61]; [x62]]) (sample_interface [[x63]]) (sample_interface []))
    as [(x' & y' & E & (q & Eq & _ & Hx) & (q' & Eq' & _ & Hy)) _].
  exists x', y'. split; [exact E|]. rewrite Hx, Hy. cbn in Eq, Eq'. split; [by injection Eq|by injection Eq'].
Defined.

(** The check of a host is exact.  With [received] and [expected] the bytes of the
    datagrams the host has received and of those it expects, the check passes, and
    leaves both queues empty, exactly when one is a permutation of the other (equal
    datagrams counted); otherwise it throws a [runtime_error]. *)
Theorem host_check_exact {RS : Resolver} {A : Type} (h : @Host A) received expected :
  wires (_datagrams_out (_host_interface h)) received -> wires (_expecting_to_receive h) expected ->
  if decide (received ≡ₚ expected)
  then host_check h = Ok (mkHost (_name h) (_my_address h) (mkAsyncNetworkInterface (_interface_of (_host_interface h)) [])
                            (_host_next_hop h) [])
  else exists what, host_check h = Throw (RuntimeError what).
Proof.
  intros Hr He. unfold host_check.
  destruct (check_received_spec (_name h) _ _ _ _ Hr He) as [(l & bs & -> & Hw & Hp)|[[what ->] Hs]]; cbn [rbind].
  - destruct Hw as [|d b l bs Hd Hw].
    + rewrite app_nil_r in Hp. destruct (decide _) as [|Hn]; [done|]. by destruct Hn.
    + destruct (decide _) as [Hq|_]; [|eauto]. rewrite Hq in Hp. apply Permutation_length in Hp.
      rewrite length_app in Hp. simpl in Hp. lia.
  - destruct (decide _) as [Hq|_]; [|eauto]. by rewrite Hq in Hs.
Qed.

(** A host that has received the two datagrams it expects in the other order. *)
Definition sample_dgram (payload : string) : IPv4Datagram :=
  snd (send_to (construct_host "a" (replicate 6 1) (from_quad (quad 10 0 0 2) 0) (from_quad (quad 10 0 0 1) 0))
         (from_quad (quad 192 168 0 2) 0 : IPv4Address) 64 (Z.of_nat (String.length payload))).

Definition sample_host : @Host IPv4Address :=
  let h := construct_host "b" (replicate 6 1) (from_quad (quad 192 168 0 2) 0) (from_quad (quad 192 168 0 1) 0) in
  with_interface (expect (expect h (sample_dgram "x")) (sample_dgram "yz"))
    (mkAsyncNetworkInterface (_interface_of (_host_interface h)) [sample_dgram "yz"; sample_dgram "x"]).

Definition sample_wire (payload : string) : bytes :=
  match datagram_bytes (sample_dgram payload) with Ok b => b | Throw _ => [] end.

Lemma host_check_exact_witness :
  exists h', host_check (RS := decimal_resolver) sample_host = Ok h' /\ _expecting_to_receive h' = [].
Proof.
  pose proof (host_check_exact (RS := decimal_resolver) sample_host [sample_wire "yz"; sample_wire "x"] [sample_wire "x"; sample_wire "yz"]) as H.
  destruct (decide _) as [_|Hn] in H; [|destruct Hn; apply perm_swap].
  eexists. split; [apply H; repeat constructor; vm_compute; reflexivity|reflexivity].
Defined.

(** With the interfaces and the router of this repository the simulation fails.
    For every random generator and every order of the hash map that visits the host
    cherrypie: the first test, a datagram from applesauce to cherrypie, ends with the
    exception that cherrypie did not receive it, and the program exits with a failure. *)
Theorem simulation_fails {RS : Resolver} {A : Type} `{AddressOps A} {R : Type} (rd : R -> Z * R) order r :
  "cherrypie"%string ∈ order ->
  (exists d, network_simulator rd order r =
     Throw (RuntimeError ("Host cherrypie did NOT receive an expected Internet datagram: " ++ described d))) /\
  simulator_main rd order r = 1.
Proof.
  intros Ho. enough (exists d, network_simulator rd order r =
     Throw (RuntimeError ("Host cherrypie did NOT receive an expected Internet datagram: " ++ described d))) as [d E].
  { split; [eauto|]. unfold simulator_main. by rewrite E. }
  destruct (construct_idle rd r) as (n & r' & Ec & Hi & Hexp). unfold network_simulator. rewrite Ec. cbn [rbind].
  destruct (test_first rd order n r' Hi Hexp Ho) as [d ->]. by exists d.
Qed.

Lemma simulation_fails_witness :
  simulator_main (RS := decimal_resolver) (A := IPv4Address) (fun r : Z => (r, r + 1)) ["dm42"; "cherrypie"; "applesauce"]%string 7 = 1.
Proof. apply (simulation_fails (fun r : Z => (r, r + 1))). vm_compute. set_solver. Defined.
