(* ===== verification/SpongeSocket.v ===== *)
(** * SpongeSocket: a TCP connection behind a socket

    Models [libsponge/tcp_helpers/tcp_sponge_socket.hh] and [tcp_sponge_socket.cc]:
    the four rules that connect a [TCPConnection] to the datagram adapter on one
    side and to the owner's byte stream on the other, the loop of the connection's
    thread, and the calls of the owner.  The adapter (template parameter [AdaptT]) is
    the interface [DatagramAdapter]; the TUN, UDP, Ethernet and lossy adapters are
    instances.  The owner and the thread share nothing but the socket pair, the
    thread handle and the flag [_abort].  The debugging output on [cerr] is left
    out. *)

From Stdlib Require Import Strings.String.
From S2P Require Import Prelude WrappingIntegers ByteStream Parser TCPSegment TCPReceiver TCPSender TCPConnection TCPState.
From S2P Require Import IPv4 Ethernet Adapters Address NetworkInterface System FileDescriptor Socket EventLoop.

(** ** The adapter *)

(** The adapter's methods run on the process and the adapter's own state.  A segment
    to be written is passed by reference, but is not used after the call. *)
Class DatagramAdapter (K A D : Type) `{Kernel K} : Type := {
  da_fd : D -> FileDescriptor;
  da_read : M (Proc K * D) (option TCPSegment);
  da_write : TCPSegment -> M (Proc K * D) unit;
  da_tick : Z -> M (Proc K * D) unit;
  da_base : D -> FdAdapterBase A;
  da_set_base : D -> FdAdapterBase A -> D
}.
#[export] Hint Mode DatagramAdapter + - ! - : typeclass_instances.

Section adapters.
Context {K : Type} `{Kernel K} {A : Type} `{AddressOps A}.

(** Code that runs on the process, beside the adapter's state. *)
Definition beside {D B : Type} (m : M (Proc K) B) : M (Proc K * D) B := zoom fst (fun s p => (p, snd s)) m.

(** *** TCPOverIPv4OverTunFdAdapter *)

Record TunAdapter : Type := mkTunAdapter {
  _tun : FileDescriptor;
  tun_base : FdAdapterBase A
}.

Definition tun_adapter_read : M (Proc K * TunAdapter) (option TCPSegment) :=
  let* a := mgets snd in
  let* data := beside (fd_read (_tun a) NPOS) in
  let* (seg, b) := mlift (tun_read (tun_base a) data) in
  do* mmodify (fun s => (fst s, mkTunAdapter (_tun a) b));
  mret seg.

Definition tun_adapter_write (seg : TCPSegment) : M (Proc K * TunAdapter) unit :=
  let* a := mgets snd in
  let* (_, ip_dgram) := mlift (wrap_tcp_in_ip (tun_base a) seg) in
  let* l := mlift (datagram_serialize ip_dgram) in
  do* beside (fd_write (_tun a) (views_of l) true);
  mret tt.

#[export] Instance tun_datagram_adapter : DatagramAdapter K A TunAdapter := {
  da_fd := _tun;
  da_read := tun_adapter_read;
  da_write := tun_adapter_write;
  da_tick _ := mret tt;
  da_base := tun_base;
  da_set_base a b := mkTunAdapter (_tun a) b
}.

(** *** TCPOverIPv4OverEthernetAdapter *)

Record TapAdapter : Type := mkTapAdapter {
  _tap : FileDescriptor;
  tap_base : EthernetAdapter (A := A)
}.

(** Assignments to [_interface] and to the state of the base class. *)
Definition set_tap_interface (i : NetworkInterface) : M (Proc K * TapAdapter) unit :=
  mmodify (fun s => (fst s, mkTapAdapter (_tap (snd s))
    (mkEthernetAdapter (_base (tap_base (snd s))) i (_next_hop (tap_base (snd s)))))).
Definition set_tap_base (b : FdAdapterBase A) : M (Proc K * TapAdapter) unit :=
  mmodify (fun s => (fst s, mkTapAdapter (_tap (snd s))
    (mkEthernetAdapter b (_interface (tap_base (snd s))) (_next_hop (tap_base (snd s)))))).

(** [send_pending]: a frame is taken from the queue once it has been written; each turn
    takes one of those in the queue. *)
Fixpoint tap_pending_loop (fuel : nat) : M (Proc K * TapAdapter) unit :=
  let* a := mgets snd in
  let i := _interface (tap_base a) in
  match _frames_out i, fuel with
  | [], _ => mret tt
  | _ :: _, O => mthrow OutOfFuel
  | frame :: q, S fuel =>
      do* beside (fd_write (_tap a) (views_of (frame_serialize frame)) true);
      do* set_tap_interface (with_frames_out i q);
      tap_pending_loop fuel
  end.

Definition tap_send_pending : M (Proc K * TapAdapter) unit :=
  let* a := mgets snd in tap_pending_loop (length (_frames_out (_interface (tap_base a)))).

Definition tap_adapter_read : M (Proc K * TapAdapter) (option TCPSegment) :=
  let* a := mgets snd in
  let* data := beside (fd_read (_tap a) NPOS) in
  let* (res, frame) := mlift (frame_parse default_frame (buffer_of data)) in
  if negb (bool_decide (res = NoError)) then mret None else
  let '(ip_dgram, i) := recv_frame (_interface (tap_base a)) frame in
  do* set_tap_interface i;
  do* tap_send_pending;
  match ip_dgram with
  | Some d =>
      let* (seg, b) := mlift (unwrap_tcp_in_ip (_base (tap_base a)) d) in
      do* set_tap_base b;
      mret seg
  | None => mret None
  end.

Definition tap_adapter_write (seg : TCPSegment) : M (Proc K * TapAdapter) unit :=
  let* a := mgets snd in
  let* (_, dgram) := mlift (wrap_tcp_in_ip (_base (tap_base a)) seg) in
  do* set_tap_interface (send_datagram (_interface (tap_base a)) dgram (_next_hop (tap_base a)));
  tap_send_pending.

Definition tap_adapter_tick (ms_since_last_tick : Z) : M (Proc K * TapAdapter) unit :=
  let* a := mgets snd in
  do* set_tap_interface (interface_tick (_interface (tap_base a)) ms_since_last_tick);
  tap_send_pending.

#[export] Instance tap_datagram_adapter : DatagramAdapter K A TapAdapter := {
  da_fd := _tap;
  da_read := tap_adapter_read;
  da_write := tap_adapter_write;
  da_tick := tap_adapter_tick;
  da_base a := _base (tap_base a);
  da_set_base a b := mkTapAdapter (_tap a) (mkEthernetAdapter b (_interface (tap_base a)) (_next_hop (tap_base a)))
}.
End adapters.
Arguments TunAdapter : clear implicits.
Arguments TapAdapter : clear implicits.

(** *** TCPOverUDPSocketAdapter

    [of_address] and [sock_address] relate the addresses of the adapter's
    configuration to the socket's. *)
Section udp.
Context {K : Type} `{Kernel K} {A : Type} `{AddressOps A}.
Context (of_address : Address -> A) (sock_address : A -> Address).

Record UdpAdapter : Type := mkUdpAdapter {
  _sock : FileDescriptor;
  udp_base : FdAdapterBase A
}.

Definition DEFAULT_MTU : Z := 65536.

Definition udp_adapter_read : M (Proc K * UdpAdapter) (option TCPSegment) :=
  let* a := mgets snd in
  let* datagram := beside (recv (_sock a) DEFAULT_MTU) in
  let* (seg, b) := mlift (udp_read (udp_base a) (of_address (source_address datagram)) (payload datagram)) in
  do* mmodify (fun s => (fst s, mkUdpAdapter (_sock a) b));
  mret seg.

Definition udp_adapter_write (seg : TCPSegment) : M (Proc K * UdpAdapter) unit :=
  let* a := mgets snd in
  let c := Adapters.config (udp_base a) in
  let seg := mkTCPSegment (with_ports (_header seg) (port (source c)) (port (destination c))) (_payload seg) in
  let* l := mlift (segment_serialize seg 0) in
  beside (sendto (_sock a) (sock_address (destination c)) (views_of l)).

Definition udp_datagram_adapter : DatagramAdapter K A UdpAdapter := {|
  da_fd := _sock;
  da_read := udp_adapter_read;
  da_write := udp_adapter_write;
  da_tick _ := mret tt;
  da_base := udp_base;
  da_set_base a b := mkUdpAdapter (_sock a) b
|}.
End udp.

(** *** LossyFdAdapter *)

Section lossy_adapter.
Context {K A D R : Type} `{DatagramAdapter K A D} (rng : R -> Z * R).

Definition on_inner {B : Type} (m : M (Proc K * D) B) : M (Proc K * LossyFdAdapter R D) B :=
  zoom (fun s => (fst s, _adapter (snd s))) (fun s t => (fst t, mkLossy (_rand (snd s)) (snd t))) m.

(** [_should_drop]: no number is drawn when the rate is 0. *)
Definition lossy_should_drop (uplink : bool) : M (Proc K * LossyFdAdapter R D) bool := fun s =>
  let cfg := config (da_base (_adapter (snd s))) in
  let loss := if uplink then loss_rate_up cfg else loss_rate_dn cfg in
  if loss =? 0 then (Ok false, s)
  else let '(x, r) := rng (_rand (snd s)) in (Ok (u16 x <? loss), (fst s, mkLossy r (_adapter (snd s)))).

Definition lossy_adapter_read : M (Proc K * LossyFdAdapter R D) (option TCPSegment) :=
  let* ret := on_inner da_read in
  let* drop := lossy_should_drop false in
  mret (if (drop : bool) then None else ret).

Definition lossy_adapter_write (seg : TCPSegment) : M (Proc K * LossyFdAdapter R D) unit :=
  let* drop := lossy_should_drop true in
  if (drop : bool) then mret tt else on_inner (da_write seg).

Definition lossy_datagram_adapter : DatagramAdapter K A (LossyFdAdapter R D) := {|
  da_fd l := da_fd (_adapter l);
  da_read := lossy_adapter_read;
  da_write := lossy_adapter_write;
  da_tick ms := on_inner (da_tick ms);
  da_base l := da_base (_adapter l);
  da_set_base l b := mkLossy (_rand l) (da_set_base (_adapter l) b)
|}.
End lossy_adapter.

(** ** The socket *)

Definition TCP_TICK_MS : Z := 10.
Definition MAX_PIPE_WRITE : Z := 65536.

Record TCPSpongeSocket (D : Type) : Type := mkSpongeSocket {
  _owner : FileDescriptor;             (* the LocalStreamSocket it is *)
  _thread_data : FileDescriptor;
  _datagram_adapter : D;
  _tcp : option TCPConnection;
  _tcp_thread : bool;                  (* joinable *)
  _abort : bool;
  _inbound_shutdown : bool;
  _outbound_shutdown : bool;
  _fully_acked : bool
}.
Arguments mkSpongeSocket {D}.
Arguments _owner {D}.
Arguments _thread_data {D}.
Arguments _datagram_adapter {D}.
Arguments _tcp {D}.
Arguments _tcp_thread {D}.
Arguments _abort {D}.
Arguments _inbound_shutdown {D}.
Arguments _outbound_shutdown {D}.
Arguments _fully_acked {D}.

Section socket.
Context {K A D : Type} `{DatagramAdapter K A D}.
Abbreviation Sock := (TCPSpongeSocket D).
Abbreviation W := (World K Sock).

(** Assignments to one member. *)
Definition set_adapter (s : Sock) (a : D) : Sock :=
  mkSpongeSocket (_owner s) (_thread_data s) a (_tcp s) (_tcp_thread s) (_abort s) (_inbound_shutdown s)
    (_outbound_shutdown s) (_fully_acked s).
Definition set_tcp (s : Sock) (c : option TCPConnection) : Sock :=
  mkSpongeSocket (_owner s) (_thread_data s) (_datagram_adapter s) c (_tcp_thread s) (_abort s) (_inbound_shutdown s)
    (_outbound_shutdown s) (_fully_acked s).
Definition set_thread (s : Sock) (b : bool) : Sock :=
  mkSpongeSocket (_owner s) (_thread_data s) (_datagram_adapter s) (_tcp s) b (_abort s) (_inbound_shutdown s)
    (_outbound_shutdown s) (_fully_acked s).
Definition set_abort (s : Sock) : Sock :=
  mkSpongeSocket (_owner s) (_thread_data s) (_datagram_adapter s) (_tcp s) (_tcp_thread s) true (_inbound_shutdown s)
    (_outbound_shutdown s) (_fully_acked s).
Definition set_inbound_shutdown (s : Sock) : Sock :=
  mkSpongeSocket (_owner s) (_thread_data s) (_datagram_adapter s) (_tcp s) (_tcp_thread s) (_abort s) true
    (_outbound_shutdown s) (_fully_acked s).
Definition set_outbound_shutdown (s : Sock) : Sock :=
  mkSpongeSocket (_owner s) (_thread_data s) (_datagram_adapter s) (_tcp s) (_tcp_thread s) (_abort s)
    (_inbound_shutdown s) true (_fully_acked s).
Definition set_fully_acked (s : Sock) : Sock :=
  mkSpongeSocket (_owner s) (_thread_data s) (_datagram_adapter s) (_tcp s) (_tcp_thread s) (_abort s)
    (_inbound_shutdown s) (_outbound_shutdown s) true.

Definition assign (f : Sock -> Sock) : M W unit := mmodify (fun w => (fst w, f (snd w))).

Definition on_adapter {B : Type} (m : M (Proc K * D) B) : M W B :=
  zoom (fun w => (fst w, _datagram_adapter (snd w))) (fun w t => (fst t, set_adapter (snd w) (snd t))) m.

(** [*_tcp], which is undefined for an empty optional, and [_tcp.value()], which throws:
    both are an exception here. *)
Definition tcp : M W TCPConnection := fun w =>
  match _tcp (snd w) with
  | Some c => (Ok c, w)
  | None => (Throw NullDereference, w)
  end.

Definition put_tcp (c : TCPConnection) : M W unit := assign (fun s => set_tcp s (Some c)).

(** *** The rules *)

(** The bookkeeping at the end of rule 1: everything has been acknowledged. *)
Definition note_fully_acked : M W unit :=
  let* s := mgets snd in
  let* at_eof := on_proc (fd_eof (_thread_data s)) in
  if (at_eof : bool) then
    let* c := tcp in
    if (bytes_in_flight c =? 0) && negb (_fully_acked s) then assign set_fully_acked else mret tt
  else mret tt.

(** Rule 1: from the datagram adapter into the connection. *)
Definition rule1_callback : M W unit :=
  let* seg := on_adapter da_read in
  do* match seg with
      | Some seg =>
          let* c := tcp in
          let* c := mlift (segment_received c seg) in
          put_tcp c
      | None => mret tt
      end;
  note_fully_acked.

Definition rule1_interest : M W bool := let* c := tcp in mret (active c).

(** Rule 2: from the owner's stream into the connection's outbound buffer. *)
Definition end_outbound : M W unit :=
  let* c := tcp in
  let* c := mlift (end_input_stream c) in
  do* put_tcp c;
  assign set_outbound_shutdown.

Definition rule2_callback : M W unit :=
  let* s := mgets snd in
  let* c := tcp in
  let* data := on_proc (fd_read (_thread_data s) (remaining_outbound_capacity c)) in
  let len := size data in
  let* (c, amount_written) := mlift (TCPConnection.write c data) in
  do* put_tcp c;
  if negb (amount_written =? len)
  then mthrow (RuntimeError "TCPConnection::write() accepted less than advertised length") else
  let* at_eof := on_proc (fd_eof (_thread_data s)) in
  if (at_eof : bool) then end_outbound else mret tt.

Definition rule2_interest : M W bool :=
  let* c := tcp in
  let* s := mgets snd in
  mret (active c && negb (_outbound_shutdown s) && (0 <? remaining_outbound_capacity c)).

(** Rule 3: from the connection's inbound buffer into the owner's stream.  Only what
    the kernel took is popped. *)
Definition set_inbound (c : TCPConnection) (o : ByteStream) : TCPConnection :=
  set_receiver c (with_stream_out (TCPConnection._receiver c) o).

Definition rule3_callback : M W unit :=
  let* s := mgets snd in
  let* c := tcp in
  let inbound := inbound_stream c in
  let amount_to_write := Z.min MAX_PIPE_WRITE (ByteStream.buffer_size inbound) in
  let buffer := peek_output inbound amount_to_write in
  let* bytes_written := on_proc (fd_write (_thread_data s) [buffer] false) in
  let inbound := pop_output inbound bytes_written in
  do* put_tcp (set_inbound c inbound);
  if eof inbound || ByteStream.error inbound then
    do* on_proc (shutdown (_thread_data s) SHUT_WR);
    assign set_inbound_shutdown
  else mret tt.

Definition rule3_interest : M W bool :=
  let* c := tcp in
  let* s := mgets snd in
  let inbound := inbound_stream c in
  mret (negb (buffer_empty inbound) || ((eof inbound || ByteStream.error inbound) && negb (_inbound_shutdown s))).

(** Rule 4: the connection's segments to the datagram adapter; each turn of the loop
    takes one from the queue. *)
Fixpoint send_all (fuel : nat) : M W unit :=
  let* c := tcp in
  match TCPConnection._segments_out c with
  | [] => mret tt
  | seg :: _ =>
      match fuel with
      | O => mthrow OutOfFuel
      | S fuel =>
          do* on_adapter (da_write seg);
          let* c := tcp in
          do* put_tcp (set_out c (tail (TCPConnection._segments_out c)));
          send_all fuel
      end
  end.

Definition rule4_callback : M W unit :=
  let* c := tcp in send_all (length (TCPConnection._segments_out c)).

Definition rule4_interest : M W bool :=
  let* c := tcp in mret (match TCPConnection._segments_out c with [] => false | _ :: _ => true end).

(** *** Setting up *)

Definition no_cancel : M W unit := mret tt.

Definition _initialize_TCP (cfg : TCPConfig) : M (EventLoop K Sock * W) unit :=
  let* r := on_world (on_proc (on_os (sys sys_random))) in
  do* on_world (put_tcp (construct_connection cfg (ret r)));
  let* s := mgets (fun x => snd (snd x)) in
  let* l := mgets fst in
  let* l := on_world (add_rule (da_fd (_datagram_adapter s)) In rule1_callback rule1_interest no_cancel l) in
  let* l := on_world (add_rule (_thread_data s) In rule2_callback rule2_interest end_outbound l) in
  let* l := on_world (add_rule (_thread_data s) Out rule3_callback rule3_interest no_cancel l) in
  let* l := on_world (add_rule (da_fd (_datagram_adapter s)) Out rule4_callback rule4_interest no_cancel l) in
  mmodify (fun x => (l, snd x)).

(** The constructor that takes the socket pair.  An exception destroys what was
    constructed, and the adapter, a temporary of the caller. *)
Definition construct_socket (first second : FileDescriptor) (adapter : D) : M (Proc K) Sock :=
  let* owner := mcatch (local_stream_of_fd first)
                  (fun e => do* destruct_fd second; do* destruct_fd (da_fd adapter); mthrow e) in
  let* thread_data := mcatch (local_stream_of_fd second)
                        (fun e => do* destruct_fd owner; do* destruct_fd (da_fd adapter); mthrow e) in
  mcatch
    (do* set_blocking thread_data false;
     mret (mkSpongeSocket owner thread_data adapter None false false false false false))
    (fun e => do* destruct_fd (da_fd adapter); do* destruct_fd thread_data; do* destruct_fd owner; mthrow e).

(** [socket_pair_helper] *)
Definition socket_pair_helper (type : Z) : M (Proc K) (FileDescriptor * FileDescriptor) :=
  let* (_, r) := syscall_checked "socketpair" (sys_socketpair AF_UNIX type 0) in
  let* a := construct_fd (out_value r 0) in
  let* b := mcatch (construct_fd (out_value r 1)) (fun e => do* destruct_fd a; mthrow e) in
  mret (a, b).

Definition sponge_socket (adapter : D) : M (Proc K) Sock :=
  let* (first, second) := mcatch (socket_pair_helper SOCK_STREAM)
                            (fun e => do* destruct_fd (da_fd adapter); mthrow e) in
  construct_socket first second adapter.

(** *** The loop *)

(** One turn of the loop of [_tcp_loop]: the new base time, or nothing after a
    [break]. *)
Definition tcp_turn (base_time : Z) : M (EventLoop K Sock * W) (option Z) :=
  let* res := wait_next_event TCP_TICK_MS in
  let* s := mgets (fun x => snd (snd x)) in
  match res, _abort s with
  | Exit, _ | _, true => mret None
  | _, false =>
      let* c := on_world tcp in
      if active c then
        let* next_time := on_world (on_proc (on_os timestamp_ms)) in
        let* c := on_world tcp in
        do* on_world (put_tcp (tick c (u64 (next_time - base_time))));
        do* on_world (on_adapter (da_tick (u64 (next_time - base_time))));
        mret (Some next_time)
      else mret (Some base_time)
  end.

Fixpoint tcp_loop (fuel : nat) (condition : M W bool) (base_time : Z) : M (EventLoop K Sock * W) unit :=
  let* b := on_world condition in
  if (b : bool) then
    match fuel with
    | O => mthrow OutOfFuel
    | S fuel =>
        let* next := tcp_turn base_time in
        match next with
        | None => mret tt
        | Some base_time => tcp_loop fuel condition base_time
        end
    end
  else mret tt.

Definition _tcp_loop (fuel : nat) (condition : M W bool) : M (EventLoop K Sock * W) unit :=
  let* base_time := on_world (on_proc (on_os timestamp_ms)) in
  tcp_loop fuel condition base_time.

Definition in_state (x : State) : M W bool := let* c := tcp in mret (state_eqb (state c) (official x)).

(** *** The owner's calls *)

Definition set_config (cfg : FdAdapterConfig A) : M W unit :=
  assign (fun s => set_adapter s (da_set_base (_datagram_adapter s)
                     (mkFdAdapterBase cfg (listening (da_base (_datagram_adapter s)))))).

Definition sponge_connect (fuel : nat) (c_tcp : TCPConfig) (c_ad : FdAdapterConfig A) : M (EventLoop K Sock * W) unit :=
  let* s := mgets (fun x => snd (snd x)) in
  match _tcp s with
  | Some _ => mthrow (RuntimeError "connect() with TCPConnection already initialized")
  | None =>
      do* _initialize_TCP c_tcp;
      do* on_world (set_config c_ad);
      let* c := on_world tcp in
      let* c := mlift (connect c) in
      do* on_world (put_tcp c);
      let expected_state := official SYN_SENT in
      if state_neqb (state c) expected_state
      then mthrow (RuntimeError ("After TCPConnection::connect(), state was " ++ TCPState.name (state c) ++
                                 " but expected " ++ TCPState.name expected_state)) else
      do* _tcp_loop fuel (in_state SYN_SENT);
      on_world (assign (fun s => set_thread s true))
  end.

Definition listen_and_accept (fuel : nat) (c_tcp : TCPConfig) (c_ad : FdAdapterConfig A) : M (EventLoop K Sock * W) unit :=
  let* s := mgets (fun x => snd (snd x)) in
  match _tcp s with
  | Some _ => mthrow (RuntimeError "listen_and_accept() with TCPConnection already initialized")
  | None =>
      do* _initialize_TCP c_tcp;
      do* on_world (set_config c_ad);
      do* on_world (assign (fun s => set_adapter s (da_set_base (_datagram_adapter s)
                              (set_listening (da_base (_datagram_adapter s)) true))));
      do* _tcp_loop fuel
            (let* a := in_state TCPState.LISTEN in
             let* b := in_state SYN_RCVD in
             let* c := in_state SYN_SENT in
             mret (a || b || c));
      on_world (assign (fun s => set_thread s true))
  end.

(** The thread's function.  An exception ends the program. *)
Definition _tcp_main (fuel : nat) : M (EventLoop K Sock * W) unit :=
  let* s := mgets (fun x => snd (snd x)) in
  match _tcp s with
  | None => mthrow (RuntimeError "no TCP")
  | Some _ =>
      do* _tcp_loop fuel (mret true);
      let* s := mgets (fun x => snd (snd x)) in
      do* on_world (on_proc (shutdown (_owner s) SHUT_RDWR));
      on_world (assign (fun s => set_tcp s None))
  end.

(** The owner's side of [wait_until_closed] and of the destructor: [join] waits for
    the thread, whose function is [_tcp_main]. *)
Definition wait_until_closed (thread : M W unit) : M W unit :=
  let* s := mgets snd in
  do* on_proc (shutdown (_owner s) SHUT_RDWR);
  if _tcp_thread s then do* thread; assign (fun s => set_thread s false) else mret tt.

Definition destruct_socket (thread : M W unit) : M W unit :=
  mcatch
    (let* s := mgets snd in
     if _tcp_thread s then
       do* assign set_abort;
       do* thread;
       assign (fun s => set_thread s false)
     else mret tt)
    (fun _ => mret tt).
End socket.

(** ** Sockets with a configuration of their own *)

Definition CONNECT_RT_TIMEOUT : Z := 100.
Definition CS144_ADDRESS : string := "169.254.144.9".
Definition LOCAL_TAP_IP_ADDRESS : string := "169.254.10.9".
Definition LOCAL_TAP_NEXT_HOP_ADDRESS : string := "169.254.10.1".

Section helpers.
Context {K A D : Type} `{DatagramAdapter K A D}.
Context (address_of : string -> string -> result A).     (* Address(hostname, service) *)

(** [connect(address)] of [CS144TCPSocket] ([local] is "169.254.144.9") and of
    [FullStackSocket] (the address of the TAP device). *)
Definition connect_from (local : string) (fuel : nat) (address : A)
    : M (EventLoop K (TCPSpongeSocket D) * World K (TCPSpongeSocket D)) unit :=
  let tcp_config := mkTCPConfig CONNECT_RT_TIMEOUT DEFAULT_CAPACITY DEFAULT_CAPACITY None in
  let* r := on_world (on_proc (on_os (sys sys_random))) in
  let* source := mlift (address_of local (to_string (u16 (ret r)))) in
  sponge_connect fuel tcp_config (mkFdAdapterConfig source address 0 0).
End helpers.

(** [random_private_ethernet_address] *)
Fixpoint random_octets {K : Type} `{Kernel K} (n : nat) : M (Sys K) EthernetAddress :=
  match n with
  | O => mret []
  | S n =>
      let* r := sys sys_random in
      let* rest := random_octets n in
      mret (u8 (ret r) :: rest)
  end.

Definition private_octet (first : Z) : Z := Z.land (Z.lor first 2) 254.

Definition random_private_ethernet_address {K : Type} `{Kernel K} : M (Sys K) EthernetAddress :=
  let* addr := random_octets 6 in
  mret (match addr with first :: rest => private_octet first :: rest | [] => [] end).

(** ** The constructors of the helpers *)

Section helper_sockets.
Context {K : Type} `{Kernel K} {A : Type} `{AddressOps A}.
Context (address_of : string -> string -> result A).     (* Address(hostname, service) *)

Definition default_base : FdAdapterBase A :=
  mkFdAdapterBase (mkFdAdapterConfig (from_quad 0 0) (from_quad 0 0) 0 0) false.

Definition cs144_socket : M (Proc K) (TCPSpongeSocket (TunAdapter A)) :=
  let* tun := open_tun "tun144" in
  sponge_socket (mkTunAdapter tun default_base).

(** The adapter's constructor writes a first frame to the device. *)
Definition open_ethernet_adapter (tap : FileDescriptor) (eth_address : EthernetAddress) (ip_address next_hop : A)
    : M (Proc K) (TapAdapter A) :=
  let '(b, _) := construct_ethernet_adapter eth_address ip_address next_hop in
  mcatch
    (do* fd_write tap (views_of (frame_serialize default_frame)) true;
     mret (mkTapAdapter tap b))
    (fun e => do* destruct_fd tap; mthrow e).

Definition full_stack_socket : M (Proc K) (TCPSpongeSocket (TapAdapter A)) :=
  let* tap := open_tap "tap10" in
  let* (eth_address, ip_address, next_hop) := mcatch
    (let* eth_address := on_os random_private_ethernet_address in
     let* ip_address := mlift (address_of LOCAL_TAP_IP_ADDRESS "0") in
     let* next_hop := mlift (address_of LOCAL_TAP_NEXT_HOP_ADDRESS "0") in
     mret (eth_address, ip_address, next_hop))
    (fun e => do* destruct_fd tap; mthrow e) in
  let* adapter := open_ethernet_adapter tap eth_address ip_address next_hop in
  sponge_socket adapter.

(** [CS144TCPSocket::connect] and [FullStackSocket::connect] *)
Definition cs144_connect (fuel : nat) (address : A) : M (EventLoop K (TCPSpongeSocket (TunAdapter A)) * World K (TCPSpongeSocket (TunAdapter A))) unit :=
  connect_from address_of CS144_ADDRESS fuel address.
Definition full_stack_connect (fuel : nat) (address : A) : M (EventLoop K (TCPSpongeSocket (TapAdapter A)) * World K (TCPSpongeSocket (TapAdapter A))) unit :=
  connect_from address_of LOCAL_TAP_IP_ADDRESS fuel address.
End helper_sockets.

(** ** The pending frames of an Ethernet adapter *)

Section pending.
Context {K : Type} `{PosixKernel K} {A : Type} `{AddressOps A}.

Abbreviation queue a := (_frames_out (_interface (tap_base a))).
Definition frame_bytes (f : EthernetFrame) : bytes := concatenate (frame_serialize f).

(** [send_pending] writes the frames of the queue in order, each whole, and leaves the
    queue empty; when a write fails, the frame it was writing is still the first of the
    queue. *)
Lemma tap_pending_spec fuel p (a : TapAdapter A) c : heap p !! _tap a = Some c -> (length (queue a) <= fuel)%nat ->
  Forall (fun f => size (frame_bytes f) < 9223372036854775808) (queue a) ->
  exists res p' a' written part, tap_pending_loop fuel (p, a) = (res, (p', a')) /\ queue a = written ++ queue a' /\
    sent (_fd (wrapper c)) (history (os p')) = sent (_fd (wrapper c)) (history (os p)) ++ concat (map frame_bytes written) ++ part /\
    match res with
    | Ok _ => queue a' = [] /\ part = []
    | Throw e => (exists code, e = SystemError "writev" code) /\ exists f q, queue a' = f :: q /\ part `prefix_of` frame_bytes f
    end.
Proof.
  revert p a c. induction fuel as [|fuel IH]; intros p a c Hc Hlen Hsz; cbn [tap_pending_loop]; unfold mbind at 1; cbn [mgets snd];
    destruct (queue a) as [|f q] eqn:Eq; try (by exists (Ok tt), p, a, [], []; rewrite !app_nil_r, Eq); [simpl in Hlen; lia|].
  apply Forall_cons in Hsz as [Hf Hq]. destruct (fd_write_spec (_tap a) p c (views_of (frame_serialize f)) true Hc Hf) as (res & p1 & tr & n & m & Ew & Hpost).
  change (concat (views_of (frame_serialize f))) with (frame_bytes f) in Hpost. pose proof (wp_n _ _ _ _ _ _ _ _ _ _ Hpost) as Hn.
  unfold mbind at 1, beside, zoom. cbn [fst snd]. rewrite Ew.
  assert (sent (_fd (wrapper c)) (history (os p1)) = sent (_fd (wrapper c)) (history (os p)) ++ ztake n (frame_bytes f)) as Es.
  { by rewrite (wp_history _ _ _ _ _ _ _ _ _ _ Hpost), sent_app, (wp_sent _ _ _ _ _ _ _ _ _ _ Hpost). }
  pose proof (wp_result _ _ _ _ _ _ _ _ _ _ Hpost) as Hres. destruct res as [t|e].
  2:{ exists (Throw e), p1, a, [], (ztake n (frame_bytes f)). rewrite Eq, Es. split_and!; try done; [apply Hres|]. exists f, q. split; [done|].
      exists (zdrop n (frame_bytes f)). by rewrite ztake_zdrop. }
  destruct Hres as (_ & _ & Hall & _). rewrite (Hall eq_refl), ztake_all in Es by lia. unfold mbind at 1, set_tap_interface at 1, mmodify at 1. cbn [fst snd].
  set (a1 := mkTapAdapter (_tap a) _). destruct (IH p1 a1 (map_wrapper (Nat.iter m count_write) c)) as (res & p' & a' & written & part & E & Ea & Esent & Hr).
  { rewrite (wp_heap _ _ _ _ _ _ _ _ _ _ Hpost). cbn. by rewrite list_lookup_alter_eq, Hc. } { simpl in *. lia. } { done. }
  exists res, p', a', (f :: written), part. split_and!; [exact E|by cbn in Ea |- *; rewrite Ea| |done].
  cbn [map concat]. rewrite <- app_assoc, (app_assoc (sent _ _)), <- Es. cbn in Esent.
  destruct (iter_count_write m (wrapper c)) as (E' & _). by rewrite E' in Esent.
Qed.

Lemma tap_send_pending_spec p (a : TapAdapter A) c : heap p !! _tap a = Some c ->
  Forall (fun f => size (frame_bytes f) < 9223372036854775808) (queue a) ->
  outcome (fun _ s => queue (snd s) = [] /\
      sent (_fd (wrapper c)) (history (os (fst s))) = sent (_fd (wrapper c)) (history (os p)) ++ concat (map frame_bytes (queue a)))
    (fun e _ => exists code, e = SystemError "writev" code) (tap_send_pending (p, a)).
Proof.
  intros Hc Hsz. unfold tap_send_pending, mbind. cbn [mgets snd].
  destruct (tap_pending_spec (length (queue a)) p a c Hc (le_n _) Hsz) as (res & p' & a' & written & part & -> & Eq & Es & Hres).
  destruct res; simpl; [|apply Hres]. destruct Hres as [En ->]. rewrite En, app_nil_r in Eq. rewrite app_nil_r in Es. by rewrite Eq.
Qed.
End pending.
