(* ===== verification/SocketRefinement.v ===== *)
(** * SocketRefinement: what the socket's loop does to its connection

    A turn of the loop of [TCPSpongeSocket] is a sequence of steps of a host of file
    [EndToEnd]: what the thread reads from the owner's stream is written to the
    connection, what it writes to it was read from the connection, every segment
    handed to the adapter was emitted by the connection, and every segment the
    adapter gives is received by it.  So the theorems on hosts hold for sockets: the
    bytes one application reads are those the other one wrote. *)

From Stdlib Require Import Strings.String.
From stdpp Require Import relations.
From S2P Require Import Prelude TCPState WrappingIntegers ByteStream Parser TCPSegment TCPReceiver TCPSender TCPConnection.
From S2P Require Import SegmentBounds Transmission EndToEnd Hosts IPv4 Adapters System FileDescriptor Socket EventLoop SpongeSocket.

(** ** Segments up to addressing

    The adapters fill in the ports and the checksum, which the connection does not
    look at. *)
Record same_tcp (s t : TCPSegment) : Prop := {
  st_seqno : seqno (_header s) = seqno (_header t);
  st_ackno : ackno (_header s) = ackno (_header t);
  st_ack : ack (_header s) = ack (_header t);
  st_rst : rst (_header s) = rst (_header t);
  st_syn : syn (_header s) = syn (_header t);
  st_fin : fin (_header s) = fin (_header t);
  st_win : win (_header s) = win (_header t);
  st_payload : str (_payload s) = str (_payload t)
}.

Lemma segment_received_same c s t : same_tcp s t ->
  TCPConnection.segment_received c s = TCPConnection.segment_received c t.
Proof.
  intros [E1 E2 E3 E4 E5 E6 E7 E8].
  unfold TCPConnection.segment_received, TCPReceiver.segment_received, length_in_sequence_space.
  by rewrite E1, E2, E3, E4, E5, E6, E7, E8.
Qed.

(** What a mirrored TUN adapter reads is what was written, up to addressing. *)
Lemma addressed_same `{AddressOps A} (a : FdAdapterBase A) seg seg' c :
  _header seg' = with_cksum (_header (addressed a seg)) c -> str (_payload seg') = str (_payload seg) ->
  same_tcp seg' seg.
Proof. intros Eh Ep. constructor; rewrite ?Eh; done. Qed.

(** ** What an adapter leaves alone *)

Section laws.
Context {K A D : Type} `{DatagramAdapter K A D}.

(** A method of the adapter makes system calls on its own descriptor only, and
    changes nothing of it but its flags and counts. *)
Record touches (c : cell) (s s' : Proc K * D) (f : FDWrapper -> FDWrapper) : Prop := {
  tc_fd : da_fd (snd s') = da_fd (snd s);
  tc_os : os_steps (fun call => call_fd call = Some (_fd (wrapper c))) (os (fst s)) (os (fst s'));
  tc_heap : heap (fst s') = alter (map_wrapper f) (da_fd (snd s)) (heap (fst s));
  tc_keep : _fd (f (wrapper c)) = _fd (wrapper c)
}.

Class AdapterLaws : Type := {
  adapter_throws : exn -> Prop;
  law_base : forall (a : D) b, da_fd (da_set_base a b) = da_fd a;
  law_read : forall p (a : D) c, heap p !! da_fd a = Some c ->
    outcome (fun _ s' => exists f, touches c (p, a) s' f /\ _read_count (f (wrapper c)) <> _read_count (wrapper c))
      (fun e _ => adapter_throws e) (da_read (p, a));
  law_write : forall seg p (a : D) c, neat seg -> heap p !! da_fd a = Some c ->
    outcome (fun _ s' => exists f, touches c (p, a) s' f) (fun e _ => adapter_throws e) (da_write seg (p, a));
  law_tick : forall ms p (a : D) c, heap p !! da_fd a = Some c ->
    outcome (fun _ s' => exists f, touches c (p, a) s' f) (fun e _ => adapter_throws e) (da_tick ms (p, a))
}.
End laws.
Arguments AdapterLaws K A D {_ _}.

(** ** Observing an adapter

    A [Recorded D] is an adapter [D] with the segments it has given and taken so
    far; its methods are those of [D]. *)
Record Recorded (D : Type) : Type := mkRecorded {
  inner : D;
  seen : list TCPSegment;
  emitted : list TCPSegment
}.
Arguments mkRecorded {D}.
Arguments inner {D}.
Arguments seen {D}.
Arguments emitted {D}.

Section recorded.
Context {K A D : Type} `{DatagramAdapter K A D}.

Definition on_recorded {B : Type} (m : M (Proc K * D) B) : M (Proc K * Recorded D) B :=
  zoom (fun s => (fst s, inner (snd s))) (fun s t => (fst t, mkRecorded (snd t) (seen (snd s)) (emitted (snd s)))) m.

Definition recorded_read : M (Proc K * Recorded D) (option TCPSegment) :=
  let* seg := on_recorded da_read in
  do* mmodify (fun s => (fst s, mkRecorded (inner (snd s))
                                  (seen (snd s) ++ match seg with Some x => [x] | None => [] end) (emitted (snd s))));
  mret seg.

Definition recorded_write (seg : TCPSegment) : M (Proc K * Recorded D) unit :=
  do* on_recorded (da_write seg);
  mmodify (fun s => (fst s, mkRecorded (inner (snd s)) (seen (snd s)) (emitted (snd s) ++ [seg]))).

#[export] Instance recorded_adapter : DatagramAdapter K A (Recorded D) := {
  da_fd a := da_fd (inner a);
  da_read := recorded_read;
  da_write := recorded_write;
  da_tick ms := on_recorded (da_tick ms);
  da_base a := da_base (inner a);
  da_set_base a b := mkRecorded (da_set_base (inner a) b) (seen a) (emitted a)
}.

Context `{!AdapterLaws K A D}.

Lemma recorded_read_spec p (a : Recorded D) c : heap p !! da_fd a = Some c ->
  outcome (fun seg s' => (exists f, touches c (p, a) s' f /\ _read_count (f (wrapper c)) <> _read_count (wrapper c)) /\
      seen (snd s') = seen a ++ match seg with Some x => [x] | None => [] end /\ emitted (snd s') = emitted a)
    (fun e s' => adapter_throws e /\ seen (snd s') = seen a) (recorded_read (p, a)).
Proof.
  intros Hc. pose proof (law_read p (inner a) c Hc) as Hl. unfold recorded_read, on_recorded, zoom, mbind. simpl.
  destruct (da_read (p, inner a)) as [[seg|e] [p' a']]; simpl in *; [|done].
  destruct Hl as (f & [T1 T2 T3 T4] & Hr). split; [|done]. exists f. split; [|done]. by constructor.
Qed.

Lemma recorded_write_spec seg p (a : Recorded D) c : neat seg -> heap p !! da_fd a = Some c ->
  outcome (fun _ s' => (exists f, touches c (p, a) s' f) /\ seen (snd s') = seen a /\ emitted (snd s') = emitted a ++ [seg])
    (fun e s' => adapter_throws e /\ seen (snd s') = seen a) (recorded_write seg (p, a)).
Proof.
  intros Hseg Hc. pose proof (law_write seg p (inner a) c Hseg Hc) as Hl. unfold recorded_write, on_recorded, zoom, mbind. simpl.
  destruct (da_write seg (p, inner a)) as [[[]|e] [p' a']]; simpl in *; [|done].
  destruct Hl as (f & [T1 T2 T3 T4]). split; [|done]. exists f. by constructor.
Qed.

Lemma recorded_tick_spec ms p (a : Recorded D) c : heap p !! da_fd a = Some c ->
  outcome (fun _ s' => (exists f, touches c (p, a) s' f) /\ seen (snd s') = seen a /\ emitted (snd s') = emitted a)
    (fun e s' => adapter_throws e /\ seen (snd s') = seen a) (da_tick ms (p, a)).
Proof.
  intros Hc. pose proof (law_tick ms p (inner a) c Hc) as Hl. simpl. unfold on_recorded, zoom. simpl.
  destruct (da_tick ms (p, inner a)) as [[[]|e] [p' a']]; simpl in *; [|done].
  destruct Hl as (f & [T1 T2 T3 T4]). split; [|done]. exists f. by constructor.
Qed.
End recorded.

(** ** The owner's stream

    [unread k] is what will still be read from the descriptor [fd], in all: a read
    takes the next piece of it, and returns nothing only at its end; other calls
    leave it; a hangup without data is reported only at its end. *)
Definition quiet (fd : Z) (c : syscall) : Prop :=
  match c with
  | sys_read fd' _ | sys_close fd' => fd' <> fd
  | sys_shutdown fd' how => fd' = fd -> how = SHUT_WR
  | _ => True
  end.

Class StreamKernel (K : Type) `{Kernel K} (fd : Z) : Type := {
  unread : K -> bytes;
  unread_read k count : let '(r, k') := kcall k (sys_read fd count) in
    (0 <= ret r -> out r ++ unread k' = unread k) /\ (0 < count -> ret r = 0 -> unread k = []);
  unread_other k c : quiet fd c -> unread (snd (kcall k c)) = unread k;
  unread_hangup k fds t i v : fds !! i = Some (fd, POLLIN) ->
    let '(r, k') := kcall k (sys_poll fds t) in
    out_values r !! i = Some v -> has_bits v POLLHUP = true -> has_bits v POLLIN = false -> unread k' = []
}.

(** ** The steps of a socket

    What a socket does once its connection is there: turns of the loop, and what
    [connect] and [listen_and_accept] do around their loops. *)
Section runs.
Context {K A D : Type} `{DatagramAdapter K A D}.
Abbreviation Loop := (EventLoop K (TCPSpongeSocket D)).
Abbreviation W := (World K (TCPSpongeSocket D)).

Definition connect_now : M W unit :=
  let* c := tcp in let* c := mlift (connect c) in put_tcp c.

Definition configure (f : FdAdapterBase A -> FdAdapterBase A) : M W unit :=
  assign (fun s => set_adapter s (da_set_base (_datagram_adapter s) (f (da_base (_datagram_adapter s))))).

Inductive sock_step (s : Loop * W) : Loop * W -> Prop :=
| sk_turn base_time r s' : tcp_turn base_time s = (Ok r, s') -> sock_step s s'
| sk_connect s' : on_world connect_now s = (Ok tt, s') -> sock_step s s'
| sk_config f s' : on_world (configure f) s = (Ok tt, s') -> sock_step s s'
| sk_thread b s' : on_world (assign (fun x => set_thread x b)) s = (Ok tt, s') -> sock_step s s'
| sk_clock t s' : on_world (on_proc (on_os timestamp_ms)) s = (Ok t, s') -> sock_step s s'.

Definition reads (m : M W bool) : Prop := forall w b w', m w = (Ok b, w') -> w' = w.

Lemma reads_state x : reads (in_state x).
Proof. intros w b w'. unfold in_state, tcp, mbind. destruct (_tcp (snd w)); by intros [= _ <-]. Qed.

Lemma on_world_reads m s b s' : reads m -> on_world m s = (Ok b, s') -> s' = s.
Proof.
  intros Hm. unfold on_world, zoom. destruct s as [lo w]. simpl. destruct (m w) as [[b'|e] w'] eqn:E; [|done].
  intros [= _ <-]. by rewrite (Hm w b' w' E).
Qed.

Lemma tcp_loop_runs fuel condition base_time s s' : reads condition ->
  tcp_loop fuel condition base_time s = (Ok tt, s') -> rtc sock_step s s'.
Proof.
  intros Hc. revert base_time s. induction fuel as [|fuel IH]; intros base s; cbn [tcp_loop];
    intros (b & s1 & E1 & E2)%mbind_ok_inv; apply (on_world_reads _ _ _ _ Hc) in E1 as ->; destruct b; try done;
    try (injection E2 as <-; apply rtc_refl).
  apply mbind_ok_inv in E2 as (next & s2 & E2 & E3). apply sk_turn in E2. eapply rtc_l; [exact E2|].
  destruct next as [t|]; [by eapply IH|]. injection E3 as <-. apply rtc_refl.
Qed.

Lemma loop_runs fuel condition s s' : reads condition ->
  _tcp_loop fuel condition s = (Ok tt, s') -> rtc sock_step s s'.
Proof.
  intros Hc (t & s1 & E1%sk_clock & E2)%mbind_ok_inv. eapply rtc_l; [exact E1|]. by eapply tcp_loop_runs.
Qed.

(** A [connect] that returns: the connection is made, then come steps. *)
Lemma sponge_connect_runs fuel cfg ad s s' : sponge_connect fuel cfg ad s = (Ok tt, s') ->
  exists s0, _initialize_TCP cfg s = (Ok tt, s0) /\ rtc sock_step s0 s'.
Proof.
  unfold sponge_connect. intros (x & s1 & [= <- <-] & E)%mbind_ok_inv. destruct (_tcp _); [done|].
  apply mbind_ok_inv in E as ([] & s0 & E0 & E). exists s0. split; [exact E0|].
  apply mbind_ok_inv in E as ([] & s1 & E1 & E).
  eapply rtc_l; [by apply (sk_config _ (fun b => mkFdAdapterBase ad (listening b)))|]. clear E0 E1.
  apply mbind_ok_inv in E as (c & s2 & E1 & E). apply mbind_ok_inv in E as (c' & s3 & E2 & E).
  apply mbind_ok_inv in E as ([] & s4 & E3 & E).
  apply (rtc_l _ _ s4).
  { apply sk_connect. unfold on_world, zoom, connect_now, mbind in *. destruct (tcp (snd s1)) as [[c1|] w1] eqn:Et; [|done].
    injection E1 as <- <-. unfold mlift in *. destruct (connect c1); [|done]. injection E2 as <- <-. exact E3. }
  destruct (state_neqb _ _); [done|]. apply mbind_ok_inv in E as ([] & s5 & E4 & E).
  etransitivity; [eapply loop_runs; [apply reads_state|exact E4]|]. apply rtc_once. by eapply sk_thread.
Qed.

Lemma listen_and_accept_runs fuel cfg ad s s' : listen_and_accept fuel cfg ad s = (Ok tt, s') ->
  exists s0, _initialize_TCP cfg s = (Ok tt, s0) /\ rtc sock_step s0 s'.
Proof.
  unfold listen_and_accept. intros (x & s1 & [= <- <-] & E)%mbind_ok_inv. destruct (_tcp _); [done|].
  apply mbind_ok_inv in E as ([] & s0 & E0 & E). exists s0. split; [exact E0|].
  apply mbind_ok_inv in E as ([] & s1 & E1 & E).
  eapply rtc_l; [by apply (sk_config _ (fun b => mkFdAdapterBase ad (listening b)))|].
  apply mbind_ok_inv in E as ([] & s2 & E2 & E). eapply rtc_l; [by apply (sk_config _ (fun b => set_listening b true))|].
  apply mbind_ok_inv in E as ([] & s5 & E4 & E).
  etransitivity; [eapply loop_runs; [|exact E4]|apply rtc_once; by eapply sk_thread].
  intros w b w' (a & w1 & ->%reads_state & (a' & w2 & ->%reads_state & (a2 & w3 & ->%reads_state & [= _ ->])%mbind_ok_inv)%mbind_ok_inv)%mbind_ok_inv.
  done.
Qed.

(** The thread: steps, until the loop ends; then the owner's side is shut down and
    the connection destroyed. *)
Lemma tcp_main_runs fuel s s' : _tcp_main fuel s = (Ok tt, s') ->
  exists s1, rtc sock_step s s1 /\
    (do* on_world (on_proc (shutdown (_owner (snd (snd s1))) SHUT_RDWR));
     on_world (assign (fun s => set_tcp s None))) s1 = (Ok tt, s').
Proof.
  unfold _tcp_main. intros (x & s1 & [= <- <-] & E)%mbind_ok_inv. destruct (_tcp _); [|done].
  apply mbind_ok_inv in E as ([] & s1 & E1 & E). exists s1. split; [|exact E].
  eapply loop_runs; [|exact E1]. by intros w b w' [= _ <-].
Qed.
End runs.

Section refinement.
Context {K A D : Type} `{DatagramAdapter K A D} `{!PosixKernel K} `{!AdapterLaws K A D}.

(** The descriptors of the thread: its end of the socket pair and the adapter's. *)
Context (pd ad : FileDescriptor) (pn an : Z) `{!StreamKernel K pn} (Hdiff : pd <> ad) (Hnum : pn <> an).

(** The host the socket is: it sends [Wh], its peer has emitted [peer]; [good] is
    an invariant of hosts under which no call of the connection fails. *)
Context (Wh : bytes) (peer : list TCPSegment) (h0 : host) (good : host -> Prop).
Context (good_step : forall h h', good h -> host_step Wh peer h h' -> good h').
Context (good_write : forall h data, good h -> _end (stream_in (_sender (h_conn h))) = false ->
  data = slice Wh (size (h_written h)) (size data) -> exists r, TCPConnection.write (h_conn h) data = Ok r).
Context (good_end : forall h, good h -> h_written h = Wh -> exists c, end_input_stream (h_conn h) = Ok c).
Context (good_connect : forall h, good h -> exists c, connect (h_conn h) = Ok c).
Context (good_receive : forall h seg, good h -> seg ∈ peer -> exists c, segment_received (h_conn h) seg = Ok c).

Abbreviation Sock := (TCPSpongeSocket (Recorded D)).
Abbreviation W := (World K Sock).
Implicit Types (w : W) (l : list (Rule K Sock)).

Definition rule1 : Rule K Sock := mkRule ad In rule1_callback rule1_interest no_cancel.
Definition rule2 : Rule K Sock := mkRule pd In rule2_callback rule2_interest end_outbound.
Definition rule3 : Rule K Sock := mkRule pd Out rule3_callback rule3_interest no_cancel.
Definition rule4 : Rule K Sock := mkRule ad Out rule4_callback rule4_interest no_cancel.

(** *** The invariant *)

Record raw l w : Prop := {
  rw_pd : _thread_data (snd w) = pd;
  rw_ad : da_fd (_datagram_adapter (snd w)) = ad;
  rw_tcp : exists c, _tcp (snd w) = Some c /\ neat_conn c;
  rw_pipe : cell_ok pd pn l (fst w);
  rw_dev : cell_ok ad an l (fst w)
}.

(** What has gone through the owner's stream. *)
Record pipe_ok (p : Proc K) (wr rd : bytes) : Prop := {
  po_written : received pn (history (os p)) = wr;
  po_read : sent pn (history (os p)) = rd;
  po_unread : wr ++ unread (kernel (os p)) = Wh;
  po_eof : forall c, heap p !! pd = Some c -> _closed (wrapper c) = false /\ (_eof (wrapper c) = true -> unread (kernel (os p)) = [])
}.

Record sim w (h : host) : Prop := {
  sm_tcp : _tcp (snd w) = Some (h_conn h);
  sm_pipe : pipe_ok (fst w) (h_written h) (h_read h);
  sm_wire : emitted (_datagram_adapter (snd w)) = h_wire h;
  sm_end : _outbound_shutdown (snd w) = false -> _end (stream_in (_sender (h_conn h))) = false
}.

Definition from_peer (seg : TCPSegment) : Prop := exists seg', seg' ∈ peer /\ same_tcp seg seg'.

(** As long as the adapter gives only segments of the peer. *)
Definition honest w : Prop := Forall from_peer (seen (_datagram_adapter (snd w))).

Definition simulated w : Prop := exists h, rtc (host_step Wh peer) h0 h /\ good h /\ sim w h.

Definition inv l w : Prop := raw l w /\ (honest w -> simulated w).

Definition allowed (e : exn) : Prop :=
  adapter_throws e \/ (exists attempt code, e = SystemError attempt code) \/
  e = RuntimeError "EventLoop: error on polled file descriptor".

Definition ends (e : exn) w : Prop := honest w -> allowed e.

(** *** System calls that do not concern the owner's stream *)

Lemma quiet_other c : call_fd c = Some an -> quiet pn c.
Proof. destruct c; simpl; intros [= <-]; try done; auto; congruence. Qed.

Lemma device_calls s s' : os_steps (fun c => call_fd c = Some an) s s' ->
  received pn (history s') = received pn (history s) /\ sent pn (history s') = sent pn (history s) /\
  unread (kernel s') = unread (kernel s).
Proof.
  intros Hs. split_and!;
    [apply (os_steps_stable _ (fun s => received pn (history s)) _ _) in Hs
    |apply (os_steps_stable _ (fun s => sent pn (history s)) _ _) in Hs
    |apply (os_steps_stable _ (fun s => unread (kernel s)) _ _) in Hs]; try done; clear s s' Hs; intros s c r k Hc Hk; simpl.
  - rewrite received_app, (received_other pn an [(c, r)]), app_nil_r; [done|done|by repeat constructor].
  - rewrite sent_app, (sent_other pn an [(c, r)]), app_nil_r; [done|done|by repeat constructor].
  - pose proof (unread_other (kernel s) c (quiet_other c Hc)) as Hu. by rewrite Hk in Hu.
Qed.

(** What the rules other than the second leave alone. *)
Record stays w w' : Prop := {
  sy_unread : unread (kernel (os (fst w'))) = unread (kernel (os (fst w)));
  sy_open : _outbound_shutdown (snd w') = _outbound_shutdown (snd w)
}.

Lemma stays_trans w1 w2 w3 : stays w1 w2 -> stays w2 w3 -> stays w1 w3.
Proof. intros [A1 B1] [A2 B2]. split; congruence. Qed.

Lemma raw_tcp l w c : raw l w -> neat_conn c -> raw l (fst w, set_tcp (snd w) (Some c)).
Proof. intros [R1 R2 R3 R4 R5] Hc. constructor; try done. by exists c. Qed.

(** After a method of the adapter. *)
Lemma after_adapter l w p' a' f c : raw l w -> heap (fst w) !! ad = Some c ->
  touches c (fst w, _datagram_adapter (snd w)) (p', a') f ->
  raw l (p', set_adapter (snd w) a') /\ stays w (p', set_adapter (snd w) a') /\
  (forall wr rd, pipe_ok (fst w) wr rd -> pipe_ok p' wr rd).
Proof.
  intros [Hp Ha Ht Hpc Hac] Hc [T1 T2 T3 T4]. simpl in *. destruct Hac as (ca & Hca & Hna & Hua).
  assert (ca = c) as -> by congruence. rewrite Hna in T2, T4. split_and!; [|by split; [by apply device_calls|]|].
  - destruct p' as [o hp]. simpl in *. subst hp. rewrite Ha in *. constructor; try done; simpl.
    + by apply cell_ok_alter.
    + apply cell_ok_alter; [by exists c|]. intros _ c' Hc'. congruence.
  - intros wr rd [P1 P2 P3 P4]. destruct (device_calls _ _ T2) as (E1 & E2 & E3).
    constructor; rewrite ?E1, ?E2, ?E3; try done. intros c' Hc'. rewrite T3 in Hc'.
    rewrite Ha, list_lookup_alter_ne in Hc' by done. by apply P4.
Qed.

Lemma tcp_ok w c : _tcp (snd w) = Some c -> tcp w = (Ok c, w).
Proof. intros E. unfold tcp. by rewrite E. Qed.

Lemma fd_eof_ok w d c : heap (fst w) !! d = Some c -> on_proc (fd_eof d) w = (Ok (_eof (wrapper c)), w).
Proof. intros Hc. destruct w as [p s]. unfold on_proc, zoom, fd_eof, mbind. simpl in *. by rewrite (deref_ok _ _ _ Hc). Qed.

(** Only the host's connection and its log change. *)
Lemma simulated_step w' h h' : rtc (host_step Wh peer) h0 h -> good h -> host_step Wh peer h h' -> sim w' h' ->
  simulated w'.
Proof. intros Hr Hg Hs Hsim. exists h'. split_and!; [by eapply rtc_r|by eapply good_step|done]. Qed.

Lemma note_spec l w : raw l w ->
  exists f, note_fully_acked w = (Ok tt, (fst w, f (snd w))) /\
    ((forall s, f s = s) \/ (forall s : Sock, f s = set_fully_acked s)).
Proof.
  intros [Hp Ha (c & Hc & _) (cp & Hcp & _) Hd]. unfold note_fully_acked, mbind. cbn [mgets]. rewrite Hp.
  rewrite (fd_eof_ok w pd cp Hcp). destruct (_eof (wrapper cp)).
  - rewrite (tcp_ok w c Hc). destruct (_ && _); unfold assign, mmodify, mret.
    + exists set_fully_acked. auto.
    + exists (fun s => s). destruct w. auto.
  - exists (fun s => s). destruct w. unfold mret. auto.
Qed.

Lemma inv_note l w (f : Sock -> Sock) : inv l w -> (forall s, f s = s) \/ (forall s, f s = set_fully_acked s) ->
  inv l (fst w, f (snd w)).
Proof.
  intros [[R1 R2 R3 R4 R5] Hsim] Hf. assert (honest (fst w, f (snd w)) -> honest w) as Hh.
  { unfold honest. destruct Hf as [->| ->]; done. }
  split.
  - destruct Hf as [E|E]; constructor; rewrite ?E; done.
  - intros Hho. destruct (Hsim (Hh Hho)) as (h & ? & ? & [S1 S2 S3 S4]). exists h. split_and!; try done.
    destruct Hf as [E|E]; constructor; rewrite ?E; done.
Qed.

Lemma rule1_spec l w : inv l w -> outcome (fun _ w' => inv l w' /\ progressed rule1 w w' /\ stays w w') ends (rule1_callback w).
Proof.
  intros [Hraw Hsim]. pose proof (rw_dev _ _ Hraw) as (c & Hc & Hn & Hu). pose proof (rw_ad _ _ Hraw) as Had.
  unfold rule1_callback. apply outcome_bind. unfold on_adapter, zoom. cbn [da_read recorded_adapter].
  assert (heap (fst w) !! da_fd (_datagram_adapter (snd w)) = Some c) as Hc' by by rewrite Had.
  pose proof (recorded_read_spec (fst w) (_datagram_adapter (snd w)) c Hc') as Hr.
  destruct (recorded_read (fst w, _datagram_adapter (snd w))) as [[seg|e] [p' a']]; simpl in Hr |- *;
    [|by intros _; left; apply Hr].
  destruct Hr as ((f & Ht & Hcount) & Hseen & Hem). destruct (after_adapter l w p' a' f c Hraw Hc Ht) as (Hraw1 & Hstay & Hpipe).
  set (w1 := (p', set_adapter (snd w) a')) in *.
  (* the segment *)
  apply outcome_bind.
  assert (outcome (fun _ w2 => (inv l w2 /\ fst w2 = p') /\ stays w w2) ends
    (match seg with
     | Some seg => let* c := tcp in let* c := mlift (segment_received c seg) in put_tcp c
     | None => mret tt
     end w1)) as Hseg.
  { destruct (rw_tcp _ _ Hraw) as (cn & Hcn & Hneat).
    assert (honest w1 -> honest w) as Hho.
    { unfold honest. simpl. rewrite Hseen. intros [Hh _]%Forall_app. exact Hh. }
    destruct seg as [seg|].
    - unfold mbind at 1. rewrite (tcp_ok w1 cn Hcn). unfold mbind, mlift, put_tcp, assign, mmodify.
      assert (honest w1 -> from_peer seg) as Hfrom.
      { unfold honest. simpl. rewrite Hseen. intros [_ Hh]%Forall_app. by inversion Hh. }
      destruct (segment_received cn seg) as [cn'|e] eqn:Es; simpl.
      + split; [|by destruct Hstay]. split; [|done]. split; [apply (raw_tcp l w1); [done|by apply (conn_run_neat cn (CSegment seg))]|].
        intros Hh. destruct (Hsim (Hho Hh)) as (h & Hr0 & Hg & [S1 S2 S3 S4]). destruct (Hfrom Hh) as (sg & Hin & Hsame).
        assert (h_conn h = cn) as Ecn by congruence.
        eapply (simulated_step _ h); [done|done|apply (hs_receive Wh peer h sg cn' Hin)|].
        * rewrite <- (segment_received_same _ _ _ Hsame). by rewrite Ecn.
        * constructor; simpl; [done|by apply Hpipe|congruence|].
          intros Hos. rewrite <- (S4 Hos), Ecn. by eapply out_end_segment.
      + intros Hh. destruct (Hsim (Hho Hh)) as (h & Hr0 & Hg & [S1 S2 S3 S4]). destruct (Hfrom Hh) as (sg & Hin & Hsame).
        destruct (good_receive h sg Hg Hin) as [cn' Ecn]. rewrite <- (segment_received_same _ _ _ Hsame) in Ecn. congruence.
    - simpl. split; [|done]. split; [|done]. split; [done|]. intros Hh. destruct (Hsim (Hho Hh)) as (h & Hr0 & Hg & [S1 S2 S3 S4]).
      exists h. split_and!; try done. constructor; simpl; [done|by apply Hpipe|congruence|done]. }
  eapply outcome_weaken; [exact Hseg|]. intros [] w2 [[Hinv2 Hp2] Hst2].
  destruct (note_spec l w2 (proj1 Hinv2)) as (g & -> & Hg). simpl.
  split; [by apply inv_note|]. split; [|destruct Hst2; split; [done|simpl]; by destruct Hg as [->| ->]].
  right. exists c, (map_wrapper f c). unfold rule_cell. simpl. rewrite Hp2, Hc. split_and!; [done| |].
  - destruct Ht as [_ _ T3 _]. cbn [fst snd] in T3. rewrite T3, Had, list_lookup_alter_eq, Hc. done.
  - unfold counter. simpl. by apply not_eq_sym.
Qed.

Lemma end_outbound_spec l w : inv l w -> (honest w -> unread (kernel (os (fst w))) = []) ->
  outcome (fun _ w' => inv l w' /\ fst w' = fst w) ends (end_outbound w).
Proof.
  intros [Hraw Hsim] Hu. destruct (rw_tcp _ _ Hraw) as (cn & Hcn & Hneat). unfold end_outbound, mbind.
  rewrite (tcp_ok w cn Hcn). unfold mlift.
  assert (honest w -> exists h, rtc (host_step Wh peer) h0 h /\ good h /\ sim w h /\ h_conn h = cn /\ h_written h = Wh) as Hend.
  { intros Hh. destruct (Hsim Hh) as (h & Hr0 & Hg & Hs). exists h. pose proof Hs as [S1 S2 _ _].
    split_and!; try done; [congruence|]. by rewrite <- (po_unread _ _ _ S2), (Hu Hh), app_nil_r. }
  destruct (end_input_stream cn) as [cn'|e] eqn:Ee; simpl.
  - split; [|done]. split; [destruct Hraw; constructor; try done; exists cn'; split; [done|by apply (conn_run_neat cn CEndInput)]|].
    intros Hh. destruct (Hend Hh) as (h & Hr0 & Hg & [S1 S2 S3 S4] & <- & Hw).
    eapply (simulated_step _ h); [done|done|by apply (hs_end Wh peer h cn')|]. by constructor.
  - intros Hh. destruct (Hend Hh) as (h & Hr0 & Hg & [S1 S2 S3 S4] & <- & Hw).
    destruct (good_end h Hg Hw). congruence.
Qed.

(** A read from the owner's stream. *)
Lemma pipe_read p c limit r k wr rd : heap p !! pd = Some c -> _fd (wrapper c) = pn -> pipe_ok p wr rd ->
  let call := sys_read pn (Z.min BUFFER_SIZE limit) in
  kcall (kernel (os p)) call = (r, k) -> posix call r -> 0 <= ret r ->
  out r = slice Wh (size wr) (size (out r)) /\
  pipe_ok (mkProc (os (called p k call r)) (alter (map_wrapper (after_read limit (ret r))) pd (heap p))) (wr ++ out r) rd.
Proof.
  intros Hc Hn [P1 P2 P3 P4] call Hk (_ & _ & Hlen) Hr. destruct (Hlen Hr) as [Hle Hsz].
  pose proof (unread_read (kernel (os p)) (Z.min BUFFER_SIZE limit)) as Hu. fold call in Hu. rewrite Hk in Hu.
  destruct Hu as [Hu Hu0]. specialize (Hu Hr). split.
  - rewrite <- P3, <- Hu. unfold slice. by rewrite zdrop_app, ztake_app.
  - constructor; simpl.
    + rewrite received_app, P1. f_equal. unfold received, read_bytes. simpl. rewrite Z.eqb_refl, app_nil_r.
      apply ztake_all. lia.
    + rewrite sent_app, P2. by rewrite app_nil_r.
    + by rewrite <- app_assoc, Hu.
    + intros c'. rewrite list_lookup_alter_eq, Hc. simpl. intros [= <-]. simpl.
      destruct (P4 c Hc) as [Hcl Heof]. unfold after_read. destruct ((0 <? limit) && (ret r =? 0)) eqn:Ez; simpl.
      * apply andb_true_iff in Ez as [Hl%Z.ltb_lt Hz%Z.eqb_eq]. split; [done|]. intros _.
        assert (unread (kernel (os p)) = []) as E by (apply Hu0; [unfold BUFFER_SIZE; lia|done]).
        rewrite E in Hu. by apply app_nil in Hu as [_ ->].
      * split; [done|]. intros He. rewrite (Heof He) in Hu. by apply app_nil in Hu as [_ ->].
Qed.

Lemma rule2_spec l w : inv l w -> _outbound_shutdown (snd w) = false ->
  outcome (fun _ w' => inv l w' /\ progressed rule2 w w') ends (rule2_callback w).
Proof.
  intros [Hraw Hsim] Hos. destruct (rw_tcp _ _ Hraw) as (cn & Hcn & Hneat).
  pose proof (rw_pipe _ _ Hraw) as (c & Hc & Hn & Hu). pose proof (rw_pd _ _ Hraw) as Hpd.
  unfold rule2_callback. unfold mbind at 1. cbn [mgets]. rewrite Hpd. unfold mbind at 1. rewrite (tcp_ok w cn Hcn).
  set (cap := remaining_outbound_capacity cn).
  destruct (fd_read_spec pd cap (fst w) c Hc) as (r & k & Hk & Hp & Eread).
  unfold mbind at 1, on_proc at 1, zoom at 1. rewrite Eread. rewrite Hn in *.
  destruct (Z.ltb_spec (ret r) 0) as [Hneg|Hpos]; [simpl; intros _; right; left; eauto|]. cbn beta iota.
  set (p1 := mkProc _ _). unfold mbind at 1, mlift at 1.
  assert (size (out r) <= cap) as Hcap.
  { destruct Hp as (_ & _ & Hlen). destruct (Hlen Hpos) as [Hle ->]. lia. }
  destruct (TCPConnection.write cn (out r)) as [[cn' n]|e] eqn:Ew.
  2:{ intros Hh. destruct (Hsim Hh) as (h & Hr0 & Hg & [S1 S2 S3 S4]).
      destruct (pipe_read (fst w) c cap r k _ _ Hc Hn S2 Hk Hp Hpos) as [Hd _].
      destruct (good_write h (out r) Hg (S4 Hos) Hd). congruence. }
  assert (n = size (out r)) as -> by (rewrite (write_amount _ _ _ _ Ew); fold cap; lia).
  unfold mbind at 1, put_tcp at 1, assign at 1, mmodify at 1. rewrite Z.eqb_refl. cbn [negb fst snd].
  set (w2 := (p1, set_tcp (snd w) (Some cn'))).
  assert (inv l w2) as Hinv2.
  { split.
    - destruct Hraw as [R1 R2 R3 R4 R5]. constructor; try done; simpl.
      + exists cn'. split; [done|]. apply (conn_run_neat cn (CWrite (out r))); [done|]. simpl. by rewrite Ew.
      + apply cell_ok_alter; [done|]. intros _ c' Hc'. unfold after_read. destruct (_ && _); simpl; congruence.
      + by apply cell_ok_alter.
    - intros Hh. destruct (Hsim Hh) as (h & Hr0 & Hg & [S1 S2 S3 S4]).
      destruct (pipe_read (fst w) c cap r k _ _ Hc Hn S2 Hk Hp Hpos) as [Hd Hpo].
      assert (h_conn h = cn) as Ecn by congruence.
      eapply (simulated_step _ h); [done|done|apply (hs_write Wh peer h (out r) cn' (size (out r))); [auto|done|by rewrite Ecn]|].
      constructor; simpl; [done|by rewrite ztake_all|done|]. intros _. rewrite <- (S4 Hos), Ecn.
      by eapply out_end_write. }
  assert (heap p1 !! pd = Some (map_wrapper (after_read cap (ret r)) c)) as Hc1.
  { unfold p1. cbn [heap]. by rewrite list_lookup_alter_eq, Hc. }
  assert (forall w', fst w' = p1 -> progressed rule2 w w') as Hprog.
  { intros w' E. right. exists c, (map_wrapper (after_read cap (ret r)) c). unfold rule_cell. simpl. rewrite E.
    split_and!; try done. unfold counter, after_read. simpl. destruct (_ && _); simpl; apply not_eq_sym, next_count_ne. }
  unfold mbind at 1. rewrite (fd_eof_ok w2 pd _ Hc1). destruct (_eof _) eqn:Eeof.
  - eapply outcome_weaken; [apply (end_outbound_spec l)|]; [done| |].
    + intros Hh. destruct (proj2 Hinv2 Hh) as (h & _ & _ & [_ S2 _ _]). by apply (po_eof _ _ _ S2 _ Hc1).
    + intros [] w' [Hinv' E]. split; [done|]. by apply Hprog.
  - simpl. split; [done|by apply Hprog].
Qed.

Lemma writes_unread s s' : os_steps (fun c => exists iov, c = sys_writev pn iov) s s' ->
  unread (kernel s') = unread (kernel s).
Proof.
  apply (os_steps_stable _ (fun s => unread (kernel s))). intros s1 c r k [iov ->] Hk.
  pose proof (unread_other (kernel s1) (sys_writev pn iov) I) as Hu. by rewrite Hk in Hu.
Qed.

(** A write to the owner's stream takes the next piece of [data]. *)
Lemma pipe_write p data res p' tr n m wr rd : pipe_ok p wr rd ->
  write_post pd pn data false p res p' tr n m -> pipe_ok p' wr (rd ++ ztake n data).
Proof.
  intros [P1 P2 P3 P4] [W1 W2 W3 W4 W5 W6 W7 _ _]. constructor.
  - by rewrite W1, received_app, W5, app_nil_r.
  - by rewrite W1, sent_app, W4, P2.
  - rewrite <- P3. f_equal. by apply writes_unread.
  - intros c'. rewrite W7, list_lookup_alter_eq. destruct (heap p !! pd) as [c|] eqn:Ec; simpl; [|done].
    intros [= <-]. simpl. destruct (iter_count_write m (wrapper c)) as (_ & -> & -> & _). destruct (P4 c eq_refl) as [Hcl He].
    split; [done|]. intros Heof. rewrite <- (He Heof). by apply writes_unread.
Qed.

Lemma shutdown_spec l w : raw l w ->
  outcome (fun _ w' => raw l w' /\ snd w' = snd w /\ stays w w' /\ (forall wr rd, pipe_ok (fst w) wr rd -> pipe_ok (fst w') wr rd) /\
      heap (fst w') = alter (map_wrapper count_write) pd (heap (fst w)))
    (fun e _ => exists attempt code, e = SystemError attempt code) (on_proc (shutdown pd SHUT_WR) w).
Proof.
  intros [R1 R2 R3 (c & Hc & Hn & Hu) R5]. apply outcome_zoom. unfold shutdown, mbind. rewrite (fd_num_ok pd (fst w) c Hc).
  destruct (syscall_checked_spec "shutdown" (sys_shutdown (_fd (wrapper c)) SHUT_WR) (fst w)) as (r & k & Hk & _ & ->); [done|done|].
  assert (unread k = unread (kernel (os (fst w)))) as Eu.
  { rewrite Hn in Hk. pose proof (unread_other (kernel (os (fst w))) (sys_shutdown pn SHUT_WR) (fun _ => eq_refl)) as E.
    by rewrite Hk in E. }
  destruct (ret r <? 0); [simpl; eauto|]. simpl. split_and!; [|done|done| |done].
  - constructor; try done; simpl.
    + apply cell_ok_alter; [by exists c|]. intros _ c' Hc'. simpl. congruence.
    + by apply cell_ok_alter.
  - intros wr rd [P1 P2 P3 P4]. rewrite Hn in Hk |- *.
    constructor; simpl; rewrite ?Eu; try done.
    + by rewrite received_app, P1, app_nil_r.
    + by rewrite sent_app, P2, app_nil_r.
    + intros c'. rewrite list_lookup_alter_eq, Hc. simpl. intros [= <-]. destruct (P4 c Hc) as [Hcl He]. split; [done|]. intros Hx. by apply He.
Qed.

(** One or two writes to the owner's end are progress. *)
Lemma rule3_progressed w w' c k : heap (fst w) !! pd = Some c ->
  heap (fst w') = alter (map_wrapper (Nat.iter (S k) count_write)) pd (heap (fst w)) -> (k <= 1)%nat -> progressed rule3 w w'.
Proof.
  intros Hc E Hk. right. exists c, (map_wrapper (Nat.iter (S k) count_write) c). unfold rule_cell. simpl rule_fd. rewrite E.
  rewrite list_lookup_alter_eq, Hc. split_and!; [done|done|]. unfold counter. simpl.
  destruct k as [|[|]]; simpl; [|ints|lia]. apply not_eq_sym, next_count_ne.
Qed.

Lemma rule3_spec l w : inv l w -> outcome (fun _ w' => inv l w' /\ progressed rule3 w w' /\ stays w w') ends (rule3_callback w).
Proof.
  intros [Hraw Hsim]. destruct (rw_tcp _ _ Hraw) as (cn & Hcn & Hneat).
  pose proof (rw_pipe _ _ Hraw) as (c & Hc & Hn & Hu). pose proof (rw_pd _ _ Hraw) as Hpd.
  unfold rule3_callback. unfold mbind at 1. cbn [mgets]. rewrite Hpd. unfold mbind at 1. rewrite (tcp_ok w cn Hcn).
  set (inb := inbound_stream cn). set (amount := Z.min MAX_PIPE_WRITE (ByteStream.buffer_size inb)).
  set (buf := peek_output inb amount). pose proof (size_nonneg (_que inb)) as Hq.
  assert (buf = ztake amount (_que inb) /\ size buf = amount) as [Ebuf Hbuf].
  { unfold buf, peek_output, amount, ByteStream.buffer_size, MAX_PIPE_WRITE.
    rewrite Z.min_l by lia. split; [done|]. rewrite size_ztake by lia. lia. }
  destruct (fd_write_spec pd (fst w) c [buf] false Hc) as (res & p' & tr & n & m & Ew & Hpost).
  { simpl. rewrite app_nil_r, Hbuf. unfold amount, MAX_PIPE_WRITE. lia. }
  simpl concat in Hpost. rewrite app_nil_r, Hn in Hpost.
  unfold mbind at 1, on_proc at 1, zoom at 1. rewrite Ew. pose proof Hpost as [_ Hwos _ _ _ Hnr Hheap _ Hres].
  destruct res as [t|e]; [|intros _; right; left; destruct Hres as [[code ->] _]; eauto].
  destruct Hres as (-> & Hm & _ & Hm1 & _). specialize (Hm1 eq_refl). subst m. cbn beta iota.
  unfold mbind at 1, put_tcp at 1, assign at 1, mmodify at 1. cbn [fst snd].
  set (w2 := (p', set_tcp (snd w) (Some (set_inbound cn (pop_output inb n))))).
  assert (inv l w2) as Hinv2.
  { split.
    - destruct Hraw as [R1 R2 R3 R4 R5]. destruct p' as [o hp]. simpl in Hheap. subst hp. constructor; try done; simpl.
      + eexists. split; [done|]. by apply (neat_ext cn).
      + apply cell_ok_alter; [done|]. intros _ c' Hc'. simpl. congruence.
      + by apply cell_ok_alter.
    - intros Hh. destruct (Hsim Hh) as (h & Hr0 & Hg & [S1 S2 S3 S4]). assert (h_conn h = cn) as Ecn by congruence.
      eapply (simulated_step _ h); [done|done|apply (hs_read Wh peer h n)|].
      + unfold is_u64, amount, MAX_PIPE_WRITE in *. lia.
      + rewrite Ecn in *. constructor; [done| |exact S3|exact S4].
        pose proof (pipe_write _ _ _ _ _ _ _ _ _ S2 Hpost) as Hpw.
        assert (ztake n buf = peek_output inb n) as E; [|by rewrite E in Hpw].
        rewrite Ebuf, ztake_ztake. unfold peek_output. f_equal. unfold amount, ByteStream.buffer_size in *. lia. }
  assert (stays w w2) as Hst2 by (split; [by apply writes_unread|done]).
  destruct (eof _ || _).
  - apply outcome_bind. pose proof (shutdown_spec l w2 (proj1 Hinv2)) as Hsd.
    destruct (on_proc (shutdown pd SHUT_WR) w2) as [[[]|e] w3]; simpl in Hsd |- *.
    2:{ intros _. right. by left. }
    destruct Hsd as (Hraw3 & E3 & Hst3 & Hp3 & Hh3).
    assert (stays w (fst w3, set_inbound_shutdown (snd w3))) as Hst by (destruct (stays_trans _ _ _ Hst2 Hst3); by split).
    split; [|split; [|exact Hst]].
    + split; [destruct Hraw3; by constructor|]. unfold honest. cbn [snd]. rewrite E3. intros Hh.
      destruct (proj2 Hinv2 Hh) as (h & Hr0 & Hg & [S1 S2 S3 S4]). exists h. split_and!; try done. constructor; simpl; rewrite ?E3; try done. by apply Hp3.
    + apply (rule3_progressed w _ c 1%nat); [done| |done]. simpl. rewrite Hh3. simpl. rewrite Hheap, alter_twice. done.
  - simpl. split_and!; [done| |done]. apply (rule3_progressed w _ c 0%nat); [done| |lia]. simpl. rewrite Hheap. done.
Qed.

(** One segment is handed to the adapter and taken from the queue. *)
Lemma send_one l w cn seg q : inv l w -> _tcp (snd w) = Some cn -> TCPConnection._segments_out cn = seg :: q ->
  outcome (fun _ w' => (inv l w' /\ _tcp (snd w') = Some (set_out cn q)) /\ stays w w') ends
    ((do* on_adapter (da_write seg);
      let* c := tcp in put_tcp (set_out c (tail (TCPConnection._segments_out c)))) w).
Proof.
  intros [Hraw Hsim] Hcn Eq. destruct (rw_tcp _ _ Hraw) as (cn' & Hcn' & Hneat). assert (cn' = cn) as -> by congruence.
  assert (neat seg) as Hseg by (destruct Hneat as [_ Hno]; rewrite Eq in Hno; by inversion Hno).
  pose proof (rw_dev _ _ Hraw) as (c & Hc & Hn & Hu). pose proof (rw_ad _ _ Hraw) as Had.
  apply outcome_bind. unfold on_adapter, zoom. cbn [da_write recorded_adapter].
  assert (heap (fst w) !! da_fd (_datagram_adapter (snd w)) = Some c) as Hc' by by rewrite Had.
  pose proof (recorded_write_spec seg (fst w) (_datagram_adapter (snd w)) c Hseg Hc') as Hr.
  destruct (recorded_write seg (fst w, _datagram_adapter (snd w))) as [[[]|e] [p' a']]; simpl in Hr |- *;
    [|by intros _; left; apply Hr].
  destruct Hr as ((f & Ht) & Hseen & Hem). destruct (after_adapter l w p' a' f c Hraw Hc Ht) as (Hraw1 & Hstay & Hpipe).
  unfold mbind. rewrite (tcp_ok (p', set_adapter (snd w) a') cn Hcn). unfold put_tcp, assign, mmodify. rewrite Eq. simpl.
  split; [|by destruct Hstay]. split; [|done].
  split; [apply (raw_tcp l (p', set_adapter (snd w) a')); [done|]; destruct Hneat as [Hns Hno]; split; [done|];
          simpl; rewrite Eq in Hno; by inversion Hno|].
  intros Hh. destruct Hsim as (h & Hr0 & Hg & [S1 S2 S3 S4]).
  { unfold honest in *. simpl in Hh. by rewrite Hseen in Hh. }
  assert (h_conn h = cn) as Ecn by congruence.
  eapply (simulated_step _ h); [done|done|apply (hs_transmit Wh peer h [seg] q)|].
  - by rewrite Ecn.
  - rewrite Ecn in *. constructor; simpl; [done|by apply Hpipe|congruence|exact S4].
Qed.

Lemma send_all_spec fuel l w cn : inv l w -> _tcp (snd w) = Some cn -> (length (TCPConnection._segments_out cn) <= fuel)%nat ->
  outcome (fun _ w' => (inv l w' /\ exists cn', _tcp (snd w') = Some cn' /\ TCPConnection._segments_out cn' = []) /\ stays w w') ends
    (send_all fuel w).
Proof.
  revert w cn. induction fuel as [|fuel IH]; intros w cn Hinv Hcn Hlen; cbn [send_all]; unfold mbind at 1;
    rewrite (tcp_ok w cn Hcn); destruct (TCPConnection._segments_out cn) as [|seg q] eqn:Eq; try (by simpl; split; [eauto|split]); [simpl in Hlen; lia|].
  rewrite mbind_assoc. rewrite mbind_assoc. apply outcome_bind.
  pose proof (send_one l w cn seg q Hinv Hcn Eq) as Hone. unfold mbind in Hone |- *.
  destruct (on_adapter (da_write seg) w) as [[[]|e] w1]; [|exact Hone].
  destruct (tcp w1) as [[c1|e] w1']; [|exact Hone].
  destruct (put_tcp _ w1') as [[[]|e] w2]; [|exact Hone].
  simpl in Hone |- *. destruct Hone as [[Hinv2 Hcn2] Hst2].
  eapply outcome_weaken; [apply (IH w2 (set_out cn q)); [done|done|simpl in *; lia]|].
  intros [] w3 [H3 Hst3]. split; [done|]. by eapply stays_trans.
Qed.

Lemma rule4_spec l w : inv l w -> outcome (fun _ w' => inv l w' /\ progressed rule4 w w' /\ stays w w') ends (rule4_callback w).
Proof.
  intros Hinv. pose proof Hinv as [Hraw _]. destruct (rw_tcp _ _ Hraw) as (cn & Hcn & Hneat). unfold rule4_callback, mbind at 1.
  rewrite (tcp_ok w cn Hcn). eapply outcome_weaken; [by apply (send_all_spec _ l w cn)|].
  intros [] w' [(Hinv' & cn' & Hcn' & Eq) Hst]. split_and!; [done| |done]. left. simpl. unfold rule4_interest, mbind.
  rewrite (tcp_ok w' cn' Hcn'). by rewrite Eq.
Qed.

(** *** Erasing a rule *)

Lemma erase_spec l1 r l2 w : inv (l1 ++ r :: l2) w -> rule_fd r = pd \/ rule_fd r = ad ->
  exists p, destruct_fd (rule_fd r) (fst w) = (Ok tt, p) /\ inv (l1 ++ l2) (p, snd w) /\ stays w (p, snd w).
Proof.
  intros [[R1 R2 R3 R4 R5] Hsim] Hr.
  assert (exists c, heap (fst w) !! rule_fd r = Some c /\ (2 <= uses c)%nat) as (c & Hc & Hu).
  { destruct Hr as [E|E]; rewrite E; [destruct R4 as (c & Hc & _ & Hu)|destruct R5 as (c & Hc & _ & Hu)];
      exists c; (split; [done|]); rewrite refs_middle, E, decide_True in Hu by done; lia. }
  rewrite (destruct_fd_shared _ _ c Hc Hu). eexists. split; [done|]. split; [|done]. split.
  - constructor; try done; by apply cell_ok_erase.
  - intros Hh. destruct (Hsim Hh) as (h & Hr0 & Hg & [S1 [P1 P2 P3 P4] S3 S4]). exists h. split_and!; try done.
    constructor; try done. constructor; try done. simpl. intros c'.
    destruct (decide (rule_fd r = pd)) as [E|Hne]; [|by rewrite list_lookup_alter_ne; eauto].
    rewrite E in Hc |- *. rewrite list_lookup_alter_eq, Hc. intros [= <-]. by apply (P4 c).
Qed.

(** *** The rules of the loop *)

Definition number (r : Rule K Sock) : Z := if decide (rule_fd r = pd) then pn else an.

Definition from_owner (r : Rule K Sock) : Prop := rule_fd r = pd /\ direction r = In.

Definition armed (r : Rule K Sock) w : Prop := from_owner r -> _outbound_shutdown (snd w) = false.
Definition hung (r : Rule K Sock) w : Prop := from_owner r -> unread (kernel (os (fst w))) = [].

Lemma inv_cell l w d n : inv l w -> (d = pd /\ n = pn) \/ (d = ad /\ n = an) ->
  exists c, heap (fst w) !! d = Some c /\ _fd (wrapper c) = n.
Proof. intros [[_ _ _ (c & ? & ? & _) (c' & ? & ? & _)] _] [[-> ->]|[-> ->]]; eauto. Qed.

Lemma inv_tcp l w : inv l w -> exists c, _tcp (snd w) = Some c /\ tcp w = (Ok c, w).
Proof. intros [[_ _ (c & Hc & _) _ _] _]. exists c. by rewrite (tcp_ok w c Hc). Qed.

Lemma idle_cancel l1 r l2 w : inv (l1 ++ r :: l2) w -> cancel r = no_cancel -> rule_fd r = pd \/ rule_fd r = ad ->
  outcome (fun _ w' => inv (l1 ++ l2) w' /\ stays w w') ends (cancel_erase r w).
Proof.
  intros Hinv Ec Hr. destruct (erase_spec l1 r l2 w Hinv Hr) as (p & Ep & Hinv' & Hst).
  unfold cancel_erase. rewrite Ec. unfold mbind, no_cancel, mret, on_proc, zoom. by rewrite Ep.
Qed.

(** A rule on [d] that does not read from the owner's stream. *)
Lemma not_owner_armed r w : ~ from_owner r -> armed r w.
Proof. by intros Hn ?%Hn. Qed.

Lemma inv_interest l w (f : TCPConnection -> Sock -> bool) : inv l w ->
  exists b, (let* c := tcp in let* s := mgets snd in mret (f c s)) w = (Ok b, w).
Proof. intros Hi. destruct (inv_tcp l w Hi) as (c & _ & Ec). eexists. unfold mbind. by rewrite Ec. Qed.

Lemma rule_ok_idle r d n (Hd : rule_fd r = d) (Hn : (d = pd /\ n = pn) \/ (d = ad /\ n = an)) :
  ~ from_owner r -> cancel r = no_cancel ->
  (forall l w, inv l w -> exists b, interest r w = (Ok b, w)) ->
  (forall l w, inv l w -> outcome (fun _ w' => inv l w' /\ progressed r w w' /\ stays w w') ends (callback r w)) ->
  rule_ok inv ends number armed hung r.
Proof.
  intros Ho Ec Hint Hcb.
  assert (rule_fd r = pd \/ rule_fd r = ad) as Hfd by (destruct Hn as [[-> _]|[-> _]]; auto).
  constructor.
  - intros l w Hi _. unfold number, rule_cell. rewrite Hd.
    destruct Hn as [[-> ->]|[-> ->]]; [rewrite decide_True by done|rewrite decide_False by done]; apply (inv_cell l); auto.
  - intros l w Hi _ _. destruct (Hint l w Hi) as [b Eb]. exists b. split; [done|]. intros _. by apply not_owner_armed.
  - intros l w Hi _ _. eapply outcome_weaken; [by apply Hcb|]. by intros [] w' (? & ? & _).
  - intros l1 l2 w Hi _. eapply outcome_weaken; [by apply idle_cancel|]. by intros [] w' [? _].
Qed.

Lemma rule1_ok : rule_ok inv ends number armed hung rule1.
Proof.
  apply (rule_ok_idle _ ad an); [done|auto| |done| |apply rule1_spec].
  - intros [E _]. by destruct (Hdiff (eq_sym E)).
  - intros l w Hi. destruct (inv_tcp l w Hi) as (c & _ & Ec). eexists. simpl. unfold rule1_interest, mbind. by rewrite Ec.
Qed.

Lemma rule3_ok : rule_ok inv ends number armed hung rule3.
Proof.
  apply (rule_ok_idle _ pd pn); [done|auto| |done| |apply rule3_spec].
  - by intros [_ E].
  - intros l w Hi. destruct (inv_tcp l w Hi) as (c & _ & Ec). eexists. simpl. unfold rule3_interest, mbind. rewrite Ec. done.
Qed.

Lemma rule4_ok : rule_ok inv ends number armed hung rule4.
Proof.
  apply (rule_ok_idle _ ad an); [done|auto| |done| |apply rule4_spec].
  - by intros [_ E].
  - intros l w Hi. destruct (inv_tcp l w Hi) as (c & _ & Ec). eexists. simpl. unfold rule4_interest, mbind. by rewrite Ec.
Qed.

Lemma rule2_cancel l1 l2 w : inv (l1 ++ rule2 :: l2) w -> at_end rule2 w \/ hung rule2 w ->
  outcome (fun _ w' => inv (l1 ++ l2) w') ends (cancel_erase rule2 w).
Proof.
  intros Hi Hend. unfold cancel_erase. apply outcome_bind. simpl cancel. eapply outcome_weaken.
  { apply (end_outbound_spec _ w Hi). intros Hh. destruct Hend as [(c & Hc & Hx)|Hu]; [|by apply Hu].
    destruct (proj2 Hi Hh) as (h & _ & _ & [_ S2 _ _]). destruct (po_eof _ _ _ S2 c Hc) as [Hcl He].
    destruct Hx as [Hx|[_ Hx]]; [congruence|auto]. }
  intros [] w' [Hi' _]. destruct (erase_spec l1 rule2 l2 w' Hi') as (p & Ep & Hi2 & _); [by left|].
  unfold on_proc, zoom. by rewrite Ep.
Qed.

Lemma rule2_ok : rule_ok inv ends number armed hung rule2.
Proof.
  constructor.
  - intros l w Hi _. unfold number. simpl. rewrite decide_True by done. apply (inv_cell l); auto.
  - intros l w Hi _ _. destruct (inv_tcp l w Hi) as (c & _ & Ec). eexists. simpl. unfold rule2_interest, mbind. rewrite Ec.
    split; [done|]. intros [[_ Hos%negb_true_iff]%andb_true_iff _]%andb_true_iff _. done.
  - intros l w Hi _ Ha. apply rule2_spec; [done|]. by apply Ha.
  - intros l1 l2 w. apply rule2_cancel.
Qed.

(** *** What the rules leave to each other *)

Lemma keeps_stays r P (m : M W unit) : (forall w w', stays w w' -> P w -> P w') ->
  (forall l w, inv l w -> r ∈ l -> outcome (fun _ w' => stays w w') (fun _ _ => True) (m w)) -> keeps inv r P m.
Proof.
  intros HP Hm l w Hi Hr Hw. specialize (Hm l w Hi Hr). destruct (m w) as [[[]|e] w']; simpl in *; [|done]. by eapply HP.
Qed.

Lemma keeps_other r r' P (m : M W unit) : ~ from_owner r' -> P = armed r' \/ P = hung r' -> keeps inv r P m.
Proof. intros Ho HP l w _ _ _. destruct (m w) as [[[]|e] w']; [|done]. by destruct HP as [->| ->]; intros ?%Ho. Qed.

Lemma armed_stays r w w' : stays w w' -> armed r w -> armed r w'.
Proof. intros [_ E] Ha Ho. rewrite E. by apply Ha. Qed.

Lemma hung_stays r w w' : stays w w' -> hung r w -> hung r w'.
Proof. intros [E _] Ha Ho. rewrite E. by apply Ha. Qed.

(** A rule whose callback and cancellation stay away from the owner's bytes. *)
Lemma leaves_idle r r' : cancel r = no_cancel -> rule_fd r = pd \/ rule_fd r = ad ->
  (forall l w, inv l w -> outcome (fun _ w' => inv l w' /\ progressed r w w' /\ stays w w') ends (callback r w)) ->
  leaves inv armed hung r r'.
Proof.
  intros Ec Hr Hcb.
  assert (forall l w, inv l w -> r ∈ l -> outcome (fun _ w' => stays w w') (fun _ _ => True) (callback r w)) as H1.
  { intros l w Hi _. specialize (Hcb l w Hi). destruct (callback r w) as [[[]|e] w']; [|done]. apply Hcb. }
  assert (forall l w, inv l w -> r ∈ l -> outcome (fun _ w' => stays w w') (fun _ _ => True) (cancel_erase r w)) as H2.
  { intros l w Hi (l1 & l2 & ->)%list_elem_of_split. pose proof (idle_cancel l1 r l2 w Hi Ec Hr) as Hc.
    destruct (cancel_erase r w) as [[[]|e] w']; [|done]. apply Hc. }
  split; eapply keeps_stays; eauto using armed_stays, hung_stays.
Qed.

Lemma leaves_rule2 r' : ~ from_owner r' -> leaves inv armed hung rule2 r'.
Proof. intros Ho. split; eapply keeps_other; eauto. Qed.

Lemma socket_rules_ok : rules_ok inv ends number armed hung [rule1; rule2; rule3; rule4].
Proof.
  assert (~ from_owner rule1) as N1 by (intros [E _]; by destruct (Hdiff (eq_sym E))).
  assert (~ from_owner rule3) as N3 by (by intros [_ E]).
  assert (~ from_owner rule4) as N4 by (by intros [_ E]).
  assert (forall r', leaves inv armed hung rule1 r') as L1 by (intros; apply leaves_idle; auto using rule1_spec).
  assert (forall r', leaves inv armed hung rule3 r') as L3 by (intros; apply leaves_idle; auto using rule3_spec).
  assert (forall r', leaves inv armed hung rule4 r') as L4 by (intros; apply leaves_idle; auto using rule4_spec).
  split; [repeat (apply Forall_cons; split); auto using rule1_ok, rule2_ok, rule3_ok, rule4_ok|].
  assert (forall r', ~ from_owner r' -> leaves inv armed hung rule2 r') as L2 by (intros; by apply leaves_rule2).
  apply FOP_cons; [|apply FOP_cons; [|apply FOP_cons; [|apply FOP_cons; [|apply FOP_nil]]]];
    repeat (apply Forall_cons; split); try apply Forall_nil; try done; split; auto.
Qed.

(** *** Polling *)

Lemma inv_called l w k c r : inv l w -> kcall (kernel (os (fst w))) c = (r, k) -> quiet pn c ->
  received pn [(c, r)] = [] -> sent pn [(c, r)] = [] -> inv l (called (fst w) k c r, snd w) /\ stays w (called (fst w) k c r, snd w).
Proof.
  intros [[R1 R2 R3 R4 R5] Hsim] Hk Hq Er Es. pose proof (unread_other (kernel (os (fst w))) c Hq) as Eu. rewrite Hk in Eu. simpl in Eu.
  split; [split; [by constructor|]|by split].
  intros Hh. destruct (Hsim Hh) as (h & Hr0 & Hg & [S1 [P1 P2 P3 P4] S3 S4]). exists h. split_and!; try done.
  constructor; try done. constructor; simpl; rewrite ?received_app, ?sent_app, ?Er, ?Es, ?app_nil_r, ?Eu; done.
Qed.

Lemma socket_poll_ok : poll_ok inv ends number armed hung.
Proof.
  constructor.
  - intros l w fds t Hi. destruct (kcall _ _) as [a k] eqn:Ek. by apply inv_called.
  - intros r l w fds t Hi Ha. by destruct (kcall _ _) as [a k].
  - intros r l w fds t i v Hi Hr Hf. destruct (kcall _ _) as [a k] eqn:Ek. intros Hv Hh Hrd [Ho Hdir].
    unfold number in Hf. rewrite Ho, decide_True, Hdir in Hf by done.
    pose proof (unread_hangup (kernel (os (fst w))) fds t i v Hf) as Hu. rewrite Ek in Hu. rewrite Hdir in Hrd. by apply Hu.
  - intros l w _ _. right. by right.
Qed.

(** *** A turn of the loop *)

Abbreviation Loop := (EventLoop K Sock).

Definition ends' (e : exn) (s : Loop * W) : Prop := ends e (snd s).

Definition socket_rules : list (Rule K Sock) := [rule1; rule2; rule3; rule4].

(** The loop has some of the rules left, and the socket and its host agree. *)
Record looping (s : Loop * W) : Prop := {
  lp_rules : _rules (fst s) `sublist_of` socket_rules;
  lp_inv : inv (_rules (fst s)) (snd s)
}.

Lemma sublist_rules_ok l : l `sublist_of` socket_rules -> rules_ok inv ends number armed hung l.
Proof.
  intros Hl. pose proof socket_rules_ok as [H1 H2]. fold socket_rules in H1, H2. split.
  - apply Forall_forall. rewrite Forall_forall in H1. intros r Hr. apply H1. by eapply elem_of_sublist.
  - induction Hl as [|x l1 l2 Hl IH|x l1 l2 Hl IH]; [done| |]; inversion H2 as [|? ? Ha Hp]; simplify_eq;
      inversion H1; simplify_eq.
    + apply FOP_cons; [|auto]. rewrite Forall_forall in Ha |- *. intros r Hr. apply Ha. by eapply elem_of_sublist.
    + auto.
Qed.

Lemma on_world_ok {B} (m : M W B) (s : Loop * W) b w' : m (snd s) = (Ok b, w') -> on_world m s = (Ok b, (fst s, w')).
Proof. intros E. unfold on_world, zoom. by rewrite E. Qed.

(** The clock and the connection's timers. *)
Lemma clock_spec l w : inv l w -> exists t w', on_proc (on_os timestamp_ms) w = (Ok t, w') /\ inv l w' /\ snd w' = snd w /\ is_u64 t.
Proof.
  intros Hi. unfold on_proc, on_os, zoom, timestamp_ms, mbind. destruct (sys_history sys_clock (os (fst w))) as (r & k & -> & Hk).
  eexists _, _. split; [done|]. split; [|split; [done|ints]]. by apply (inv_called l w k sys_clock r Hi Hk).
Qed.

Lemma conn_tick_spec l w c ms : inv l w -> _tcp (snd w) = Some c -> is_u64 ms -> inv l (fst w, set_tcp (snd w) (Some (tick c ms))).
Proof.
  intros [Hraw Hsim] Hc Hms. destruct (rw_tcp _ _ Hraw) as (cn & Hcn & Hneat). assert (cn = c) as -> by congruence.
  split; [apply (raw_tcp l w); [done|by apply (conn_run_neat c (CTick ms))]|].
  intros Hh. destruct (Hsim Hh) as (h & Hr0 & Hg & [S1 S2 S3 S4]). assert (h_conn h = c) as Ec by congruence.
  eapply (simulated_step _ h); [done|done|by apply (hs_tick Wh peer h ms)|].
  rewrite Ec in *. constructor; try done. simpl. intros Hos. rewrite <- (S4 Hos). apply out_end_tick.
Qed.

Lemma adapter_tick_spec l w ms : inv l w ->
  outcome (fun _ w' => inv l w') ends (on_adapter (da_tick ms) w).
Proof.
  intros [Hraw Hsim]. pose proof (rw_dev _ _ Hraw) as (c & Hc & Hn & Hu). pose proof (rw_ad _ _ Hraw) as Had.
  unfold on_adapter, zoom.
  assert (heap (fst w) !! da_fd (_datagram_adapter (snd w)) = Some c) as Hc' by by rewrite Had.
  pose proof (recorded_tick_spec ms (fst w) (_datagram_adapter (snd w)) c Hc') as Hr.
  destruct (da_tick ms (fst w, _datagram_adapter (snd w))) as [[[]|e] [p' a']]; simpl in Hr |- *;
    [|by intros _; left; apply Hr].
  destruct Hr as ((f & Ht) & Hseen & Hem). destruct (after_adapter l w p' a' f c Hraw Hc Ht) as (Hraw1 & Hstay & Hpipe).
  split; [done|]. intros Hh. destruct Hsim as (h & Hr0 & Hg & [S1 S2 S3 S4]).
  { unfold honest in *. simpl in Hh. by rewrite Hseen in Hh. }
  exists h. split_and!; try done. constructor; simpl; [done|by apply Hpipe|congruence|done].
Qed.

Lemma tcp_turn_spec base_time : triple looping (tcp_turn base_time) (fun _ => looping) ends'.
Proof.
  intros s [Hsub Hinv]. unfold tcp_turn. apply outcome_bind. eapply outcome_weaken.
  { apply (wait_next_event_ok _ _ _ _ _ TCP_TICK_MS (_rules (fst s)) socket_poll_ok s).
    split; [done|by apply sublist_rules_ok|done]. }
  intros res s1 (l & Hl & [<- _ Hi]). assert (looping s1) as Hs by (split; [by etransitivity|done]).
  clear s Hsub Hinv Hl Hi. rename s1 into s. unfold mbind at 1. cbn [mgets].
  assert (outcome (fun _ : option Z => looping) ends' ((let* c := on_world tcp in
      if active c then
        let* next_time := on_world (on_proc (on_os timestamp_ms)) in
        let* c := on_world tcp in
        do* on_world (put_tcp (tick c (u64 (next_time - base_time))));
        do* on_world (on_adapter (da_tick (u64 (next_time - base_time))));
        mret (Some next_time)
      else mret (Some base_time)) s)) as Htick.
  { destruct Hs as [Hsub H3]. set (l := _rules (fst s)) in *. destruct (inv_tcp l (snd s) H3) as (c & Hc & Ec).
    unfold mbind at 1. rewrite (on_world_ok tcp s c (snd s) Ec). destruct s as [lo w]. cbn [fst snd] in *.
    destruct (active c); [|by split].
    destruct (clock_spec l w H3) as (t & w1 & Et & Hi1 & E1 & Ht). unfold mbind at 1. rewrite (on_world_ok _ (lo, w) t w1 Et).
    assert (_tcp (snd w1) = Some c) as Hc1 by congruence. cbn [fst].
    unfold mbind at 1. rewrite (on_world_ok tcp (lo, w1) c w1 (tcp_ok w1 c Hc1)). cbn [fst].
    unfold mbind at 1. rewrite (on_world_ok _ (lo, w1) tt _ (eq_refl : put_tcp _ w1 = _)). cbn [fst snd].
    pose proof (conn_tick_spec l w1 c (u64 (t - base_time)) Hi1 Hc1 ltac:(ints)) as Hi2. cbn [fst snd] in Hi2.
    apply outcome_bind. unfold on_world, zoom at 1.
    pose proof (adapter_tick_spec l _ (u64 (t - base_time)) Hi2) as Ha. cbn [fst snd] in *.
    destruct (on_adapter _ _) as [[[]|e] w3]; simpl in *; [|exact Ha]. by split. }
  destruct res; cbn iota beta; [destruct (_abort _); [exact Hs|exact Htick]..|exact Hs].
Qed.

(** *** The other steps *)

Lemma connect_spec l w : inv l w -> outcome (fun _ w' => inv l w') ends (connect_now w).
Proof.
  intros [Hraw Hsim]. destruct (rw_tcp _ _ Hraw) as (cn & Hcn & Hneat). unfold connect_now, mbind.
  rewrite (tcp_ok w cn Hcn). unfold mlift. destruct (connect cn) as [cn'|e] eqn:Ec; simpl.
  - split; [apply (raw_tcp l w); [done|by apply (conn_run_neat cn CConnect)]|]. intros Hh. destruct (Hsim Hh) as (h & Hr0 & Hg & [S1 S2 S3 S4]).
    assert (h_conn h = cn) as Ecn by congruence. rewrite <- Ecn in Ec.
    eapply (simulated_step _ h); [done|done|by apply (hs_connect Wh peer h cn')|]. constructor; try done. simpl.
    intros Hos. rewrite <- (S4 Hos). by apply out_end_connect.
  - intros Hh. destruct (Hsim Hh) as (h & Hr0 & Hg & [S1 S2 S3 S4]). destruct (good_connect h Hg). congruence.
Qed.

Lemma inv_member l w s' : inv l w -> _thread_data s' = _thread_data (snd w) ->
  da_fd (_datagram_adapter s') = da_fd (_datagram_adapter (snd w)) -> _tcp s' = _tcp (snd w) ->
  _outbound_shutdown s' = _outbound_shutdown (snd w) ->
  seen (_datagram_adapter s') = seen (_datagram_adapter (snd w)) ->
  emitted (_datagram_adapter s') = emitted (_datagram_adapter (snd w)) -> inv l (fst w, s').
Proof.
  intros [[R1 R2 R3 R4 R5] Hsim] E1 E2 E3 E4 E5 E6. split; [by constructor; cbn [fst snd]; rewrite ?E1, ?E2, ?E3|].
  unfold honest. simpl. rewrite E5. intros Hh. destruct (Hsim Hh) as (h & Hr0 & Hg & [S1 S2 S3 S4]).
  exists h. split_and!; try done. by constructor; cbn [fst snd]; rewrite ?E3, ?E4, ?E6.
Qed.

Lemma sock_step_spec s s' : sock_step s s' -> looping s -> looping s'.
Proof.
  intros Hstep Hs. pose proof Hs as [Hsub Hinv]. destruct Hstep as [base r s' E|s' E|f s' E|b s' E|t s' E].
  - pose proof (tcp_turn_spec base s Hs) as Ho. by rewrite E in Ho.
  - pose proof (connect_spec _ _ Hinv) as Ho. unfold on_world, zoom in E.
    destruct (connect_now (snd s)) as [[[]|] w']; [|done]. injection E as <-. by split.
  - unfold on_world, zoom, configure, assign, mmodify in E. simpl in E. injection E as <-. split; [done|]. simpl.
    apply inv_member; try done. simpl. apply law_base.
  - unfold on_world, zoom, assign, mmodify in E. simpl in E. injection E as <-. split; [done|]. simpl.
    by apply inv_member.
  - destruct (clock_spec _ _ Hinv) as (t' & w' & Et & Hi & _). rewrite (on_world_ok _ _ _ _ Et) in E.
    injection E as _ <-. by split.
Qed.

(** *** Setting up *)

(** A rule's copy of the descriptor. *)
Lemma add_rule_spec lo0 lo w h r l : raw l w -> sim w h -> _rules lo = l -> rule_fd r = pd \/ rule_fd r = ad ->
  exists p, on_world (add_rule (rule_fd r) (direction r) (callback r) (interest r) (cancel r) lo) (lo0, w)
      = (Ok (mkEventLoop (l ++ [r])), (lo0, (p, snd w))) /\
    raw (l ++ [r]) (p, snd w) /\ sim (p, snd w) h.
Proof.
  intros [R1 R2 R3 R4 R5] [S1 [P1 P2 P3 P4] S3 S4] <- Hr.
  assert (exists c, heap (fst w) !! rule_fd r = Some c) as [c Hc].
  { destruct Hr as [->| ->]; [destruct R4 as (c & ? & _)|destruct R5 as (c & ? & _)]; eauto. }
  eexists. split.
  { unfold on_world, zoom, add_rule, mbind, on_proc, zoom, duplicate, mbind. simpl. rewrite (deref_ok _ _ _ Hc). simpl.
    by destruct r. }
  split; [constructor; try done; by apply cell_ok_duplicate|].
  constructor; try done. constructor; try done. cbn [fst heap os]. intros c'.
  destruct (decide (rule_fd r = pd)) as [E|Hne]; [|by rewrite list_lookup_alter_ne; eauto].
  rewrite E in Hc |- *. rewrite list_lookup_alter_eq, Hc. intros [= <-]. by apply (P4 c).
Qed.

(** A new socket, whose owner will write [Wh]. *)
Record fresh (s : Loop * W) : Prop := {
  fr_rules : _rules (fst s) = [];
  fr_pd : _thread_data (snd (snd s)) = pd;
  fr_ad : da_fd (_datagram_adapter (snd (snd s))) = ad;
  fr_pipe : cell_ok pd pn ([] : list (Rule K Sock)) (fst (snd s));
  fr_dev : cell_ok ad an ([] : list (Rule K Sock)) (fst (snd s));
  fr_stream : pipe_ok (fst (snd s)) [] [];
  fr_seen : seen (_datagram_adapter (snd (snd s))) = [];
  fr_emitted : emitted (_datagram_adapter (snd (snd s))) = []
}.

Lemma initialize_spec cfg s : fresh s -> exists random s',
  _initialize_TCP cfg s = (Ok tt, s') /\ _rules (fst s') = socket_rules /\ raw socket_rules (snd s') /\
  sim (snd s') (start cfg random) /\ seen (_datagram_adapter (snd (snd s'))) = [].
Proof.
  intros [F1 F2 F3 F4 F5 [P1 P2 P3 P4] F7 F8]. destruct s as [lo w]. cbn [fst snd] in *.
  unfold _initialize_TCP. unfold mbind at 1.
  destruct (sys_history sys_random (os (fst w))) as (a & k & Es & Ek).
  unfold on_world at 1, on_proc at 1, on_os at 1, zoom. cbn [snd]. rewrite Es. cbn [fst].
  unfold mbind at 1. rewrite (on_world_ok _ (lo, _) tt _ (eq_refl : put_tcp (construct_connection cfg (ret a)) _ = _)).
  cbn [fst snd]. set (p0 := mkProc _ _). set (sk := set_tcp _ _).
  pose proof (unread_other (kernel (os (fst w))) sys_random I) as Eu. rewrite Ek in Eu. simpl in Eu.
  assert (raw [] (p0, sk)) as R0 by (constructor; try done; eexists; split; [done|by repeat constructor]).
  assert (sim (p0, sk) (start cfg (ret a))) as S0.
  { constructor; try done. constructor; simpl; rewrite ?received_app, ?sent_app, ?P1, ?P2, ?Eu; done. }
  unfold mbind at 1. cbn [mgets]. unfold mbind at 1. cbn [mgets fst snd].
  change (_thread_data sk) with (_thread_data (snd w)).
  change (da_fd (_datagram_adapter sk)) with (da_fd (_datagram_adapter (snd w))). rewrite F2, F3.
  destruct (add_rule_spec lo lo (p0, sk) _ rule1 [] R0 S0 F1) as (p1 & E1 & R1 & S1); [by right|].
  destruct (add_rule_spec lo (mkEventLoop [rule1]) (p1, sk) _ rule2 _ R1 S1 eq_refl) as (p2 & E2 & R2 & S2); [by left|].
  destruct (add_rule_spec lo (mkEventLoop [rule1; rule2]) (p2, sk) _ rule3 _ R2 S2 eq_refl) as (p3 & E3 & R3 & S3); [by left|].
  destruct (add_rule_spec lo (mkEventLoop [rule1; rule2; rule3]) (p3, sk) _ rule4 _ R3 S3 eq_refl) as (p4 & E4 & R4 & S4); [by right|].
  exists (ret a), (mkEventLoop socket_rules, (p4, sk)). split; [|done].
  repeat (eapply mbind_ok; [eassumption|]). done.
Qed.
End refinement.
