(* ===== verification/Sockets.v ===== *)
(** * Sockets: two sockets and a network

    Two [TCPSpongeSocket]s, each with a kernel of its own (file [System]), an owner
    that writes to and reads from its end of the socket pair, and a datagram adapter.
    Nothing is assumed of the network but that an adapter gives only segments that the
    other one has taken (it may lose, repeat, delay and reorder them). *)

From Stdlib Require Import Strings.String.
From stdpp Require Import relations.
From S2P Require Import Prelude WrappingIntegers ByteStream Parser TCPSegment TCPReceiver TCPSender TCPConnection.
From S2P Require Import Transmission EndToEnd Hosts IPv4 Adapters System FileDescriptor Socket EventLoop SpongeSocket.
From S2P Require Import SegmentBounds Robustness SocketRefinement.

Abbreviation SocketState K D := (EventLoop K (TCPSpongeSocket (Recorded D)) * World K (TCPSpongeSocket (Recorded D)))%type.

(** What an owner has written that the socket has read, and what the socket has
    written for the owner to read, by the history of the socket's end of the pair. *)
Definition from_owner_bytes {K D} (pn : Z) (s : SocketState K D) : bytes := received pn (history (os (fst (snd s)))).
Definition to_owner_bytes {K D} (pn : Z) (s : SocketState K D) : bytes := sent pn (history (os (fst (snd s)))).
Definition taken {K D} (s : SocketState K D) : list TCPSegment := emitted (_datagram_adapter (snd (snd s))).

(** ** One of the two *)
Section one.
Context {K A D : Type} `{DatagramAdapter K A D} `{!PosixKernel K} `{!AdapterLaws K A D}.
Context (pd ad : FileDescriptor) (pn an : Z) `{!StreamKernel K pn} (Hdiff : pd <> ad) (Hnum : pn <> an).
Context (WA WB : bytes) (cfgA cfgB : TCPConfig) (rA rB : Z) (isnA isnB : WrappingInt32).
Context (HWA : size WA < 2147400000) (HWB : size WB < 2147400000).
Context (HA : config_ok cfgA rA isnA) (HB : config_ok cfgB rB isnB).

Record endpoint (s : SocketState K D) (h : host) : Prop := {
  ep_rules : _rules (fst s) `sublist_of` socket_rules pd ad;
  ep_raw : raw pd ad pn an (_rules (fst s)) (snd s);
  ep_sim : sim pd pn WA (snd s) h
}.

Lemma endpoint_looping s a b : endpoint s a -> net_ok WA WB cfgA cfgB isnA isnB (a, b) ->
  looping pd ad pn an WA (h_wire b) a (fun h => net_ok WA WB cfgA cfgB isnA isnB (h, b)) s.
Proof. intros [E1 E2 E3] Hok. split; [done|]. split; [done|]. intros _. exists a. by split_and!. Qed.

Lemma endpoint_step s s' a b : endpoint s a -> net_ok WA WB cfgA cfgB isnA isnB (a, b) -> sock_step s s' ->
  honest (h_wire b) (snd s') ->
  exists a', rtc (host_step WA (h_wire b)) a a' /\ net_ok WA WB cfgA cfgB isnA isnB (a', b) /\ endpoint s' a'.
Proof.
  intros He Hok Hstep Hh.
  pose proof (fun h => net_ok_calls WA WB cfgA cfgB rA rB isnA isnB HWA HWB HA HB h b) as Hcalls.
  pose proof (sock_step_spec pd ad pn an Hdiff Hnum WA (h_wire b) a (fun h => net_ok WA WB cfgA cfgB isnA isnB (h, b))) as Hspec.
  destruct Hspec with (s := s) (s' := s') as [L1 [L2 L3]]; try done.
  - intros h h' Hg Hs. eapply (net_step_ok WA WB cfgA cfgB rA rB isnA isnB); try done. by constructor.
  - intros h data Hg. by apply Hcalls.
  - intros h Hg. by apply Hcalls.
  - intros h Hg. by apply Hcalls.
  - intros h seg Hg. by apply Hcalls.
  - by apply endpoint_looping.
  - destruct (L3 Hh) as (a' & Hr & Hg & Hs). exists a'. by split_and!.
Qed.

Lemma endpoint_turn base_time s a b : endpoint s a -> net_ok WA WB cfgA cfgB isnA isnB (a, b) ->
  outcome (fun _ _ => True) (fun e s' => honest (h_wire b) (snd s') -> allowed (K := K) (D := D) e) (tcp_turn base_time s).
Proof.
  intros He Hok. pose proof (fun h => net_ok_calls WA WB cfgA cfgB rA rB isnA isnB HWA HWB HA HB h b) as Hcalls.
  pose proof (tcp_turn_spec pd ad pn an Hdiff Hnum WA (h_wire b) a (fun h => net_ok WA WB cfgA cfgB isnA isnB (h, b))) as Hspec.
  assert (forall s, looping pd ad pn an WA (h_wire b) a (fun h => net_ok WA WB cfgA cfgB isnA isnB (h, b)) s ->
    outcome (fun _ => looping pd ad pn an WA (h_wire b) a (fun h => net_ok WA WB cfgA cfgB isnA isnB (h, b)))
      (ends' (h_wire b)) (tcp_turn base_time s)) as Hturn.
  { apply Hspec.
    - intros h h' Hg Hs. eapply (net_step_ok WA WB cfgA cfgB rA rB isnA isnB); try done. by constructor.
    - intros h data Hg. by apply Hcalls.
    - intros h Hg. by apply Hcalls.
    - intros h seg Hg. by apply Hcalls. }
  specialize (Hturn s (endpoint_looping s a b He Hok)). by destruct (tcp_turn base_time s) as [[r|e] s'].
Qed.
End one.

(** ** Both *)
Section both.
Context {KA AA DA : Type} `{DatagramAdapter KA AA DA} `{!PosixKernel KA} `{!AdapterLaws KA AA DA}.
Context {KB AB DB : Type} `{DatagramAdapter KB AB DB} `{!PosixKernel KB} `{!AdapterLaws KB AB DB}.
Context (pdA adA : FileDescriptor) (pnA anA : Z) `{!StreamKernel KA pnA}.
Context (pdB adB : FileDescriptor) (pnB anB : Z) `{!StreamKernel KB pnB}.

Abbreviation Pair := (SocketState KA DA * SocketState KB DB)%type.

(** One of the sockets makes a step; its adapter has given only segments that the
    other's has taken. *)
Inductive pair_step : Pair -> Pair -> Prop :=
| pair_a a a' b : sock_step a a' -> honest (taken b) (snd a') -> pair_step (a, b) (a', b)
| pair_b a b b' : sock_step b b' -> honest (taken a) (snd b') -> pair_step (a, b) (a, b').

(** Both sockets are new, the owners will write [WA] and [WB], and the connections are
    made. *)
Record pair_start (WA WB : bytes) (cfgA cfgB : TCPConfig) (a0 : SocketState KA DA) (b0 : SocketState KB DB)
    (x : Pair) : Prop := {
  ps_a : fresh pdA adA pnA anA WA a0;
  ps_b : fresh pdB adB pnB anB WB b0;
  ps_init_a : _initialize_TCP cfgA a0 = (Ok tt, fst x);
  ps_init_b : _initialize_TCP cfgB b0 = (Ok tt, snd x)
}.

Definition pair_reachable WA WB cfgA cfgB a0 b0 (x : Pair) : Prop :=
  exists x0, pair_start WA WB cfgA cfgB a0 b0 x0 /\ rtc pair_step x0 x.

(** The descriptors of each socket are two different ones. *)
Record distinct : Prop := {
  di_pa : pdA <> adA;
  di_na : pnA <> anA;
  di_pb : pdB <> adB;
  di_nb : pnB <> anB
}.

Context (WA WB : bytes) (cfgA cfgB : TCPConfig) (Hd : distinct).
Context (HWA : size WA < 2147400000) (HWB : size WB < 2147400000).
Context (HcA : tcp_config_ok cfgA) (HcB : tcp_config_ok cfgB).

(** What the hosts of the two sockets are. *)
Record refines (rA rB : Z) (x : Pair) (a b : host) : Prop := {
  rf_net : net_reachable WA WB cfgA cfgB rA rB a b;
  rf_a : endpoint pdA adA pnA anA WA (fst x) a;
  rf_b : endpoint pdB adB pnB anB WB (snd x) b
}.

Lemma start_refines a0 b0 x : pair_start WA WB cfgA cfgB a0 b0 x ->
  exists rA rB, refines rA rB x (start cfgA rA) (start cfgB rB).
Proof.
  intros [Fa Fb Ia Ib]. destruct x as [sa sb]. simpl in *.
  destruct (initialize_spec pdA adA pnA anA WA cfgA a0 Fa) as (rA & sa' & Ea & Ra & Wa & Sa & _).
  destruct (initialize_spec pdB adB pnB anB WB cfgB b0 Fb) as (rB & sb' & Eb & Rb & Wb & Sb & _).
  rewrite Ia in Ea. rewrite Ib in Eb. simplify_eq. exists rA, rB. split; simpl.
  - apply rtc_refl.
  - split; [by rewrite Ra|by rewrite Ra|done].
  - split; [by rewrite Rb|by rewrite Rb|done].
Qed.

Lemma host_steps_net_a (rA rB : Z) a a' b : rtc (host_step WA (h_wire b)) a a' ->
  net_reachable WA WB cfgA cfgB rA rB a b -> net_reachable WA WB cfgA cfgB rA rB a' b.
Proof. induction 1; [done|]. intros Hr. apply IHrtc. eapply rtc_r; [exact Hr|]. by constructor. Qed.

Lemma host_steps_net_b (rA rB : Z) a b b' : rtc (host_step WB (h_wire a)) b b' ->
  net_reachable WA WB cfgA cfgB rA rB a b -> net_reachable WA WB cfgA cfgB rA rB a b'.
Proof. induction 1; [done|]. intros Hr. apply IHrtc. eapply rtc_r; [exact Hr|]. by constructor. Qed.

Lemma step_refines rA rB x y a b : pair_step x y -> refines rA rB x a b ->
  exists a' b', refines rA rB y a' b'.
Proof.
  destruct (config_isn cfgA rA HcA) as [iA HA]. destruct (config_isn cfgB rB HcB) as [iB HB].
  intros Hstep [Hnet Ha Hb]. pose proof (net_reachable_ok WA WB cfgA cfgB rA rB iA iB HWA HWB HA HB a b Hnet) as Hok.
  destruct Hd as [D1 D2 D3 D4]. destruct Hstep as [sa sa' sb Hs Hh|sa sb sb' Hs Hh]; simpl in *.
  - unfold taken in Hh. rewrite (sm_wire _ _ _ _ _ (ep_sim _ _ _ _ _ _ _ Hb)) in Hh.
    destruct (endpoint_step pdA adA pnA anA D1 D2 WA WB cfgA cfgB rA rB iA iB HWA HWB HA HB sa sa' a b Ha Hok Hs Hh)
      as (a' & Hr & _ & Ha'). exists a', b. split; [by eapply host_steps_net_a|done|done].
  - unfold taken in Hh. rewrite (sm_wire _ _ _ _ _ (ep_sim _ _ _ _ _ _ _ Ha)) in Hh.
    destruct (endpoint_step pdB adB pnB anB D3 D4 WB WA cfgB cfgA rB rA iB iA HWB HWA HB HA sb sb' b a Hb
      (net_ok_swap _ _ _ _ _ _ _ _ Hok) Hs Hh) as (b' & Hr & _ & Hb'). exists a, b'. split; [by eapply host_steps_net_b|done|done].
Qed.

Lemma pair_refines a0 b0 x : pair_reachable WA WB cfgA cfgB a0 b0 x -> exists rA rB a b, refines rA rB x a b.
Proof.
  intros (x0 & Hs & Hr). destruct (start_refines a0 b0 x0 Hs) as (rA & rB & H0'). exists rA, rB.
  assert (exists a b, refines rA rB x0 a b) as Hx by eauto. clear H0' Hs.
  induction Hr as [|x0 x1 x Hstep _ IH]; [done|]. apply IH. destruct Hx as (a & b & Hab). by eapply step_refines.
Qed.

(** What the threads have given their owners. *)
Lemma owners_given a0 b0 x : pair_reachable WA WB cfgA cfgB a0 b0 x ->
  (to_owner_bytes pnB (snd x) `prefix_of` WA /\
   forall c, _tcp (snd (snd (snd x))) = Some c -> eof (inbound_stream c) = true -> to_owner_bytes pnB (snd x) = WA) /\
  (to_owner_bytes pnA (fst x) `prefix_of` WB /\
   forall c, _tcp (snd (snd (fst x))) = Some c -> eof (inbound_stream c) = true -> to_owner_bytes pnA (fst x) = WB).
Proof.
  intros Hr. destruct (pair_refines a0 b0 x Hr)
    as (rA & rB & a & b & [Hn [_ _ [A1 [_ A3 _ _] _ _]] [_ _ [B1 [_ B3 _ _] _ _]]]).
  destruct (config_isn cfgA rA HcA) as [iA HA]. destruct (config_isn cfgB rB HcB) as [iB HB].
  destruct (net_reachable_ok WA WB cfgA cfgB rA rB iA iB HWA HWB HA HB a b Hn) as [Ha Hb]. simpl in Ha, Hb.
  unfold to_owner_bytes. rewrite A1, A3, B1, B3.
  split; [exact (delivered _ _ _ _ _ _ _ _ _ HWA Hb)|exact (delivered _ _ _ _ _ _ _ _ _ HWB Ha)].
Qed.

(** *** Properties *)

(** C6: Two sockets are two hosts.  Whatever the kernels answer and the network does,
    what two sockets have done since their connections were made is what two hosts of
    file [EndToEnd] can do: their connections are those of the hosts, the bytes read
    from and written to each owner's stream are those written to and read from the
    host's connection, and the segments each adapter took are those the host emitted. *)
Theorem sockets_refine_hosts a0 b0 x : pair_reachable WA WB cfgA cfgB a0 b0 x ->
  exists rA rB a b, net_reachable WA WB cfgA cfgB rA rB a b /\
    (_tcp (snd (snd (fst x))) = Some (h_conn a) /\ from_owner_bytes pnA (fst x) = h_written a /\
     to_owner_bytes pnA (fst x) = h_read a /\ taken (fst x) = h_wire a) /\
    (_tcp (snd (snd (snd x))) = Some (h_conn b) /\ from_owner_bytes pnB (snd x) = h_written b /\
     to_owner_bytes pnB (snd x) = h_read b /\ taken (snd x) = h_wire b).
Proof.
  intros Hr. destruct (pair_refines a0 b0 x Hr)
    as (rA & rB & a & b & [Hn [_ _ [A1 [A2 A3 _ _] A4 _]] [_ _ [B1 [B2 B3 _ _] B4 _]]]).
  exists rA, rB, a, b. by split_and!.
Qed.

(** C4: Reliable delivery between applications.  At every moment, the bytes each owner has
    been given are a prefix of those the other owner writes, and they are all of them
    once the inbound stream is at its end. *)
Theorem sockets_deliver a0 b0 x : pair_reachable WA WB cfgA cfgB a0 b0 x ->
  (to_owner_bytes pnB (snd x) `prefix_of` WA /\
   forall c, _tcp (snd (snd (snd x))) = Some c -> eof (inbound_stream c) = true -> to_owner_bytes pnB (snd x) = WA) /\
  (to_owner_bytes pnA (fst x) `prefix_of` WB /\
   forall c, _tcp (snd (snd (fst x))) = Some c -> eof (inbound_stream c) = true -> to_owner_bytes pnA (fst x) = WB).
Proof. apply owners_given. Qed.

Lemma turn_allowed a0 b0 x base_time e s' : pair_reachable WA WB cfgA cfgB a0 b0 x ->
  tcp_turn base_time (fst x) = (Throw e, s') -> honest (taken (snd x)) (snd s') -> allowed (K := KA) (D := DA) e.
Proof.
  intros Hr Et Hh. destruct (pair_refines a0 b0 x Hr) as (rA & rB & a & b & [Hn Ha Hb]).
  destruct (config_isn cfgA rA HcA) as [iA HA]. destruct (config_isn cfgB rB HcB) as [iB HB].
  pose proof (net_reachable_ok WA WB cfgA cfgB rA rB iA iB HWA HWB HA HB a b Hn) as Hok. destruct Hd as [D1 D2 _ _].
  pose proof (endpoint_turn pdA adA pnA anA D1 D2 WA WB cfgA cfgB rA rB iA iB HWA HWB HA HB base_time (fst x) a b Ha Hok) as Ht.
  rewrite Et in Ht. apply Ht. unfold taken in Hh. by rewrite (sm_wire _ _ _ _ _ (ep_sim _ _ _ _ _ _ _ Hb)) in Hh.
Qed.
End both.

(** ** The TUN adapter

    Its methods fail only when a system call fails: every packet is parsed, and
    every segment of a connection can be wrapped. *)
Section tun.
Context {K : Type} `{Kernel K} `{!PosixKernel K} {A : Type} `{AddressOps A}.

Definition failed_call (e : exn) : Prop := exists attempt code, e = SystemError attempt code.

Lemma tun_adapter_read_ok (p : Proc K) (a : TunAdapter A) c : heap p !! _tun a = Some c ->
  outcome (fun _ s' => exists f, touches c (p, a) s' f /\ _read_count (f (wrapper c)) <> _read_count (wrapper c))
    (fun e _ => failed_call e) (tun_adapter_read (p, a)).
Proof.
  intros Hc. destruct (fd_read_spec (_tun a) NPOS p c Hc) as (r & k & Hk & _ & E).
  unfold tun_adapter_read. unfold mbind at 1. cbn [mgets]. unfold mbind at 1, beside, zoom. cbn [fst snd]. rewrite E.
  destruct (ret r <? 0); [simpl; by eexists _, _|]. cbn beta iota. unfold mbind at 1, mlift.
  destruct (tun_read_total (tun_base a) (out r)) as [[seg b] ->]. simpl.
  exists (after_read NPOS (ret r)). split; [|apply after_read_keeps].
  constructor; cbn [fst snd]; [done|by eapply os_step_one|done|apply after_read_keeps].
Qed.

Lemma tun_adapter_write_ok seg (p : Proc K) (a : TunAdapter A) c : neat seg -> heap p !! _tun a = Some c ->
  outcome (fun _ s' => exists f, touches c (p, a) s' f) (fun e _ => failed_call e) (tun_adapter_write seg (p, a)).
Proof.
  intros Hseg Hc. unfold tun_adapter_write. unfold mbind at 1. cbn [mgets snd]. unfold mbind at 1, mlift.
  destruct (wrap_total (tun_base a) seg Hseg) as (seg' & d & l & -> & Hl & _ & Hsz). unfold mbind at 1. rewrite Hl.
  destruct (fd_write_spec (_tun a) p c (views_of l) true Hc) as (res & p' & tr & n & m & E & [W1 W2 W3 W4 W5 W6 W7 W8 W9]).
  { change (concat (views_of l)) with (concatenate l). lia. }
  unfold mbind, beside, zoom. cbn [fst snd]. rewrite E. destruct res as [t|e]; simpl.
  - exists (Nat.iter m count_write). constructor; simpl; [done| |done|by apply iter_count_write].
    eapply os_steps_mono; [|exact W2]. by intros call [iov ->].
  - destruct W9 as [[code ->] _]. by eexists _, _.
Qed.

Lemma tun_adapter_tick_ok ms (p : Proc K) (a : TunAdapter A) c : heap p !! _tun a = Some c ->
  outcome (fun _ s' => exists f, touches c (p, a) s' f) (fun e _ => failed_call e) (da_tick ms (p, a)).
Proof.
  intros Hc. simpl. exists (fun x => x). constructor; simpl; [done|apply rtc_refl| |done].
  by rewrite (alter_fixed _ _ _ _ Hc) by (by destruct c).
Qed.

#[export] Instance tun_laws : AdapterLaws K A (TunAdapter A) := {
  adapter_throws := failed_call;
  law_base _ _ := eq_refl;
  law_read := tun_adapter_read_ok;
  law_write := tun_adapter_write_ok;
  law_tick := tun_adapter_tick_ok
}.
End tun.


(** ** Properties on a TUN device *)
Section tun_pair.
Context {KA AA : Type} `{Kernel KA} `{!PosixKernel KA} `{AddressOps AA}.
Context {KB AB DB : Type} `{DatagramAdapter KB AB DB} `{!PosixKernel KB} `{!AdapterLaws KB AB DB}.

(** C7: No turn of a socket's loop goes wrong by itself.  In every such execution, a turn
    of the loop of a socket on a TUN device ends normally, unless a system call fails or
    [poll] reports an error on a descriptor: no busy wait, no rejected write, no use of a
    missing connection, no packet and no segment on which the code throws. *)
Theorem socket_turn_safe pdA adA pnA anA `{!StreamKernel KA pnA} pdB adB pnB anB `{!StreamKernel KB pnB} WA WB cfgA cfgB
    (a0 : SocketState KA (TunAdapter AA)) (b0 : SocketState KB DB) (x : SocketState KA (TunAdapter AA) * SocketState KB DB)
    base_time :
  distinct pdA adA pnA anA pdB adB pnB anB -> size WA < 2147400000 -> size WB < 2147400000 ->
  tcp_config_ok cfgA -> tcp_config_ok cfgB ->
  pair_reachable pdA adA pnA anA pdB adB pnB anB WA WB cfgA cfgB a0 b0 x ->
  match tcp_turn base_time (fst x) with
  | (Ok _, _) => True
  | (Throw e, s') => honest (taken (snd x)) (snd s') ->
      (exists attempt code, e = SystemError attempt code) \/ e = RuntimeError "EventLoop: error on polled file descriptor"
  end.
Proof.
  intros Hd HWA HWB HcA HcB Hr. destruct (tcp_turn base_time (fst x)) as [[r|e] s'] eqn:Et; [done|]. intros Hh.
  destruct (turn_allowed pdA adA pnA anA pdB adB pnB anB WA WB cfgA cfgB Hd HWA HWB HcA HcB a0 b0 x base_time e s' Hr Et Hh)
    as [?|[?|?]]; auto.
Qed.
End tun_pair.

