(* ===== verification/SocketRun.v ===== *)
(** * SocketRun: two sockets at work

    A run of two sockets on simulated kernels (file [SimKernel]), for the witnesses of
    the theorems of file [Sockets]: the code of the event loop, the socket, the TUN
    adapter, the IPv4 and TCP codecs and the connection is evaluated from the opening
    handshake to the delivery of the bytes. *)

From Stdlib Require Import Strings.String Strings.Byte.
From stdpp Require Import relations.
From S2P Require Import Prelude WrappingIntegers ByteStream Parser TCPSegment TCPReceiver TCPSender TCPConnection.
From S2P Require Import Transmission EndToEnd Hosts IPv4 Adapters Address System FileDescriptor Socket EventLoop SpongeSocket.
From S2P Require Import SimKernel SegmentBounds Robustness SocketRefinement Sockets.

(** ** The stream of the simulated kernel *)

#[export, refine] Instance sim_stream : StreamKernel SimKernel STREAM_FD := {
  unread := stream
}.
Proof.
  - intros k count. cbn. destruct (Z.leb_spec count 0); [split; intros; simpl in *; lia|]. simpl.
    assert (1 <= transfer k count) by (unfold transfer; lia). split; [intros _; apply ztake_zdrop|].
    intros _ Hz. destruct (stream k) as [|x l]; [done|]. rewrite size_ztake in Hz by lia.
    rewrite size_cons in Hz. pose proof (size_nonneg l). lia.
  - intros k c Hq. destruct c; cbn; try done; simpl in Hq.
    + destruct (count <=? 0); [done|]. destruct (Z.eqb_spec fd STREAM_FD); [done|]. by destruct (ready k).
    + by destruct (schedule k) as [|[x|] rest].
  - intros k fds t i v Hi. cbn. intros Hv Hh _. exfalso. rewrite list_lookup_fmap, Hi in Hv. simpl in Hv.
    injection Hv as <-. unfold poll_answer in Hh. simpl in Hh. discriminate Hh.
Defined.

(** ** A run

    Two sockets on TUN devices: A connects and sends "ab", B listens.  Each side's
    network is the schedule of its kernel: the packets it is given, one per turn, are
    those the other side has written to its device. *)
Module Run.
Abbreviation Sock := (SocketState SimKernel (TunAdapter (Z * Z))).

Definition config (isn : Z) : TCPConfig := mkTCPConfig 1000 64000 64000 (Some (mkWrappingInt32 isn)).

Definition new_socket (data : bytes) (network : list (option bytes)) (base : FdAdapterBase (Z * Z)) : Sock :=
  (mkEventLoop [],
   (mkProc (mkSys (mkSimKernel data None network 1000) [])
      [mkCell (mkFDWrapper STREAM_FD false false 0 0) 1; mkCell (mkFDWrapper DEVICE_FD false false 0 0) 1],
    mkSpongeSocket 2%nat 0%nat (mkRecorded (mkTunAdapter 1%nat base) [] []) None false false false false false)).

Definition opened (isn : Z) (s : Sock) : Sock := snd (_initialize_TCP (config isn) s).
Definition connecting (s : Sock) : Sock := snd (on_world connect_now s).
Definition turn (s : Sock) : Sock := snd (tcp_turn 0 s).

(** The packets written to the device. *)
Definition packets (s : Sock) : list bytes :=
  concat (map (fun e => match fst e with sys_writev fd iov => if fd =? DEVICE_FD then [concat iov] else [] | _ => [] end)
            (history (os (fst (snd s))))).

Definition at_a : FdAdapterBase (Z * Z) := adapter_at (167772161, 1000) (167772162, 80) false.
Definition at_b : FdAdapterBase (Z * Z) := adapter_at (0, 80) (0, 0) true.

Definition a0 (network : list (option bytes)) : Sock := new_socket [x61; x62] network at_a.
Definition b0 (network : list (option bytes)) : Sock := new_socket [] network at_b.

(** What each side's network brings it. *)
Definition syn_packet : option bytes :=
  Eval vm_compute in head (packets (turn (connecting (opened 4294967295 (a0 []))))).
Definition syn_ack_packet : option bytes :=
  Eval vm_compute in head (packets (turn (turn (opened 7 (b0 [syn_packet]))))).
Definition data_packets : list bytes :=
  Eval vm_compute in tail (packets (turn (turn (turn (connecting (opened 4294967295 (a0 [None; syn_ack_packet]))))))).

Definition a_network : list (option bytes) := [None; syn_ack_packet].
Definition b_network : list (option bytes) := [syn_packet; None] ++ map Some data_packets.

(** The states: A before its third turn, after it; B after one, two, four and five turns. *)
Definition a1 : Sock := connecting (opened 4294967295 (a0 a_network)).
Definition b1 : Sock := opened 7 (b0 b_network).

(** Does the adapter of [s] give only what that of [s'] has taken? *)
Definition same_tcpb (s t : TCPSegment) : bool :=
  weqb (seqno (_header s)) (seqno (_header t)) && weqb (ackno (_header s)) (ackno (_header t)) &&
  Bool.eqb (ack (_header s)) (ack (_header t)) && Bool.eqb (rst (_header s)) (rst (_header t)) &&
  Bool.eqb (syn (_header s)) (syn (_header t)) && Bool.eqb (fin (_header s)) (fin (_header t)) &&
  (win (_header s) =? win (_header t)) && bool_decide (str (_payload s) = str (_payload t)).

Definition honestb (peer : list TCPSegment) (s : Sock) : bool :=
  forallb (fun seg => existsb (same_tcpb seg) peer) (seen (_datagram_adapter (snd (snd s)))).

Lemma weqb_ok a b : weqb a b = true -> a = b.
Proof. destruct a, b. unfold weqb. simpl. by intros ->%Z.eqb_eq. Qed.

Lemma same_tcpb_ok s t : same_tcpb s t = true -> same_tcp s t.
Proof.
  unfold same_tcpb. rewrite !andb_true_iff. intros (((((((H1 & H2) & H3) & H4) & H5) & H6) & H7) & H8).
  constructor; [by apply weqb_ok|by apply weqb_ok|by apply Bool.eqb_prop..|by apply Z.eqb_eq|by apply bool_decide_eq_true in H8].
Qed.

Lemma honestb_ok peer s : honestb peer s = true -> honest peer (snd s).
Proof.
  unfold honestb, honest. rewrite forallb_forall. intros Hf. apply Forall_forall. intros seg Hin.
  apply list_elem_of_In, Hf, existsb_exists in Hin as (t & Ht & Hs). exists t. split; [by apply list_elem_of_In|by apply same_tcpb_ok].
Qed.

(** Turns, each checked. *)
Definition goes (s : Sock) : bool := match tcp_turn 0 s with (Ok _, _) => true | _ => false end.

Lemma turn_step s : goes s = true -> sock_step s (turn s).
Proof.
  unfold goes, turn. destruct (tcp_turn 0 s) as [[r|e] s'] eqn:E; [|done]. intros _. by eapply sk_turn.
Qed.

Lemma turn_a (a b : Sock) : goes a = true -> honestb (taken b) (turn a) = true -> pair_step (a, b) (turn a, b).
Proof. intros Hg Hh. constructor; [by apply turn_step|by apply honestb_ok]. Qed.

Lemma turn_b (a b : Sock) : goes b = true -> honestb (taken a) (turn b) = true -> pair_step (a, b) (a, turn b).
Proof. intros Hg Hh. constructor; [by apply turn_step|by apply honestb_ok]. Qed.

Lemma connect_a (a b : Sock) : fst (on_world connect_now a) = Ok tt -> honestb (taken b) (connecting a) = true ->
  pair_step (a, b) (connecting a, b).
Proof.
  intros Hc Hh. constructor; [|by apply honestb_ok]. apply sk_connect. unfold connecting.
  destruct (on_world connect_now a) as [r s']. simpl in *. by subst.
Qed.

(** A's three turns and B's five, interleaved. *)
Definition x0 : Sock * Sock := (opened 4294967295 (a0 a_network), b1).
Definition x1 : Sock * Sock := (turn (turn (turn a1)), turn (turn (turn (turn (turn b1))))).

Lemma run_steps : rtc pair_step x0 x1.
Proof.
  unfold x0, x1, a1. eapply rtc_l; [apply connect_a; by vm_compute|].
  eapply rtc_l; [apply turn_a; by vm_compute|].
  do 2 (eapply rtc_l; [apply turn_b; by vm_compute|]).
  do 2 (eapply rtc_l; [apply turn_a; by vm_compute|]).
  do 3 (eapply rtc_l; [apply turn_b; by vm_compute|]).
  apply rtc_refl.
Qed.

Lemma new_socket_fresh data network base :
  fresh 0%nat 1%nat STREAM_FD DEVICE_FD data (new_socket data network base).
Proof.
  constructor; try done.
  - exists (mkCell (mkFDWrapper STREAM_FD false false 0 0) 1). split_and!; [done|done|unfold refs; simpl; lia].
  - exists (mkCell (mkFDWrapper DEVICE_FD false false 0 0) 1). split_and!; [done|done|unfold refs; simpl; lia].
  - constructor; try done. by intros c [= <-].
Qed.

Lemma config_is_ok isn : is_u32 isn -> tcp_config_ok (config isn).
Proof. intros Hi. constructor; simpl; [by intros i [= <-]|lia|done|done]. Qed.

Lemma descriptors_distinct : distinct 0%nat 1%nat STREAM_FD DEVICE_FD 0%nat 1%nat STREAM_FD DEVICE_FD.
Proof. done. Qed.

Lemma opened_ok isn s : fst (_initialize_TCP (config isn) s) = Ok tt -> _initialize_TCP (config isn) s = (Ok tt, opened isn s).
Proof. intros E. unfold opened. destruct (_initialize_TCP (config isn) s) as [r s']. simpl in *. by subst. Qed.

Lemma run_is_reachable : pair_reachable 0%nat 1%nat STREAM_FD DEVICE_FD 0%nat 1%nat STREAM_FD DEVICE_FD [x61; x62] []
  (config 4294967295) (config 7) (a0 a_network) (b0 b_network) x1.
Proof.
  exists x0. split; [|exact run_steps]. constructor; [apply new_socket_fresh..| |]; apply opened_ok; by vm_compute.
Qed.

Lemma a_size : size [x61; x62] < 2147400000.
Proof. by vm_compute. Qed.
Lemma b_size : size (@nil byte) < 2147400000.
Proof. by vm_compute. Qed.
Lemma a_config : tcp_config_ok (config 4294967295).
Proof. apply config_is_ok. by split; vm_compute. Qed.
Lemma b_config : tcp_config_ok (config 7).
Proof. apply config_is_ok. by split; vm_compute. Qed.
End Run.

Lemma sockets_refine_hosts_witness : exists rA rB a b,
  net_reachable [x61; x62] [] (Run.config 4294967295) (Run.config 7) rA rB a b /\ h_read b = [x61; x62].
Proof.
  pose proof (sockets_refine_hosts (KA := SimKernel) (AA := Z * Z) (DA := TunAdapter (Z * Z)) (KB := SimKernel) (AB := Z * Z) (DB := TunAdapter (Z * Z))
    0%nat 1%nat STREAM_FD DEVICE_FD 0%nat 1%nat STREAM_FD DEVICE_FD [x61; x62] []
    (Run.config 4294967295) (Run.config 7) Run.descriptors_distinct Run.a_size Run.b_size Run.a_config Run.b_config
    (Run.a0 Run.a_network) (Run.b0 Run.b_network) Run.x1 Run.run_is_reachable) as P.
  destruct P as (rA & rB & a & b & Hn & _ & (_ & _ & Hr & _)).
  exists rA, rB, a, b. split; [exact Hn|]. rewrite <- Hr. vm_compute. reflexivity.
Defined.

Lemma sockets_deliver_witness :
  to_owner_bytes STREAM_FD (snd Run.x1) = [x61; x62] /\
  to_owner_bytes STREAM_FD (snd Run.x1) `prefix_of` [x61; x62].
Proof.
  split; [vm_compute; reflexivity|].
  pose proof (sockets_deliver (KA := SimKernel) (AA := Z * Z) (DA := TunAdapter (Z * Z)) (KB := SimKernel) (AB := Z * Z) (DB := TunAdapter (Z * Z))
    0%nat 1%nat STREAM_FD DEVICE_FD 0%nat 1%nat STREAM_FD DEVICE_FD [x61; x62] []
    (Run.config 4294967295) (Run.config 7) Run.descriptors_distinct Run.a_size Run.b_size Run.a_config Run.b_config
    (Run.a0 Run.a_network) (Run.b0 Run.b_network) Run.x1 Run.run_is_reachable) as P.
  exact (proj1 (proj1 P)).
Defined.

Lemma socket_turn_safe_witness :
  match tcp_turn 0 (fst Run.x1) with
  | (Ok _, _) => True
  | (Throw e, s') => honest (taken (snd Run.x1)) (snd s') ->
      (exists attempt code, e = SystemError attempt code) \/ e = RuntimeError "EventLoop: error on polled file descriptor"
  end.
Proof.
  pose proof (socket_turn_safe (KA := SimKernel) (AA := Z * Z) (KB := SimKernel) (AB := Z * Z) (DB := TunAdapter (Z * Z))
    0%nat 1%nat STREAM_FD DEVICE_FD 0%nat 1%nat STREAM_FD DEVICE_FD [x61; x62] []
    (Run.config 4294967295) (Run.config 7)
    (Run.a0 Run.a_network) (Run.b0 Run.b_network) Run.x1 0 Run.descriptors_distinct Run.a_size Run.b_size Run.a_config Run.b_config Run.run_is_reachable) as P.
  exact P.
Defined.
