(* ===== verification/Programs.v ===== *)
(** * Programs: a TCP connection between two terminals

    Models [main] of [apps/tcp_ipv4.cc], [apps/tcp_udp.cc], [apps/tcp_ip_ethernet.cc] and
    [apps/webget.cc]: the arguments are read (file [CommandLine]), the device or the
    socket is opened, a [TCPSpongeSocket] is made on it, connected or left to accept a
    connection, [bidirectional_stream_copy] runs on it (in [webget], [get_URL]), the
    connection is waited for, and everything is destroyed.

    The owner and the thread of a socket meet in the kernel and when the thread is
    joined: [thread] is what its function does until then.  The usage texts and the
    messages on [cerr] are left out; the random generator of a lossy adapter is an
    argument.

    The theorem composes the two sides: what the program at one end prints is a
    beginning of what the program at the other end reads from its input. *)

From Stdlib Require Import Strings.String.
From stdpp Require Import relations.
From S2P Require Import Prelude ByteStream TCPSegment TCPConnection EndToEnd Hosts Adapters Ethernet Address System FileDescriptor Socket.
From S2P Require Import EventLoop StreamCopy CommandLine Native Webget SpongeSocket SimKernel SocketRefinement Sockets SocketRun.

(** ** The owner of a socket *)

Section owner.
Context {K A D : Type} `{Kernel K} {DA : DatagramAdapter K A D}.
Abbreviation Sock := (TCPSpongeSocket D).
Abbreviation W := (World K Sock).
Context (thread : M W unit).

(** What [connect] or [listen_and_accept], the copying and [wait_until_closed] do. *)
Definition use_socket (fuel turns : nat) (listen : bool) (c_fsm : TCPConfig) (c_filt : FdAdapterConfig A)
    : M (EventLoop K Sock * W) unit :=
  do* (if listen then listen_and_accept fuel c_fsm c_filt else sponge_connect fuel c_fsm c_filt);
  let* s := mgets (fun x => snd (snd x)) in
  do* on_world (on_proc (bidirectional_stream_copy turns (_owner s)));
  on_world (wait_until_closed thread).

(** After the body of the destructor: the members, the last one first, and the base. *)
Definition destroy_members : M (EventLoop K Sock * W) unit :=
  let* rules := mgets (fun x => _rules (fst x)) in
  let* s := mgets (fun x => snd (snd x)) in
  do* fold_right (fun r rest => do* on_world (on_proc (destruct_fd (rule_fd r))); rest) (mret tt) rules;
  do* on_world (on_proc (destruct_fd (da_fd (_datagram_adapter s))));
  do* on_world (on_proc (destruct_fd (_thread_data s)));
  on_world (on_proc (destruct_fd (_owner s))).

(** The scope of a socket. *)
Definition in_scope {B : Type} (body : M (EventLoop K Sock * W) B) (s : Sock) : M (Proc K) B := fun p =>
  let '(r, x) := body (mkEventLoop [], (p, s)) in
  let '(_, x) := on_world (destruct_socket thread) x in
  let '(_, x) := destroy_members x in
  (r, fst (snd x)).

Definition tcp_program (fuel turns : nat) (listen : bool) (c_fsm : TCPConfig) (c_filt : FdAdapterConfig A) (adapter : D)
    : M (Proc K) Z :=
  let* tcp_socket := sponge_socket adapter in
  do* in_scope (use_socket fuel turns listen c_fsm c_filt) tcp_socket;
  mret 0.
End owner.

(** ** The programs *)

Section programs.
Context {K : Type} `{Kernel K} {A : Type} `{AddressOps A}.
Context (address_of : string -> string -> result A) (loss_rate : string -> Z).
Context {R : Type} (rng : R -> Z * R) (seeded : R).       (* [get_random_generator()] *)

(** Leaving by [exit], or going on. *)
Definition after {B : Type} (m : program B) (k : B -> M (Proc K) Z) : M (Proc K) Z :=
  match m with
  | Returns b => k b
  | Exits status _ => mret status
  | Fails e => mthrow e
  end.

(** The handler of [main]. *)
Definition guarded {S : Type} (m : M S Z) : M S Z :=
  mcatch m (fun e => match e with OutOfFuel => mthrow OutOfFuel | _ => mret 1 end).

(** *** [tcp_ipv4] *)

Definition ipv4_main (fuel turns : nat) (thread : M (World K (TCPSpongeSocket (LossyFdAdapter R (TunAdapter A)))) unit)
    (argv : list string) : M (Proc K) Z :=
  guarded
    (if argc argv <? 3 then mret 1 else
     let* r := on_os (sys sys_random) in
     after (ipv4_get_config address_of loss_rate (ret r) argv) (fun '(c_fsm, c_filt, listen, tun_dev_name) =>
       let* tun := open_tun (default TUN_DFLT tun_dev_name) in
       tcp_program (DA := lossy_datagram_adapter rng) thread fuel turns listen c_fsm c_filt
         (mkLossy seeded (mkTunAdapter tun default_base)))).

(** *** [tcp_udp] *)

Context (of_address : Address -> A) (sock_address : A -> Address).

Definition udp_main (fuel turns : nat) (thread : M (World K (TCPSpongeSocket (LossyFdAdapter R UdpAdapter))) unit)
    (argv : list string) : M (Proc K) Z :=
  guarded
    (if argc argv <? 3 then mret 1 else
     after (udp_get_config address_of loss_rate argv) (fun '(c_fsm, c_filt, listen) =>
       let* udp_sock := open_udp in
       do* (if (listen : bool)
            then mcatch (socket_bind udp_sock (sock_address (Adapters.source c_filt))) (fun e => do* destruct_fd udp_sock; mthrow e)
            else mret tt);
       tcp_program (DA := lossy_datagram_adapter (H0 := udp_datagram_adapter of_address sock_address) rng)
         thread fuel turns listen c_fsm c_filt (mkLossy seeded (mkUdpAdapter udp_sock default_base)))).

(** *** [tcp_ip_ethernet] *)

Definition ethernet_main (fuel turns : nat) (thread : M (World K (TCPSpongeSocket (TapAdapter A))) unit)
    (argv : list string) : M (Proc K) Z :=
  guarded
    (if argc argv <? 3 then mret 1 else
     let* local_ethernet_address := on_os random_private_ethernet_address in
     let* r := on_os (sys sys_random) in
     after (ethernet_get_config address_of (ret r) argv) (fun '(c_fsm, c_filt, next_hop, tap_dev_name) =>
       let* tap := open_tap (default TAP_DFLT tap_dev_name) in
       let* adapter := open_ethernet_adapter tap local_ethernet_address (Adapters.source c_filt) next_hop in
       tcp_program thread fuel turns false c_fsm c_filt adapter)).

(** *** [webget] *)

Abbreviation Sock := (TCPSpongeSocket (TunAdapter A)).
Abbreviation S := ((EventLoop K Sock * World K Sock) * bytes)%type.

Definition with_socket {B : Type} (m : M (EventLoop K Sock * World K Sock) B) : M S B :=
  zoom fst (fun s x => (x, snd s)) m.

(** Code that runs on the process and its output. *)
Definition with_output {B : Type} (m : M (Proc K * bytes) B) : M S B :=
  zoom (fun s => (fst (snd (fst s)), snd s)) (fun s t => ((fst (fst s), (fst t, snd (snd (fst s)))), snd t)) m.

(** The rest of [wait_until_closed], after the shutdown. *)
Definition join_thread (thread : M (World K Sock) unit) : M (World K Sock) unit :=
  let* s := mgets snd in
  if _tcp_thread s then do* thread; assign (fun s => set_thread s false) else mret tt.

(** [get_URL] from the connection on. *)
Definition fetch (fuel turns : nat) (thread : M (World K Sock) unit) (addr : A) (host path : string) : M S unit :=
  do* with_socket (cs144_connect address_of fuel addr);
  let* s := mgets (fun s => snd (snd (fst s))) in
  do* with_output (get_URL turns (_owner s) host path);
  with_socket (on_world (join_thread thread)).

(** There is a program name, so that the call of [abort] is not reached. *)
Definition webget_main (fuel turns : nat) (thread : M (World K Sock) unit) (argv : list string) : M (Proc K * bytes) Z :=
  guarded
    (if negb (argc argv =? 3) then mret 1 else
     let* host := mlift (argument argv 1) in
     let* path := mlift (argument argv 2) in
     let* addr := mlift (address_of host "http") in
     let* sock := in_process cs144_socket in
     do* (fun t =>
       let '(r, x) := fetch fuel turns thread addr host path ((mkEventLoop [], (fst t, sock)), snd t) in
       let '(_, y) := on_world (destruct_socket thread) (fst x) in
       let '(_, y) := destroy_members y in
       (r, (fst (snd y), snd x)));
     mret 0).
End programs.

(** ** How the programs end *)

(** The exit codes of the options. *)
Definition exits_01 {B : Type} (m : program B) : Prop :=
  match m with Exits status _ => status = 0 \/ status = 1 | _ => True end.

Lemma exits_bind {B C : Type} (m : program B) (k : B -> program C) : exits_01 m -> (forall b, exits_01 (k b)) -> exits_01 (pbind m k).
Proof. destruct m; simpl; auto. Qed.

Lemma exits_lift {B : Type} (r : result B) : exits_01 (of_result r).
Proof. by destruct r. Qed.

Lemma exits_arg argv i : exits_01 (arg argv i).
Proof. unfold arg. by repeat case_match. Qed.

Lemma exits_value argv curr err f o : exits_01 (with_value argv curr err f o).
Proof.
  apply exits_bind; [unfold check_argc; case_match; simpl; auto|]. intros _. apply exits_bind; [apply exits_arg|]. done.
Qed.

Lemma exits_other s : exits_01 (other_option s).
Proof. unfold other_option. case_match; simpl; auto. Qed.

Create HintDb exits.
#[local] Hint Resolve exits_lift exits_arg exits_value exits_other : exits.

(** Through the definitions, one statement after the other. *)
Ltac exits_tac :=
  repeat first
    [ progress intros
    | solve [eauto with exits]
    | apply exits_bind
    | match goal with
      | |- exits_01 (if ?b then _ else _) => destruct b
      | |- exits_01 (let '(_, _) := ?x in _) => destruct x
      | |- exits_01 (Exits _ _) => simpl; auto
      | |- exits_01 (Returns _) => exact I
      end ].

Lemma exits_options option fuel argv curr o : (forall curr o, exits_01 (option argv curr o)) ->
  exits_01 (parse_options option fuel argv curr o).
Proof.
  intros Ho. revert curr o. induction fuel as [|fuel IH]; intros curr o; simpl; destruct (2 <? _); try done.
  apply exits_bind; [apply Ho|]. intros [o' curr']. apply IH.
Qed.

Section status.
Context {K : Type} `{Kernel K} {A : Type} `{AddressOps A}.
Context (address_of : string -> string -> result A) (loss_rate : string -> Z).

Lemma ipv4_exits random argv : exits_01 (ipv4_get_config address_of loss_rate random argv).
Proof.
  apply exits_bind; [apply exits_options; intros; unfold ipv4_option; exits_tac|]. intros [o curr]. unfold ipv4_positional. exits_tac.
Qed.

Lemma udp_exits argv : exits_01 (udp_get_config address_of loss_rate argv).
Proof.
  apply exits_bind; [apply exits_options; intros; unfold udp_option; exits_tac|]. intros [o curr]. unfold udp_positional. exits_tac.
Qed.

Lemma ethernet_exits random argv : exits_01 (ethernet_get_config address_of random argv).
Proof.
  apply exits_bind; [apply exits_options; intros; unfold ethernet_option; exits_tac|]. intros [o curr]. unfold ethernet_positional. exits_tac.
Qed.
End status.

(** A computation whose value is an exit status. *)
Definition gives_01 {S : Type} (m : M S Z) : Prop := forall s, match fst (m s) with Ok z => z = 0 \/ z = 1 | Throw _ => True end.

Lemma gives_bind {S B : Type} (m : M S B) (k : B -> M S Z) : (forall b, gives_01 (k b)) -> gives_01 (mbind m k).
Proof. intros Hk s. unfold mbind. destruct (m s) as [[b|e] s']; [apply Hk|done]. Qed.

Lemma gives_ret {S : Type} (z : Z) : z = 0 \/ z = 1 -> gives_01 (mret z : M S Z).
Proof. by intros Hz s. Qed.

Lemma gives_after {K : Type} {B : Type} (m : program B) (k : B -> M (Proc K) Z) : exits_01 m -> (forall b, gives_01 (k b)) -> gives_01 (after m k).
Proof. intros Hm Hk. destruct m; [apply Hk|by apply gives_ret|done]. Qed.

Definition ends_well {S : Type} (m : M S Z) : Prop := forall s, fst (m s) = Throw OutOfFuel \/ fst (m s) = Ok 0 \/ fst (m s) = Ok 1.

Lemma guarded_ends {S : Type} (m : M S Z) : gives_01 m -> ends_well (guarded m).
Proof.
  intros Hm s. unfold guarded, mcatch. specialize (Hm s). destruct (m s) as [[z|e] s']; [destruct Hm as [->| ->]; auto|]. destruct e; simpl; auto.
Qed.

#[local] Hint Resolve ipv4_exits udp_exits ethernet_exits : exits.

Ltac status_tac :=
  apply guarded_ends; repeat first
    [ progress intros
    | apply gives_after; [by eauto with exits|]
    | apply gives_bind
    | apply gives_ret; auto; fail
    | match goal with
      | |- gives_01 (if ?b then _ else _) => destruct b
      | |- gives_01 (let '(_, _) := ?x in _) => destruct x
      end ].

(** However they are called, whatever the kernel answers and whatever the thread does,
    the programs end with one of their two exit codes, if they end. *)
Theorem programs_status {K : Type} `{Kernel K} {A : Type} `{AddressOps A} address_of loss_rate {R : Type} (rng : R -> Z * R) seeded
    of_address sock_address fuel turns argv thread1 thread2 thread3 thread4 :
  ends_well (ipv4_main (K := K) (A := A) address_of loss_rate rng seeded fuel turns thread1 argv) /\
  ends_well (udp_main (K := K) (A := A) address_of loss_rate rng seeded of_address sock_address fuel turns thread2 argv) /\
  ends_well (ethernet_main (K := K) (A := A) address_of fuel turns thread3 argv) /\
  ends_well (webget_main (K := K) (A := A) address_of fuel turns thread4 argv).
Proof. split_and!; unfold ipv4_main, udp_main, ethernet_main, webget_main, tcp_program; status_tac. Qed.

(** ** From one terminal to the other *)

(** The owner's part of a program: [bidirectional_stream_copy] on its end [d] of the
    pair, with the number [n], has made the calls [tr]. *)
Record copying {K : Type} `{Kernel K} (turns : nat) (d : FileDescriptor) (p : Proc K) (n : Z) (tr : list (syscall * sysret)) : Prop := {
  cp_cell : exists c, heap p !! d = Some c /\ (0 < uses c)%nat /\ _fd (wrapper c) = n;
  cp_number : n <> STDIN_FILENO /\ n <> STDOUT_FILENO;
  cp_calls : history (os (snd (bidirectional_stream_copy turns d p))) = history (os p) ++ tr
}.

Lemma copying_spec {K : Type} `{PosixKernel K} turns d (p : Proc K) n tr : copying turns d p n tr ->
  sent n tr `prefix_of` received STDIN_FILENO tr /\ sent STDOUT_FILENO tr `prefix_of` received n tr /\
  (Exists (fun e => fst e = sys_shutdown n SHUT_WR) tr -> sent n tr = received STDIN_FILENO tr).
Proof.
  intros [(c & Hc & Hu & <-) [N0 N1] Htr]. pose proof (stream_copy_spec turns d p c Hc Hu N0 N1) as Hs. cbn zeta in Hs.
  destruct (bidirectional_stream_copy turns d p) as [r p']. destruct Hs as (tr' & Htr' & P1 & P2 & P3 & _). cbn [snd] in Htr.
  rewrite Htr in Htr'. apply app_inv_head in Htr' as <-. done.
Qed.

Section terminals.
Context {KA AA DA : Type} `{DatagramAdapter KA AA DA} `{!PosixKernel KA} `{!AdapterLaws KA AA DA}.
Context {KB AB DB : Type} `{DatagramAdapter KB AB DB} `{!PosixKernel KB} `{!AdapterLaws KB AB DB}.
Context (pdA adA : FileDescriptor) (pnA anA : Z) `{!StreamKernel KA pnA}.
Context (pdB adB : FileDescriptor) (pnB anB : Z) `{!StreamKernel KB pnB}.
Context (Hd : distinct pdA adA pnA anA pdB adB pnB anB).
Context {OA OB : Type} `{PosixKernel OA} `{PosixKernel OB}.

(** C5: From one terminal to the other.  Two programs on [TCPSpongeSocket]s: each owner
    copies between its standard streams and its end of the socket pair, each thread runs
    the connection, on any kernels and over a network that loses, repeats, delays and
    reorders segments; the pair hands the threads what the owners have written to it, and
    the owners no more than the threads have ([WA] and [WB] are what the owners have
    written by then).  Then at every moment what a program has
    printed is a beginning of what the other one has read from its input.  And when an
    owner has shut down its end and the other one's inbound stream is at its end, all of
    the input has been given to the other owner. *)
Theorem programs_deliver WA WB cfgA cfgB (a0 : SocketState KA DA) (b0 : SocketState KB DB) x :
  size WA < 2147400000 -> size WB < 2147400000 -> tcp_config_ok cfgA -> tcp_config_ok cfgB ->
  pair_reachable pdA adA pnA anA pdB adB pnB anB WA WB cfgA cfgB a0 b0 x ->
  forall turnsA dA (pA : Proc OA) nA trA turnsB dB (pB : Proc OB) nB trB,
  copying turnsA dA pA nA trA -> copying turnsB dB pB nB trB ->
  WA = sent nA trA -> received nA trA `prefix_of` to_owner_bytes pnA (fst x) ->
  WB = sent nB trB -> received nB trB `prefix_of` to_owner_bytes pnB (snd x) ->
  (sent STDOUT_FILENO trB `prefix_of` received STDIN_FILENO trA /\ sent STDOUT_FILENO trA `prefix_of` received STDIN_FILENO trB) /\
  (Exists (fun e => fst e = sys_shutdown nA SHUT_WR) trA ->
   forall c, _tcp (snd (snd (snd x))) = Some c -> eof (inbound_stream c) = true ->
   to_owner_bytes pnB (snd x) = received STDIN_FILENO trA).
Proof.
  intros HWA HWB HcA HcB Hr turnsA dA pA nA trA turnsB dB pB nB trB CA CB EA RA EB RB.
  destruct (copying_spec _ _ _ _ _ CA) as (A1 & A2 & A3). destruct (copying_spec _ _ _ _ _ CB) as (B1 & B2 & _).
  destruct (owners_given pdA adA pnA anA pdB adB pnB anB WA WB cfgA cfgB Hd HWA HWB HcA HcB a0 b0 x Hr) as ((G1 & G2) & G3 & _).
  split; [split|].
  - rewrite B2, RB, G1, EA. done.
  - rewrite A2, RA, G3, EB. done.
  - intros Hs c Ec He. rewrite (G2 c Ec He), EA. auto.
Qed.
End terminals.

(** The owners of the run of file [SocketRun]: A's input is "ab", B's is empty. *)
Module Owners.
Definition proc (input peer : bytes) : Proc Pipes.PipeKernel :=
  mkProc (mkSys (Pipes.mkPipes input peer) []) [mkCell (mkFDWrapper 3 false false 0 0) 1].

Definition calls (p : Proc Pipes.PipeKernel) : list (syscall * sysret) := history (os (snd (bidirectional_stream_copy 10 0%nat p))).

Lemma copies input peer : copying 10 0%nat (proc input peer) 3 (calls (proc input peer)).
Proof. constructor; [exists (mkCell (mkFDWrapper 3 false false 0 0) 1); split_and!; [done|simpl; lia|done]|done|done]. Qed.
End Owners.

Lemma programs_deliver_witness :
  sent STDOUT_FILENO (Owners.calls (Owners.proc [] [x61; x62])) = [x61; x62] /\
  sent STDOUT_FILENO (Owners.calls (Owners.proc [] [x61; x62])) `prefix_of` received STDIN_FILENO (Owners.calls (Owners.proc [x61; x62] [])).
Proof.
  split; [vm_compute; reflexivity|].
  pose proof (programs_deliver (KA := SimKernel) (AA := Z * Z) (DA := TunAdapter (Z * Z)) (KB := SimKernel) (AB := Z * Z) (DB := TunAdapter (Z * Z))
    0%nat 1%nat STREAM_FD DEVICE_FD 0%nat 1%nat STREAM_FD DEVICE_FD Run.descriptors_distinct
    [x61; x62] [] (Run.config 4294967295) (Run.config 7) (Run.a0 Run.a_network) (Run.b0 Run.b_network) Run.x1
    Run.a_size Run.b_size Run.a_config Run.b_config Run.run_is_reachable
    10 0%nat (Owners.proc [x61; x62] []) 3 _ 10 0%nat (Owners.proc [] [x61; x62]) 3 _
    (Owners.copies [x61; x62] []) (Owners.copies [] [x61; x62])) as P.
  apply P.
  - vm_compute; reflexivity.
  - exists []. vm_compute; reflexivity.
  - vm_compute; reflexivity.
  - exists []. vm_compute; reflexivity.
Defined.
