(* ===== verification/Lab7.v ===== *)
(** * Lab7: a host behind a router

    Models [apps/lab7.cc]: a TCP socket whose segments travel in Ethernet frames over a
    pair of sockets to a router, which is connected to the router of another such
    program through [bouncer].  The adapter is that of file [NetworkInterface] with one
    end of the pair in place of the TAP device; the network's thread moves frames between
    the other end, the router and the Internet in an event loop.

    The threads meet in the kernel and where they are joined: [thread] and [network] are
    what they do until then.  The values of [exit_flag] that the network's thread sees
    are an argument, one for each turn of its loop.  What is printed on [cerr] is left
    out, but not the summary of a frame, which is computed for it.

    In this repository the methods of the interface and of the router are placeholders:
    the theorem is that the network's thread never sends anything. *)

From Stdlib Require Import Strings.String.
From stdpp Require Import relations.
From S2P Require Import Prelude Parser TCPSegment TCPConnection IPv4 Ethernet Adapters Address Printers NetworkInterface Robustness.
From S2P Require Import System SimKernel FileDescriptor Socket EventLoop StreamCopy CommandLine Native NetworkSimulator SpongeSocket Programs.

(** [summary], of this program: with the header of a TCP segment. *)
Definition frame_summary (frame : EthernetFrame) : result string :=
  let ret := ethernet_header_to_string (frame_header frame) in
  if type (frame_header frame) =? TYPE_IPv4 then
    let! (res, dgram) := datagram_parse default_datagram (buffer_of (concatenate (frame_payload frame))) in
    if bool_decide (res = NoError) then
      let ret := (ret ++ " " ++ ipv4_header_summary (dgram_header dgram))%string in
      if proto (dgram_header dgram) =? PROTO_TCP then
        let! (res, tcp_seg) := segment_parse default_segment (buffer_of (concatenate (dgram_payload dgram))) (pseudo_cksum (dgram_header dgram)) in
        Ok (if bool_decide (res = NoError) then (ret ++ " " ++ tcp_header_summary (_header tcp_seg))%string else ret)
      else Ok ret
    else Ok (ret ++ " (bad IPv4)")%string
  else if type (frame_header frame) =? TYPE_ARP then
    let! payload := bufferlist_to_buffer (frame_payload frame) in
    let! (res, arp) := arp_parse default_arp payload in
    Ok (if bool_decide (res = NoError) then ret ++ " " ++ arp_to_string arp else ret ++ " (bad ARP)")%string
  else Ok ret.

(** ** NetworkInterfaceAdapter *)

Section adapter.
Context {K : Type} `{Kernel K} {A : Type} `{AddressOps A}.

Record InterfaceAdapter : Type := mkInterfaceAdapter {
  ia_adapter : @EthernetAdapter A;      (* the base, [_interface] and [_next_hop] *)
  ia_first : FileDescriptor;
  ia_second : FileDescriptor
}.

Definition construct_interface_adapter (ethernet_address : EthernetAddress) (ip_address next_hop : A) : M (Proc K) InterfaceAdapter :=
  let* (first, second) := socket_pair_helper SOCK_DGRAM in
  mret (mkInterfaceAdapter (mkEthernetAdapter default_base (construct_interface ethernet_address ip_address) next_hop) first second).

(** The methods are those of [TCPOverIPv4OverEthernetAdapter], with
    [_data_socket_pair.first] in place of the device. *)
Definition as_tap {B : Type} (m : M (Proc K * TapAdapter A) B) : M (Proc K * InterfaceAdapter) B :=
  zoom (fun s => (fst s, mkTapAdapter (ia_first (snd s)) (ia_adapter (snd s))))
       (fun s t => (fst t, mkInterfaceAdapter (tap_base (snd t)) (ia_first (snd s)) (ia_second (snd s)))) m.

Definition interface_send_pending : M (Proc K * InterfaceAdapter) unit := as_tap tap_send_pending.
Definition interface_adapter_read : M (Proc K * InterfaceAdapter) (option TCPSegment) := as_tap tap_adapter_read.
Definition interface_adapter_write (seg : TCPSegment) : M (Proc K * InterfaceAdapter) unit := as_tap (tap_adapter_write seg).
Definition interface_adapter_tick (ms_since_last_tick : Z) : M (Proc K * InterfaceAdapter) unit :=
  as_tap (tap_adapter_tick ms_since_last_tick).

#[export] Instance interface_datagram_adapter : DatagramAdapter K A InterfaceAdapter := {
  da_fd := ia_first;
  da_read := interface_adapter_read;
  da_write := interface_adapter_write;
  da_tick := interface_adapter_tick;
  da_base a := _base (ia_adapter a);
  da_set_base a b := mkInterfaceAdapter (mkEthernetAdapter b (_interface (ia_adapter a)) (_next_hop (ia_adapter a))) (ia_first a) (ia_second a)
}.

Definition frame_fd (a : InterfaceAdapter) : FileDescriptor := ia_second a.
End adapter.
Arguments InterfaceAdapter : clear implicits.

(** ** TCPSocketLab7 *)

Section socket.
Context {K : Type} `{Kernel K} {A : Type} `{AddressOps A}.
Context (show : A -> string).                             (* [to_string()] *)

Abbreviation Sock := (TCPSpongeSocket (InterfaceAdapter A)).

(** The socket and [_local_address]. *)
Abbreviation L := ((EventLoop K Sock * World K Sock) * A)%type.

Definition in_socket {B : Type} (m : M (EventLoop K Sock * World K Sock) B) : M L B := zoom fst (fun s x => (x, snd s)) m.

(** [_local_address = Address{_local_address.ip(), port}] *)
Definition set_local_port (p : Z) : M L A :=
  let* local := mgets snd in
  let local := from_quad (ipv4_numeric local) p in
  do* mmodify (fun s => (fst s, local));
  mret local.

Definition lab7_connect (fuel : nat) (address : A) : M L unit :=
  let* r := in_socket (on_world (on_proc (on_os (sys sys_random)))) in
  let* local := set_local_port (u16 (ret r)) in
  in_socket (sponge_connect fuel default_config (mkFdAdapterConfig local address 0 0)).

Definition lab7_bind (address : A) : M L unit :=
  let* local := mgets snd in
  if negb (ipv4_numeric address =? ipv4_numeric local)
  then mthrow (RuntimeError ("Cannot bind to " ++ show address)%string) else
  do* set_local_port (port address);
  mret tt.

Definition lab7_listen_and_accept (fuel : nat) : M L unit :=
  let* local := mgets snd in
  in_socket (listen_and_accept fuel default_config (mkFdAdapterConfig local (from_quad 0 0) 0 0)).
End socket.

(** ** The router *)

Section router.
Context {A : Type} `{AddressOps A} (ip : string -> result A).      (* [Address{ip}] *)
Context {R : Type} (rd : R -> Z * R).

(** [router.add_interface({random_router_ethernet_address(), {address}})] *)
Definition add_router_interface (address : string) (s : @Router A * R) : result (Z * (@Router A * R)) :=
  let '(ethernet_address, r) := random_router_ethernet_address rd (snd s) in
  let! a := ip address in
  let '(router, n) := add_interface (fst s) (mkAsyncNetworkInterface (construct_interface ethernet_address a) []) in
  Ok (n, (router, r)).

(** [router.add_route(Address{prefix}.ipv4_numeric(), length, next_hop, n)] *)
Definition add_router_route (prefix : string) (prefix_length : Z) (next_hop : option string) (n : Z) (router : @Router A) : result (@Router A) :=
  let! p := ip prefix in
  let! h := match next_hop with Some h => let! a := ip h in Ok (Some a) | None => Ok None end in
  Ok (add_route router (ipv4_numeric p) prefix_length h n).

(** The router, [host_side], [internet_side] and the generator. *)
Definition set_up_router (is_client : bool) (r : R) : result (@Router A * Z * Z * R) :=
  if is_client then
    let! (host_side, s) := add_router_interface "192.168.0.1" (mkRouter [], r) in
    let! (internet_side, s) := add_router_interface "10.0.0.192" s in
    let! router := add_router_route "192.168.0.0" 16 None host_side (fst s) in
    let! router := add_router_route "10.0.0.0" 8 None internet_side router in
    let! router := add_router_route "172.16.0.0" 12 (Some "10.0.0.172"%string) internet_side router in
    Ok (router, host_side, internet_side, snd s)
  else
    let! (host_side, s) := add_router_interface "172.16.0.1" (mkRouter [], r) in
    let! (internet_side, s) := add_router_interface "10.0.0.172" s in
    let! router := add_router_route "172.16.0.0" 12 None host_side (fst s) in
    let! router := add_router_route "10.0.0.0" 8 None internet_side router in
    let! router := add_router_route "192.168.0.0" 16 (Some "10.0.0.192"%string) internet_side router in
    Ok (router, host_side, internet_side, snd s).
End router.

(** ** The network's thread *)

Section network.
Context {K : Type} `{Kernel K} {A : Type} `{AddressOps A}.
Context (frames internet : FileDescriptor) (bounce_address : Address) (host_side internet_side : Z) (debug : bool).

Abbreviation W := (World K (@Router A)).
Abbreviation Loop := (EventLoop K (@Router A)).

(** [router.interface(n)] and its assignment by reference *)
Definition side (n : Z) : M W (@AsyncNetworkInterface A) := let* r := mgets snd in mlift (interface r n).
Definition set_side (n : Z) (i : AsyncNetworkInterface) : M W unit :=
  mmodify (fun w => (fst w, mkRouter (<[Z.to_nat n := i]> (_interfaces (snd w))))).

Definition queue_of (n : Z) : M W (list EthernetFrame) := let* i := side n in mret (_frames_out (_interface_of i)).
Definition has_frames (n : Z) : M W bool := let* q := queue_of n in mret (match q with [] => false | _ => true end).

(** [f.front()]; on an empty queue it is undefined. *)
Definition front (n : Z) : M W EthernetFrame :=
  let* q := queue_of n in match q with frame :: _ => mret frame | [] => mthrow OutOfBounds end.
Definition pop (n : Z) : M W unit :=
  let* i := side n in
  set_side n (mkAsyncNetworkInterface (with_frames_out (_interface_of i) (tail (_frames_out (_interface_of i)))) (_datagrams_out i)).

Definition print_frame (frame : EthernetFrame) : M W unit :=
  if debug then do* mlift (frame_summary frame); mret tt else mret tt.

(** Frames from the host, or from the Internet, to the router. *)
Definition handle_frame (n : Z) (data : bytes) : M W unit :=
  let* (res, frame) := mlift (frame_parse default_frame (buffer_of data)) in
  if negb (bool_decide (res = NoError)) then mret tt else
  do* print_frame frame;
  let* i := side n in
  do* set_side n (async_recv_frame i frame);
  let* router := mgets snd in
  let* router := mlift (route router) in
  mmodify (fun w => (fst w, router)).

Definition frame_in (d : FileDescriptor) (n : Z) : M W unit :=
  let* data := on_proc (fd_read d NPOS) in
  handle_frame n data.

Definition frame_to_host : M W unit :=
  let* f := front host_side in
  do* print_frame f;
  do* on_proc (fd_write frames (views_of (frame_serialize f)) true);
  pop host_side.

Definition frame_to_internet : M W unit :=
  let* f := front internet_side in
  do* print_frame f;
  do* on_proc (sendto internet bounce_address (views_of (frame_serialize f)));
  pop internet_side.

Definition from_host : Rule K (@Router A) := mkRule frames In (frame_in frames host_side) (mret true) (mret tt).
Definition to_host : Rule K (@Router A) := mkRule frames Out frame_to_host (has_frames host_side) (mret tt).
Definition to_internet : Rule K (@Router A) := mkRule internet Out frame_to_internet (has_frames internet_side) (mret tt).
Definition from_internet : Rule K (@Router A) := mkRule internet In (frame_in internet internet_side) (mret true) (mret tt).

(** [event_loop.add_rule(...)] for each of a list of rules *)
Fixpoint add_rules (l : list (Rule K (@Router A))) : M (Loop * W) unit :=
  match l with
  | [] => mret tt
  | r :: l =>
      let* event_loop := mgets fst in
      let* event_loop := on_world (add_rule (rule_fd r) (direction r) (callback r) (interest r) (cancel r) event_loop) in
      do* mmodify (fun s => (event_loop, snd s));
      add_rules l
  end.

Definition network_rules : list (Rule K (@Router A)) := [from_host; to_host; to_internet; from_internet].

Definition tick_side (n : Z) (ms : Z) : M W unit :=
  let* i := side n in
  set_side n (mkAsyncNetworkInterface (interface_tick (_interface_of i) ms) (_datagrams_out i)).

(** [while (true)]; [exit_flags] are the values of the flag in each turn. *)
Fixpoint network_loop (exit_flags : list bool) : M (Loop * W) unit :=
  match exit_flags with
  | [] => mthrow OutOfFuel
  | exit_flag :: exit_flags =>
      let* res := wait_next_event 50 in
      match res with
      | Exit => mret tt
      | _ =>
          do* on_world (tick_side host_side 50);
          do* on_world (tick_side internet_side 50);
          if (exit_flag : bool) then mret tt else network_loop exit_flags
      end
  end.

(** The end of the event loop's life. *)
Definition destroy_loop : M (Loop * W) unit :=
  let* rules := mgets (fun s => _rules (fst s)) in
  fold_right (fun r rest => do* on_world (on_proc (destruct_fd (rule_fd r))); rest) (mret tt) rules.

(** An exception ends the thread. *)
Definition network_thread (exit_flags : list bool) : M (Loop * W) unit :=
  mcatch
    (fun s =>
       let '(r, s) := (do* add_rules network_rules; network_loop exit_flags) s in
       let '(_, s) := destroy_loop s in
       (r, s))
    (fun e => match e with OutOfFuel => mthrow OutOfFuel | _ => mret tt end).
End network.

(** ** The program *)

Section program.
Context {RS : Resolver} {K : Type} `{Kernel K} {A : Type} `{AddressOps A}.
Context (ip : string -> result A) (show : A -> string).
Context {R : Type} (rd : R -> Z * R).

Abbreviation Sock := (TCPSpongeSocket (InterfaceAdapter A)).
Context (thread : M (World K Sock) unit) (network : M (Proc K) unit).

(** What the program's own thread does with the socket. *)
Definition lab7_owner (fuel turns : nat) (is_client : bool) (server : A) : M ((EventLoop K Sock * World K Sock) * A) unit :=
  do* (if is_client then lab7_connect fuel server
       else do* lab7_bind show server; lab7_listen_and_accept fuel);
  let* s := mgets (fun s => snd (snd (fst s))) in
  do* in_socket (on_world (on_proc (bidirectional_stream_copy turns (_owner s))));
  in_socket (on_world (wait_until_closed thread)).

(** The socket, with the generator. *)
Definition make_lab7_socket (is_client : bool) (r : R) : M (Proc K) (Sock * A * R) :=
  let* local := mlift (ip (if is_client then "192.168.0.50" else "172.16.0.100")%string) in
  let* next_hop := mlift (ip (if is_client then "192.168.0.1" else "172.16.0.1")%string) in
  let '(ethernet_address, r) := random_host_ethernet_address rd r in
  let* adapter := construct_interface_adapter ethernet_address local next_hop in
  let* sock := mcatch (sponge_socket adapter) (fun e => do* destruct_fd (ia_second adapter); mthrow e) in
  mret (sock, local, r).

(** The owner's exceptions are caught; then the network's thread is joined, and the
    socket is destroyed. *)
Definition lab7_run (fuel turns : nat) (is_client : bool) (sock : Sock) (local : A) : M (Proc K) unit := fun p =>
  let body := (let* server := mlift (ip "172.16.0.100") in
               lab7_owner fuel turns is_client (from_quad (ipv4_numeric server) 1234)) in
  let '(r, x) := body ((mkEventLoop [], (p, sock)), local) in
  match r with
  | Throw OutOfFuel => (Throw OutOfFuel, fst (snd (fst x)))
  | _ =>
      let '(r, y) := on_world (on_proc network) (fst x) in
      let '(_, y) := on_world (destruct_socket thread) y in
      let '(_, y) := destroy_members y in
      let '(_, y) := on_world (on_proc (destruct_fd (ia_second (_datagram_adapter (snd (snd y)))))) y in
      (r, fst (snd y))
  end.

(** Three empty datagrams let the bouncer know the address. *)
Definition program_body (fuel turns : nat) (is_client : bool) (bounce_host bounce_port : string) (r : R) : M (Proc K) unit :=
  let* internet_socket := open_udp in
  scoped internet_socket
    (let* bounce_address := mlift (address_of_name bounce_host bounce_port) in
     do* sendto internet_socket bounce_address [[]];
     do* sendto internet_socket bounce_address [[]];
     do* sendto internet_socket bounce_address [[]];
     let* (_, _, _, r) := mlift (set_up_router ip rd is_client r) in
     let* (sock, local, _) := make_lab7_socket is_client r in
     lab7_run fuel turns is_client sock local).

Definition lab7_main (fuel turns : nat) (argv : list string) (r : R) : M (Proc K) Z :=
  guarded
    (if negb (argc argv =? 4) && negb (argc argv =? 5) then mret 1 else
     let* mode := mlift (argument argv 1) in
     if negb (String.eqb mode "client") && negb (String.eqb mode "server") then mret 1 else
     let* bounce_host := mlift (argument argv 2) in
     let* bounce_port := mlift (argument argv 3) in
     do* program_body fuel turns (String.eqb mode "client") bounce_host bounce_port r;
     mret 0).
End program.

(** ** The network's thread, as the interfaces are *)

Definition is_send (e : syscall * sysret) : Prop :=
  match fst e with sys_writev _ _ | sys_sendmsg _ _ _ => True | _ => False end.

Definition silent (tr : list (syscall * sysret)) : Prop := Forall (fun e => ~ is_send e) tr.

Section silence.
Context {K : Type} `{PosixKernel K} {A : Type} `{AddressOps A}.
Context (frames internet : FileDescriptor) (bounce_address : Address) (host_side internet_side : Z) (debug : bool).

Abbreviation W := (World K (@Router A)).
Abbreviation rules := (network_rules frames internet bounce_address host_side internet_side debug).
Implicit Types (w : W) (r : Rule K (@Router A)).

(** No interface has anything queued. *)
Definition idle (router : @Router A) : Prop :=
  Forall (fun i => _frames_out (_interface_of i) = [] /\ _datagrams_out i = []) (_interfaces router).

Definition has_side (router : @Router A) (n : Z) : Prop := is_Some (_interfaces router !! Z.to_nat n).

Lemma side_is n w : side n w = (match _interfaces (snd w) !! Z.to_nat n with Some i => Ok i | None => Throw OutOfRange end, w).
Proof. done. Qed.

Lemma set_side_same n i w : _interfaces (snd w) !! Z.to_nat n = Some i -> set_side n i w = (Ok tt, w).
Proof. intros Hi. unfold set_side, mmodify. destruct w as [p [l]]. cbn in *. by rewrite list_insert_id. Qed.

Lemma route_idle router : idle router -> route router = Ok router.
Proof.
  intros Hi. rewrite route_spec. destruct router as [l]. do 2 f_equal. unfold idle in Hi. cbn [_interfaces] in *.
  induction l as [|[n q] l IH]; [done|]. apply Forall_cons in Hi as [[_ Hq] Hi]. cbn in *. by rewrite (IH Hi), Hq.
Qed.

(** Whatever frame comes, nothing changes. *)
Lemma handle_frame_same n data w : idle (snd w) -> snd (handle_frame debug n data w) = w.
Proof.
  intros Hi. unfold handle_frame. unfold mbind at 1, mlift at 1. destruct (frame_parse _ _) as [[res frame]|e]; [|done].
  destruct (negb _); [done|]. unfold mbind at 1. assert (snd (print_frame debug frame w) = w) as Hp.
  { unfold print_frame, mbind, mlift, mret. destruct debug; [|done]. by destruct (frame_summary frame). }
  destruct (print_frame debug frame w) as [[[]|e] w1]; cbn [snd] in Hp; subst w1; [|done].
  unfold mbind at 1. rewrite side_is.
  destruct (_interfaces (snd w) !! Z.to_nat n) as [i|] eqn:Es; [|done].
  assert (async_recv_frame i frame = i) as -> by by destruct i. unfold mbind at 1. rewrite (set_side_same n i w Es).
  unfold mbind, mgets, mlift, mmodify. cbn. rewrite (route_idle _ Hi). by destruct w.
Qed.

Lemma tick_side_same n ms w : snd (tick_side n ms w) = w.
Proof.
  unfold tick_side, mbind. rewrite side_is. destruct (_interfaces (snd w) !! Z.to_nat n) as [i|] eqn:Es; [|done].
  unfold interface_tick. replace (mkAsyncNetworkInterface (_interface_of i) (_datagrams_out i)) with i by by destruct i.
  by rewrite (set_side_same n i w Es).
Qed.

Lemma no_frames n w : idle (snd w) -> has_side (snd w) n -> has_frames n w = (Ok false, w).
Proof.
  intros Hi [i Hl]. unfold has_frames, queue_of, mbind. rewrite side_is, Hl. cbn [mret].
  unfold idle in Hi. rewrite Forall_lookup in Hi. destruct (Hi _ _ Hl) as [-> _]. done.
Qed.

(** The numbers of the descriptors, the history before, and the router. *)
Context (number : FileDescriptor -> Z) (h0 : list (syscall * sysret)) (router0 : @Router A).
Context (Hdistinct : frames <> internet) (Hidle : idle router0) (Hsides : has_side router0 host_side /\ has_side router0 internet_side).

Definition shares (d : FileDescriptor) (l : list (Rule K (@Router A))) : nat := length (filter (fun r => rule_fd r = d) l).

Record still (w : W) : Prop := {
  sl_router : snd w = router0;
  sl_trace : exists tr, history (os (fst w)) = h0 ++ tr /\ silent tr
}.

Record netting (l : list (Rule K (@Router A))) (w : W) : Prop := {
  nt_rules : Forall (fun r => r ∈ rules) l;
  nt_cell : forall d, d = frames \/ d = internet ->
    exists c, heap (fst w) !! d = Some c /\ _fd (wrapper c) = number d /\ (shares d l < uses c)%nat;
  nt_still : still w
}.

(** Any exception may end the thread. *)
Abbreviation stops := (fun (_ : exn) (w : W) => still w).
Abbreviation reads_only := (fun r (_ : W) => direction r = In).
Abbreviation always := (fun (_ : Rule K (@Router A)) (_ : W) => True).
Abbreviation num := (fun r : Rule K (@Router A) => number (rule_fd r)).

Lemma still_call w k c (a : sysret) l : ~ is_send (c, a) -> still w ->
  still (mkProc (mkSys k (history (os (fst w)) ++ [(c, a)])) l, snd w).
Proof.
  intros Hc [Hr (tr & Htr & Hs)]. constructor; [done|]. exists (tr ++ [(c, a)]). cbn. rewrite Htr, app_assoc. split; [done|].
  apply Forall_app. split; [done|by constructor].
Qed.

Lemma frame_in_ok l w r n : netting l w -> rule_fd r = frames \/ rule_fd r = internet -> direction r = In ->
  outcome (fun _ w' => netting l w' /\ progressed r w w') stops (frame_in debug (rule_fd r) n w).
Proof.
  intros [Hr Hcell Hst] Hd Hin. set (d := rule_fd r) in *. unfold frame_in. apply outcome_bind. unfold on_proc, zoom.
  destruct (Hcell d Hd) as (c & Hc & Hn & Hu).
  destruct (fd_read_spec d NPOS (fst w) c Hc) as (a & k & Hk & _ & ->).
  destruct (Z.ltb_spec (ret a) 0); [exact (still_call w k (sys_read _ _) a _ (fun x => x) Hst)|]. cbn [outcome].
  destruct (after_read_keeps NPOS (ret a) (wrapper c)) as (K1 & _ & K2). set (w1 := (mkProc _ _, snd w)).
  assert (netting l w1 /\ progressed r w w1) as Hw1.
  { split; [constructor; [done| |exact (still_call w k (sys_read _ _) a _ (fun x => x) Hst)]|].
    - intros d' Hd'. destruct (decide (d' = d)) as [->|Hne].
      + exists (map_wrapper (after_read NPOS (ret a)) c). cbn. rewrite list_lookup_alter_eq, Hc. split_and!; [done|by rewrite <- Hn|done].
      + destruct (Hcell d' Hd') as (c' & Hc' & ?). exists c'. cbn. by rewrite list_lookup_alter_ne.
    - right. exists c, (map_wrapper (after_read NPOS (ret a)) c). unfold rule_cell, counter. fold d. cbn. rewrite list_lookup_alter_eq, Hc, Hin.
      split_and!; [done|done|exact (not_eq_sym K2)]. }
  pose proof (handle_frame_same n (out a) w1) as Hh. rewrite (sl_router _ (nt_still _ _ (proj1 Hw1))) in Hh. specialize (Hh Hidle).
  destruct (handle_frame debug n (out a) w1) as [[[]|e] w2]; cbn [snd] in Hh; subst w2; [done|]. apply (nt_still _ _ (proj1 Hw1)).
Qed.

Lemma rule_cases r : r ∈ rules ->
  (rule_fd r = frames \/ rule_fd r = internet) /\ (forall w, cancel r w = (Ok tt, w)) /\
  (direction r = In /\ interest r = mret true /\ (exists n, callback r = frame_in debug (rule_fd r) n) \/
   direction r = Out /\ exists n, interest r = has_frames n /\ has_side router0 n).
Proof.
  destruct Hsides as [S1 S2]. unfold network_rules. rewrite !elem_of_cons, elem_of_nil. intros [->|[->|[->|[->|[]]]]]; (split; [by auto|]); (split; [done|]).
  - left. split_and!; [done|done|by exists host_side].
  - right. split; [done|]. by exists host_side.
  - right. split; [done|]. by exists internet_side.
  - left. split_and!; [done|done|by exists internet_side].
Qed.

Lemma shares_middle d l1 r l2 : shares d (l1 ++ r :: l2) = (shares d (l1 ++ l2) + if decide (rule_fd r = d) then 1 else 0)%nat.
Proof.
  unfold shares. rewrite !filter_app, filter_cons, !length_app. destruct (decide (rule_fd r = d)); cbn; lia.
Qed.

Lemma network_cancel_ok r l1 l2 w : netting (l1 ++ r :: l2) w -> outcome (fun _ w' => netting (l1 ++ l2) w') stops (cancel_erase r w).
Proof.
  intros [Hr Hcell Hst]. pose proof Hr as Hr'. apply Forall_app in Hr' as [Hr1 [Hin Hr2]%Forall_cons]. destruct (rule_cases r Hin) as (Hd & Hc & _).
  unfold cancel_erase, mbind, on_proc, zoom. rewrite Hc. destruct (Hcell _ Hd) as (c & Hcc & Hn & Hu).
  rewrite shares_middle, decide_True in Hu by done. rewrite (destruct_fd_shared (rule_fd r) (fst w) c Hcc) by lia.
  constructor; [by apply Forall_app| |].
  - intros d' Hd'. destruct (decide (d' = rule_fd r)) as [->|Hne].
    + eexists. cbn. rewrite list_lookup_alter_eq, Hcc. split_and!; [done|done|cbn; lia].
    + destruct (Hcell d' Hd') as (c' & Hc' & Hn' & Hu'). exists c'. cbn. rewrite list_lookup_alter_ne by done. split_and!; [done|done|].
      rewrite shares_middle, decide_False in Hu' by done. lia.
  - destruct Hst as [E1 E2]. by constructor.
Qed.

Lemma network_rule_ok r : r ∈ rules -> rule_ok netting stops num reads_only always r.
Proof.
  intros Hr. destruct (rule_cases r Hr) as (Hd & _ & Hk). constructor.
  - intros l w [_ Hcell _] _. destruct (Hcell _ Hd) as (c & ? & ? & _). by exists c.
  - intros l w [_ _ [Es _]] _ _. destruct Hk as [(Hdir & -> & _)|(_ & n & -> & Hs)]; [by exists true|].
    exists false. split; [|done]. apply no_frames; by rewrite Es.
  - intros l w Hn _ Ha. destruct Hk as [(Hdir & _ & n & ->)|(Hdir & _)]; [by apply frame_in_ok|congruence].
  - intros l1 l2 w Hn _. by apply network_cancel_ok.
Qed.

Lemma network_rules_ok l : Forall (fun r => r ∈ rules) l -> rules_ok netting stops num reads_only always l.
Proof.
  intros Hl. split; [eapply Forall_impl; [exact Hl|]; apply network_rule_ok|].
  assert (forall r r', leaves netting reads_only always r r') as Hlv.
  { intros r r'. constructor; intros l' w _ _ Hp; by match goal with |- outcome _ _ ?x => destruct x as [[[]|e] w'] end. }
  clear Hl. induction l as [|r l IH]; constructor; [|done]. apply Forall_forall. intros; split; apply Hlv.
Qed.

Lemma network_poll_ok : poll_ok netting stops num reads_only always.
Proof.
  constructor; [|by intros r l w fds t _ Ha; destruct (kcall _ _)|by intros; destruct (kcall _ _)|by intros l w [_ _ ?]]. intros l w fds t [Hr Hc Hst]. destruct (kcall _ _) as [a k]. constructor; [done|done|].
  exact (still_call w k (sys_poll fds t) a _ (fun x => x) Hst).
Qed.

Lemma destroy_loop_still (s : EventLoop K (@Router A) * W) : still (snd s) -> still (snd (snd (destroy_loop s))).
Proof.
  assert (forall d s, still (snd s) -> still (snd (snd (on_world (on_proc (destruct_fd d)) s)))) as Hd.
  { intros d [lo [p u]] [Er (tr & Etr & Hs)]. unfold on_world, on_proc, zoom. cbn [fst snd] in *. pose proof (destruct_fd_closes d p) as (tc & Etc & Hc).
    destruct (destruct_fd d p) as [x p']. cbn [fst snd] in *. constructor; [done|]. exists (tr ++ tc). cbn [fst]. rewrite Etc, Etr, app_assoc. split; [done|].
    apply Forall_app. split; [done|]. eapply Forall_impl; [exact Hc|]. intros [c a] [n Hn]. cbn in Hn. subst c. by intros []. }
  unfold destroy_loop, mbind at 1, mgets. generalize (_rules (fst s)). intros rs. revert s. induction rs as [|r rs IH]; intros s Hs; [done|].
  cbn [fold_right]. unfold mbind. pose proof (Hd (rule_fd r) s Hs) as Hs1. destruct (on_world (on_proc (destruct_fd (rule_fd r))) s) as [[[]|e] s1]; [by apply IH|done].
Qed.

Lemma network_loop_silent exit_flags (s : EventLoop K (@Router A) * W) : netting (_rules (fst s)) (snd s) ->
  still (snd (snd (network_loop host_side internet_side exit_flags s))).
Proof.
  revert s. induction exit_flags as [|flag flags IH]; intros s Hn; [apply Hn|]. cbn [network_loop]. unfold mbind at 1.
  pose proof (wait_next_event_ok _ _ _ _ _ 50 (_rules (fst s)) network_poll_ok s) as Hw.
  specialize (Hw (Build_loop_at _ _ _ _ _ _ _ eq_refl (network_rules_ok _ (nt_rules _ _ Hn)) Hn)).
  destruct (wait_next_event 50 s) as [[res|e] s1]; cbn [outcome] in Hw; [|exact Hw]. destruct Hw as (l' & _ & [E _ Hn1]). subst l'.
  assert (forall n, snd (on_world (tick_side n 50) s1) = s1) as Ht.
  { intros n. unfold on_world, zoom. pose proof (tick_side_same n 50 (snd s1)) as Hs. destruct (tick_side n 50 (snd s1)) as [r w'].
    cbn [snd] in *. subst w'. by destruct s1. }
  assert (still (snd (snd ((do* on_world (tick_side host_side 50); do* on_world (tick_side internet_side 50);
    if flag then mret tt else network_loop host_side internet_side flags) s1)))) as Hrest.
  { unfold mbind. pose proof (Ht host_side) as T1. destruct (on_world (tick_side host_side 50) s1) as [[[]|e] s2]; cbn [snd] in T1; subst s2; [|apply Hn1].
    pose proof (Ht internet_side) as T2. destruct (on_world (tick_side internet_side 50) s1) as [[[]|e] s2]; cbn [snd] in T2; subst s2; [|apply Hn1].
    destruct flag; [apply Hn1|by apply IH]. }
  destruct res; [exact Hrest|exact Hrest|apply Hn1].
Qed.
End silence.

Section thread.
Context {K : Type} `{PosixKernel K} {A : Type} `{AddressOps A}.
Implicit Types (s : EventLoop K (@Router A) * World K (@Router A)).

(** Each rule holds its descriptor once more. *)
Lemma add_rules_spec l s : Forall (fun r => is_Some (heap (fst (snd s)) !! rule_fd r)) l ->
  exists p, add_rules l s = (Ok tt, (mkEventLoop (_rules (fst s) ++ l), (p, snd (snd s)))) /\ os p = os (fst (snd s)) /\
    forall d c, heap (fst (snd s)) !! d = Some c -> heap p !! d = Some (mkCell (wrapper c) (uses c + shares d l)).
Proof.
  revert s. induction l as [|r l IH]; intros [[rs] [p u]] Hl; cbn [fst snd _rules] in *.
  { exists p. rewrite app_nil_r. split_and!; [done|done|]. intros d [w n] Hd. rewrite Hd. cbn. by rewrite Nat.add_0_r. }
  apply Forall_cons in Hl as [[c Hc] Hl]. cbn [add_rules]. unfold mbind at 1, mgets at 1. cbn [fst].
  unfold mbind at 1, on_world, add_rule, zoom, mbind, on_proc, zoom, duplicate, mbind, deref. cbn [fst snd]. rewrite Hc. cbn [update mmodify mret].
  set (p1 := mkProc _ _). cbn [fst snd _rules].
  destruct (IH (mkEventLoop (rs ++ [mkRule (rule_fd r) (direction r) (callback r) (interest r) (cancel r)]), (p1, u))) as (p2 & E & Eo & Hh).
  { eapply Forall_impl; [exact Hl|]. intros r' [c' Hc']. cbn. destruct (decide (rule_fd r' = rule_fd r)) as [->|Hne].
    - rewrite list_lookup_alter_eq, Hc. by eexists.
    - rewrite list_lookup_alter_ne by done. by eexists. }
  exists p2. cbn [fst snd _rules] in *. rewrite <- app_assoc in E. destruct r as [rfd rdir rcb rint rcan]. cbn [app rule_fd direction callback interest cancel] in *.
  split_and!; [exact E|exact Eo|]. intros d c' Hd. destruct (decide (rfd = d)) as [->|Hne].
  - rewrite (Hh d (mkCell (wrapper c') (uses c' + 1))) by (cbn; by rewrite list_lookup_alter_eq, Hd). cbn [wrapper uses]. do 2 f_equal.
    unfold shares. rewrite filter_cons, decide_True by done. cbn [length]. lia.
  - rewrite (Hh d c') by (cbn; by rewrite list_lookup_alter_ne). unfold shares. by rewrite filter_cons, decide_False.
Qed.

(** The router of the program. *)
Lemma set_up_router_idle (ip : string -> result A) {R : Type} (rd : R -> Z * R) is_client r router host_side internet_side r' :
  set_up_router ip rd is_client r = Ok (router, host_side, internet_side, r') ->
  idle router /\ has_side router host_side /\ has_side router internet_side.
Proof.
  assert (forall address l (r : R) n (x : @Router A * R), add_router_interface ip rd address (mkRouter l, r) = Ok (n, x) ->
    exists e a, fst x = mkRouter (l ++ [mkAsyncNetworkInterface (construct_interface e a) []]) /\ n = u64 (size (_interfaces (fst x)) - 1)) as Hadd.
  { intros address l r1 n x. unfold add_router_interface. cbn [fst snd]. destruct (random_router_ethernet_address rd r1) as [e r2].
    destruct (ip address) as [a|]; [|done]. cbn [rbind add_interface]. intros [= <- <-]. by exists e, a. }
  assert (forall prefix len h n (rt rt' : @Router A), add_router_route ip prefix len h n rt = Ok rt' -> rt' = rt) as Hroute.
  { intros prefix len h n rt rt'. unfold add_router_route. destruct (ip prefix); [|done]. cbn [rbind].
    destruct h as [h|]; [destruct (ip h); [|done]|]; cbn [rbind]; by intros [= <-]. }
  assert (forall a1 a2 p1 n1 h1 p2 n2 h2 p3 n3 h3, (let! (hs, s) := add_router_interface ip rd a1 (mkRouter [], r) in
    let! (is_, s) := add_router_interface ip rd a2 s in
    let! rt := add_router_route ip p1 n1 h1 hs (fst s) in let! rt := add_router_route ip p2 n2 h2 is_ rt in
    let! rt := add_router_route ip p3 n3 h3 is_ rt in Ok (rt, hs, is_, snd s)) = Ok (router, host_side, internet_side, r') ->
    idle router /\ has_side router host_side /\ has_side router internet_side) as Hall.
  { intros a1 a2 p1 n1 h1 p2 n2 h2 p3 n3 h3 E. apply rbind_ok_inv in E as ([hs [rt1 r1]] & E1 & E). apply rbind_ok_inv in E as ([is_ x2] & E2 & E).
    apply rbind_ok_inv in E as (rt3 & E3 & E). apply rbind_ok_inv in E as (rt4 & E4 & E). apply rbind_ok_inv in E as (rt5 & E5 & [= <- <- <- <-]).
    apply Hadd in E1 as (e1 & b1 & Ex1 & ->). cbn in Ex1. subst rt1. apply Hadd in E2 as (e2 & b2 & Ex2 & ->).
    apply Hroute in E3, E4, E5. subst. rewrite Ex2. unfold idle, has_side. cbn. split_and!; [by repeat constructor|by eexists|by eexists]. }
  destruct is_client; apply Hall.
Qed.
End thread.

(** As the interfaces and the router are in this repository, the network's thread of
    [lab7] forwards nothing: on every kernel, whatever frames come from the host or the
    Internet and for as long as it runs, it never writes to the host's socket and never
    sends to the bouncer, and the router is as it was set up. *)
Theorem lab7_network_silent {K : Type} `{PosixKernel K} {A : Type} `{AddressOps A} ip {R : Type} (rd : R -> Z * R) is_client r
    router host_side internet_side r' frames internet bounce_address debug exit_flags (p : Proc K) cf ci :
  set_up_router (A := A) ip rd is_client r = Ok (router, host_side, internet_side, r') ->
  frames <> internet -> heap p !! frames = Some cf -> (0 < uses cf)%nat -> heap p !! internet = Some ci -> (0 < uses ci)%nat ->
  let s' := snd (network_thread frames internet bounce_address host_side internet_side debug exit_flags (mkEventLoop [], (p, router))) in
  snd (snd s') = router /\ exists tr, history (os (fst (snd s'))) = history (os p) ++ tr /\ silent tr.
Proof.
  intros Hset Hne Hf Huf Hi Hui s'. destruct (set_up_router_idle ip rd is_client r router host_side internet_side r' Hset) as (Hidle & Hh & Hin).
  set (number := fun d : FileDescriptor => match heap p !! d with Some c => _fd (wrapper c) | None => 0 end).
  enough (still (history (os p)) router (snd s')) as [E1 E2] by done. unfold s', network_thread, mcatch. clear s'. unfold mbind at 1.
  destruct (add_rules_spec (network_rules frames internet bounce_address host_side internet_side debug) (mkEventLoop [], (p, router)))
    as (p1 & -> & Eo & Hc); [by repeat constructor; cbn; eexists|]. cbn [fst snd _rules app] in *.
  pose proof (network_loop_silent frames internet bounce_address host_side internet_side debug number (history (os p)) router Hne Hidle (conj Hh Hin)
    exit_flags (mkEventLoop (network_rules frames internet bounce_address host_side internet_side debug), (p1, router))) as Hs.
  assert (still (history (os p)) router (snd (snd (network_loop host_side internet_side exit_flags
    (mkEventLoop (network_rules frames internet bounce_address host_side internet_side debug), (p1, router)))))) as Hst.
  { apply Hs. constructor; [apply Forall_forall; intros x Hx; exact Hx| |].
    - intros d Hd. assert (exists c, heap p !! d = Some c /\ (0 < uses c)%nat) as (c & Ec & Hu) by (destruct Hd as [->| ->]; eauto).
      eexists. cbn [fst]. split; [by apply Hc|]. split; [unfold number; by rewrite Ec|]. cbn [uses fst _rules]. lia.
    - constructor; [done|]. exists []. cbn. rewrite app_nil_r, Eo. split; [done|constructor]. }
  destruct (network_loop _ _ _ _) as [x s2]. cbn [snd] in Hst. apply destroy_loop_still in Hst. destruct (destroy_loop s2) as [y s3]. cbn [snd] in Hst.
  destruct x as [[]|e]; [exact Hst|]. destruct e; exact Hst.
Qed.

(** Whatever the arguments, the program ends with one of its two exit codes, if it ends. *)
Lemma lab7_status {RS : Resolver} {K : Type} `{Kernel K} {A : Type} `{AddressOps A} ip show {R : Type} (rd : R -> Z * R) thread network fuel turns argv r :
  ends_well (lab7_main (K := K) (A := A) ip show rd thread network fuel turns argv r).
Proof. unfold lab7_main. status_tac. Qed.
